(* ===== verification/_CoqProject ===== *)
-Q . S2P
Prelude.v
Arith.v
MathHelper.v
Frame.v
Ledger.v
SortedVec.v
AssetRegistry.v
XcmHelper.v
XcmTraits.v
EvmData.v
EvmAbi.v
EvmXcm.v
Precompile.v
Erc20Balances.v
Erc20BalancesProps.v
EvmDemo.v
Erc20Assets.v
Erc20AssetsProps.v
RuntimePrecompiles.v
AssetsDemo.v
Amm.v
AmmProps.v
Streaming.v
StreamingProps.v
RateModel.v
Loans.v
LoansDemo.v
LoansProps.v
LoansInterest.v
LoansPositions.v
LoansAccess.v
Traits.v
Provides.v
RuntimeDemo.v
Crowdloans.v
CrowdloansProps.v
CrowdloansOps.v
CrowdloansSafety.v
CrowdloansDemo.v
LiquidTypes.v
LiquidPool.v
LiquidStaking.v
LiquidProps.v
LiquidOps.v
LiquidSafety.v
LiquidUsers.v
LiquidDemo.v
Farming.v
FarmingProps.v
Bridge.v
BridgeProps.v
CurrencyAdapter.v
EmergencyShutdown.v
EvmSignatures.v
RuntimeCalls.v
RuntimeErc20.v
Prices.v
Router.v
RouterProps.v
RouterSearch.v
Stableswap.v
StableswapProps.v
