(* ===== verification/Prelude.v ===== *)
(** * Parallel Finance: a verification library for its runtime pallets

    The repository is a Substrate parachain: a node, four runtimes and a set of pallets that
    hold the program's own logic.  Users' calls reach a pallet with an origin; a call either
    succeeds and changes the storage, or fails and leaves it alone.  The pallets move money
    through one fungible ledger ([T::Assets], the currency adapter over the native currency
    and the assets pallet), read a clock, block numbers and prices, and call each other
    through traits: the router trades on the exchanges, prices ask staking and lending for
    exchange rates, crowdloans create payment streams and lend, liquid staking borrows and
    lends, and both talk to the relay chain through the XCM helper.  The pallets that carry
    this logic are modelled function by function:

    - src/pallets/amm, stableswap, router: constant-product and stable pools, routes over them;
    - src/pallets/loans: lending markets with vouchers (pTokens), interest, collateral,
      liquidations and rewards;
    - src/pallets/streaming, farming: deposits released over time, staking for rewards;
    - src/pallets/crowdloans, liquid-staking, xcm-helper: contributions to parachain auctions
      and staking on the relay chain, and the messages that carry them there;
    - src/pallets/bridge: transfers from other chains, agreed on by relayers;
    - src/pallets/prices, currency-adapter, emergency-shutdown: the price feed, the ledger the
      others use, the filter that can switch pallets off;
    - src/pallets/asset-registry, traits/src/xcm.rs: assets of other chains, and what their
      messages do here;
    - src/precompiles, src/pallets/evm-signatures: ERC-20 contracts for the currencies, and
      calls signed with Ethereum keys; the runtimes' precompiles and call filters.

    ** How code becomes definitions

    A function that reads is a function to [Res] ([Ok], [Err] with the source's error, or
    [Panic]); a function that writes is a state transformer [M State].  The notation
    [x ← e; k] is the source's [?].  The definitions keep the names and the order of effects
    of the source; a call that fails returns no state, as FRAME's transactional storage layer
    discards what a failed call has written.  The runtimes are built with overflow checks, so
    a plain [+], [-] or [*] that leaves its type is a [Panic], and the [checked_] and
    [saturating_] operations are those of the prelude.  Storage maps are [gmap]s: a map with
    a default is read with [default], and a [try_mutate] writes its entry even if the closure
    leaves it as it was.  Events are appended to a field of the state.  Log messages, weights
    and the fee information of a call's result are left out.

    In every pallet file, [Config] holds what the source's [Config] trait, the hashed account
    ids and encodings provide, [State] the storage with the ledger, clock and events, [Call]
    and [dispatch] the extrinsics.  The theorems about all reachable states are by induction
    on steps of the chain: a call by any origin but the pallet's own account, an answer of the
    relay chain, a hook of a block, a call by another pallet, and whatever the rest of the
    chain does to the clock, the prices and the ledger without taking money out of the
    pallet's account.  The predicate [call_ok] of a file says which calls a run has; where it
    leaves out one that the code accepts (governance naming the pallet's own account as the one
    who funds a pool or pays rewards, a native minimum deposit below the existential deposit),
    the theorem says so, and an example shows what such a call does to exchanges and farms.

    ** Files

    - Prelude: this file.  Machine integers, the result and state monads with their inversion
      lemmas and tactics ([minv], [by_eval], [preserve]), loops, sums over maps.
    - Arith: [FixedU128], [Permill] (sp_arithmetic) and [BigUint] (num_bigint) are not part of
      the repository.  Their operations are the classes [SpArithmetic] and [NumBigint], which
      the models take as arguments; [SpArithmeticLaws] and [NumBigintLaws] state the
      documented results, and reference implementations satisfy them.  MathHelper:
      src/support/src/math_helper/f64.rs on the Standard Library's binary64.
    - Frame: origins, errors, the ledger as the class [Fungibles] with [FungiblesLaws], the
      order in which a storage map is iterated as [StorageIter].  Ledger: a ledger in finite
      maps that satisfies the laws.
    - XcmHelper (src/pallets/xcm-helper/src/lib.rs, src/pallets/traits/src/ump.rs): the
      messages to the relay chain, over the XCM pallet as the class [PalletXcm].
    - Amm (src/pallets/amm/src/lib.rs and [Pool] of src/pallets/traits/src/lib.rs), AmmProps.
    - Streaming (src/pallets/streaming/src/lib.rs, types.rs), StreamingProps.
    - RateModel (src/pallets/loans/src/rate_model.rs), with its theorems.
    - Loans (src/pallets/loans/src/lib.rs, interest.rs, farming.rs, ptoken.rs, types.rs);
      LoansDemo, a run whose states are the inputs of the instances; LoansProps (invariants),
      LoansInterest (interest and exchange rate), LoansPositions (what each operation does to
      a position), LoansAccess (who may change a position, rewards).
    - Traits (src/pallets/traits/src/lib.rs, loans.rs): the traits crowdloans and liquid
      staking call, as classes with laws.  Provides: the pallets implement them, and a runtime
      of the XCM helper, streaming and lending over one ledger implements them together.
      RuntimeDemo: such a runtime on a concrete ledger.
    - Crowdloans (src/pallets/crowdloans/src/lib.rs, types.rs); CrowdloansProps (the tries of
      contributions, the invariant), CrowdloansOps (each operation), CrowdloansSafety (all
      runs), CrowdloansDemo (a run and the instances).
    - LiquidTypes (src/pallets/liquid-staking/src/types.rs, distribution.rs), LiquidPool (its
      theorems), LiquidStaking (src/pallets/liquid-staking/src/lib.rs), LiquidProps and
      LiquidOps (the invariant and each operation), LiquidSafety (all runs), LiquidUsers (what
      users get), LiquidDemo (a run and the instances).
    - Farming (src/pallets/farming/src/lib.rs, types.rs), FarmingProps.  Bridge
      (src/pallets/bridge/src/lib.rs, types.rs), BridgeProps.
    - CurrencyAdapter, EmergencyShutdown, Prices: the pallets of these names, with their
      theorems.
    - Router (src/pallets/router/src/lib.rs), RouterProps (trades along a route), RouterSearch
      (the search for routes).  Stableswap (src/pallets/stableswap/src/lib.rs, helpers.rs),
      StableswapProps.
    - SortedVec (Rust's binary search), AssetRegistry (src/pallets/asset-registry/src/lib.rs),
      XcmTraits (src/pallets/traits/src/xcm.rs), each with its theorems.
    - EvmData (src/precompiles/utils/src/data.rs) and EvmAbi (what is written is read back);
      EvmXcm (data/xcm.rs of the same crate); Precompile (lib.rs and the selectors of the
      macro crate).  The handle of the EVM and the hash are classes.
    - Erc20Balances (src/precompiles/balances-erc20/src), Erc20BalancesProps; Erc20Assets
      (src/precompiles/assets-erc20/src), Erc20AssetsProps; RuntimePrecompiles
      (src/runtime/common/src/precompiles.rs), the two on one storage.  EvmDemo and
      AssetsDemo: a concrete EVM and chain for the instances.
    - EvmSignatures (src/pallets/evm-signatures/src/lib.rs, ethereum.rs), with its theorems.
    - RuntimeCalls: the call filters and proxy types of src/runtime/parallel/src/lib.rs.
      RuntimeErc20: the contracts of assets behind those filters.

    ** What the theorems show

    - Exchanges.  Quotes never lower the product of the reserves; a swap changes one pool by
      the reported amounts; liquidity cannot be cycled for profit; in every reachable state
      the pallet's account covers the reserves, for stable pools too, whose invariant is exact
      on balanced pools.  [get_amount_in] may be one unit short, against its comment.  The
      stable pool swaps its reserves around and loses money in three ways.
    - Router.  A trade delivers what it promises; the search ends, finds every route and the
      best one.
    - Streams.  The parties' balances are always defined, split what the stream holds, and
      the recipient's only grows; withdrawals and cancellations pay exactly that; in every
      reachable state the pallet's account covers all running streams.
    - Rate models.  An accepted model has a bounded, monotone rate at every utilization;
      suppliers earn no more than borrowers pay.  A kink at zero is accepted and has no rate.
    - Lending.  Recorded supply is the sum of the vouchers in every reachable state; interest
      never lowers debts, reserves or the exchange rate; minting and redeeming are exact up to
      one unit; loans are collateralised when they are granted; repaying and liquidating
      settle debts exactly; only the owner or a liquidation changes a position; reward indices
      stay ordered.  A loan whose value rounds to zero needs no collateral.  Three more behaviours
      look unintended: pToken transfers and liquidations
      settle the rewards of the wrong market or account, and an emptied market cannot be
      supplied again by those who supplied it at a higher rate.
    - Farming.  The pallet's accounts cover all stakes and rewards; claims and redemptions pay
      exactly what has accrued and cooled down.
    - Bridge.  Nothing is materialized twice or without the votes of a quorum of accounts that
      were relayers when they voted; the registry of intervals is a set of nonces.
    - Ledger and prices.  The currency adapter satisfies the laws every other file assumes of
      the ledger; locked native currency stays; prices of special assets are found unless the
      mapping of foreign assets has a cycle, which the pallet does not prevent.
    - Messages and traits.  A request reaches the relay chain with a fresh query number and
      the call it is about; the pallets together satisfy the laws of the traits.
    - Crowdloans.  The vaults' sums are the sums of the contributions and are held by the
      pallet; ctokens are backed by contributions; a vault that has ended stays so and
      refuses claims; migrations finish; a contribution is claimed once.  A late answer can turn a won vault into a lost
      one, and forced claims ask for no phase.
    - Liquid staking.  Reserves and stakes are held by the pallet and locks are the open
      requests; the copies of the relay chain's ledgers add up; the exchange rate never falls;
      matching settles an era; rebonding takes the newest chunks; distributions stay within
      their bounds; claims pay what has matured, once; staking and unstaking makes no profit.
      The average distribution can stop rebonding, the other one can stop bonding early.
    - Assets of other chains.  A type that resolves to an asset is the one the asset
      resolves to; registering a type twice takes it from the first asset.  A local location
      stands for the same asset as its absolute form.  What a trader
      takes from a payment is what it refunds and its revenue, though it counts the weight
      twice; a deposit credits exactly what a message names.
    - EVM data.  Call data of any shape reads back as it was written, locations too unless
      they name a network by fork or Ethereum chain.
    - ERC-20 contracts.  Every call is one step of an abstract token; nobody's balance is
      spent without an allowance of the owner, a permit signed by the owner counts once, and
      a call through any precompile acts as its caller or the signer of a permit.  The
      contract of the native currency ignores function modifiers, those of assets truncate
      amounts, and behind the runtime's call filter their approvals always fail.
    - Signed calls and filters.  A call signed with an Ethereum key runs once; what a call
      filter or a proxy type lets through is what it lists, and proxy types that should not
      overlap do not.

    ** Bounds and hypotheses

    Loops run over lists (paths, markets, storage iteration) and recursion is structural,
    with these exceptions, each with the theorem that its bound is enough: the search for
    routes ([Router.search], the number of tokens), the price of an asset whose price is that
    of another ([Prices.get_special_asset_price], the number of mappings) and the iterations
    of stable pools, which the source itself ends after 255 rounds.  Numbers are unbounded
    [Z]s whose range ([is_u128], [is_permill]) is a hypothesis where a value comes from
    outside, and is part of the invariants where the pallet stores it.  The laws of the ledger
    allow for its dust handling: an account that falls below the minimum balance may be closed
    and its rest lost or credited to the receiver ([dust_free] names the payments where this
    does not happen), so what an account receives is stated as a lower bound, or exactly for
    currencies with a minimum balance of at most one.  The solvency theorems assume such a
    minimum for all currencies but the native one, or speak of such currencies only (farming,
    stable pools).
    Theorems on crowdloans and liquid staking assume that the currencies and accounts of the
    pallets differ ([crowd_setup], [staking_setup]).  That the copies of staking ledgers add up
    assumes that the validation data handed to the chain carries storage roots of the relay
    chain, and that storage proofs against those roots show ledgers that add up
    ([relay_data_ok], [relay_ledgers_balanced]); nothing is assumed of other roots.

    ** Not modelled

    Weights (generated), benchmarks, mocks and tests; one-off storage migrations; RPC and the
    node (I/O around calls into the modelled code); the rest of the runtimes, which
    instantiates pallets and whose constants the [Config] records abstract over; the XCM,
    balances and asset pallets of Substrate, the EVM and its Ethereum precompiles, which are
    classes here. *)

From Stdlib Require Export ZArith Lia.
From stdpp Require Export base tactics numbers list gmap fin_maps option.
#[global] Open Scope Z_scope.

(** ** Machine integers

    A [w]-bit unsigned integer is a [Z] in [0, 2^w).  The pallets are built with
    [overflow-checks = true] (src/Cargo.toml), so a plain [+], [-] or [*] that leaves
    the range panics; the [checked_] and [saturating_] families are Rust's. *)

Definition u16_max : Z := 2 ^ 16 - 1.
Definition u32_max : Z := 2 ^ 32 - 1.
Definition u64_max : Z := 2 ^ 64 - 1.
Definition u128_max : Z := 2 ^ 128 - 1.

Definition is_u32 (x : Z) : Prop := 0 <= x <= u32_max.
Definition is_u64 (x : Z) : Prop := 0 <= x <= u64_max.
Definition is_u128 (x : Z) : Prop := 0 <= x <= u128_max.

Definition checked_add_to (top a b : Z) : option Z :=
  if a + b <=? top then Some (a + b) else None.
Definition checked_sub (a b : Z) : option Z :=
  if b <=? a then Some (a - b) else None.
Definition checked_mul_to (top a b : Z) : option Z :=
  if a * b <=? top then Some (a * b) else None.
Definition checked_div (a b : Z) : option Z :=
  if b =? 0 then None else Some (a / b).

Definition checked_add : Z -> Z -> option Z := checked_add_to u128_max.
Definition checked_mul : Z -> Z -> option Z := checked_mul_to u128_max.

Definition saturating_sub (a b : Z) : Z := Z.max 0 (a - b).
Definition saturating_add (a b : Z) : Z := Z.min u128_max (a + b).

(** ** Results

    A dispatchable returns [Ok] or an error; a Rust panic (an index out of range, an
    [unwrap] of nothing, an arithmetic overflow) is a third outcome. *)

Inductive result (E A : Type) : Type :=
| Ok (a : A)
| Err (e : E)
| Panic.
Arguments Ok {E A} a.
Arguments Err {E A} e.
Arguments Panic {E A}.

#[global] Instance result_ret {E} : MRet (result E) := fun A a => Ok a.
#[global] Instance result_bind {E} : MBind (result E) := fun A B f m =>
  match m with Ok a => f a | Err e => Err e | Panic => Panic end.
#[global] Instance result_fmap {E} : FMap (result E) := fun A B f m =>
  match m with Ok a => Ok (f a) | Err e => Err e | Panic => Panic end.

(** [o.ok_or(e)] *)
Definition ok_or {E A} (o : option A) (e : E) : result E A :=
  match o with Some a => Ok a | None => Err e end.
(** [ensure!(b, e)] *)
Definition ensure {E} (b : bool) (e : E) : result E unit :=
  if b then Ok tt else Err e.
(** [o.unwrap()], and operators that panic out of range *)
Definition or_panic {E A} (o : option A) : result E A :=
  match o with Some a => Ok a | None => Panic end.
(** [r.is_ok()] *)
Definition is_ok {E A} (r : result E A) : bool :=
  match r with Ok _ => true | _ => false end.
(** [r.map_err(|_| e)] *)
Definition map_err {E A} (r : result E A) (e : E) : result E A :=
  match r with Err _ => Err e | _ => r end.

(** ** Storage-passing computations

    A pallet function that writes storage takes the state and returns the value with the
    new state.  An [Err] or a [Panic] carries no state: every extrinsic of the pallets is
    [#[transactional]], so storage is rolled back when it fails. *)

Definition M (S E A : Type) : Type := S -> result E (A * S).

#[global] Instance M_ret {S E} : MRet (M S E) := fun A a s => Ok (a, s).
#[global] Instance M_bind {S E} : MBind (M S E) := fun A B f m s =>
  match m s with Ok (a, s') => f a s' | Err e => Err e | Panic => Panic end.

Definition get {S E} : M S E S := fun s => Ok (s, s).
Definition put {S E} (s' : S) : M S E unit := fun _ => Ok (tt, s').
Definition modify {S E} (f : S -> S) : M S E unit := fun s => Ok (tt, f s).
Definition gets {S E A} (f : S -> A) : M S E A := fun s => Ok (f s, s).
(** [r?] for an [r] that does not touch the storage *)
Definition lift {S E A} (r : result E A) : M S E A := fun s =>
  match r with Ok a => Ok (a, s) | Err e => Err e | Panic => Panic end.
(** [f()?] for an [f] that reads the storage only *)
Definition reads {S E A} (f : S -> result E A) : M S E A := fun s =>
  match f s with Ok a => Ok (a, s) | Err e => Err e | Panic => Panic end.

(** A [for x in l { body }] loop that threads an accumulator through fallible bodies. *)
Fixpoint fold_res {E A B} (f : B -> A -> result E B) (l : list A) (acc : B) : result E B :=
  match l with
  | [] => Ok acc
  | x :: l' => acc' ← f acc x; fold_res f l' acc'
  end.
(** The same for a body that writes the storage. *)
Fixpoint for_each {S E A} (f : A -> M S E unit) (l : list A) : M S E unit :=
  match l with
  | [] => mret tt
  | x :: l' => _ ← f x; for_each f l'
  end.

(** Sum of a measure over a list, and over the values of a finite map. *)
Definition sum_list_Z {A} (f : A -> Z) (l : list A) : Z := foldr (fun x n => f x + n) 0 l.
Definition map_sum {K V} `{Countable K} (f : K -> V -> Z) (m : gmap K V) : Z :=
  map_fold (fun k v n => f k v + n) 0 m.

(** ** Inversion lemmas *)

Section inversion.
Context {S E : Type}.

Lemma result_bind_Ok {A B} (m : result E A) (f : A -> result E B) b :
  m ≫= f = Ok b <-> exists a, m = Ok a /\ f a = Ok b.
Proof. destruct m; cbv; naive_solver. Qed.

Lemma M_bind_Ok {A B} (m : M S E A) (f : A -> M S E B) s b s' :
  (m ≫= f) s = Ok (b, s') <-> exists a s1, m s = Ok (a, s1) /\ f a s1 = Ok (b, s').
Proof.
  unfold mbind, M_bind. destruct (m s) as [[a s1]| |]; naive_solver.
Qed.

Lemma M_bind_run {A B} (m : M S E A) (f : A -> M S E B) s a s1 :
  m s = Ok (a, s1) -> (m ≫= f) s = f a s1.
Proof. unfold mbind, M_bind. by intros ->. Qed.

Lemma lift_Ok {A} (r : result E A) (s : S) a s' :
  lift r s = Ok (a, s') <-> r = Ok a /\ s' = s.
Proof. unfold lift. destruct r; naive_solver. Qed.

Lemma reads_Ok {A} (f : S -> result E A) (s : S) a s' :
  reads f s = Ok (a, s') <-> f s = Ok a /\ s' = s.
Proof. unfold reads. destruct (f s); naive_solver. Qed.

Lemma ok_or_Ok {A} (o : option A) (e : E) a : ok_or o e = Ok a <-> o = Some a.
Proof. destruct o; naive_solver. Qed.

Lemma or_panic_Ok {A} (o : option A) a : or_panic (E := E) o = Ok a <-> o = Some a.
Proof. destruct o; naive_solver. Qed.

Lemma ensure_Ok (b : bool) (e : E) u : ensure b e = Ok u <-> b = true.
Proof. destruct b, u; naive_solver. Qed.

Lemma map_err_Ok {A} (r : result E A) e a : map_err r e = Ok a <-> r = Ok a.
Proof. destruct r; naive_solver. Qed.
End inversion.

Lemma fold_res_inv {E A B} (P : B -> Prop) (f : B -> A -> result E B) l acc r :
  (forall b x b', P b -> f b x = Ok b' -> P b') -> P acc -> fold_res f l acc = Ok r -> P r.
Proof.
  intros Hf. revert acc. induction l as [|x l IH]; intros acc Hacc H; simpl in H.
  - by injection H as <-.
  - apply result_bind_Ok in H as (b & Hb & H). eauto.
Qed.

(** ** Preservation

    [preserves P m]: a successful run of [m] from a state with [P] ends in a state with [P].
    The lemmas follow the shape of a computation, so [preserve] walks through a whole
    extrinsic; what is left to prove is what its writes do to [P]. *)

Definition preserves {S E A} (P : S -> Prop) (m : M S E A) : Prop :=
  forall s a s', P s -> m s = Ok (a, s') -> P s'.

Section preserves.
Context {S E : Type} (P : S -> Prop).

Lemma preserves_bind {A B} (m : M S E A) (f : A -> M S E B) :
  preserves P m -> (forall a, preserves P (f a)) -> preserves P (m ≫= f).
Proof. intros Hm Hf s b s' Hs (a & s1 & H1 & H2)%M_bind_Ok. by eapply Hf, H2; eapply Hm, H1. Qed.

Lemma preserves_bind_lift {A B} (r : result E A) (f : A -> M S E B) :
  (forall a, r = Ok a -> preserves P (f a)) -> preserves P (lift r ≫= f).
Proof. intros Hf s b s' Hs (a & s1 & [Hr ->]%lift_Ok & H2)%M_bind_Ok. by eapply Hf. Qed.

Lemma preserves_run {A} (m : M S E A) s a s' :
  P s -> m s = Ok (a, s') -> preserves P m -> P s'.
Proof. intros Hs H Hm. exact (Hm s a s' Hs H). Qed.

Lemma preserves_mret {A} (a : A) : preserves P (mret (M := M S E) a).
Proof. intros s b s' Hs H. by injection H as -> ->. Qed.

Lemma preserves_get : preserves P (get (E := E)).
Proof. intros s b s' Hs H. by injection H as -> ->. Qed.

Lemma preserves_lift {A} (r : result E A) : preserves P (lift r).
Proof. by intros s b s' Hs [_ ->]%lift_Ok. Qed.

Lemma preserves_reads {A} (f : S -> result E A) : preserves P (reads f).
Proof. by intros s b s' Hs [_ ->]%reads_Ok. Qed.

Lemma preserves_modify (f : S -> S) :
  (forall s, P s -> P (f s)) -> preserves P (modify (E := E) f).
Proof. intros Hf s b s' Hs H. injection H as <- <-. auto. Qed.

Lemma preserves_for_each {A} (f : A -> M S E unit) l :
  (forall x, preserves P (f x)) -> preserves P (for_each f l).
Proof.
  intros Hf. induction l as [|x l IH]; simpl; [apply preserves_mret |].
  apply preserves_bind; auto.
Qed.
End preserves.

(** [leads P m Q]: the same, from [P] to [Q]. *)
Definition leads {S E A} (P : S -> Prop) (m : M S E A) (Q : S -> Prop) : Prop :=
  forall s a s', P s -> m s = Ok (a, s') -> Q s'.

Lemma leads_bind {S E A B} (P Q : S -> Prop) (m : M S E A) (f : A -> M S E B) :
  preserves P m -> (forall a, leads P (f a) Q) -> leads P (m ≫= f) Q.
Proof. intros Hm Hf s b s' Hs (a & s1 & H1 & H2)%M_bind_Ok. by eapply Hf, H2; eapply Hm, H1. Qed.

Lemma leads_weaken {S E A} (P Q : S -> Prop) (m : M S E A) :
  preserves P m -> (forall s, P s -> Q s) -> leads P m Q.
Proof. intros Hm HQ s a s' Hs H. eapply HQ, Hm; eauto. Qed.

Lemma checked_add_to_Some top a b c :
  checked_add_to top a b = Some c <-> c = a + b /\ a + b <= top.
Proof. unfold checked_add_to. destruct (Z.leb_spec (a + b) top); naive_solver lia. Qed.

Lemma checked_add_Some a b c :
  checked_add a b = Some c <-> c = a + b /\ a + b <= u128_max.
Proof. apply checked_add_to_Some. Qed.

Lemma checked_sub_Some a b c : checked_sub a b = Some c <-> c = a - b /\ b <= a.
Proof. unfold checked_sub. destruct (Z.leb_spec b a); naive_solver lia. Qed.

Lemma checked_mul_Some a b c :
  checked_mul a b = Some c <-> c = a * b /\ a * b <= u128_max.
Proof.
  unfold checked_mul, checked_mul_to. destruct (Z.leb_spec (a * b) u128_max); naive_solver lia.
Qed.

Lemma checked_div_Some a b c : checked_div a b = Some c <-> c = a / b /\ b <> 0.
Proof. unfold checked_div. destruct (Z.eqb_spec b 0); naive_solver lia. Qed.

(** The same as equations, for computing forward. *)
Lemma checked_add_ok a b : a + b <= u128_max -> checked_add a b = Some (a + b).
Proof. intros. by apply checked_add_Some. Qed.
Lemma checked_sub_ok a b : b <= a -> checked_sub a b = Some (a - b).
Proof. intros. by apply checked_sub_Some. Qed.
Lemma checked_sub_none a b : a < b -> checked_sub a b = None.
Proof. intros. unfold checked_sub. destruct (Z.leb_spec b a); [lia | done]. Qed.
Lemma checked_mul_ok a b : a * b <= u128_max -> checked_mul a b = Some (a * b).
Proof. intros. by apply checked_mul_Some. Qed.
Lemma checked_div_ok a b : b <> 0 -> checked_div a b = Some (a / b).
Proof. intros. by apply checked_div_Some. Qed.
Lemma checked_div_zero a : checked_div a 0 = None.
Proof. done. Qed.

#[global] Opaque checked_add checked_sub checked_mul checked_div checked_add_to.

(** ** Sums over finite maps *)

Section map_sum.
Context {K V : Type} `{Countable K}.
Implicit Types (m : gmap K V) (f : K -> V -> Z).

Lemma map_sum_empty f : map_sum f (∅ : gmap K V) = 0.
Proof. apply map_fold_empty. Qed.

Lemma map_sum_insert_new f m k v :
  m !! k = None -> map_sum f (<[k := v]> m) = f k v + map_sum f m.
Proof. intros Hk. unfold map_sum. apply (map_fold_insert_L (fun k v n => f k v + n)); [intros; lia | done]. Qed.

Lemma map_sum_delete f m k v :
  m !! k = Some v -> map_sum f m = f k v + map_sum f (delete k m).
Proof. intros Hk. unfold map_sum. apply (map_fold_delete_L (fun k v n => f k v + n)); [intros; lia | done]. Qed.

Lemma map_sum_insert f m k v :
  map_sum f (<[k := v]> m) = map_sum f m + f k v - from_option (f k) 0 (m !! k).
Proof.
  destruct (m !! k) as [v0|] eqn:Hk; simpl.
  - rewrite (map_sum_delete f m k v0 Hk), <- insert_delete_eq.
    rewrite map_sum_insert_new by apply lookup_delete_eq. lia.
  - rewrite map_sum_insert_new by done. lia.
Qed.

Lemma map_sum_nonneg f m :
  (forall k v, m !! k = Some v -> 0 <= f k v) -> 0 <= map_sum f m.
Proof.
  induction m as [|k v m Hk IH] using map_ind; intros Hf.
  - by rewrite map_sum_empty.
  - rewrite map_sum_insert_new by done.
    assert (0 <= f k v) by (apply Hf, lookup_insert_eq).
    assert (0 <= map_sum f m); [apply IH | lia].
    intros k' v' Hk'. apply Hf. rewrite lookup_insert_ne; [done | congruence].
Qed.

Lemma map_sum_lookup_le f m k v :
  (forall k v, m !! k = Some v -> 0 <= f k v) -> m !! k = Some v -> f k v <= map_sum f m.
Proof.
  intros Hf Hk. rewrite (map_sum_delete f m k v Hk).
  assert (0 <= map_sum f (delete k m)); [| lia].
  apply map_sum_nonneg. intros k' v' [_ Hd]%lookup_delete_Some. eauto.
Qed.

Lemma map_sum_ext f g m :
  (forall k v, m !! k = Some v -> f k v = g k v) -> map_sum f m = map_sum g m.
Proof.
  induction m as [|k v m Hk IH] using map_ind; intros Hf.
  - by rewrite !map_sum_empty.
  - rewrite !map_sum_insert_new by done. f_equal; [apply Hf, lookup_insert_eq |].
    apply IH. intros k' v' Hk'. apply Hf. rewrite lookup_insert_ne; [done | congruence].
Qed.
End map_sum.

Lemma map_sum_put {K V} `{Countable K} (f : K -> V -> Z) (m : gmap K V) k v d :
  f k d = 0 -> map_sum f (<[k := v]> m) = map_sum f m + f k v - f k (default d (m !! k)).
Proof.
  intros Hd. rewrite map_sum_insert. destruct (m !! k) as [v0|]; simpl; [done | lia].
Qed.

Lemma map_sum_zero {K V} `{Countable K} (f : K -> V -> Z) (m : gmap K V) :
  (forall k v, m !! k = Some v -> f k v = 0) -> map_sum f m = 0.
Proof.
  intros Hf. rewrite (map_sum_ext f (fun _ _ => 0) m Hf). clear Hf.
  induction m as [|k v m Hk IH] using map_ind; [done |]. by rewrite map_sum_insert_new, IH.
Qed.

Lemma map_sum_add {K V} `{Countable K} (f g : K -> V -> Z) (m : gmap K V) :
  map_sum (fun k v => f k v + g k v) m = map_sum f m + map_sum g m.
Proof.
  induction m as [|k v m Hk IH] using map_ind; [done |].
  rewrite !map_sum_insert_new by done. lia.
Qed.

Lemma map_sum_le {K V} `{Countable K} (f g : K -> V -> Z) (m : gmap K V) :
  (forall k v, m !! k = Some v -> f k v <= g k v) -> map_sum f m <= map_sum g m.
Proof.
  induction m as [|k v m Hk IH] using map_ind; intros Hf; [done |].
  rewrite !map_sum_insert_new by done. assert (f k v <= g k v) by (apply Hf, lookup_insert_eq).
  assert (map_sum f m <= map_sum g m); [apply IH | lia].
  intros k' v' Hk'. apply Hf. rewrite lookup_insert_ne; [done | congruence].
Qed.

Lemma map_sum_single {K V} `{Countable K} (f : K -> V -> Z) (m : gmap K V) k v :
  m !! k = Some v -> map_sum (fun k' v' => if decide (k' = k) then f k' v' else 0) m = f k v.
Proof.
  intros Hk. rewrite (map_sum_delete _ m k v Hk), decide_True by done.
  rewrite map_sum_zero; [lia |]. intros k' v' [Hne _]%lookup_delete_Some. by rewrite decide_False.
Qed.

Lemma map_sum_scale {K V} `{Countable K} c (f : K -> V -> Z) (m : gmap K V) :
  map_sum (fun k v => c * f k v) m = c * map_sum f m.
Proof.
  induction m as [|k v m Hk IH] using map_ind; [by rewrite !map_sum_empty, Z.mul_0_r |].
  rewrite !map_sum_insert_new by done. lia.
Qed.

Lemma sum_list_app {A} (f : A -> Z) l1 l2 :
  sum_list_Z f (l1 ++ l2) = sum_list_Z f l1 + sum_list_Z f l2.
Proof. induction l1 as [|x l1 IH]; simpl; [done |]. unfold sum_list_Z in *. simpl. lia. Qed.

Lemma sum_list_nonneg {A} (f : A -> Z) l : Forall (fun x => 0 <= f x) l -> 0 <= sum_list_Z f l.
Proof. induction 1; unfold sum_list_Z in *; simpl; lia. Qed.

Lemma sum_list_filter {A} (f : A -> Z) (b : A -> bool) l :
  sum_list_Z f l = sum_list_Z f (List.filter b l) + sum_list_Z f (List.filter (fun x => negb (b x)) l).
Proof.
  induction l as [|x l IH]; [done |]. unfold sum_list_Z in *. simpl. destruct (b x); simpl; lia.
Qed.

(** ** Automation

    [minv] unfolds a successful run into the successes of its steps.  A component adds its own
    inversions by redefining [minv_hook]. *)

Create HintDb pallets discriminated.

(** Walks through a computation; [tac] closes what its writes leave. *)
Ltac preserve tac :=
  repeat first
  [ solve [tac] | apply preserves_bind_lift; intros ? ? | apply preserves_bind; [| intros ?] | apply preserves_lift | apply preserves_reads
  | apply preserves_get | apply preserves_mret | apply preserves_for_each; intros ?
  | progress (cbv zeta beta) | case_match ].

Ltac minv_hook := fail.
Ltac minv_step :=
  match goal with
  | H : Ok _ = Ok _ |- _ => symmetry in H; injection H as H; subst
  | H : Some _ = Some _ |- _ => injection H as H; subst
  | H : (_, _) = (_, _) |- _ => injection H as ? ?; subst
  | H : Err _ = Ok _ |- _ => discriminate H
  | H : Panic = Ok _ |- _ => discriminate H
  | H : None = Some _ |- _ => discriminate H
  | H : mbind (M := M _ _) _ _ _ = Ok (_, _) |- _ =>
      apply M_bind_Ok in H as (? & ? & ? & ?)
  | H : mbind (M := result _) _ _ = Ok _ |- _ =>
      apply result_bind_Ok in H as (? & ? & ?)
  | H : mret _ _ = Ok _ |- _ => unfold mret, M_ret in H
  | H : get _ = Ok _ |- _ => unfold get in H
  | H : put _ _ = Ok _ |- _ => unfold put in H
  | H : modify _ _ = Ok _ |- _ => unfold modify in H
  | H : gets _ _ = Ok _ |- _ => unfold gets in H
  | H : lift _ _ = Ok (_, _) |- _ => apply lift_Ok in H as [? ->]
  | H : reads _ _ = Ok (_, _) |- _ => apply reads_Ok in H as [? ->]
  | H : ok_or _ _ = Ok _ |- _ => apply ok_or_Ok in H
  | H : or_panic _ = Ok _ |- _ => apply or_panic_Ok in H
  | H : ensure _ _ = Ok _ |- _ => apply ensure_Ok in H
  | H : map_err _ _ = Ok _ |- _ => apply map_err_Ok in H
  | H : checked_add _ _ = Some _ |- _ => apply checked_add_Some in H as [-> ?]
  | H : checked_sub _ _ = Some _ |- _ => apply checked_sub_Some in H as [-> ?]
  | H : checked_mul _ _ = Some _ |- _ => apply checked_mul_Some in H as [-> ?]
  | H : checked_div _ _ = Some _ |- _ => apply checked_div_Some in H as [-> ?]
  | H : mbind (M := option) _ _ = Some _ |- _ => apply bind_Some in H as (? & ? & ?)
  | H : andb _ _ = true |- _ => apply andb_true_iff in H as [? ?]
  | H : negb _ = true |- _ => apply negb_true_iff in H
  | x : unit |- _ => destruct x
  | p : (_ * _)%type |- _ => destruct p
  | _ => minv_hook
  end.
Ltac minv := repeat (minv_step; simpl in *).

(** Boolean comparisons to propositions. *)
Ltac zbool :=
  repeat match goal with
  | H : (_ <=? _) = true |- _ => apply Z.leb_le in H
  | H : (_ <=? _) = false |- _ => apply Z.leb_gt in H
  | H : (_ <? _) = true |- _ => apply Z.ltb_lt in H
  | H : (_ <? _) = false |- _ => apply Z.ltb_ge in H
  | H : (_ =? _) = true |- _ => apply Z.eqb_eq in H
  | H : (_ =? _) = false |- _ => apply Z.eqb_neq in H
  | H : (_ >=? _) = _ |- _ => rewrite Z.geb_leb in H
  | H : (_ >? _) = _ |- _ => rewrite Z.gtb_ltb in H
  end.

(** [update_field eta s p v]: the record [s] with the field [p] (a projection applied to [s])
    replaced by [v], where [eta s] rebuilds [s] from its projections. *)
Ltac update_field eta s p v :=
  let b := eval hnf in (eta s) in
  let b := eval pattern p in b in
  match b with ?f _ => let r := eval cbv beta in (f v) in exact r end.

(** Closed goals by evaluation: ranges of literals, and equalities. *)
Ltac by_range := repeat split; vm_compute; congruence.
Ltac by_eval := first [vm_compute; reflexivity | by_range | lia].
