(* ===== verification/Arith.v ===== *)
(** * Arithmetic the pallets take from their libraries

    [FixedU128] and [Permill] come from sp_arithmetic and [BigUint] from num_bigint; neither
    is part of the repository.  Their operations are the fields of the classes
    [SpArithmetic] and [NumBigint], which the pallets' definitions take as arguments; the
    documented behaviour the theorems use is stated by the classes of laws
    [SpArithmeticLaws] and [NumBigintLaws].  The last section gives one implementation of
    each class that satisfies its laws.

    A [FixedU128] (the pallets' [Rate], [Price], [Liquidity] and [Shortfall]) is represented
    by its inner [u128], so [from_inner] and [into_inner] are the identity; a [Permill] (the
    pallets' [Ratio]) by its parts per million; a [BigUint] by its value. *)

From S2P Require Import Prelude.

(** [FixedU128::DIV]: the inner value of one *)
Definition FIXED_DIV : Z := 10 ^ 18.
(** [Permill::ACCURACY]: the parts of one *)
Definition PERMILL_ONE : Z := 10 ^ 6.

Definition is_permill (p : Z) : Prop := 0 <= p <= PERMILL_ONE.

(** The quotient rounded up, the quotient if it fits a [u128], and clamping to [u128]. *)
Definition div_ceil (a b : Z) : Z := (a + b - 1) / b.
Definition fit_u128 (x : Z) : option Z := if x <=? u128_max then Some x else None.
Definition clamp_u128 (x : Z) : Z := Z.min u128_max x.

Class SpArithmetic := {
  (* FixedU128: CheckedAdd, CheckedSub, CheckedMul, CheckedDiv, operators, FixedPointNumber *)
  fixed_checked_add : Z -> Z -> option Z;
  fixed_checked_sub : Z -> Z -> option Z;
  fixed_checked_mul : Z -> Z -> option Z;
  fixed_checked_div : Z -> Z -> option Z;
  fixed_add : Z -> Z -> option Z;  (* a + b, None when it panics *)
  fixed_sub : Z -> Z -> option Z;  (* a - b, None when it panics *)
  fixed_checked_mul_int : Z -> Z -> option Z;
  fixed_saturating_mul : Z -> Z -> Z;
  fixed_saturating_mul_int : Z -> Z -> Z;
  fixed_saturating_pow : Z -> nat -> Z;
  fixed_reciprocal : Z -> option Z;
  fixed_saturating_from_integer : Z -> Z;
  fixed_checked_from_rational : Z -> Z -> option Z;
  fixed_saturating_from_rational : Z -> Z -> option Z;  (* None when it panics *)
  (* Permill *)
  permill_from_rational : Z -> Z -> Z;
  permill_checked_sub : Z -> Z -> option Z;
  permill_saturating_sub : Z -> Z -> Z;
  permill_mul_floor : Z -> Z -> Z;
  permill_mul_ceil : Z -> Z -> Z;
  permill_saturating_reciprocal_mul_ceil : Z -> Z -> Z;
  permill_saturating_reciprocal_mul_floor : Z -> Z -> Z;
  permill_into_fixed : Z -> Z;
  permill_from_percent : Z -> Z;
  permill_checked_add : Z -> Z -> option Z;
  permill_div : Z -> Z -> Z;  (* p / q *)
}.

Class NumBigint := {
  big_checked_add : Z -> Z -> option Z;
  big_checked_sub : Z -> Z -> option Z;
  big_checked_mul : Z -> Z -> option Z;
  big_checked_div : Z -> Z -> option Z;
  big_sqrt : Z -> Z;
  big_to_u128 : Z -> option Z;
}.

(** FixedU128 computes on inner values and rounds down; [checked_] operations return
    nothing when the result does not fit, [saturating_] ones clamp it.  The [_type] laws are
    the types of the results. *)
Class SpArithmeticLaws (SA : SpArithmetic) : Prop := {
  fixed_checked_add_eq a b :
    is_u128 a -> is_u128 b -> fixed_checked_add a b = fit_u128 (a + b);
  fixed_checked_sub_eq a b :
    is_u128 a -> is_u128 b -> fixed_checked_sub a b = checked_sub a b;
  fixed_checked_mul_eq a b :
    is_u128 a -> is_u128 b -> fixed_checked_mul a b = fit_u128 (a * b / FIXED_DIV);
  fixed_checked_div_eq a b :
    is_u128 a -> is_u128 b ->
    fixed_checked_div a b = if b =? 0 then None else fit_u128 (a * FIXED_DIV / b);
  fixed_add_eq a b :
    is_u128 a -> is_u128 b -> fixed_add a b = fit_u128 (a + b);
  fixed_sub_eq a b :
    is_u128 a -> is_u128 b -> fixed_sub a b = checked_sub a b;
  fixed_checked_mul_int_eq a n :
    is_u128 a -> is_u128 n -> fixed_checked_mul_int a n = fit_u128 (a * n / FIXED_DIV);
  fixed_saturating_mul_eq a b :
    is_u128 a -> is_u128 b -> fixed_saturating_mul a b = clamp_u128 (a * b / FIXED_DIV);
  fixed_saturating_mul_int_eq a n :
    is_u128 a -> is_u128 n -> fixed_saturating_mul_int a n = clamp_u128 (a * n / FIXED_DIV);
  fixed_saturating_pow_range a n : is_u128 a -> is_u128 (fixed_saturating_pow a n);
  fixed_saturating_pow_unit a n : 0 <= a <= FIXED_DIV -> fixed_saturating_pow a n <= FIXED_DIV;
  fixed_saturating_pow_mono a b n :
    is_u128 b -> 0 <= a <= b -> fixed_saturating_pow a n <= fixed_saturating_pow b n;
  fixed_reciprocal_eq a :
    is_u128 a ->
    fixed_reciprocal a = if a =? 0 then None else fit_u128 (FIXED_DIV * FIXED_DIV / a);
  fixed_saturating_from_integer_eq n :
    is_u128 n -> fixed_saturating_from_integer n = clamp_u128 (n * FIXED_DIV);
  fixed_checked_from_rational_eq n d :
    is_u128 n -> is_u128 d ->
    fixed_checked_from_rational n d = if d =? 0 then None else fit_u128 (n * FIXED_DIV / d);
  fixed_saturating_from_rational_eq n d :
    is_u128 n -> is_u128 d ->
    fixed_saturating_from_rational n d =
      if d =? 0 then None else Some (clamp_u128 (n * FIXED_DIV / d));
  permill_from_rational_eq p q :
    0 <= p <= q -> 0 < q -> permill_from_rational p q = p * PERMILL_ONE / q;
  permill_from_rational_gt p q :
    0 <= q < p -> permill_from_rational p q = PERMILL_ONE;
  permill_checked_sub_eq p q :
    is_permill p -> is_permill q -> permill_checked_sub p q = checked_sub p q;
  permill_saturating_sub_eq p q :
    is_permill p -> is_permill q -> permill_saturating_sub p q = saturating_sub p q;
  permill_mul_floor_eq p x :
    is_permill p -> is_u128 x -> permill_mul_floor p x = p * x / PERMILL_ONE;
  permill_mul_ceil_eq p x :
    is_permill p -> is_u128 x -> permill_mul_ceil p x = div_ceil (p * x) PERMILL_ONE;
  permill_saturating_reciprocal_mul_ceil_eq p x :
    is_permill p -> 0 < p -> is_u128 x ->
    permill_saturating_reciprocal_mul_ceil p x = clamp_u128 (div_ceil (x * PERMILL_ONE) p);
  permill_saturating_reciprocal_mul_floor_eq p x :
    is_permill p -> 0 < p -> is_u128 x ->
    permill_saturating_reciprocal_mul_floor p x = clamp_u128 (x * PERMILL_ONE / p);
  permill_into_fixed_eq p :
    is_permill p -> permill_into_fixed p = p * (FIXED_DIV / PERMILL_ONE);
  permill_from_percent_eq x : 0 <= x -> permill_from_percent x = Z.min 100 x * (PERMILL_ONE / 100);
  permill_checked_add_eq p q :
    is_permill p -> is_permill q ->
    permill_checked_add p q = if p + q <=? PERMILL_ONE then Some (p + q) else None;
  permill_div_eq p q : is_permill p -> is_permill q -> permill_div p q = permill_from_rational p q;
  fixed_checked_add_type a b c : fixed_checked_add a b = Some c -> is_u128 c;
  fixed_checked_sub_type a b c : fixed_checked_sub a b = Some c -> is_u128 c;
  fixed_checked_mul_type a b c : fixed_checked_mul a b = Some c -> is_u128 c;
  fixed_checked_div_type a b c : fixed_checked_div a b = Some c -> is_u128 c;
  fixed_checked_mul_int_type a b c : fixed_checked_mul_int a b = Some c -> is_u128 c;
  fixed_checked_from_rational_type a b c : fixed_checked_from_rational a b = Some c -> is_u128 c;
  fixed_reciprocal_type a c : fixed_reciprocal a = Some c -> is_u128 c;
  fixed_saturating_mul_type a b : is_u128 (fixed_saturating_mul a b);
  permill_from_rational_type a b : is_permill (permill_from_rational a b);
  permill_mul_floor_type p x : is_u128 (permill_mul_floor p x);
  permill_mul_ceil_type p x : is_u128 (permill_mul_ceil p x);
}.

(** BigUint is unbounded; its subtraction is [None] below zero, its division by zero. *)
Class NumBigintLaws (NB : NumBigint) : Prop := {
  big_checked_add_eq a b : 0 <= a -> 0 <= b -> big_checked_add a b = Some (a + b);
  big_checked_sub_eq a b : 0 <= a -> 0 <= b -> big_checked_sub a b = checked_sub a b;
  big_checked_mul_eq a b : 0 <= a -> 0 <= b -> big_checked_mul a b = Some (a * b);
  big_checked_div_eq a b : 0 <= a -> 0 <= b -> big_checked_div a b = checked_div a b;
  big_sqrt_eq a : 0 <= a -> big_sqrt a = Z.sqrt a;
  big_to_u128_eq a : 0 <= a -> big_to_u128 a = fit_u128 a;
  big_to_u128_type a b : big_to_u128 a = Some b -> is_u128 b;
}.

(** ** An implementation of the two classes *)

Fixpoint pow_fixed (mul : Z -> Z -> Z) (x : Z) (n : nat) : Z :=
  match n with O => FIXED_DIV | S n' => mul x (pow_fixed mul x n') end.

(** values of the result types *)
Definition typed (o : option Z) : option Z :=
  x ← o; if (0 <=? x) && (x <=? u128_max) then Some x else None.
Definition to_u128 (x : Z) : Z := Z.max 0 (Z.min u128_max x).
Definition to_permill (x : Z) : Z := Z.max 0 (Z.min PERMILL_ONE x).

Definition sp_reference : SpArithmetic := {|
  fixed_checked_add a b := typed (fit_u128 (a + b));
  fixed_checked_sub a b := typed (checked_sub a b);
  fixed_checked_mul a b := typed (fit_u128 (a * b / FIXED_DIV));
  fixed_checked_div a b := if b =? 0 then None else typed (fit_u128 (a * FIXED_DIV / b));
  fixed_add a b := fit_u128 (a + b);
  fixed_sub a b := checked_sub a b;
  fixed_checked_mul_int a n := typed (fit_u128 (a * n / FIXED_DIV));
  fixed_saturating_mul a b := to_u128 (a * b / FIXED_DIV);
  fixed_saturating_mul_int a n := to_u128 (a * n / FIXED_DIV);
  fixed_saturating_pow := pow_fixed (fun a b => clamp_u128 (a * b / FIXED_DIV));
  fixed_reciprocal a := if a =? 0 then None else typed (fit_u128 (FIXED_DIV * FIXED_DIV / a));
  fixed_saturating_from_integer n := clamp_u128 (n * FIXED_DIV);
  fixed_checked_from_rational n d :=
    if d =? 0 then None else typed (fit_u128 (n * FIXED_DIV / d));
  fixed_saturating_from_rational n d :=
    if d =? 0 then None else Some (clamp_u128 (n * FIXED_DIV / d));
  permill_from_rational p q := to_permill (if p <=? q then p * PERMILL_ONE / q else PERMILL_ONE);
  permill_checked_sub p q := checked_sub p q;
  permill_saturating_sub p q := saturating_sub p q;
  permill_mul_floor p x := to_u128 (p * x / PERMILL_ONE);
  permill_mul_ceil p x := to_u128 (div_ceil (p * x) PERMILL_ONE);
  permill_saturating_reciprocal_mul_ceil p x := clamp_u128 (div_ceil (x * PERMILL_ONE) p);
  permill_saturating_reciprocal_mul_floor p x := clamp_u128 (x * PERMILL_ONE / p);
  permill_into_fixed p := p * (FIXED_DIV / PERMILL_ONE);
  permill_from_percent x := Z.min 100 x * (PERMILL_ONE / 100);
  permill_checked_add p q := if p + q <=? PERMILL_ONE then Some (p + q) else None;
  permill_div p q := to_permill (if p <=? q then p * PERMILL_ONE / q else PERMILL_ONE);
|}.

Definition big_reference : NumBigint := {|
  big_checked_add a b := Some (a + b);
  big_checked_sub a b := checked_sub a b;
  big_checked_mul a b := Some (a * b);
  big_checked_div a b := checked_div a b;
  big_sqrt a := Z.sqrt a;
  big_to_u128 a := typed (fit_u128 a);
|}.

Lemma fit_u128_Some x y : fit_u128 x = Some y <-> y = x /\ x <= u128_max.
Proof. unfold fit_u128. destruct (Z.leb_spec x u128_max); naive_solver lia. Qed.

Lemma fit_u128_ok x : x <= u128_max -> fit_u128 x = Some x.
Proof. intros. by apply fit_u128_Some. Qed.

Lemma typed_fit x : 0 <= x -> typed (fit_u128 x) = fit_u128 x.
Proof.
  intros. unfold typed, fit_u128. destruct (Z.leb_spec x u128_max); simpl; [| done].
  by rewrite !(proj2 (Z.leb_le _ _)) by lia.
Qed.

Lemma typed_Some o x : typed o = Some x -> is_u128 x.
Proof. destruct o as [y|]; simpl; [| done]. case_match eqn:H; intros; minv. zbool. done. Qed.

Lemma typed_sub a b : is_u128 a -> is_u128 b -> typed (checked_sub a b) = checked_sub a b.
Proof.
  unfold is_u128. intros. destruct (Z.le_gt_cases b a).
  - rewrite checked_sub_ok by done. simpl. by rewrite !(proj2 (Z.leb_le _ _)) by lia.
  - by rewrite checked_sub_none.
Qed.

Lemma pow_fixed_facts (a b : Z) (n : nat) :
  let mul := fun x y => clamp_u128 (x * y / FIXED_DIV) in
  0 <= a <= b -> is_u128 b ->
  is_u128 (pow_fixed mul a n) /\ pow_fixed mul a n <= pow_fixed mul b n /\
  (a <= FIXED_DIV -> pow_fixed mul a n <= FIXED_DIV).
Proof.
  simpl. intros [Ha Hab] [_ Hb]. induction n as [|n ([IH0 IH1] & IH2 & IH3)]; simpl.
  { unfold is_u128, FIXED_DIV, u128_max. lia. }
  set (x := pow_fixed _ a n) in *. set (y := pow_fixed _ b n) in *.
  assert (0 < FIXED_DIV) as Hd by (unfold FIXED_DIV; lia).
  assert (0 <= a * x / FIXED_DIV) by (apply Z.div_pos; nia).
  assert (a * x / FIXED_DIV <= b * y / FIXED_DIV) by (apply Z.div_le_mono; nia).
  split; [unfold clamp_u128, is_u128, u128_max; lia |]. split; [unfold clamp_u128; lia |].
  intros Hu. specialize (IH3 Hu). assert (a * x / FIXED_DIV <= FIXED_DIV).
  { apply Z.div_le_upper_bound; nia. }
  unfold clamp_u128. lia.
Qed.

Lemma div_nonneg a b : 0 <= a -> 0 <= b -> 0 <= a / b.
Proof.
  intros. destruct (Z.eq_dec b 0) as [->|]; [by rewrite Zdiv_0_r | apply Z.div_pos; lia].
Qed.

Lemma share_le p x : is_permill p -> 0 <= x -> p * x / PERMILL_ONE <= x.
Proof.
  unfold is_permill, PERMILL_ONE. intros. apply Z.div_le_upper_bound; nia.
Qed.

(** A share [p] of [x], rounded up, is at most [x]. *)
Lemma permill_share_le p x : is_permill p -> 0 <= x -> div_ceil (p * x) PERMILL_ONE <= x.
Proof.
  unfold is_permill, PERMILL_ONE, div_ceil. intros Hp Hx.
  assert ((p * x + 10 ^ 6 - 1) / 10 ^ 6 < x + 1); [| lia]. apply Z.div_lt_upper_bound; nia.
Qed.

Lemma to_u128_range x : is_u128 (to_u128 x).
Proof. unfold to_u128, is_u128, u128_max. lia. Qed.

Lemma to_u128_id x : is_u128 x -> to_u128 x = x.
Proof. unfold to_u128, is_u128. lia. Qed.

Lemma sp_reference_laws : SpArithmeticLaws sp_reference.
Proof.
  assert (0 < FIXED_DIV /\ 0 < PERMILL_ONE) as [Hd Hp] by (by split).
  split; simpl; try reflexivity; try (intros; apply to_u128_range);
    try (intros; by eapply typed_Some); try (intros; by apply typed_sub);
    try (intros; case_match; [done | by eapply typed_Some]);
    try (intros; try (case_match; [done |]); apply typed_fit;
         unfold is_u128 in *; first [apply div_nonneg; nia | lia]).
  - intros a b [] []. assert (0 <= a * b / FIXED_DIV) by (apply div_nonneg; nia).
    unfold to_u128, clamp_u128. lia.
  - intros a b [] []. assert (0 <= a * b / FIXED_DIV) by (apply div_nonneg; nia).
    unfold to_u128, clamp_u128. lia.
  - intros a n []. by apply (pow_fixed_facts a a).
  - intros a n Ha. apply (pow_fixed_facts a a); unfold is_u128, u128_max, FIXED_DIV in *; lia.
  - intros a b n Hb Ha. by apply (pow_fixed_facts a b).
  - intros p q Hpq Hq. destruct (Z.leb_spec p q); [| lia]. unfold to_permill.
    assert (0 <= p * PERMILL_ONE / q) by (apply div_nonneg; nia).
    assert (p * PERMILL_ONE / q <= PERMILL_ONE) by (apply Z.div_le_upper_bound; nia). lia.
  - intros p q Hpq. destruct (Z.leb_spec p q); [lia | done].
  - intros p x Hpp [Hx Hx']. apply to_u128_id. pose proof (share_le p x Hpp Hx).
    unfold is_permill in Hpp. assert (0 <= p * x / PERMILL_ONE) by (apply div_nonneg; nia).
    unfold is_u128. lia.
  - intros p x Hpp [Hx Hx']. apply to_u128_id. pose proof (permill_share_le p x Hpp Hx).
    unfold is_permill in Hpp.
    assert (0 <= div_ceil (p * x) PERMILL_ONE) by (apply div_nonneg; nia). unfold is_u128. lia.
  - intros a b. unfold is_permill, to_permill. lia.
Qed.

Lemma big_reference_laws : NumBigintLaws big_reference.
Proof. split; simpl; try done; [intros; by apply typed_fit | intros; by eapply typed_Some]. Qed.

(** ** Consequences *)

Lemma div_ceil_bounds a b : 0 < b -> a <= div_ceil a b * b < a + b.
Proof.
  intros Hb. unfold div_ceil.
  pose proof (Z.mod_pos_bound (a + b - 1) b Hb).
  pose proof (Z.div_mod (a + b - 1) b ltac:(lia)). nia.
Qed.

Lemma div_floor_bounds a b : 0 < b -> a - b < a / b * b <= a.
Proof.
  intros Hb. pose proof (Z.mod_pos_bound a b Hb).
  pose proof (Z.div_mod a b ltac:(lia)). nia.
Qed.

Lemma div_ceil_nonneg a b : 0 <= a -> 0 < b -> 0 <= div_ceil a b.
Proof. intros. unfold div_ceil. apply Z.div_pos; lia. Qed.

Lemma clamp_u128_range x : 0 <= x -> is_u128 (clamp_u128 x).
Proof. unfold clamp_u128, is_u128, u128_max. lia. Qed.

Lemma clamp_u128_mono x y : x <= y -> clamp_u128 x <= clamp_u128 y.
Proof. unfold clamp_u128. lia. Qed.

Lemma u128_max_pos : 0 < u128_max.
Proof. unfold u128_max. lia. Qed.

#[export] Hint Resolve div_ceil_nonneg clamp_u128_range u128_max_pos : pallets.
