(* ===== verification/MathHelper.v ===== *)
(** * Floating-point powers (src/support/src/math_helper/f64.rs)

    The price of a crowdloan's derivative is discounted with floating-point numbers.  An [f64] is
    a binary64 number of the Standard Library's specification of IEEE 754; the power function of
    substrate_fixed is not part of the repository and is the class [FixedPow]. *)

From Stdlib Require Import SpecFloat.
From S2P Require Import Prelude Arith.

(** ** [f64] *)

Abbreviation f64 := spec_float (only parsing).
(** [n as f64] *)
Definition f64_of_int (n : Z) : f64 := binary_normalize 53 1024 n 0 false.
Definition f64_add (a b : f64) : f64 := SFadd 53 1024 a b.
Definition f64_sub (a b : f64) : f64 := SFsub 53 1024 a b.
Definition f64_mul (a b : f64) : f64 := SFmul 53 1024 a b.
Definition f64_div (a b : f64) : f64 := SFdiv 53 1024 a b.
(** [x as u128]: truncates, saturates, and takes what is not a number for zero *)
Definition f64_to_u128 (x : f64) : Z :=
  match x with
  | S754_zero _ | S754_nan => 0
  | S754_infinity negative => if negative then 0 else u128_max
  | S754_finite negative m e =>
      if negative then 0
      else Z.min u128_max (if 0 <=? e then Z.pos m * 2 ^ e else Z.pos m / 2 ^ (- e))
  end.

(** [fpow(I32F32::from_num(rate), I32F32::from_num(exp))] as an [f64]; [None] when a conversion
    panics or the power does not exist *)
Class FixedPow := fpow : f64 -> f64 -> option f64.

Module MathHelper.

Definition fixed_u128_to_float (rate : Z) : f64 :=
  f64_div (f64_of_int rate) (f64_of_int FIXED_DIV).

Definition fixed_u128_from_float (rate : f64) : Z :=
  f64_to_u128 (f64_mul rate (f64_of_int FIXED_DIV)).

Definition power_float {FP : FixedPow} (rate exp : f64) : result unit f64 :=
  or_panic (fpow rate exp).
End MathHelper.
Import MathHelper.

(** One, one half and 1.45 survive the conversions; a rate in between is met up to the precision
    of an [f64]. *)
Example float_round_trips :
  fixed_u128_from_float (fixed_u128_to_float FIXED_DIV) = FIXED_DIV /\
  fixed_u128_from_float (fixed_u128_to_float (FIXED_DIV / 2)) = FIXED_DIV / 2 /\
  fixed_u128_from_float (fixed_u128_to_float 1450000000000000000) = 1450000000000000000 /\
  fixed_u128_from_float (fixed_u128_to_float 1753333333000000123) = 1753333333000000000.
Proof. vm_compute. repeat split. Qed.
