(* ===== verification/Frame.v ===== *)
(** * What the pallets take from FRAME

    Origins, dispatch errors, the fungible ledger behind [T::Assets] and the iteration order
    of a storage map.  [pallet_balances], [pallet_assets] and the storage layer are not part
    of the repository: the ledger is the class [Fungibles] of operations, with its documented
    behaviour in [FungiblesLaws]; iteration is the class [StorageIter].  The errors of the
    modelled pallets are the source's enums, gathered by [DispatchError] the way the
    runtime's [ModuleError] gathers them.  Ledger.v holds a ledger kept in
    finite maps that satisfies the laws. *)

From stdpp Require Import strings.
From S2P Require Import Prelude Arith.
#[global] Open Scope Z_scope.

(** src/primitives/src/lib.rs: [Balance = u128], [CurrencyId = u32], [AccountId] (a 32-byte
    public key) and [Timestamp = u64], all as integers. *)
Abbreviation Balance := Z (only parsing).
Abbreviation CurrencyId := Z (only parsing).
Abbreviation AccountId := Z (only parsing).
Abbreviation Timestamp := Z (only parsing).
Abbreviation BlockNumber := Z (only parsing).
Abbreviation Rate := Z (only parsing).
Abbreviation Ratio := Z (only parsing).
Abbreviation FixedU128 := Z (only parsing).

(** ** Errors *)

Inductive ArithmeticError := Underflow | Overflow | DivisionByZero.
Inductive TokenError := NoFunds | WouldDie | BelowMinimum | CannotCreate | UnknownAsset | Frozen.

(** src/pallets/amm/src/lib.rs *)
Inductive AmmError :=
| PoolDoesNotExist | InsufficientLiquidity | NotAnIdealPrice | PoolAlreadyExists
| InsufficientAmountOut | InsufficientAmountIn | InsufficientSupplyOut | IdenticalAssets
| LpTokenAlreadyExists | ConversionToU128Failed | ProtocolFeeReceiverNotSet.

(** src/pallets/streaming/src/lib.rs *)
Inductive StreamingError :=
| RecipientIsAlsoSender | InvalidAssetId | DepositLowerThanMinimum
| StartTimeBeforeCurrentTime | EndTimeBeforeStartTime | InvalidDuration
| InvalidRatePerSecond | InvalidStreamId | NotTheSender | NotTheRecipient
| CannotBeCancelled | InsufficientStreamBalance | ExcessMaxStreamsCount | NotStarted
| HasFinished.

(** src/pallets/loans/src/lib.rs; [InsufficientLiquidity] is also an AMM error. *)
Inductive LoansError :=
| LoansInsufficientLiquidity | InsufficientDeposit | TooMuchRepay | DuplicateOperation
| NoDeposit | InsufficientCollateral | LiquidatorIsBorrower | DepositsAreNotCollateral
| InsufficientShortfall | InsufficientReserves | InvalidRateModelParam | MarketNotActivated
| PriceOracleNotReady | PriceIsZero | InvalidCurrencyId | InvalidPtokenId
| MarketDoesNotExist | MarketAlreadyExists | NewMarketMustHavePendingState
| SupplyCapacityExceeded | BorrowCapacityExceeded | InsufficientCash | InvalidFactor
| InvalidSupplyCap | InvalidExchangeRate | InvalidAmount | PayerIsSigner | CodecError
| CollateralReserved.

(** src/pallets/farming/src/lib.rs *)
Module FarmingErrors.
Inductive FarmingError :=
| PoolDoesNotExist | PoolAlreadyExists | PoolIsNotActive | PoolInStatus | NotAValidDuration
| PoolIsInTargetCoolDownDuration | NotAValidAmount | PoolUnderLock | DepositBalanceLow
| CodecError | ExcessMaxLockDuration | ExcessMaxCoolDownDuration | ExcessMaxUserLockItemsCount
| RewardNotFinish.
End FarmingErrors.

(** src/pallets/bridge/src/lib.rs *)
Module BridgeErrors.
Inductive BridgeError :=
| InvalidVoteThreshold | OriginNoPermission | ChainIdAlreadyRegistered | ChainIdNotRegistered
| BridgeTokenAlreadyRegistered | BridgeTokenNotRegistered | BridgeTokenDisabled
| MemberAlreadyVoted | BridgingAmountTooLow | BridgeOutCapExceeded | BridgeInCapExceeded
| ProposalDoesNotExist | ProposalAlreadyComplete | ProposalExpired.
End BridgeErrors.

(** src/pallets/router/src/lib.rs *)
Module RouterErrors.
Inductive RouterError :=
| ZeroBalance | EmptyRoute | InsufficientBalance | ExceedMaxLengthRoute | DuplicatedRoute
| MaximumAmountInViolated | MinimumAmountOutViolated | TokenDoesNotExists | NoPossibleRoute.
End RouterErrors.

(** src/pallets/stableswap/src/lib.rs *)
Module StableSwapErrors.
Inductive StableSwapError :=
| PoolDoesNotExist | ConversionToU128Failed | InsufficientSupplyOut | InsufficientLiquidity
| InsufficientAmountOut | InsufficientAmountIn | InvalidInvariant | LpTokenAlreadyExists
| PoolAlreadyExists | IdenticalAssets | NotAnIdealPrice.
End StableSwapErrors.

(** src/pallets/currency-adapter/src/lib.rs *)
Module CurrencyAdapterErrors.
Inductive CurrencyAdapterError := NotANativeToken.
End CurrencyAdapterErrors.

(** src/pallets/xcm-helper/src/lib.rs, [Error] *)
Module XcmHelperErrors.
Inductive XcmHelperError :=
| MultiLocationNotInvertible | ZeroXcmWeightMisc | ZeroXcmFees | InsufficientXcmFees | SendFailure
| ConvertAccountError.
End XcmHelperErrors.

(** src/pallets/crowdloans/src/lib.rs, [Error] *)
Module CrowdloansErrors.
Inductive CrowdloansError :=
| IncorrectVaultPhase | CrowdloanAlreadyExists | InsufficientContribution | NoContributions
| InsufficientBalance | LastPeriodBeforeFirstPeriod | CTokenDoesNotExist | VaultAlreadyExists
| VaultDoesNotExist | InvalidCToken | VaultNotEnded | VrfDelayInProgress | CapExceeded
| EndBlockExceeded | InvalidCap | InvalidParams | NotReadyToDissolve | EmptyProxyAddress
| WrongBonusConfig.
End CrowdloansErrors.

(** src/pallets/liquid-staking/src/lib.rs, [Error] *)
Module LiquidStakingErrors.
Inductive LiquidStakingError :=
| InvalidExchangeRate | StakeTooSmall | UnstakeTooSmall | InvalidLiquidCurrency
| InvalidStakingCurrency | InvalidDerivativeIndex | InvalidStakingLedger | CapExceeded | InvalidCap
| InvalidFactor | NothingToClaim | NotBonded | AlreadyBonded | NoMoreChunks | StakingLedgerLocked
| NotWithdrawn | InsufficientBond | InvalidProof | NoUnlockings | InvalidCommissionRate.
End LiquidStakingErrors.

(** src/pallets/asset-registry/src/lib.rs, [Error] *)
Module AssetRegistryErrors.
Inductive AssetRegistryError := AssetAlreadyExists | AssetDoesNotExist.
End AssetRegistryErrors.

(** src/pallets/evm-signatures/src/lib.rs, [Error] *)
Module EvmSignaturesErrors.
Inductive EvmSignaturesError := DecodeFailure | InvalidSignature | BadNonce.
End EvmSignaturesErrors.

Inductive DispatchError :=
| BadOrigin
| CannotLookup
| Other (message : string)
| Arithmetic (e : ArithmeticError)
| Token (e : TokenError)
| Amm (e : AmmError)
| Streaming (e : StreamingError)
| Loans (e : LoansError)
| Farming (e : FarmingErrors.FarmingError)
| Bridge (e : BridgeErrors.BridgeError)
| Router (e : RouterErrors.RouterError)
| StableSwap (e : StableSwapErrors.StableSwapError)
| CurrencyAdapter (e : CurrencyAdapterErrors.CurrencyAdapterError)
| XcmHelper (e : XcmHelperErrors.XcmHelperError)
| Crowdloans (e : CrowdloansErrors.CrowdloansError)
| LiquidStaking (e : LiquidStakingErrors.LiquidStakingError)
| AssetRegistry (e : AssetRegistryErrors.AssetRegistryError)
| EvmSignatures (e : EvmSignaturesErrors.EvmSignaturesError).

Abbreviation Res := (result DispatchError).

(** ** Origins *)

Inductive RuntimeOrigin := Root | Signed (who : AccountId) | Unsigned.

Definition ensure_signed (o : RuntimeOrigin) : Res AccountId :=
  match o with Signed who => Ok who | _ => Err BadOrigin end.
(** [EnsureOrigin::ensure_origin] for a configured predicate on origins *)
Definition ensure_origin (allowed : RuntimeOrigin -> bool) (o : RuntimeOrigin) : Res unit :=
  ensure (allowed o) BadOrigin.

(** ** The ledger behind [T::Assets]: fungibles' [Inspect], [Mutate] and [Transfer] *)

Class Fungibles (L : Type) := {
  total_issuance : L -> CurrencyId -> Balance;
  minimum_balance : CurrencyId -> Balance;
  balance : L -> CurrencyId -> AccountId -> Balance;
  reducible_balance : L -> CurrencyId -> AccountId -> bool -> Balance;
  transfer : CurrencyId -> AccountId -> AccountId -> Balance -> bool -> L -> Res L;
  mint_into : CurrencyId -> AccountId -> Balance -> L -> Res L;
  burn_from : CurrencyId -> AccountId -> Balance -> L -> Res L;
}.

(** An account left with something below the minimum balance is reaped and its rest (the
    dust) is lost to it.  [dust_free] says that paying [amt] leaves no such rest. *)
Definition dust_free {L} `{Fungibles L} (l : L) (a : CurrencyId) (who : AccountId)
    (amt : Balance) : Prop :=
  amt = 0 \/ balance l a who - amt = 0 \/ minimum_balance a <= balance l a who - amt.

Class FungiblesLaws (L : Type) `{F : Fungibles L} : Prop := {
  balance_range l a x : is_u128 (balance l a x);
  total_issuance_range l a : is_u128 (total_issuance l a);
  reducible_balance_range l a x k : 0 <= reducible_balance l a x k <= balance l a x;
  transfer_enough a f t amt k l l' :
    transfer a f t amt k l = Ok l' -> f <> t -> amt <= balance l a f;
  transfer_dest a f t amt k l l' :
    transfer a f t amt k l = Ok l' -> f <> t -> balance l a t + amt <= balance l' a t;
  transfer_dest_exact a f t amt k l l' :
    transfer a f t amt k l = Ok l' -> f <> t -> dust_free l a f amt ->
    balance l' a t = balance l a t + amt;
  transfer_source a f t amt k l l' :
    transfer a f t amt k l = Ok l' -> f <> t -> dust_free l a f amt ->
    balance l' a f = balance l a f - amt;
  transfer_self a f amt k l l' :
    transfer a f f amt k l = Ok l' -> balance l' a f = balance l a f;
  transfer_frame a f t amt k l l' b x :
    transfer a f t amt k l = Ok l' -> b <> a \/ (x <> f /\ x <> t) ->
    balance l' b x = balance l b x;
  transfer_issuance a f t amt k l l' :
    transfer a f t amt k l = Ok l' -> dust_free l a f amt ->
    total_issuance l' a = total_issuance l a;
  transfer_issuance_frame a f t amt k l l' b :
    transfer a f t amt k l = Ok l' -> b <> a -> total_issuance l' b = total_issuance l b;
  transfer_keep_alive a f t amt l l' :
    transfer a f t amt true l = Ok l' -> f <> t -> dust_free l a f amt;
  mint_into_balance a w amt l l' :
    mint_into a w amt l = Ok l' -> balance l' a w = balance l a w + amt;
  mint_into_frame a w amt l l' b x :
    mint_into a w amt l = Ok l' -> b <> a \/ x <> w -> balance l' b x = balance l b x;
  mint_into_issuance a w amt l l' :
    mint_into a w amt l = Ok l' -> total_issuance l' a = total_issuance l a + amt;
  mint_into_issuance_frame a w amt l l' b :
    mint_into a w amt l = Ok l' -> b <> a -> total_issuance l' b = total_issuance l b;
  burn_from_enough a w amt l l' :
    burn_from a w amt l = Ok l' -> amt <= balance l a w;
  burn_from_balance a w amt l l' :
    burn_from a w amt l = Ok l' -> dust_free l a w amt ->
    balance l' a w = balance l a w - amt;
  burn_from_frame a w amt l l' b x :
    burn_from a w amt l = Ok l' -> b <> a \/ x <> w -> balance l' b x = balance l b x;
  burn_from_issuance a w amt l l' :
    burn_from a w amt l = Ok l' -> dust_free l a w amt ->
    total_issuance l' a = total_issuance l a - amt;
  burn_from_issuance_frame a w amt l l' b :
    burn_from a w amt l = Ok l' -> b <> a -> total_issuance l' b = total_issuance l b;
}.

(** What [can_deposit] and [can_withdraw] answer *)
Inductive DepositConsequence := DepUnknownAsset | DepOverflow | DepBelowMinimum | DepSuccess.
Inductive WithdrawConsequence := WdUnknownAsset | WdNoFunds | WdReducedToZero (rest : Balance)
| WdSuccess.

(** The order in which [iter] and [iter_keys] visit a storage map (the hash order). *)
Class StorageIter := storage_iter : forall {V : Type}, gmap Z V -> list (Z * V).
Class StorageIterLaws (I : StorageIter) : Prop :=
  storage_iter_perm : forall (V : Type) (m : gmap Z V), storage_iter m ≡ₚ map_to_list m.

Definition storage_iter_reference : StorageIter := fun V m => map_to_list m.
Lemma storage_iter_reference_laws : StorageIterLaws storage_iter_reference.
Proof. by intros V m. Qed.

(** The same for a map with a pair of keys *)
Class StoragePairIter := storage_pair_iter : forall {V : Type}, gmap (Z * Z) V -> list (Z * Z * V).
Class StoragePairIterLaws (I : StoragePairIter) : Prop :=
  storage_pair_iter_perm : forall (V : Type) (m : gmap (Z * Z) V), storage_pair_iter m ≡ₚ map_to_list m.
Definition storage_pair_iter_reference : StoragePairIter := fun V m => map_to_list m.
Lemma storage_pair_iter_reference_laws : StoragePairIterLaws storage_pair_iter_reference.
Proof. by intros V m. Qed.

(** ** Payments into and out of a pallet's account

    What a transfer does to the account [acc] of a pallet, for every asset at once. *)

Section payments.
Context {L : Type} {FU : Fungibles L} {FL : FungiblesLaws L}.

Lemma dust_free_min_one l a x amt :
  minimum_balance a <= 1 -> amt <= balance l a x -> dust_free l a x amt.
Proof. unfold dust_free. lia. Qed.

Lemma pay_in a who acc amt k l l' :
  transfer a who acc amt k l = Ok l' -> who <> acc ->
  forall b, balance l b acc + (if decide (b = a) then amt else 0) <= balance l' b acc.
Proof.
  intros Ht Hne b. case_decide as Hb.
  - subst b. exact (transfer_dest _ _ _ _ _ _ _ Ht Hne).
  - rewrite (transfer_frame _ _ _ _ _ _ _ b acc Ht) by auto. lia.
Qed.

Lemma pay_out a acc who amt k l l' :
  transfer a acc who amt k l = Ok l' -> who <> acc ->
  k = true \/ minimum_balance a <= 1 ->
  forall b, balance l' b acc = balance l b acc - (if decide (b = a) then amt else 0).
Proof.
  intros Ht Hne Hk b. assert (acc <> who) as Hne' by congruence.
  assert (dust_free l a acc amt) as Hd.
  { destruct Hk as [-> | Hmin]; [by eapply transfer_keep_alive |].
    apply dust_free_min_one; [done | by eapply transfer_enough]. }
  case_decide as Hb.
  - subst b. exact (transfer_source _ _ _ _ _ _ _ Ht Hne' Hd).
  - rewrite (transfer_frame _ _ _ _ _ _ _ b acc Ht) by auto. lia.
Qed.

Lemma mint_into_grows a w amt l l' :
  mint_into a w amt l = Ok l' -> 0 <= amt -> forall b x, balance l b x <= balance l' b x.
Proof.
  intros Hm Ha b x. destruct (decide (b = a /\ x = w)) as [[-> ->]|Hn].
  - rewrite (mint_into_balance _ _ _ _ _ Hm). lia.
  - rewrite (mint_into_frame _ _ _ _ _ b x Hm); [lia |].
    destruct (decide (b = a)); naive_solver.
Qed.

Lemma burn_from_other a w amt l l' :
  burn_from a w amt l = Ok l' -> forall b x, x <> w -> balance l' b x = balance l b x.
Proof. intros Hb b x Hx. apply (burn_from_frame _ _ _ _ _ b x Hb). auto. Qed.
End payments.

(** ** A ledger inside a larger state

    The storage of a pallet with the ledger in it is a ledger, too. *)

Section inside.
Context {S L : Type} {FU : Fungibles L} {FL : FungiblesLaws L}.
Context (view : S -> L) (update : L -> S -> S).

Definition inside (f : L -> Res L) (s : S) : Res S := l ← f (view s); Ok (update l s).
Definition fungibles_inside : Fungibles S := {|
  total_issuance s := total_issuance (view s);
  minimum_balance := minimum_balance;
  balance s := balance (view s);
  reducible_balance s := reducible_balance (view s);
  transfer a f t amt k := inside (transfer a f t amt k);
  mint_into a w amt := inside (mint_into a w amt);
  burn_from a w amt := inside (burn_from a w amt) |}.

Lemma inside_Ok f s s' : inside f s = Ok s' <-> exists l, f (view s) = Ok l /\ s' = update l s.
Proof. unfold inside. destruct (f (view s)) as [l| |]; cbv; naive_solver. Qed.

Lemma fungibles_inside_laws :
  (forall l s, view (update l s) = l) -> FungiblesLaws S (F := fungibles_inside).
Proof.
  intros Hu.
  assert (Hi : forall f s s', inside f s = Ok s' -> f (view s) = Ok (view s')).
  { intros f s s' (l & Hf & ->)%inside_Ok. by rewrite Hu. }
  constructor; unfold dust_free; cbn;
    try (intros until 1; match goal with H : inside _ _ = Ok _ |- _ => apply Hi in H end);
    first [ exact (fun l => balance_range (view l)) | exact (fun l => total_issuance_range (view l))
          | exact (fun l => reducible_balance_range (view l))
          | by eapply transfer_enough | by eapply transfer_dest | by eapply transfer_dest_exact
          | by eapply transfer_source | by eapply transfer_self | by eapply transfer_frame
          | by eapply transfer_issuance | by eapply transfer_issuance_frame
          | by eapply transfer_keep_alive | by eapply mint_into_balance | by eapply mint_into_frame
          | by eapply mint_into_issuance | by eapply mint_into_issuance_frame
          | by eapply burn_from_enough | by eapply burn_from_balance | by eapply burn_from_frame
          | by eapply burn_from_issuance | by eapply burn_from_issuance_frame ].
Qed.
End inside.
