(* ===== verification/Ledger.v ===== *)
(** * A ledger kept in finite maps

    An implementation of [Fungibles] with a minimum balance of one, which satisfies
    [FungiblesLaws]; the concrete instances of the pallets' theorems run on it. *)

From S2P Require Import Prelude Arith Frame.

Record ledger := Ledger {
  ledger_balances : gmap (CurrencyId * AccountId) Balance;
  ledger_issuance : gmap CurrencyId Balance;
}.


Definition ledger_balance (l : ledger) (a : CurrencyId) (x : AccountId) : Balance :=
  to_u128 (default 0 (ledger_balances l !! (a, x))).
Definition ledger_total (l : ledger) (a : CurrencyId) : Balance :=
  to_u128 (default 0 (ledger_issuance l !! a)).

Definition set_balance (a : CurrencyId) (x : AccountId) (v : Balance) (l : ledger) : ledger :=
  Ledger (<[(a, x) := v]> (ledger_balances l)) (ledger_issuance l).
Definition set_issuance (a : CurrencyId) (v : Balance) (l : ledger) : ledger :=
  Ledger (ledger_balances l) (<[a := v]> (ledger_issuance l)).

Definition ledger_transfer (a : CurrencyId) (f t : AccountId) (amt : Balance) (keep : bool)
    (l : ledger) : Res ledger :=
  _ ← ensure (0 <=? amt) (Token NoFunds);
  _ ← ensure (amt <=? ledger_balance l a f) (Token NoFunds);
  if decide (f = t) then Ok l else
  _ ← ensure (ledger_balance l a t + amt <=? u128_max) (Arithmetic Overflow);
  _ ← ensure (negb keep || (amt =? 0) || (1 <=? ledger_balance l a f - amt)) (Token WouldDie);
  Ok (set_balance a t (ledger_balance l a t + amt)
       (set_balance a f (ledger_balance l a f - amt) l)).

Definition ledger_mint (a : CurrencyId) (w : AccountId) (amt : Balance) (l : ledger) : Res ledger :=
  _ ← ensure (0 <=? amt) (Token NoFunds);
  _ ← ensure (ledger_balance l a w + amt <=? u128_max) (Arithmetic Overflow);
  _ ← ensure (ledger_total l a + amt <=? u128_max) (Arithmetic Overflow);
  Ok (set_issuance a (ledger_total l a + amt) (set_balance a w (ledger_balance l a w + amt) l)).

Definition ledger_burn (a : CurrencyId) (w : AccountId) (amt : Balance) (l : ledger) : Res ledger :=
  _ ← ensure (0 <=? amt) (Token NoFunds);
  _ ← ensure (amt <=? ledger_balance l a w) (Token NoFunds);
  _ ← ensure (amt <=? ledger_total l a) (Arithmetic Underflow);
  Ok (set_issuance a (ledger_total l a - amt) (set_balance a w (ledger_balance l a w - amt) l)).

Definition ledger_ops : Fungibles ledger := {|
  total_issuance := ledger_total;
  minimum_balance _ := 1;
  balance := ledger_balance;
  reducible_balance l a x _ := ledger_balance l a x;
  transfer := ledger_transfer;
  mint_into := ledger_mint;
  burn_from := ledger_burn;
|}.
#[local] Existing Instance ledger_ops.

Lemma ledger_balance_set a x v l b y :
  is_u128 v ->
  ledger_balance (set_balance a x v l) b y =
    if decide (a = b /\ x = y) then v else ledger_balance l b y.
Proof.
  intros Hv. unfold ledger_balance, set_balance; simpl.
  case_decide as Hd.
  - destruct Hd as [-> ->]. rewrite lookup_insert_eq; simpl. by apply to_u128_id.
  - rewrite lookup_insert_ne; [done | naive_solver].
Qed.

Lemma ledger_total_set a v l b :
  is_u128 v -> ledger_total (set_issuance a v l) b = if decide (a = b) then v else ledger_total l b.
Proof.
  intros Hv. unfold ledger_total, set_issuance; simpl.
  case_decide as Hd.
  - subst. rewrite lookup_insert_eq; simpl. by apply to_u128_id.
  - by rewrite lookup_insert_ne.
Qed.

Lemma ledger_total_balance a x v l b : ledger_total (set_balance a x v l) b = ledger_total l b.
Proof. done. Qed.
Lemma ledger_balance_issuance a v l b x :
  ledger_balance (set_issuance a v l) b x = ledger_balance l b x.
Proof. done. Qed.

Lemma ledger_balance_u128 l a x : is_u128 (ledger_balance l a x).
Proof. apply to_u128_range. Qed.
Lemma ledger_total_u128 l a : is_u128 (ledger_total l a).
Proof. apply to_u128_range. Qed.

(** What the three operations do to every balance and issuance, in one equation each. *)

Lemma ledger_transfer_Ok a f t amt k l l' :
  ledger_transfer a f t amt k l = Ok l' ->
  0 <= amt <= ledger_balance l a f /\ (f = t -> l' = l) /\
  (f <> t ->
    (k = true -> amt = 0 \/ 1 <= ledger_balance l a f - amt) /\
    (forall b x, ledger_balance l' b x =
      if decide (b = a /\ x = t) then ledger_balance l a t + amt
      else if decide (b = a /\ x = f) then ledger_balance l a f - amt
      else ledger_balance l b x)) /\
  (forall b, ledger_total l' b = ledger_total l b).
Proof.
  unfold ledger_transfer. intros H. minv. zbool.
  split; [lia |]. case_decide as Hft; minv; [naive_solver |]. zbool.
  pose proof (ledger_balance_u128 l a f) as Hf. pose proof (ledger_balance_u128 l a t) as Ht.
  assert (Hr1 : is_u128 (ledger_balance l a t + amt)) by (unfold is_u128 in *; lia).
  assert (Hr2 : is_u128 (ledger_balance l a f - amt)) by (unfold is_u128 in *; lia).
  split; [naive_solver |]. split; [| done]. intros _. split.
  - intros ->. match goal with H : _ || _ = true |- _ => simpl in H end.
    repeat match goal with H : (_ || _)%bool = true |- _ => apply orb_true_iff in H as [?|?] end;
      zbool; [by left | by right].
  - intros b x. rewrite !ledger_balance_set by done.
    repeat case_decide; naive_solver.
Qed.

Lemma ledger_mint_Ok a w amt l l' :
  ledger_mint a w amt l = Ok l' ->
  (forall b x, ledger_balance l' b x =
     if decide (b = a /\ x = w) then ledger_balance l a w + amt else ledger_balance l b x) /\
  (forall b, ledger_total l' b =
     if decide (b = a) then ledger_total l a + amt else ledger_total l b).
Proof.
  unfold ledger_mint. intros H. minv. zbool.
  pose proof (ledger_balance_u128 l a w). pose proof (ledger_total_u128 l a).
  split.
  - intros b x. rewrite ledger_balance_issuance, ledger_balance_set by (unfold is_u128 in *; lia).
    repeat case_decide; naive_solver.
  - intros b. rewrite ledger_total_set by (unfold is_u128 in *; lia).
    repeat case_decide; naive_solver.
Qed.

Lemma ledger_burn_Ok a w amt l l' :
  ledger_burn a w amt l = Ok l' ->
  amt <= ledger_balance l a w /\
  (forall b x, ledger_balance l' b x =
     if decide (b = a /\ x = w) then ledger_balance l a w - amt else ledger_balance l b x) /\
  (forall b, ledger_total l' b =
     if decide (b = a) then ledger_total l a - amt else ledger_total l b).
Proof.
  unfold ledger_burn. intros H. minv. zbool.
  pose proof (ledger_balance_u128 l a w). pose proof (ledger_total_u128 l a).
  split; [done |]. split.
  - intros b x. rewrite ledger_balance_issuance, ledger_balance_set by (unfold is_u128 in *; lia).
    repeat case_decide; naive_solver.
  - intros b. rewrite ledger_total_set by (unfold is_u128 in *; lia).
    repeat case_decide; naive_solver.
Qed.

(** Every law is one of the equations above at particular accounts and assets. *)
Ltac transfer_law Hne :=
  intros *; intros H; try intros Hne; intros;
  apply ledger_transfer_Ok in H as (? & ? & H & ?);
  try (destruct (H Hne) as [? Hbal]; rewrite ?Hbal);
  repeat case_decide; subst; try tauto; try lia.

Lemma ledger_ops_laws : FungiblesLaws ledger.
Proof.
  split; simpl.
  - intros. apply ledger_balance_u128.
  - intros. apply ledger_total_u128.
  - intros. pose proof (ledger_balance_u128 l a x). unfold is_u128 in *. lia.
  - transfer_law Hne.
  - transfer_law Hne.
  - transfer_law Hne.
  - transfer_law Hne.
  - intros * H. apply ledger_transfer_Ok in H as (_ & H & _). by rewrite H.
  - intros * H Hb. apply ledger_transfer_Ok in H as (_ & H1 & H2 & _).
    destruct (decide (f = t)) as [Heq|Hne]; [by rewrite H1 |].
    destruct (H2 Hne) as [_ ->]. rewrite !decide_False by tauto. done.
  - intros * H _. apply ledger_transfer_Ok in H as (_ & _ & _ & H). apply H.
  - intros * H _. apply ledger_transfer_Ok in H as (_ & _ & _ & H). apply H.
  - intros * H Hne. apply ledger_transfer_Ok in H as (_ & _ & H & _).
    destruct (H Hne) as [Hk _]. unfold dust_free; simpl. destruct Hk; auto.
  - intros * H. apply ledger_mint_Ok in H as [-> _]. by rewrite decide_True.
  - intros * H Hb. apply ledger_mint_Ok in H as [-> _]. rewrite decide_False; tauto.
  - intros * H. apply ledger_mint_Ok in H as [_ ->]. by rewrite decide_True.
  - intros * H Hb. apply ledger_mint_Ok in H as [_ ->]. by rewrite decide_False.
  - intros * H. by apply ledger_burn_Ok in H as [? _].
  - intros * H _. apply ledger_burn_Ok in H as (_ & -> & _). by rewrite decide_True.
  - intros * H Hb. apply ledger_burn_Ok in H as (_ & -> & _). rewrite decide_False; tauto.
  - intros * H _. apply ledger_burn_Ok in H as (_ & _ & ->). by rewrite decide_True.
  - intros * H Hb. apply ledger_burn_Ok in H as (_ & _ & ->). by rewrite decide_False.
Qed.
