(* ===== verification/SortedVec.v ===== *)
(** * Sorted vectors

    Rust's [Ord] and [slice::binary_search], which keeps the vector of fee assets sorted:
    [Ok] is the place of the element, [Err] the place where it belongs. *)

From S2P Require Import Prelude.
From stdpp Require Import list sorting.

Class Ord (A : Type) := ord_cmp : A -> A -> comparison.
Class OrdLaws (A : Type) {OA : Ord A} : Prop := {
  ord_eq x y : ord_cmp x y = Eq <-> x = y;
  ord_opp x y : ord_cmp y x = CompOpp (ord_cmp x y);
  ord_trans x y z : ord_cmp x y = Lt -> ord_cmp y z = Lt -> ord_cmp x z = Lt;
}.

Section search.
Context {A : Type} {OA : Ord A}.
Implicit Types (l : list A) (x y : A).

(** The loop of [binary_search_by]; [fuel] bounds the rounds, each of which shrinks [right - left]. *)
Fixpoint search_loop (fuel : nat) l x (left right : nat) : result nat nat :=
  match fuel with
  | O => Panic
  | S fuel =>
      if (left <? right)%nat then
        let mid := (left + (right - left) / 2)%nat in
        match l !! mid with
        | None => Panic
        | Some y =>
            match ord_cmp y x with
            | Lt => search_loop fuel l x (mid + 1) right
            | Gt => search_loop fuel l x left mid
            | Eq => Ok mid
            end
        end
      else Err left
  end.
Definition binary_search l x : result nat nat := search_loop (S (length l)) l x 0 (length l).

(** [Vec::insert] and [Vec::remove] *)
Definition vec_insert (i : nat) x l : list A := take i l ++ x :: drop i l.
Definition vec_remove (i : nat) l : list A := delete i l.

Definition ord_lt x y : Prop := ord_cmp x y = Lt.
Abbreviation sorted := (StronglySorted ord_lt).

Context {OL : OrdLaws A}.
Lemma ord_irrefl x : ~ ord_lt x x.
Proof. unfold ord_lt. assert (ord_cmp x x = Eq) as -> by (by apply ord_eq). done. Qed.
Lemma ord_gt x y : ord_cmp y x = Gt -> ord_lt x y.
Proof. intros H. unfold ord_lt. rewrite ord_opp, H. done. Qed.

Lemma sorted_lookup l i j x y : sorted l -> (i < j)%nat -> l !! i = Some x -> l !! j = Some y -> ord_lt x y.
Proof.
  intros Hl. revert i j. induction Hl as [|z l Hl IH Hz]; intros i j Hij Hi Hj; [done |].
  destruct i as [|i], j as [|j]; cbn in *; [lia | | lia |].
  - simplify_eq. rewrite Forall_forall in Hz. apply Hz. by eapply list_elem_of_lookup_2.
  - eapply IH; [| done | done]. lia.
Qed.

(** What the loop keeps: everything before [left] is smaller, everything from [right] on greater. *)
Record window l x (left right : nat) : Prop := {
  w_range : (left <= right <= length l)%nat;
  w_less i y : (i < left)%nat -> l !! i = Some y -> ord_lt y x;
  w_more i y : (right <= i)%nat -> l !! i = Some y -> ord_lt x y;
}.

Lemma search_loop_ok fuel l x : forall left right,
  sorted l -> window l x left right -> (right - left < fuel)%nat ->
  (exists i, search_loop fuel l x left right = Ok i /\ l !! i = Some x) \/
  (exists i, search_loop fuel l x left right = Err i /\ window l x i i).
Proof.
  induction fuel as [|fuel IH]; intros left right Hl Hw Hf; [lia |]. cbn [search_loop].
  destruct (Nat.ltb_spec left right) as [Hlr|Hlr].
  2: { right. exists left. split; [done |]. destruct Hw as [Hr H1 H2]. assert (right = left) as -> by lia. by constructor. }
  assert (left <= left + (right - left) / 2 < right)%nat as Hm.
  { pose proof (Nat.div_lt (right - left) 2). lia. }
  set (mid := (left + (right - left) / 2)%nat) in *. destruct Hw as [Hr H1 H2].
  destruct (lookup_lt_is_Some_2 l mid) as [y Hy]; [lia |]. rewrite Hy. destruct (ord_cmp y x) eqn:Hc.
  - left. exists mid. split; [done |]. by apply ord_eq in Hc as ->.
  - apply IH; [done | | lia]. constructor; [lia | | done]. intros i z Hi Hz.
    destruct (decide (i = mid)) as [->|Hne]; [by simplify_eq |].
    eapply ord_trans; [eapply (sorted_lookup l i mid); [done | lia | done | done] | exact Hc].
  - apply IH; [done | | lia]. constructor; [lia | done |]. intros i z Hi Hz.
    destruct (decide (i = mid)) as [->|Hne]; [simplify_eq; by apply ord_gt |].
    eapply ord_trans; [by apply ord_gt | eapply (sorted_lookup l mid i); [done | lia | done | done]].
Qed.

Lemma window_not_in l x i : window l x i i -> x ∉ l.
Proof.
  intros [_ H1 H2] [j Hj]%list_elem_of_lookup. destruct (decide (j < i)%nat).
  - exact (ord_irrefl x (H1 j x ltac:(lia) Hj)).
  - exact (ord_irrefl x (H2 j x ltac:(lia) Hj)).
Qed.

(** What a search in a sorted vector answers *)
Lemma binary_search_spec l x : sorted l ->
  (exists i, binary_search l x = Ok i /\ l !! i = Some x) \/
  (exists i, binary_search l x = Err i /\ x ∉ l /\ window l x i i).
Proof.
  intros Hl. destruct (search_loop_ok (S (length l)) l x 0 (length l) Hl) as [H|(i & H & Hw)]; [| lia | by left |].
  - constructor; [lia | lia |]. intros i y Hi Hy. apply lookup_lt_Some in Hy. lia.
  - right. exists i. split; [done |]. split; [by eapply window_not_in | done].
Qed.
Lemma binary_search_elem l x : sorted l -> is_Some (match binary_search l x with Ok i => Some i | _ => None end) <-> x ∈ l.
Proof.
  intros Hl. destruct (binary_search_spec l x Hl) as [(i & -> & Hi)|(i & -> & Hn & _)].
  - split; [intros _; by eapply list_elem_of_lookup_2 | done].
  - split; [by intros [] | done].
Qed.

Lemma insert_sorted l x i : sorted l -> window l x i i -> sorted (vec_insert i x l).
Proof.
  intros Hl [Hr H1 H2]. unfold vec_insert. rewrite <- (take_drop i l) in Hl.
  assert (Forall (fun y => ord_lt y x) (take i l)) as Hlo.
  { apply Forall_lookup. intros j y Hj. apply lookup_take_Some in Hj as [Hj Hji]. by eapply H1. }
  assert (Forall (ord_lt x) (drop i l)) as Hhi.
  { apply Forall_lookup. intros j y Hj. rewrite lookup_drop in Hj. eapply H2; [| exact Hj]. lia. }
  apply StronglySorted_app in Hl as (Hcross & Hs1 & Hs2). apply StronglySorted_app_2; [| done |].
  - intros a b Ha Hb. rewrite elem_of_cons in Hb. rewrite Forall_forall in Hlo. destruct Hb as [->|Hb]; [by apply Hlo | by apply Hcross].
  - by constructor.
Qed.
Lemma insert_elem l x i y : y ∈ vec_insert i x l <-> y = x \/ y ∈ l.
Proof.
  unfold vec_insert. rewrite <- (take_drop i l) at 3. rewrite !elem_of_app, elem_of_cons. tauto.
Qed.
Lemma remove_sorted l i : sorted l -> sorted (vec_remove i l).
Proof.
  intros Hl. revert i. induction Hl as [|z l Hl IH Hz]; intros [|i]; cbn; [constructor .. | done |].
  constructor; [apply IH |]. rewrite Forall_forall in *. intros y Hy. apply Hz.
  change (y ∈ delete i l) in Hy. rewrite delete_take_drop in Hy. apply elem_of_app in Hy as [Hy|Hy].
  - apply list_elem_of_lookup in Hy as [j Hj]. apply lookup_take_Some in Hj as [Hj _]. by eapply list_elem_of_lookup_2.
  - apply list_elem_of_lookup in Hy as [j Hj]. rewrite lookup_drop in Hj. by eapply list_elem_of_lookup_2.
Qed.
Lemma sorted_NoDup l : sorted l -> NoDup l.
Proof.
  induction 1 as [|z l Hl IH Hz]; constructor; [| done]. intros Hin. rewrite Forall_forall in Hz. by eapply ord_irrefl, Hz.
Qed.
Lemma remove_elem l i x y : sorted l -> l !! i = Some x -> (y ∈ vec_remove i l <-> y ∈ l /\ y <> x).
Proof.
  intros Hl Hi. pose proof (sorted_NoDup l Hl) as Hn. rewrite <- (take_drop_middle l i x Hi) in Hn |- * at 2.
  unfold vec_remove. rewrite delete_take_drop.
  apply NoDup_app in Hn as (_ & H1 & [H2 _]%NoDup_cons). rewrite !elem_of_app, elem_of_cons.
  specialize (H1 y). rewrite elem_of_cons in H1. naive_solver.
Qed.
End search.
