(* ===== verification/AssetRegistry.v ===== *)
(** * Asset registry (src/pallets/asset-registry/src/lib.rs)

    Which asset id stands for which type of asset (a location on other chains), in both
    directions, and which assets may pay for the execution of messages, at what price. *)

From S2P Require Import Prelude Frame SortedVec.
From stdpp Require Import list sorting relations.
Import AssetRegistryErrors.
#[local] Open Scope Z_scope.

Module AssetRegistry.
Section pallet.
Context {AssetType : Type} {ED : EqDecision AssetType} {CT : Countable AssetType} {OA : Ord AssetType}.
Abbreviation AssetId := CurrencyId.
Variable UpdateOrigin : RuntimeOrigin -> bool.

Inductive Event :=
| AssetRegistered (asset_id : AssetId) (asset_type : AssetType)
| UnitsPerSecondUpdated (asset_type : AssetType) (units_per_second : Z)
| AssetTypeUpdated (asset_id : AssetId) (new_asset_type : AssetType)
| AssetDeregistered (asset_id : AssetId) (asset_type : AssetType)
| FeePaymentAssetRemoved (asset_type : AssetType).

Record State := mkState {
  AssetIdType : gmap AssetId AssetType;
  AssetTypeId : gmap AssetType AssetId;
  AssetTypeUnitsPerSecond : gmap AssetType Z;
  SupportedFeePaymentAssets : list AssetType;
  events : list Event;
}.
Abbreviation Run := (M State DispatchError).
Implicit Types s : State.

Definition set_AssetIdType m s := mkState m (AssetTypeId s) (AssetTypeUnitsPerSecond s) (SupportedFeePaymentAssets s) (events s).
Definition set_AssetTypeId m s := mkState (AssetIdType s) m (AssetTypeUnitsPerSecond s) (SupportedFeePaymentAssets s) (events s).
Definition set_Units m s := mkState (AssetIdType s) (AssetTypeId s) m (SupportedFeePaymentAssets s) (events s).
Definition set_Supported l s := mkState (AssetIdType s) (AssetTypeId s) (AssetTypeUnitsPerSecond s) l (events s).
Definition deposit_event e : Run unit := modify (fun s =>
  mkState (AssetIdType s) (AssetTypeId s) (AssetTypeUnitsPerSecond s) (SupportedFeePaymentAssets s) (events s ++ [e])).

(** [if let Err(index) = v.binary_search(&x) { v.insert(index, x) }] and
    [if let Ok(index) = v.binary_search(&x) { v.remove(index) }] *)
Definition ensure_in (x : AssetType) (v : list AssetType) : Res (list AssetType) :=
  match binary_search v x with Ok _ => Ok v | Err i => Ok (vec_insert i x v) | Panic => Panic end.
Definition ensure_out (x : AssetType) (v : list AssetType) : Res (list AssetType) :=
  match binary_search v x with Ok i => Ok (vec_remove i v) | Err _ => Ok v | Panic => Panic end.

Definition register_asset (origin : RuntimeOrigin) (asset_id : AssetId) (asset_type : AssetType) : Run unit :=
  _ ← lift (ensure_origin UpdateOrigin origin);
  s ← get;
  _ ← lift (ensure (bool_decide (AssetIdType s !! asset_id = None)) (AssetRegistry AssetAlreadyExists));
  _ ← modify (fun s => set_AssetIdType (<[asset_id := asset_type]> (AssetIdType s)) s);
  _ ← modify (fun s => set_AssetTypeId (<[asset_type := asset_id]> (AssetTypeId s)) s);
  deposit_event (AssetRegistered asset_id asset_type).

Definition update_asset_units_per_second (origin : RuntimeOrigin) (asset_type : AssetType) (units_per_second : Z)
    : Run unit :=
  _ ← lift (ensure_origin UpdateOrigin origin);
  s ← get;
  _ ← lift (ensure (bool_decide (is_Some (AssetTypeId s !! asset_type))) (AssetRegistry AssetDoesNotExist));
  supported_assets ← lift (ensure_in asset_type (SupportedFeePaymentAssets s));
  _ ← modify (set_Supported supported_assets);
  _ ← modify (fun s => set_Units (<[asset_type := units_per_second]> (AssetTypeUnitsPerSecond s)) s);
  deposit_event (UnitsPerSecondUpdated asset_type units_per_second).

Definition update_asset_type (origin : RuntimeOrigin) (asset_id : AssetId) (new_asset_type : AssetType) : Run unit :=
  _ ← lift (ensure_origin UpdateOrigin origin);
  s ← get;
  let supported_assets := SupportedFeePaymentAssets s in
  previous_asset_type ← lift (ok_or (AssetIdType s !! asset_id) (AssetRegistry AssetDoesNotExist));
  _ ← modify (fun s => set_AssetIdType (<[asset_id := new_asset_type]> (AssetIdType s)) s);
  _ ← modify (fun s => set_AssetTypeId (<[new_asset_type := asset_id]> (AssetTypeId s)) s);
  _ ← modify (fun s => set_AssetTypeId (delete previous_asset_type (AssetTypeId s)) s);
  _ ← (match AssetTypeUnitsPerSecond s !! previous_asset_type with
       | Some units =>
           supported_assets ← lift (ensure_out previous_asset_type supported_assets);
           supported_assets ← lift (ensure_in new_asset_type supported_assets);
           _ ← modify (set_Supported supported_assets);
           _ ← modify (fun s => set_Units (delete previous_asset_type (AssetTypeUnitsPerSecond s)) s);
           modify (fun s => set_Units (<[new_asset_type := units]> (AssetTypeUnitsPerSecond s)) s)
       | None => mret tt
       end);
  deposit_event (AssetTypeUpdated asset_id new_asset_type).

Definition remove_fee_payment_asset (origin : RuntimeOrigin) (asset_type : AssetType) : Run unit :=
  _ ← lift (ensure_origin UpdateOrigin origin);
  s ← get;
  supported_assets ← lift (ensure_out asset_type (SupportedFeePaymentAssets s));
  _ ← modify (set_Supported supported_assets);
  _ ← modify (fun s => set_Units (delete asset_type (AssetTypeUnitsPerSecond s)) s);
  deposit_event (FeePaymentAssetRemoved asset_type).

Definition deregister_asset (origin : RuntimeOrigin) (asset_id : AssetId) : Run unit :=
  _ ← lift (ensure_origin UpdateOrigin origin);
  s ← get;
  let supported_assets := SupportedFeePaymentAssets s in
  asset_type ← lift (ok_or (AssetIdType s !! asset_id) (AssetRegistry AssetDoesNotExist));
  _ ← modify (fun s => set_AssetIdType (delete asset_id (AssetIdType s)) s);
  _ ← modify (fun s => set_AssetTypeId (delete asset_type (AssetTypeId s)) s);
  _ ← modify (fun s => set_Units (delete asset_type (AssetTypeUnitsPerSecond s)) s);
  supported_assets ← lift (ensure_out asset_type supported_assets);
  _ ← modify (set_Supported supported_assets);
  deposit_event (AssetDeregistered asset_id asset_type).

(** [AssetTypeGetter] and [UnitsToWeightRatio] *)
Definition get_asset_type s (asset_id : AssetId) : option AssetType := AssetIdType s !! asset_id.
Definition get_asset_id s (asset_type : AssetType) : option AssetId := AssetTypeId s !! asset_type.
Definition payment_is_supported s (asset_type : AssetType) : bool :=
  match binary_search (SupportedFeePaymentAssets s) asset_type with Ok _ => true | _ => false end.
Definition get_units_per_second s (asset_type : AssetType) : option Z := AssetTypeUnitsPerSecond s !! asset_type.

Inductive Call :=
| CallRegisterAsset (asset_id : AssetId) (asset_type : AssetType)
| CallUpdateAssetUnitsPerSecond (asset_type : AssetType) (units_per_second : Z)
| CallUpdateAssetType (asset_id : AssetId) (new_asset_type : AssetType)
| CallRemoveFeePaymentAsset (asset_type : AssetType)
| CallDeregisterAsset (asset_id : AssetId).
Definition dispatch (o : RuntimeOrigin) (c : Call) : Run unit :=
  match c with
  | CallRegisterAsset i t => register_asset o i t
  | CallUpdateAssetUnitsPerSecond t u => update_asset_units_per_second o t u
  | CallUpdateAssetType i t => update_asset_type o i t
  | CallRemoveFeePaymentAsset t => remove_fee_payment_asset o t
  | CallDeregisterAsset i => deregister_asset o i
  end.
Definition registry_genesis : State := mkState ∅ ∅ ∅ [] [].

(** ** Theorems *)

Context {OL : OrdLaws AssetType}.

Lemma ensure_in_ok x v : StronglySorted ord_lt v ->
  exists v', ensure_in x v = Ok v' /\ StronglySorted ord_lt v' /\ forall y, y ∈ v' <-> y = x \/ y ∈ v.
Proof.
  intros Hv. unfold ensure_in. destruct (binary_search_spec v x Hv) as [(i & -> & Hi)|(i & -> & Hn & Hw)].
  - exists v. split; [done |]. split; [done |]. intros y. split; [by right |]. intros [->|?]; [by eapply list_elem_of_lookup_2 | done].
  - eexists. split; [done |]. split; [by apply insert_sorted | intros y; apply insert_elem].
Qed.
Lemma ensure_out_ok x v : StronglySorted ord_lt v ->
  exists v', ensure_out x v = Ok v' /\ StronglySorted ord_lt v' /\ forall y, y ∈ v' <-> y ∈ v /\ y <> x.
Proof.
  intros Hv. unfold ensure_out. destruct (binary_search_spec v x Hv) as [(i & -> & Hi)|(i & -> & Hn & _)].
  - eexists. split; [done |]. split; [by apply remove_sorted | intros y; by apply remove_elem].
  - exists v. split; [done |]. split; [done |]. intros y. split; [| by intros []]. intros Hy. split; [done |]. by intros ->.
Qed.

(** The invariant: an id that a type resolves to resolves back to it; the fee assets are sorted and
    are those that have a price. *)
Record registry_inv s : Prop := {
  ri_back t i : AssetTypeId s !! t = Some i -> AssetIdType s !! i = Some t;
  ri_sorted : StronglySorted ord_lt (SupportedFeePaymentAssets s);
  ri_priced t : t ∈ SupportedFeePaymentAssets s <-> is_Some (AssetTypeUnitsPerSecond s !! t);
}.

Lemma supported_elem s t : registry_inv s -> payment_is_supported s t = true <-> t ∈ SupportedFeePaymentAssets s.
Proof.
  intros Hi. rewrite <- binary_search_elem by apply Hi. unfold payment_is_supported.
  destruct (binary_search _ t); split; done || by intros [].
Qed.
Lemma back_insert s i t :
  (forall t i, AssetTypeId s !! t = Some i -> AssetIdType s !! i = Some t) -> forall t' i',
  (forall t0, AssetTypeId s !! t0 = Some i -> t0 = t \/ t' <> t0) ->
  <[t := i]> (AssetTypeId s) !! t' = Some i' -> <[i := t]> (AssetIdType s) !! i' = Some t'.
Proof.
  intros Hb t' i' Hne [[<- <-]|[Ht H]]%lookup_insert_Some; [by rewrite lookup_insert_eq |].
  destruct (decide (i' = i)) as [->|Hi]; [destruct (Hne t' H) as [?|?]; congruence |].
  rewrite lookup_insert_ne by done. auto.
Qed.

Lemma register_inv o i t : preserves registry_inv (register_asset o i t).
Proof.
  intros s u s' [Hb Hs Hp] H. unfold register_asset, deposit_event in H. minv.
  match goal with H : bool_decide _ = true |- _ => apply bool_decide_eq_true in H end.
  constructor; [| done | done]. cbn. intros t' i'. apply back_insert; [done |]. intros t0 Ht0. apply Hb in Ht0. congruence.
Qed.
Ltac vec_ops Hs := repeat match goal with
  | H : ensure_in ?x ?v = Ok ?w, Hv : StronglySorted ord_lt ?v |- _ =>
      let E := fresh "E" in let Hw := fresh "Hw" in let Hy := fresh "Hy" in
      destruct (ensure_in_ok x v Hv) as (? & E & Hw & Hy); rewrite H in E; injection E as <-; clear H
  | H : ensure_out ?x ?v = Ok ?w, Hv : StronglySorted ord_lt ?v |- _ =>
      let E := fresh "E" in let Hw := fresh "Hw" in let Hy := fresh "Hy" in
      destruct (ensure_out_ok x v Hv) as (? & E & Hw & Hy); rewrite H in E; injection E as <-; clear H
  end.
Lemma update_units_inv o t n : preserves registry_inv (update_asset_units_per_second o t n).
Proof.
  intros s u s' [Hb Hs Hp] H. unfold update_asset_units_per_second, deposit_event in H. minv. vec_ops Hs.
  constructor; cbn; [done | done |].
  intros t'. rewrite Hy, Hp. destruct (decide (t' = t)) as [->|Hne].
  - rewrite lookup_insert_eq. split; [by eexists | by left].
  - rewrite lookup_insert_ne by done. naive_solver.
Qed.
Lemma update_type_inv o i t : preserves registry_inv (update_asset_type o i t).
Proof.
  intros s u s' [Hb Hs Hp] H. unfold update_asset_type, deposit_event in H. minv.
  match goal with H : AssetIdType s !! i = Some ?p |- _ => rename p into prev, H into Hprev end.
  assert (forall t' i', delete prev (<[t := i]> (AssetTypeId s)) !! t' = Some i' -> <[i := t]> (AssetIdType s) !! i' = Some t') as Hb'.
  { intros t' i' [Hne H']%lookup_delete_Some. eapply back_insert; [exact Hb | | exact H'].
    intros t0 Ht0%Hb. right. congruence. }
  case_match; minv; [| by constructor]. vec_ops Hs. constructor; cbn; [done | done |].
  intros t'. rewrite Hy0, Hy, Hp. destruct (decide (t' = t)) as [->|Hne].
  - rewrite lookup_insert_eq. split; [by eexists | by left].
  - rewrite lookup_insert_ne by done. destruct (decide (t' = prev)) as [->|Hne'].
    + rewrite lookup_delete_eq. split; [naive_solver | by intros []].
    + rewrite lookup_delete_ne by done. naive_solver.
Qed.
Lemma priced_delete s (v : list AssetType) t :
  (forall y, y ∈ SupportedFeePaymentAssets s <-> is_Some (AssetTypeUnitsPerSecond s !! y)) ->
  (forall y, y ∈ v <-> y ∈ SupportedFeePaymentAssets s /\ y <> t) ->
  forall y, y ∈ v <-> is_Some (delete t (AssetTypeUnitsPerSecond s) !! y).
Proof.
  intros Hp Hv y. rewrite Hv, Hp. destruct (decide (y = t)) as [->|Hne].
  - rewrite lookup_delete_eq. split; [naive_solver | by intros []].
  - rewrite lookup_delete_ne by done. naive_solver.
Qed.
Lemma remove_fee_inv o t : preserves registry_inv (remove_fee_payment_asset o t).
Proof.
  intros s u s' [Hb Hs Hp] H. unfold remove_fee_payment_asset, deposit_event in H. minv. vec_ops Hs.
  constructor; cbn; [done | done |]. by apply priced_delete.
Qed.
Lemma deregister_inv o i : preserves registry_inv (deregister_asset o i).
Proof.
  intros s u s' [Hb Hs Hp] H. unfold deregister_asset, deposit_event in H. minv. vec_ops Hs.
  constructor; cbn; [| done | by apply priced_delete].
  intros t' i' [Hne Ht]%lookup_delete_Some. apply Hb in Ht as Hi. rewrite lookup_delete_ne; [done |]. congruence.
Qed.
Lemma registry_dispatch o c : preserves registry_inv (dispatch o c).
Proof.
  destruct c; [apply register_inv | apply update_units_inv | apply update_type_inv | apply remove_fee_inv | apply deregister_inv].
Qed.

Definition registry_step s s' : Prop := exists o c, dispatch o c s = Ok (tt, s').
Lemma registry_reachable s : rtc registry_step registry_genesis s -> registry_inv s.
Proof.
  intros Hr. assert (registry_inv registry_genesis) as Hg.
  { constructor; cbn; [done | constructor |]. intros t. rewrite lookup_empty, elem_of_nil. split; [done | by intros []]. }
  revert Hg. induction Hr as [|s s1 s2 (o & c & H) _ IH]; [done |]. intros Hg. apply IH. by eapply registry_dispatch.
Qed.

(** C31: The registry never answers with an asset that does not answer back: in every run, an asset id that the type of an
    asset resolves to resolves to this very type again, so two types never stand for one id. *)
Theorem registry_resolves_back s t i :
  rtc registry_step registry_genesis s -> get_asset_id s t = Some i -> get_asset_type s i = Some t.
Proof. intros Hr. by apply registry_reachable. Qed.

(** What can pay for messages has a price, and only that: in every run the vector of fee assets is strictly sorted, so
    that searching it by halving never misses, and an asset is accepted for fees exactly if a number of units per second is
    recorded for it; every operation of the pallet keeps both. *)
Theorem fee_assets_are_priced s t :
  rtc registry_step registry_genesis s ->
  StronglySorted ord_lt (SupportedFeePaymentAssets s) /\
  (payment_is_supported s t = true <-> is_Some (get_units_per_second s t)).
Proof.
  intros Hr%registry_reachable. split; [apply Hr |]. rewrite supported_elem by done. apply Hr.
Qed.
End pallet.
End AssetRegistry.

(** ** Instances: asset types are numbers *)
Section instances.
Import AssetRegistry.
#[local] Instance Z_ord : Ord Z := Z.compare.
#[local] Instance Z_ord_laws : OrdLaws Z.
Proof.
  constructor; unfold ord_cmp, Z_ord; intros *; [apply Z.compare_eq_iff | apply Z.compare_antisym |].
  rewrite !Z.compare_lt_iff. lia.
Qed.
Definition Reg : Type := @State Z _ _.
Definition RCall : Type := @Call Z.
Definition only_root (o : RuntimeOrigin) : bool := match o with Root => true | _ => false end.
Definition reg_run (c : RCall) (s : Reg) : Reg :=
  match dispatch only_root Root c s with Ok (_, s') => s' | _ => s end.
Definition reg_one : Reg := reg_run (CallRegisterAsset 100 7) registry_genesis.
Definition reg_two : Reg := reg_run (CallRegisterAsset 101 3) reg_one.
Definition reg_priced : Reg := reg_run (CallUpdateAssetUnitsPerSecond 3 50) (reg_run (CallUpdateAssetUnitsPerSecond 7 20) reg_two).

Lemma reg_run_step (c : RCall) (s : Reg) : (match dispatch only_root Root c s with Ok _ => true | _ => false end) = true ->
  rtc (registry_step only_root) registry_genesis s -> rtc (registry_step only_root) registry_genesis (reg_run c s).
Proof.
  intros Hok Hr. eapply rtc_r; [exact Hr |]. exists Root, c. unfold reg_run.
  destruct (dispatch only_root Root c s) as [[[] ?]| |]; done.
Qed.
Lemma reg_priced_reachable : rtc (registry_step only_root) registry_genesis reg_priced.
Proof. repeat (apply reg_run_step; [by vm_compute |]). constructor. Qed.

Lemma registry_resolves_back_witness : get_asset_type reg_priced 101 = Some 3.
Proof.
  apply (registry_resolves_back only_root reg_priced 3 101); [apply reg_priced_reachable | by vm_compute].
Defined.
Lemma fee_assets_are_priced_witness : payment_is_supported reg_priced 7 = true /\ SupportedFeePaymentAssets reg_priced = [3; 7].
Proof.
  split; [| by vm_compute]. apply (fee_assets_are_priced only_root reg_priced 7); [apply reg_priced_reachable |].
  by exists 20; vm_compute.
Defined.

(** A second asset may be registered for a type that already stands for another one: the first one keeps the type, but the
    type no longer resolves to it, and deregistering either leaves the other one unresolved. *)
Example second_asset_takes_type :
  let s := reg_run (CallRegisterAsset 102 7) reg_one in
  get_asset_type s 100 = Some 7 /\ get_asset_id s 7 = Some 102 /\
  get_asset_id (reg_run (CallDeregisterAsset 100) s) 7 = None /\
  get_asset_type (reg_run (CallDeregisterAsset 100) s) 102 = Some 7.
Proof. by vm_compute. Qed.

(** Updating an asset to the type it already has removes the way back from the type to the asset. *)
Example same_type_update_unresolves :
  let s := reg_run (CallUpdateAssetType 100 7) reg_one in
  get_asset_type s 100 = Some 7 /\ get_asset_id s 7 = None.
Proof. by vm_compute. Qed.
End instances.
