(* ===== verification/XcmHelper.v ===== *)
(** * Messages to the relay chain (src/pallets/xcm-helper/src/lib.rs, src/pallets/traits/src/ump.rs)

    The pallets that act on the relay chain (crowdloans, liquid staking) send it messages through
    this pallet.  A message withdraws the fee, buys execution, runs one or two calls with the
    parachain's account and returns what is left; its outcome is reported back under a fresh query.

    The class [XcmHelper] is the source's trait, [XcmHelperLaws] what its clients rely on, and
    [xcm_helper_laws] that the pallet provides it.  [pallet_xcm], the router that sends messages
    and the SCALE codec are not part of the repository: the first two are the class [PalletXcm]
    with its laws, the codec and the conversions of accounts are fields of [Config]. *)

From S2P Require Import Prelude Arith Frame Ledger.
Import XcmHelperErrors.

(** ** Data of xcm and of the calls of the relay chain *)

Abbreviation ParaId := Z (only parsing).
Abbreviation QueryId := Z (only parsing).
Abbreviation EraIndex := Z (only parsing).
Abbreviation DerivativeIndex := Z (only parsing).
(** A call of this chain, here one to be notified *)
Abbreviation RuntimeCall := Z (only parsing).
(** [T::Lookup::Source] *)
Abbreviation Source := Z (only parsing).

Record MultiLocation := mkMultiLocation { parents : Z; interior : list Z }.
#[global] Instance MultiLocation_eq_dec : EqDecision MultiLocation.
Proof. solve_decision. Defined.
#[global] Instance MultiLocation_countable : Countable MultiLocation.
Proof.
  apply (inj_countable' (fun l => (parents l, interior l)) (fun p => mkMultiLocation p.1 p.2)).
  by intros [].
Defined.
Definition here : MultiLocation := mkMultiLocation 0 [].
Definition parent : MultiLocation := mkMultiLocation 1 [].

Inductive NetworkId := Polkadot | Kusama | OtherNetwork (id : Z).

(** [Weight]: time and proof size *)
Record Weight := mkWeight { ref_time : Z; proof_size : Z }.
Definition weight_is_zero (w : Weight) : bool := (ref_time w =? 0) && (proof_size w =? 0).

Module Ump.

Inductive RewardDestination := Staked | Stash | Controller | Account (who : AccountId) | NoReward.

Inductive StakingCall :=
| Bond (controller : Source) (value : Z) (payee : RewardDestination)
| BondExtra (value : Z)
| Unbond (value : Z)
| WithdrawUnbonded (num_slashing_spans : Z)
| Nominate (targets : list Source)
| PayoutStakers (validator_stash : AccountId) (era : Z)
| Rebond (value : Z).

Inductive BalancesCall :=
| TransferKeepAlive (dest : Source) (value : Z)
| TransferAll (dest : Source) (keep_alive : bool).

Inductive CrowdloansCall :=
| Contribute (index : ParaId) (value : Z) (signature : option (list Z))
| Withdraw (who : AccountId) (index : ParaId)
| AddMemo (index : ParaId) (memo : list Z).

Inductive SystemCall := Remark (remark : list Z).

Inductive ProxyType := Any | NonTransfer | Governance | StakingProxy.

Inductive ProxyCall (C : Type) :=
| Proxy (real : AccountId) (force_proxy_type : option ProxyType) (call : C)
| AddProxy (delegate : AccountId) (proxy_type : option ProxyType) (delay : BlockNumber)
| RemoveProxy (delegate : AccountId) (proxy_type : option ProxyType) (delay : BlockNumber).
Arguments Proxy {C}.
Arguments AddProxy {C}.
Arguments RemoveProxy {C}.

Inductive UtilityCall (C : Type) :=
| AsDerivative (index : Z) (call : C)
| BatchAll (calls : list C).
Arguments AsDerivative {C}.
Arguments BatchAll {C}.

(** [PolkadotCall] and [KusamaCall]: the same calls under different indices *)
Inductive RelaychainCall :=
| System (c : SystemCall)
| Balances (c : BalancesCall)
| Staking (c : StakingCall)
| ProxyC (c : ProxyCall RelaychainCall)
| Utility (c : UtilityCall RelaychainCall)
| Crowdloans (c : CrowdloansCall).

Inductive XcmCall :=
| XBond | XBondExtra | XUnbond | XRebond | XWithdrawUnbonded | XNominate | XContribute | XWithdraw
| XAddMemo | XTransferToSiblingchain (l : MultiLocation) | XProxy | XAddProxy | XRemoveProxy.
#[global] Instance XcmCall_eq_dec : EqDecision XcmCall.
Proof. solve_decision. Defined.
Definition XcmCall_code (c : XcmCall) : nat * option MultiLocation :=
  match c with
  | XBond => (0, None) | XBondExtra => (1, None) | XUnbond => (2, None) | XRebond => (3, None)
  | XWithdrawUnbonded => (4, None) | XNominate => (5, None) | XContribute => (6, None)
  | XWithdraw => (7, None) | XAddMemo => (8, None) | XTransferToSiblingchain l => (9, Some l)
  | XProxy => (10, None) | XAddProxy => (11, None) | XRemoveProxy => (12, None)
  end%nat.
Definition XcmCall_decode (p : nat * option MultiLocation) : option XcmCall :=
  match p with
  | (9%nat, Some l) => Some (XTransferToSiblingchain l)
  | (n, _) => [XBond; XBondExtra; XUnbond; XRebond; XWithdrawUnbonded; XNominate; XContribute;
               XWithdraw; XAddMemo; XAddMemo; XProxy; XAddProxy; XRemoveProxy] !! n
  end.
#[global] Instance XcmCall_countable : Countable XcmCall.
Proof. apply (inj_countable XcmCall_code XcmCall_decode). by intros []. Defined.

Record XcmWeightFeeMisc := mkXcmWeightFeeMisc { weight : Weight; fee : Balance }.
Definition XcmWeightFeeMisc_default : XcmWeightFeeMisc :=
  mkXcmWeightFeeMisc (mkWeight 20000000000 (64 * 1024)) 15000000000.
End Ump.
Import Ump.

(** ** Messages *)

Record MultiAsset := mkMultiAsset { asset_location : MultiLocation; asset_amount : Balance }.

(** The instructions the pallet uses; a [Transact] runs an encoded call with the account of the
    sender, a [BuyExecution] has no weight limit. *)
Inductive Instruction :=
| WithdrawAsset (asset : MultiAsset)
| BuyExecution (fees : MultiAsset)
| Transact (require_weight_at_most : Weight) (call : list Z)
| RefundSurplus
| DepositAsset (assets : MultiAsset) (beneficiary : MultiLocation)
| SetAppendix (appendix : list Instruction)
| ReportError (destination : MultiLocation) (query_id : QueryId) (max_weight : Weight).
Abbreviation Xcm := (list Instruction) (only parsing).

(** What the pallet uses of [pallet_xcm] and of the router of messages *)
Class PalletXcm (L : Type) := {
  new_notify_query : MultiLocation -> RuntimeCall -> BlockNumber -> MultiLocation -> L -> QueryId * L;
  send_xcm : MultiLocation -> Xcm -> L -> option L;
  query_counter : L -> QueryId;
}.
(** Queries are numbered consecutively; neither opening a query nor sending a message nor the ledger
    interferes with the others. *)
Class PalletXcmLaws (L : Type) {F : Fungibles L} {P : PalletXcm L} : Prop := {
  new_query_id r n t q l : (new_notify_query r n t q l).1 = query_counter l;
  new_query_next r n t q l : query_counter (new_notify_query r n t q l).2 = query_counter l + 1;
  new_query_ledger r n t q l a x : balance (new_notify_query r n t q l).2 a x = balance l a x;
  new_query_issuance r n t q l a :
    total_issuance (new_notify_query r n t q l).2 a = total_issuance l a;
  send_next d m l l' : send_xcm d m l = Some l' -> query_counter l' = query_counter l;
  send_ledger d m l l' a x : send_xcm d m l = Some l' -> balance l' a x = balance l a x;
  send_issuance d m l l' a : send_xcm d m l = Some l' -> total_issuance l' a = total_issuance l a;
  transfer_next a f t amt k l l' : transfer a f t amt k l = Ok l' -> query_counter l' = query_counter l;
  mint_next a w amt l l' : mint_into a w amt l = Ok l' -> query_counter l' = query_counter l;
  burn_next a w amt l l' : burn_from a w amt l = Ok l' -> query_counter l' = query_counter l;
}.

(** ** Answers of the relay chain

    An answer comes with the origin of its location ([pallet_xcm::ensure_response]). *)

Inductive XcmOrigin := ResponseOrigin (l : MultiLocation) | SystemOrigin (o : RuntimeOrigin).
Inductive Response := ExecutionResult (res : option (Z * Z)) | OtherResponse.

(** [ensure_response(origin).or_else(|_| allowed.ensure_origin(origin).map(|_| here()))] *)
Definition ensure_response_or (allowed : RuntimeOrigin -> bool) (origin : XcmOrigin) : Res MultiLocation :=
  match origin with
  | ResponseOrigin l => Ok l
  | SystemOrigin o => _ ← ensure_origin allowed o; Ok here
  end.

(** ** The trait [XcmHelper]

    [X] is the state of the chain that the operations change. *)

Class XcmHelperTrait (X : Type) := {
  xcm_add_fees : AccountId -> Balance -> X -> Res X;
  xcm_withdraw : ParaId -> AccountId -> RuntimeCall -> X -> Res (QueryId * X);
  xcm_contribute : ParaId -> Balance -> AccountId -> RuntimeCall -> X -> Res (QueryId * X);
  xcm_proxy_contribute : ParaId -> Balance -> AccountId -> RuntimeCall -> X -> Res (QueryId * X);
  xcm_bond : Balance -> RewardDestination -> AccountId -> DerivativeIndex -> RuntimeCall -> X ->
    Res (QueryId * X);
  xcm_bond_extra : Balance -> AccountId -> DerivativeIndex -> RuntimeCall -> X -> Res (QueryId * X);
  xcm_unbond : Balance -> DerivativeIndex -> RuntimeCall -> X -> Res (QueryId * X);
  xcm_rebond : Balance -> DerivativeIndex -> RuntimeCall -> X -> Res (QueryId * X);
  xcm_withdraw_unbonded : Z -> AccountId -> DerivativeIndex -> RuntimeCall -> X -> Res (QueryId * X);
  xcm_nominate : list AccountId -> DerivativeIndex -> RuntimeCall -> X -> Res (QueryId * X);
  xcm_add_proxy : AccountId -> option ProxyType -> BlockNumber -> RuntimeCall -> X -> Res (QueryId * X);
  xcm_remove_proxy : AccountId -> option ProxyType -> BlockNumber -> RuntimeCall -> X ->
    Res (QueryId * X);
}.

(** The operations that send a message *)
Inductive xcm_request {X} `{XcmHelperTrait X} : (X -> Res (QueryId * X)) -> Prop :=
| req_withdraw p a n : xcm_request (xcm_withdraw p a n)
| req_contribute p v a n : xcm_request (xcm_contribute p v a n)
| req_proxy_contribute p v a n : xcm_request (xcm_proxy_contribute p v a n)
| req_bond v p a i n : xcm_request (xcm_bond v p a i n)
| req_bond_extra v a i n : xcm_request (xcm_bond_extra v a i n)
| req_unbond v i n : xcm_request (xcm_unbond v i n)
| req_rebond v i n : xcm_request (xcm_rebond v i n)
| req_withdraw_unbonded k a i n : xcm_request (xcm_withdraw_unbonded k a i n)
| req_nominate ts i n : xcm_request (xcm_nominate ts i n)
| req_add_proxy d t b n : xcm_request (xcm_add_proxy d t b n)
| req_remove_proxy d t b n : xcm_request (xcm_remove_proxy d t b n).

(** What a client relies on: a request is answered with a query that has never been used, and takes
    nothing but fees, in the relay chain's currency, from the account that collects them. *)
Class XcmHelperLaws (X : Type) {F : Fungibles X} {H : XcmHelperTrait X} := {
  xcm_account : AccountId;
  xcm_currency : CurrencyId;
  next_query : X -> QueryId;
  request_query f x q x' : xcm_request f -> f x = Ok (q, x') -> q = next_query x /\ next_query x' = q + 1;
  request_balance f x q x' a who : xcm_request f -> f x = Ok (q, x') ->
    a <> xcm_currency \/ who <> xcm_account -> balance x' a who = balance x a who;
  request_issuance f x q x' a : xcm_request f -> f x = Ok (q, x') ->
    a <> xcm_currency -> total_issuance x' a = total_issuance x a;
  add_fees_transfer who amt x : xcm_add_fees who amt x = transfer xcm_currency who xcm_account amt false x;
  transfer_query a f t amt k x x' : transfer a f t amt k x = Ok x' -> next_query x' = next_query x;
  mint_query a w amt x x' : mint_into a w amt x = Ok x' -> next_query x' = next_query x;
  burn_query a w amt x x' : burn_from a w amt x = Ok x' -> next_query x' = next_query x;
}.

(** ** The pallet *)

Module XcmHelper.

Record Config := mkConfig {
  RelayNetwork : NetworkId;
  account_id : AccountId;
  RefundLocation : AccountId;
  AccountIdToMultiLocation : AccountId -> MultiLocation;
  NotifyTimeout : BlockNumber;
  UpdateOrigin : RuntimeOrigin -> bool;
  RelayCurrency : CurrencyId;
  (** [UniversalLocation::get().invert_target] *)
  invert_target : MultiLocation -> option MultiLocation;
  (** [call.get_dispatch_info().weight] *)
  dispatch_weight : RuntimeCall -> Weight;
  (** [T::Lookup::unlookup] *)
  unlookup : AccountId -> Source;
  (** [AccountId::try_from(&who.encode()[..])] *)
  to_relay_account : AccountId -> option AccountId;
  (** [call.encode()] for a call of the relay chain of a network *)
  encode : NetworkId -> RelaychainCall -> list Z;
}.

Inductive Event := XcmWeightFeeUpdated (m : XcmWeightFeeMisc).

Record State (L : Type) := mkState {
  XcmWeightFee : gmap XcmCall XcmWeightFeeMisc;
  chain : L;
  events : list Event;
}.
Arguments mkState {L}.
Arguments XcmWeightFee {L}.
Arguments chain {L}.
Arguments events {L}.

(** [v.insert(i, x)], which panics beyond the end *)
Definition vec_insert {A} (i : nat) (x : A) (v : list A) : Res (list A) :=
  if (i <=? length v)%nat then Ok (take i v ++ x :: drop i v) else Panic.

Section pallet.
Context {L : Type} {FU : Fungibles L} {PX : PalletXcm L}.
Variable T : Config.

Abbreviation St := (State L).
Abbreviation Run := (M St DispatchError).

Definition on_chain (f : L -> Res L) : Run unit := fun s =>
  match f (chain s) with
  | Ok l => Ok (tt, mkState (XcmWeightFee s) l (events s)) | Err e => Err e | Panic => Panic
  end.
Definition xcm_weight_fee (s : St) (c : XcmCall) : XcmWeightFeeMisc :=
  default XcmWeightFeeMisc_default (XcmWeightFee s !! c).

Definition update_xcm_weight_fee (origin : RuntimeOrigin) (xcm_call : XcmCall)
    (misc : XcmWeightFeeMisc) : Run unit :=
  _ ← lift (ensure_origin (UpdateOrigin T) origin);
  _ ← lift (ensure (negb (fee misc =? 0)) (XcmHelper ZeroXcmFees));
  _ ← lift (ensure (negb (weight_is_zero (weight misc))) (XcmHelper ZeroXcmWeightMisc));
  modify (fun s => mkState (<[xcm_call := misc]> (XcmWeightFee s)) (chain s)
                     (events s ++ [XcmWeightFeeUpdated misc])).

Definition refund_location : MultiLocation := AccountIdToMultiLocation T (RefundLocation T).

Definition report_outcome_notify (message : Xcm) (responder : MultiLocation) (notify : RuntimeCall)
    (timeout : BlockNumber) : Run (QueryId * Xcm) :=
  destination ← lift (ok_or (invert_target T responder) (XcmHelper MultiLocationNotInvertible));
  let max_weight := dispatch_weight T notify in
  s ← get;
  let '(query_id, l) := new_notify_query responder notify timeout here (chain s) in
  _ ← put (mkState (XcmWeightFee s) l (events s));
  message ← lift (vec_insert 2 (SetAppendix [ReportError destination query_id max_weight]) message);
  mret (query_id, message).

Definition get_xcm_weight_fee_to_sibling (s : St) (location : MultiLocation) : XcmWeightFeeMisc :=
  xcm_weight_fee s (XTransferToSiblingchain location).

Definition append_transact (message : Xcm) (call : list Z) (w : Weight) : Res Xcm :=
  vec_insert 3 (Transact w call) message.

Definition add_xcm_fees (payer : AccountId) (amount : Balance) : Run unit :=
  on_chain (transfer (RelayCurrency T) payer (account_id T) amount false).

Definition do_ump_transact (call : list Z) (w : Weight) (beneficiary : MultiLocation) (fees : Balance)
    : Run Xcm :=
  let asset := mkMultiAsset here fees in
  _ ← on_chain (fun l => map_err (burn_from (RelayCurrency T) (account_id T) fees l)
                           (XcmHelper InsufficientXcmFees));
  mret [WithdrawAsset asset; BuyExecution asset; Transact w call; RefundSurplus;
        DepositAsset asset beneficiary].

(** The end of every request: open a query, send the message to the relay chain *)
Definition send_request (msg : Xcm) (notify : RuntimeCall) : Run QueryId :=
  '(query_id, msg) ← report_outcome_notify msg parent notify (NotifyTimeout T);
  _ ← on_chain (fun l => ok_or (send_xcm parent msg l) (XcmHelper SendFailure));
  mret query_id.

(** [switch_relay!]: the calls are encoded for the relay chain of the runtime's network *)
Definition switch_relay {A} (code : NetworkId -> Run A) : Run A :=
  match RelayNetwork T with
  | Polkadot => code Polkadot
  | Kusama => code Kusama
  | OtherNetwork _ => lift Panic
  end.

(** A request of one call, and one of two calls *)
Definition request_one (kind : XcmCall) (call : RelaychainCall) (notify : RuntimeCall) : Run QueryId :=
  s ← get;
  let misc := xcm_weight_fee s kind in
  switch_relay (fun net =>
    msg ← do_ump_transact (encode T net call) (weight misc) refund_location (fee misc);
    send_request msg notify).
Definition request_two (kind : XcmCall) (call1 call2 : RelaychainCall) (notify : RuntimeCall)
    : Run QueryId :=
  s ← get;
  let misc := xcm_weight_fee s kind in
  switch_relay (fun net =>
    msg ← do_ump_transact (encode T net call1) (weight misc) refund_location (fee misc);
    msg ← lift (append_transact msg (encode T net call2) (weight misc));
    send_request msg notify).

Definition do_add_proxy (delegate : AccountId) (proxy_type : option ProxyType) (delay : BlockNumber)
    : RuntimeCall -> Run QueryId :=
  request_one XAddProxy (ProxyC (AddProxy delegate proxy_type delay)).
Definition do_remove_proxy (delegate : AccountId) (proxy_type : option ProxyType)
    (delay : BlockNumber) : RuntimeCall -> Run QueryId :=
  request_one XRemoveProxy (ProxyC (RemoveProxy delegate proxy_type delay)).
Definition do_withdraw (para_id : ParaId) (para_account_id : AccountId) : RuntimeCall -> Run QueryId :=
  request_one XWithdraw (Crowdloans (Withdraw para_account_id para_id)).
Definition do_contribute (para_id : ParaId) (amount : Balance) (_who : AccountId)
    : RuntimeCall -> Run QueryId :=
  request_one XContribute (Crowdloans (Contribute para_id amount None)).
Definition do_proxy_contribute (para_id : ParaId) (amount : Balance) (who : AccountId)
    (notify : RuntimeCall) : Run QueryId :=
  real ← lift (ok_or (to_relay_account T who) (XcmHelper ConvertAccountError));
  request_two XContribute
    (Balances (TransferKeepAlive (unlookup T who) amount))
    (ProxyC (Proxy real None (Crowdloans (Contribute para_id amount None)))) notify.
Definition do_bond (value : Balance) (payee : RewardDestination) (stash : AccountId)
    (index : DerivativeIndex) : RuntimeCall -> Run QueryId :=
  let controller := stash in
  request_two XBond
    (Balances (TransferKeepAlive (unlookup T stash) value))
    (Utility (AsDerivative index (Staking (Bond (unlookup T controller) value payee)))).
Definition do_bond_extra (value : Balance) (stash : AccountId) (index : DerivativeIndex)
    : RuntimeCall -> Run QueryId :=
  request_two XBondExtra
    (Balances (TransferKeepAlive (unlookup T stash) value))
    (Utility (AsDerivative index (Staking (BondExtra value)))).
Definition do_unbond (value : Balance) (index : DerivativeIndex) : RuntimeCall -> Run QueryId :=
  request_one XUnbond (Utility (AsDerivative index (Staking (Unbond value)))).
Definition do_rebond (value : Balance) (index : DerivativeIndex) : RuntimeCall -> Run QueryId :=
  request_one XRebond (Utility (AsDerivative index (Staking (Rebond value)))).
Definition do_withdraw_unbonded (num_slashing_spans : Z) (para_account_id : AccountId)
    (index : DerivativeIndex) : RuntimeCall -> Run QueryId :=
  request_two XWithdrawUnbonded
    (Utility (AsDerivative index (Staking (WithdrawUnbonded num_slashing_spans))))
    (Utility (AsDerivative index (Balances (TransferAll (unlookup T para_account_id) true)))).
Definition do_nominate (targets : list AccountId) (index : DerivativeIndex) : RuntimeCall -> Run QueryId :=
  let targets_source := map (unlookup T) targets in
  request_one XNominate (Utility (AsDerivative index (Staking (Nominate targets_source)))).
End pallet.
End XcmHelper.
Import XcmHelper.

(** ** The message of a request *)

(** A request withdraws its fee, runs the calls in order and returns what is left; the appendix
    reports the outcome whether or not a call fails. *)
Definition request_message (T : Config) (net : NetworkId) (misc : XcmWeightFeeMisc)
    (destination : MultiLocation) (q : QueryId) (notify : RuntimeCall) (calls : list RelaychainCall)
    : Xcm :=
  let asset := mkMultiAsset here (fee misc) in
  [WithdrawAsset asset; BuyExecution asset;
   SetAppendix [ReportError destination q (dispatch_weight T notify)]] ++
  map (fun c => Transact (weight misc) (encode T net c)) calls ++
  [RefundSurplus; DepositAsset asset (refund_location T)].

Section requests.
Context {L : Type} {FU : Fungibles L} {PX : PalletXcm L}.
Context (T : Config).
Implicit Types s : State L.

(** What each operation asks of the relay chain, under which fee *)
Inductive asks : M (State L) DispatchError QueryId -> XcmCall -> RuntimeCall -> list RelaychainCall -> Prop :=
| asks_add_proxy d t b n : asks (do_add_proxy T d t b n) XAddProxy n [ProxyC (AddProxy d t b)]
| asks_remove_proxy d t b n : asks (do_remove_proxy T d t b n) XRemoveProxy n [ProxyC (RemoveProxy d t b)]
| asks_withdraw p a n : asks (do_withdraw T p a n) XWithdraw n [Crowdloans (Withdraw a p)]
| asks_contribute p v a n : asks (do_contribute T p v a n) XContribute n [Crowdloans (Contribute p v None)]
| asks_proxy_contribute p v a n r : to_relay_account T a = Some r ->
    asks (do_proxy_contribute T p v a n) XContribute n
      [Balances (TransferKeepAlive (unlookup T a) v);
       ProxyC (Proxy r None (Crowdloans (Contribute p v None)))]
| asks_bond v p a i n : asks (do_bond T v p a i n) XBond n
      [Balances (TransferKeepAlive (unlookup T a) v);
       Utility (AsDerivative i (Staking (Bond (unlookup T a) v p)))]
| asks_bond_extra v a i n : asks (do_bond_extra T v a i n) XBondExtra n
      [Balances (TransferKeepAlive (unlookup T a) v); Utility (AsDerivative i (Staking (BondExtra v)))]
| asks_unbond v i n : asks (do_unbond T v i n) XUnbond n [Utility (AsDerivative i (Staking (Unbond v)))]
| asks_rebond v i n : asks (do_rebond T v i n) XRebond n [Utility (AsDerivative i (Staking (Rebond v)))]
| asks_withdraw_unbonded k a i n : asks (do_withdraw_unbonded T k a i n) XWithdrawUnbonded n
      [Utility (AsDerivative i (Staking (WithdrawUnbonded k)));
       Utility (AsDerivative i (Balances (TransferAll (unlookup T a) true)))]
| asks_nominate ts i n : asks (do_nominate T ts i n) XNominate n
      [Utility (AsDerivative i (Staking (Nominate (map (unlookup T) ts))))].

(** The run of a request: the fee is burnt, a query is opened, the message is sent. *)
Definition request_run (kind : XcmCall) (notify : RuntimeCall) (calls : list RelaychainCall)
    s (q : QueryId) s' : Prop :=
  exists destination l1 l2,
    let misc := xcm_weight_fee s kind in
    (RelayNetwork T = Polkadot \/ RelayNetwork T = Kusama) /\
    invert_target T parent = Some destination /\
    burn_from (RelayCurrency T) (account_id T) (fee misc) (chain s) = Ok l1 /\
    new_notify_query parent notify (NotifyTimeout T) here l1 = (q, l2) /\
    send_xcm parent (request_message T (RelayNetwork T) misc destination q notify calls) l2
      = Some (chain s') /\
    XcmWeightFee s' = XcmWeightFee s /\ events s' = events s.

Lemma on_chain_Ok f s u s' :
  on_chain f s = Ok (u, s') <-> exists l, f (chain s) = Ok l /\ s' = mkState (XcmWeightFee s) l (events s).
Proof. unfold on_chain. destruct u, (f (chain s)) as [l| |]; naive_solver. Qed.

Lemma switch_relay_Ok {A} (code : NetworkId -> M (State L) DispatchError A) s a s' :
  switch_relay T code s = Ok (a, s') <->
  (RelayNetwork T = Polkadot \/ RelayNetwork T = Kusama) /\ code (RelayNetwork T) s = Ok (a, s').
Proof. unfold switch_relay. destruct (RelayNetwork T); cbv [lift]; naive_solver. Qed.

Lemma send_request_Ok msg notify s q s' :
  send_request T msg notify s = Ok (q, s') -> (2 <= length msg)%nat ->
  exists destination l2, invert_target T parent = Some destination /\
    new_notify_query parent notify (NotifyTimeout T) here (chain s) = (q, l2) /\
    send_xcm parent (take 2 msg ++ SetAppendix [ReportError destination q (dispatch_weight T notify)] :: drop 2 msg) l2
      = Some (chain s') /\
    XcmWeightFee s' = XcmWeightFee s /\ events s' = events s.
Proof.
  intros H Hlen. unfold send_request, report_outcome_notify in H. minv.
  destruct (new_notify_query parent notify (NotifyTimeout T) here (chain _)) as [q' l2] eqn:Hq. minv.
  unfold vec_insert in *. rewrite (proj2 (Nat.leb_le _ _)) in * by done. minv.
  match goal with H : on_chain _ _ = _ |- _ => apply on_chain_Ok in H as (l & Hs & ->) end. minv.
  eauto 10.
Qed.

Lemma request_one_Ok kind call notify s q s' :
  request_one T kind call notify s = Ok (q, s') -> request_run kind notify [call] s q s'.
Proof.
  intros H. unfold request_one, do_ump_transact in H. minv.
  match goal with H : switch_relay _ _ _ = _ |- _ => apply switch_relay_Ok in H as [Hn H] end. minv.
  match goal with H : on_chain _ _ = _ |- _ => apply on_chain_Ok in H as (l1 & Hb & ->) end. minv.
  match goal with H : send_request _ _ _ _ = _ |- _ =>
    apply send_request_Ok in H as (d & l2 & Hd & Hq & Hs & Hf & He); [| simpl; lia] end.
  exists d, l1, l2. cbn in *. repeat split; auto.
Qed.

Lemma request_two_Ok kind call1 call2 notify s q s' :
  request_two T kind call1 call2 notify s = Ok (q, s') -> request_run kind notify [call1; call2] s q s'.
Proof.
  intros H. unfold request_two, do_ump_transact, append_transact in H. minv.
  match goal with H : switch_relay _ _ _ = _ |- _ => apply switch_relay_Ok in H as [Hn H] end. minv.
  match goal with H : on_chain _ _ = _ |- _ => apply on_chain_Ok in H as (l1 & Hb & ->) end. minv.
  cbn in *. minv.
  match goal with H : send_request _ _ _ _ = _ |- _ =>
    apply send_request_Ok in H as (d & l2 & Hd & Hq & Hs & Hf & He); [| simpl; lia] end.
  exists d, l1, l2. cbn in *. repeat split; auto.
Qed.

Lemma run_steps kind notify calls s q s' (H : request_run kind notify calls s q s') msg :
  msg = [WithdrawAsset (mkMultiAsset here (fee (xcm_weight_fee s kind)));
         BuyExecution (mkMultiAsset here (fee (xcm_weight_fee s kind)))] ++
        map (fun c => Transact (weight (xcm_weight_fee s kind)) (encode T (RelayNetwork T) c)) calls ++
        [RefundSurplus; DepositAsset (mkMultiAsset here (fee (xcm_weight_fee s kind))) (refund_location T)] ->
  exists l1, burn_from (RelayCurrency T) (account_id T) (fee (xcm_weight_fee s kind)) (chain s) = Ok l1 /\
    send_request T msg notify (mkState (XcmWeightFee s) l1 (events s)) = Ok (q, s').
Proof.
  intros ->. destruct H as (d & l1 & l2 & _ & Hd & Hb & Hq & Hs & Hf & He). exists l1. split; [done |].
  unfold send_request, report_outcome_notify. cbv [mbind M_bind lift get put mret M_ret on_chain].
  rewrite Hd. cbn -[request_message]. rewrite Hq. cbn -[request_message].
  lazymatch goal with |- context [send_xcm parent ?m l2] =>
    replace (send_xcm parent m l2) with (Some (chain s')) by (symmetry; exact Hs) end. cbn. destruct s'; cbn in *; by subst.
Qed.

Lemma switch_relay_run {A} (code : NetworkId -> M (State L) DispatchError A) s :
  RelayNetwork T = Polkadot \/ RelayNetwork T = Kusama ->
  switch_relay T code s = code (RelayNetwork T) s.
Proof. unfold switch_relay. by intros [-> | ->]. Qed.

Lemma request_one_run kind call notify s q s' :
  request_run kind notify [call] s q s' -> request_one T kind call notify s = Ok (q, s').
Proof.
  intros H. pose proof H as (_ & _ & _ & Hn & _).
  destruct (run_steps _ _ _ _ _ _ H _ eq_refl) as (l1 & Hb & Hr).
  unfold request_one. cbv [mbind M_bind get]. rewrite switch_relay_run by done.
  unfold do_ump_transact. cbv [mbind M_bind mret M_ret on_chain map_err]. by rewrite Hb.
Qed.

Lemma request_two_run kind call1 call2 notify s q s' :
  request_run kind notify [call1; call2] s q s' -> request_two T kind call1 call2 notify s = Ok (q, s').
Proof.
  intros H. pose proof H as (_ & _ & _ & Hn & _).
  destruct (run_steps _ _ _ _ _ _ H _ eq_refl) as (l1 & Hb & Hr).
  unfold request_two. cbv [mbind M_bind get]. rewrite switch_relay_run by done.
  unfold do_ump_transact. cbv [mbind M_bind mret M_ret on_chain map_err lift]. by rewrite Hb.
Qed.

#[local] Ltac by_request :=
  split; intros H'; first [ exact (request_one_Ok _ _ _ _ _ _ H') | exact (request_two_Ok _ _ _ _ _ _ _ H')
                          | exact (request_one_run _ _ _ _ _ _ H') | exact (request_two_run _ _ _ _ _ _ _ H') ].

Lemma asks_run f kind notify calls s q s' :
  asks f kind notify calls -> f s = Ok (q, s') <-> request_run kind notify calls s q s'.
Proof.
  intros Ha. destruct Ha as [ | | | |p v a n r Hr| | | | | | ]; try by_request.
  unfold do_proxy_contribute. rewrite Hr. cbv [lift ok_or mbind M_bind]. by_request.
Qed.

(** Every request to the relay chain sends exactly one message.  The request succeeds with query
    [q] if and only if the fee set for its kind can be burnt from the account that collects the
    fees, [q] is the query that the chain opens next for the notification, and the router accepts
    the message which withdraws that fee, buys execution, has the outcome of [q] reported whatever
    happens, runs the calls the operation stands for in their order (a bond is funded before it is
    made) and returns what is left of the fee.  Nothing else in the pallet changes. *)
Theorem request_sends_message f kind notify calls s q s' :
  asks f kind notify calls ->
  f s = Ok (q, s') <->
  exists destination l1 l2,
    let misc := xcm_weight_fee s kind in
    (RelayNetwork T = Polkadot \/ RelayNetwork T = Kusama) /\
    invert_target T parent = Some destination /\
    burn_from (RelayCurrency T) (account_id T) (fee misc) (chain s) = Ok l1 /\
    new_notify_query parent notify (NotifyTimeout T) here l1 = (q, l2) /\
    send_xcm parent (request_message T (RelayNetwork T) misc destination q notify calls) l2
      = Some (chain s') /\
    XcmWeightFee s' = XcmWeightFee s /\ events s' = events s.
Proof. apply asks_run. Qed.
End requests.

(** ** The pallet provides the trait *)

Section provides.
Context {L : Type} {FU : Fungibles L} {FL : FungiblesLaws L} {PX : PalletXcm L} {PL : PalletXcmLaws L}.
Context (T : Config).

Definition set_chain (l : L) (s : State L) : State L := mkState (XcmWeightFee s) l (events s).
#[local] Instance xcm_fungibles : Fungibles (State L) := fungibles_inside chain set_chain.
Lemma xcm_fungibles_laws : FungiblesLaws (State L).
Proof. by apply fungibles_inside_laws. Qed.

Definition xcm_helper : XcmHelperTrait (State L) := {|
  xcm_add_fees who amt s := '(_, s') ← add_xcm_fees T who amt s; Ok s';
  xcm_withdraw := XcmHelper.do_withdraw T;
  xcm_contribute := XcmHelper.do_contribute T;
  xcm_proxy_contribute := XcmHelper.do_proxy_contribute T;
  xcm_bond := XcmHelper.do_bond T;
  xcm_bond_extra := XcmHelper.do_bond_extra T;
  xcm_unbond := XcmHelper.do_unbond T;
  xcm_rebond := XcmHelper.do_rebond T;
  xcm_withdraw_unbonded := XcmHelper.do_withdraw_unbonded T;
  xcm_nominate := XcmHelper.do_nominate T;
  xcm_add_proxy := XcmHelper.do_add_proxy T;
  xcm_remove_proxy := XcmHelper.do_remove_proxy T |}.
#[local] Existing Instance xcm_helper.

Lemma request_asks f : xcm_request f ->
  forall s q s', f s = Ok (q, s') -> exists kind notify calls, request_run T kind notify calls s q s'.
Proof.
  destruct 1; intros s q s' Hf; cbn in Hf;
    try (eexists _, _, _; eapply asks_run; [constructor | exact Hf]; fail).
  destruct (to_relay_account T a) as [r|] eqn:Hr.
  - eexists _, _, _. eapply asks_run; [by constructor | exact Hf].
  - unfold XcmHelper.do_proxy_contribute in Hf. by rewrite Hr in Hf.
Qed.

Lemma request_run_effect kind notify calls s q s' :
  request_run T kind notify calls s q s' ->
  q = query_counter (chain s) /\ query_counter (chain s') = q + 1 /\
  (forall a who, a <> RelayCurrency T \/ who <> account_id T ->
     balance (chain s') a who = balance (chain s) a who) /\
  (forall a, a <> RelayCurrency T -> total_issuance (chain s') a = total_issuance (chain s) a).
Proof.
  intros (d & l1 & l2 & _ & _ & Hb & Hq & Hs & _).
  pose proof (new_query_id parent notify (NotifyTimeout T) here l1) as H1.
  pose proof (new_query_next parent notify (NotifyTimeout T) here l1) as H2.
  pose proof (new_query_ledger parent notify (NotifyTimeout T) here l1) as H3.
  pose proof (new_query_issuance parent notify (NotifyTimeout T) here l1) as H4.
  rewrite Hq in H1, H2, H3, H4. cbn in *.
  repeat split.
  - rewrite H1. by eapply burn_next.
  - rewrite (send_next _ _ _ _ Hs). congruence.
  - intros a who Hne. rewrite (send_ledger _ _ _ _ a who Hs), H3. by eapply burn_from_frame.
  - intros a Hne. rewrite (send_issuance _ _ _ _ a Hs), H4. by eapply burn_from_issuance_frame.
Qed.

Lemma provided_request f s q s' : xcm_request f -> f s = Ok (q, s') ->
  q = query_counter (chain s) /\ query_counter (chain s') = q + 1 /\
  (forall a who, a <> RelayCurrency T \/ who <> account_id T -> balance s' a who = balance s a who) /\
  (forall a, a <> RelayCurrency T -> total_issuance s' a = total_issuance s a).
Proof. intros Hf (? & ? & ? & H)%request_asks; [| done]. by apply request_run_effect in H. Qed.
Lemma provided_fees who amt s :
  xcm_add_fees who amt s = transfer (RelayCurrency T) who (account_id T) amt false s.
Proof.
  cbn. unfold add_xcm_fees, on_chain, inside.
  by destruct (transfer (RelayCurrency T) who (account_id T) amt false (chain s)).
Qed.

Definition xcm_helper_provides : XcmHelperLaws (State L).
Proof.
  refine {| xcm_account := account_id T; xcm_currency := RelayCurrency T;
            next_query s := query_counter (chain s); add_fees_transfer := provided_fees |}.
  - intros f s q s' Hf H. split; by eapply provided_request.
  - intros f s q s' a who Hf H Hne. by eapply provided_request.
  - intros f s q s' a Hf H Hne. by eapply provided_request.
  - intros a f t amt k s s' (l & Ht & ->)%inside_Ok. by eapply transfer_next.
  - intros a w amt s s' (l & Ht & ->)%inside_Ok. by eapply mint_next.
  - intros a w amt s s' (l & Ht & ->)%inside_Ok. by eapply burn_next.
Defined.

(** The pallet implements the trait as its clients use it.  Every request is answered with a
    query number that was never given out before, and changes no balance but that of the account of
    the fees in the relay chain's currency, nor the supply of any other currency; fees are paid in
    by a transfer to that account; and operations on the ledger leave the queries alone.  So
    the theorems that crowdloans and liquid staking prove against the trait hold for this pallet
    over any ledger and any [pallet_xcm] with the documented behaviour. *)
Theorem xcm_helper_laws :
  exists laws : XcmHelperLaws (State L),
    xcm_account = account_id T /\ xcm_currency = RelayCurrency T /\
    forall s, next_query s = query_counter (chain s).
Proof. by exists xcm_helper_provides. Qed.
End provides.

(** ** A relay chain that records what it is sent *)

Record relay (L : Type) := mkRelay {
  relay_ledger : L;
  relay_counter : QueryId;
  relay_inbox : list (MultiLocation * Xcm);
}.
Arguments mkRelay {L}.
Arguments relay_ledger {L}.
Arguments relay_counter {L}.
Arguments relay_inbox {L}.

Section relay.
Context {L : Type} {FU : Fungibles L} {FL : FungiblesLaws L}.

Definition set_relay_ledger (l : L) (r : relay L) : relay L := mkRelay l (relay_counter r) (relay_inbox r).
Definition relay_fungibles : Fungibles (relay L) := fungibles_inside relay_ledger set_relay_ledger.
Definition relay_xcm : PalletXcm (relay L) := {|
  new_notify_query _ _ _ _ r := (relay_counter r, mkRelay (relay_ledger r) (relay_counter r + 1) (relay_inbox r));
  send_xcm d m r := Some (mkRelay (relay_ledger r) (relay_counter r) (relay_inbox r ++ [(d, m)]));
  query_counter := relay_counter |}.
#[local] Existing Instances relay_fungibles relay_xcm.

Lemma relay_fungibles_laws : FungiblesLaws (relay L).
Proof. by apply fungibles_inside_laws. Qed.

Lemma relay_xcm_laws : PalletXcmLaws (relay L).
Proof.
  constructor; try done; cbn; intros until 1;
    first [ match goal with H : inside _ _ _ _ = Ok _ |- _ => by apply inside_Ok in H as (l0 & _ & ->) end
          | by simplify_eq ].
Qed.
End relay.

(** ** Instances *)

(** The account 99 pays the fees in currency 1; a call's code is its number of calls. *)
Definition xcm_config : Config :=
  mkConfig Kusama 99 77 (fun a => mkMultiLocation 0 [a]) 1000 (fun o => match o with Root => true | _ => false end) 1
    (fun l => if bool_decide (l = parent) then Some (mkMultiLocation 0 [2085]) else None)
    (fun _ => mkWeight 1000 0) (fun a => a) Some
    (fun net c => match net, c with Kusama, Balances (TransferKeepAlive d v) => [4; 3; d; v]
                  | Kusama, Utility (AsDerivative i (Staking (BondExtra v))) => [24; 1; i; 6; 1; v]
                  | _, _ => [] end).
Definition xcm_state (l : ledger) : State (relay ledger) := mkState ∅ (mkRelay l 7 []) [].
Definition xcm_funded : ledger :=
  Ledger {[(1, 99) := 10 ^ 12; (1, 5) := 10 ^ 12]} {[1 := 2 * 10 ^ 12]}.

Section instances.
#[local] Existing Instances ledger_ops ledger_ops_laws relay_fungibles relay_fungibles_laws relay_xcm
  relay_xcm_laws xcm_fungibles.

Definition xcm_sent : State (relay ledger) :=
  match do_bond_extra xcm_config 500 42 0 3 (xcm_state xcm_funded) with
  | Ok (_, s) => s | _ => xcm_state xcm_funded end.

Lemma request_sends_message_witness :
  do_bond_extra xcm_config 500 42 0 3 (xcm_state xcm_funded) = Ok (7, xcm_sent) /\
  relay_inbox (chain xcm_sent) =
    [(parent, let asset := mkMultiAsset here 15000000000 in
       [WithdrawAsset asset; BuyExecution asset;
        SetAppendix [ReportError (mkMultiLocation 0 [2085]) 7 (mkWeight 1000 0)];
        Transact (mkWeight 20000000000 65536) [4; 3; 42; 500];
        Transact (mkWeight 20000000000 65536) [24; 1; 0; 6; 1; 500];
        RefundSurplus; DepositAsset asset (mkMultiLocation 0 [77])])] /\
  ledger_balance (relay_ledger (chain xcm_sent)) 1 99 = 10 ^ 12 - 15000000000.
Proof.
  split; [| split; vm_compute; reflexivity].
  apply (request_sends_message xcm_config _ _ _ _ (xcm_state xcm_funded) 7 xcm_sent
           (asks_bond_extra xcm_config 500 42 0 3)).
  eexists _, _, _. split; [by right |]. split; [vm_compute; reflexivity |].
  split; [vm_compute; reflexivity |]. split; [vm_compute; reflexivity |].
  split; [vm_compute; reflexivity | split; vm_compute; reflexivity].
Defined.

Lemma xcm_helper_laws_witness :
  exists laws : XcmHelperLaws (State (relay ledger)) (H := xcm_helper (L := relay ledger) xcm_config), @xcm_account _ _ _ laws = 99.
Proof. destruct (xcm_helper_laws (L := relay ledger) xcm_config) as (laws & H & _). by exists laws. Defined.
End instances.
