(* ===== verification/XcmTraits.v ===== *)
(** * XCM adapters (src/pallets/traits/src/xcm.rs)

    How messages of other chains act on this one: the conversion between locations and asset
    ids through a registry, the trader that sells execution for the first asset of a message,
    and the adapter that deposits, withdraws and moves assets in the ledger.

    The registry is the class [AssetTypeGetter] with [UnitsToWeightRatio]; the assets a message
    holds, the matching of assets and the conversion of locations to accounts belong to the XCM
    executor and are parameters. *)

From stdpp Require Import strings.
From S2P Require Import Prelude Arith Frame SortedVec XcmHelper AssetRegistry.
From stdpp Require Import list relations.
#[local] Open Scope Z_scope.

Module XcmTraits.

(** ** Assets and errors of messages *)

Inductive XcmAssetId := Concrete (location : MultiLocation) | Abstract (key : Z).
#[global] Instance XcmAssetId_eq_dec : EqDecision XcmAssetId.
Proof. solve_decision. Defined.
Inductive Fungibility := Fungible (amount : Z) | NonFungible (instance : Z).
Record XcmAsset := mkXcmAsset { asset_id : XcmAssetId; fun_ : Fungibility }.

Inductive XcmError := TooExpensive | AssetNotFound | FailedToTransactAsset (message : DispatchError + string).
Inductive Error := AccountIdConversionFailed | CurrencyIdConversionFailed.
Definition xcm_error (e : Error) : XcmError :=
  match e with
  | AccountIdConversionFailed => FailedToTransactAsset (inr "AccountIdConversionFailed"%string)
  | CurrencyIdConversionFailed => FailedToTransactAsset (inr "CurrencyIdConversionFailed"%string)
  end.

(** [xcm_executor::Assets]: the assets held while a message is executed *)
Class XcmAssets (A : Type) := {
  first_fungible : A -> option XcmAsset;
  assets_checked_sub : XcmAsset -> A -> option A;
  holding : A -> XcmAssetId -> Z;
}.
Class XcmAssetsLaws (A : Type) {XA : XcmAssets A} : Prop := {
  checked_sub_takes id n a a' b : assets_checked_sub (mkXcmAsset id (Fungible n)) a = Some a' ->
    holding a' b = holding a b - (if decide (b = id) then n else 0);
  checked_sub_enough id n a a' : assets_checked_sub (mkXcmAsset id (Fungible n)) a = Some a' -> n <= holding a id;
}.

(** ** The registry *)

Class AssetTypeGetter (X AssetType : Type) := {
  get_asset_type : X -> CurrencyId -> option AssetType;
  get_asset_id : X -> AssetType -> option CurrencyId;
}.
Class UnitsToWeightRatio (X AssetType : Type) := {
  payment_is_supported : X -> AssetType -> bool;
  get_units_per_second : X -> AssetType -> option Z;
}.

Inductive AssetType := Xcm (location : MultiLocation).
Definition AssetType_default : AssetType := Xcm here.
Definition from_location (l : MultiLocation) : AssetType := Xcm l.
Definition into_location (t : AssetType) : option MultiLocation := match t with Xcm l => Some l end.
#[global] Instance AssetType_eq_dec : EqDecision AssetType.
Proof. solve_decision. Defined.
#[global] Instance AssetType_countable : Countable AssetType.
Proof. by apply (inj_countable' (fun '(Xcm l) => l) Xcm); intros []. Defined.

(** [From<AssetType> for CurrencyId]: the first four bytes of the hash of the location, little endian *)
Definition currency_of (hash : MultiLocation -> list Z) (t : AssetType) : CurrencyId :=
  match t with Xcm l => foldr (fun b acc => b + 256 * acc) 0 (take 4 (hash l)) end.

Section conversions.
Context {X : Type} {AG : AssetTypeGetter X AssetType}.
(** [AsAssetType] *)
Definition convert_ref (x : X) (id : MultiLocation) : option CurrencyId := get_asset_id x (from_location id).
Definition reverse_ref (x : X) (what : CurrencyId) : option MultiLocation :=
  t ← get_asset_type x what; into_location t.
(** [CurrencyIdConvert] *)
Definition convert_id (x : X) (id : CurrencyId) : option MultiLocation := reverse_ref x id.
Definition convert_location (x : X) (l : MultiLocation) : option CurrencyId := convert_ref x l.
Definition convert_asset (x : X) (a : XcmAsset) : option CurrencyId :=
  match asset_id a with Concrete id => convert_location x id | Abstract _ => None end.
End conversions.

(** [AccountIdToMultiLocation]; [account_junction] is [AccountId32] *)
Definition account_location (account_junction : AccountId -> Z) (account : AccountId) : MultiLocation :=
  mkMultiLocation 0 [account_junction account].

(** [XcmAssetRegistry]: the registry stores absolute locations; local ones are prefixed with the chain *)
Section registry.
Context (pushed_front_with_interior : MultiLocation -> option MultiLocation).
Definition registry_convert (t : AssetType) : AssetType :=
  match into_location t with
  | Some location =>
      if negb (parents location =? 0) then t
      else
        let new_location := mkMultiLocation 1 (interior location) in
        from_location (default location (pushed_front_with_interior new_location))
  | None => t
  end.
Context {X : Type} {AG : AssetTypeGetter X AssetType} {UR : UnitsToWeightRatio X AssetType}.
Definition xcm_asset_registry : AssetTypeGetter X AssetType := {|
  get_asset_type := get_asset_type;
  get_asset_id x t := get_asset_id x (registry_convert t) |}.
Definition xcm_asset_registry_units : UnitsToWeightRatio X AssetType := {|
  payment_is_supported x t := payment_is_supported x (registry_convert t);
  get_units_per_second x t := get_units_per_second x (registry_convert t) |}.
End registry.

(** The pallet of the asset registry provides both. *)
Section pallet.
Context {OA : Ord AssetType}.
Definition pallet_getter : AssetTypeGetter (AssetRegistry.State (AssetType := AssetType)) AssetType := {|
  get_asset_type := AssetRegistry.get_asset_type; get_asset_id := AssetRegistry.get_asset_id |}.
Definition pallet_units : UnitsToWeightRatio (AssetRegistry.State (AssetType := AssetType)) AssetType := {|
  payment_is_supported := AssetRegistry.payment_is_supported;
  get_units_per_second := AssetRegistry.get_units_per_second |}.
End pallet.

(** ** Weight *)

Definition weight_zero : Weight := mkWeight 0 0.
Definition weight_saturating_add (a b : Weight) : Weight :=
  mkWeight (Z.min u64_max (ref_time a + ref_time b)) (Z.min u64_max (proof_size a + proof_size b)).
Definition weight_min (a b : Weight) : Weight :=
  mkWeight (Z.min (ref_time a) (ref_time b)) (Z.min (proof_size a) (proof_size b)).
Definition weight_sub (a b : Weight) : result XcmError Weight :=
  r ← or_panic (checked_sub (ref_time a) (ref_time b));
  p ← or_panic (checked_sub (proof_size a) (proof_size b));
  Ok (mkWeight r p).
Definition WEIGHT_REF_TIME_PER_SECOND : Z := 10 ^ 12.

(** ** [FirstAssetTrader] *)

Record FirstAssetTrader := mkTrader {
  bought : Weight;
  paid : option (MultiLocation * Z * Z);
}.
Definition trader_new : FirstAssetTrader := mkTrader weight_zero None.

Section trader.
Context {X : Type} {UR : UnitsToWeightRatio X AssetType} {A : Type} {XA : XcmAssets A}.

Definition buy_weight (x : X) (tr : FirstAssetTrader) (weight : Weight) (payment : A)
    : result XcmError (A * FirstAssetTrader) :=
  first_asset ← ok_or (first_fungible payment) TooExpensive;
  match asset_id first_asset, fun_ first_asset with
  | Concrete id, Fungible _ =>
      let asset_type := from_location id in
      _ ← ensure (payment_is_supported x asset_type) TooExpensive;
      units_per_second ← ok_or (get_units_per_second x asset_type) TooExpensive;
      let amount := Z.min u128_max (units_per_second * ref_time weight) / WEIGHT_REF_TIME_PER_SECOND in
      if amount =? 0 then Ok (payment, tr)
      else
        let required := mkXcmAsset (Concrete id) (Fungible amount) in
        unused ← ok_or (assets_checked_sub required payment) TooExpensive;
        let tr := mkTrader (weight_saturating_add (bought tr) weight) (paid tr) in
        let new_asset :=
          match paid tr with
          | Some (prev_id, prev_amount, units_per_second) =>
              if decide (prev_id = id) then Some (id, saturating_add prev_amount amount, units_per_second) else None
          | None => Some (id, amount, units_per_second)
          end in
        Ok (unused, match new_asset with
                    | Some _ => mkTrader (weight_saturating_add (bought tr) weight) new_asset
                    | None => tr
                    end)
  | _, _ => Err TooExpensive
  end.

(** The plain product panics when it overflows. *)
Definition refund_weight (tr : FirstAssetTrader) (weight : Weight)
    : result XcmError (option XcmAsset * FirstAssetTrader) :=
  match paid tr with
  | Some (id, prev_amount, units_per_second) =>
      let weight := weight_min weight (bought tr) in
      rest ← weight_sub (bought tr) weight;
      product ← or_panic (checked_mul units_per_second (ref_time weight));
      let amount := product / WEIGHT_REF_TIME_PER_SECOND in
      Ok (Some (mkXcmAsset (Concrete id) (Fungible amount)),
          mkTrader rest (Some (id, saturating_sub prev_amount amount, units_per_second)))
  | None => Ok (None, tr)
  end.

(** What [drop] hands to [take_revenue] *)
Definition drop_revenue (tr : FirstAssetTrader) : option XcmAsset :=
  '(id, amount, _) ← paid tr; Some (mkXcmAsset (Concrete id) (Fungible amount)).
End trader.

(** ** The ledger *)

Section ledger.
Context {X : Type} {FU : Fungibles X}.
(** [Matcher] and [ReceiverAccount] of [XcmFeesToAccount]; errors of minting are logged *)
Definition take_revenue (matches_fungibles : XcmAsset -> option (CurrencyId * Balance)) (receiver : AccountId)
    (revenue : XcmAsset) (x : X) : result XcmError X :=
  match matches_fungibles revenue with
  | Some (id, amount) =>
      if amount =? 0 then Ok x
      else match mint_into id receiver amount x with Ok x' => Ok x' | Err _ => Ok x | Panic => Panic end
  | None => Ok x
  end.

(** The parameters of [MultiCurrencyAdapter] *)
Record Adapter := mkAdapter {
  account_of : MultiLocation -> option AccountId;
  currency_id_of : X -> XcmAsset -> option CurrencyId;
  matches_fungible : XcmAsset -> option Balance;
  NativeCurrencyId : CurrencyId;
  GiftAccount : AccountId;
  to_asset_balance : Balance -> CurrencyId -> option Balance;
}.
Variable T : Adapter.

Definition transact {B} (r : Res B) : result XcmError B :=
  match r with Ok b => Ok b | Err e => Err (FailedToTransactAsset (inl e)) | Panic => Panic end.

(** The gift of native currency that comes with a deposit of the relay chain's; its errors are logged *)
Definition give_gift (who : AccountId) (currency_id : CurrencyId) (amount : Balance) (x : X) : result XcmError X :=
  let gift_amount := default 0 (to_asset_balance T amount currency_id) in
  let beneficiary_native_balance := reducible_balance x (NativeCurrencyId T) who true in
  let gift_balance := reducible_balance x (NativeCurrencyId T) (GiftAccount T) false in
  if negb (gift_amount =? 0) && (gift_balance >=? gift_amount) && (beneficiary_native_balance <? gift_amount) then
    diff ← or_panic (checked_sub gift_amount beneficiary_native_balance);
    match transfer (NativeCurrencyId T) (GiftAccount T) who diff false x with
    | Ok x' => Ok x' | Err _ => Ok x | Panic => Panic
    end
  else Ok x.

Definition deposit_asset (asset : XcmAsset) (location : MultiLocation) (x : X) : result XcmError X :=
  match account_of T location, currency_id_of T x asset, matches_fungible T asset with
  | Some who, Some currency_id, Some amount =>
      x ← (if decide (asset_id asset = Concrete parent) then give_gift who currency_id amount x else Ok x);
      transact (mint_into currency_id who amount x)
  | _, _, _ => Err AssetNotFound
  end.

Definition withdraw_asset (asset : XcmAsset) (location : MultiLocation) (x : X) : result XcmError (XcmAsset * X) :=
  amount ← ok_or (matches_fungible T asset) AssetNotFound;
  who ← ok_or (account_of T location) (xcm_error AccountIdConversionFailed);
  currency_id ← ok_or (currency_id_of T x asset) (xcm_error CurrencyIdConversionFailed);
  x ← transact (burn_from currency_id who amount x);
  Ok (asset, x).

Definition internal_transfer_asset (asset : XcmAsset) (from to : MultiLocation) (x : X)
    : result XcmError (XcmAsset * X) :=
  from_account ← ok_or (account_of T from) (xcm_error AccountIdConversionFailed);
  to_account ← ok_or (account_of T to) (xcm_error AccountIdConversionFailed);
  currency_id ← ok_or (currency_id_of T x asset) (xcm_error CurrencyIdConversionFailed);
  amount ← ok_or (matches_fungible T asset) AssetNotFound;
  x ← transact (transfer currency_id from_account to_account amount true x);
  Ok (asset, x).
End ledger.
End XcmTraits.

Section theorems.
Import XcmTraits.

(** ** Buying and refunding *)
Section trader.
Context {X : Type} {UR : UnitsToWeightRatio X AssetType} {A : Type} {XA : XcmAssets A} {XL : XcmAssetsLaws A}.

(** A sequence of refunds, with the amounts paid back *)
Fixpoint refunds (tr : FirstAssetTrader) (ws : list Weight) : result XcmError (list Z * FirstAssetTrader) :=
  match ws with
  | [] => Ok ([], tr)
  | w :: ws =>
      '(asset, tr) ← refund_weight tr w;
      '(amounts, tr) ← refunds tr ws;
      Ok (match asset with Some (mkXcmAsset _ (Fungible n)) => n :: amounts | _ => amounts end, tr)
  end.

Abbreviation total_ref ws := (sum_list_Z ref_time ws).
Abbreviation total_proof ws := (sum_list_Z proof_size ws).
Abbreviation weights_ok := (Forall (fun w => 0 <= ref_time w /\ 0 <= proof_size w)).
Abbreviation second := WEIGHT_REF_TIME_PER_SECOND.

Lemma div_sum_le u a b : 0 <= u -> 0 <= a -> 0 <= b -> u * a / second + u * b / second <= u * (a + b) / second.
Proof.
  intros Hu Ha Hb. assert (0 < second) by done. apply Z.div_le_lower_bound; [done |].
  pose proof (Z.mul_div_le (u * a) second ltac:(done)). pose proof (Z.mul_div_le (u * b) second ltac:(done)). lia.
Qed.

(** As long as no more weight is refunded than is left, every refund is the price of its weight. *)
Lemma refunds_exact ws : forall tr id n u,
  paid tr = Some (id, n, u) -> 0 <= u -> weights_ok ws -> total_ref ws <= ref_time (bought tr) ->
  total_proof ws <= proof_size (bought tr) -> u * total_ref ws <= u128_max -> u * total_ref ws / second <= n ->
  exists amounts tr', refunds tr ws = Ok (amounts, tr') /\ 0 <= sum_list_Z (fun n => n) amounts <= u * total_ref ws / second /\
    paid tr' = Some (id, n - sum_list_Z (fun n => n) amounts, u).
Proof.
  induction ws as [|w ws IH]; intros tr id n u Hp Hu Hws Hr Hpr Hmax Hn.
  { exists [], tr. cbn in *. rewrite Z.sub_0_r, Z.mul_0_r. done. }
  apply Forall_cons in Hws as [[Hw1 Hw2] Hws]. cbn in Hr, Hpr, Hmax, Hn |- *.
  fold (total_ref ws) (total_proof ws) in *.
  assert (0 <= total_ref ws) as H0 by (apply sum_list_nonneg; eapply Forall_impl; [exact Hws | by intros ? []]).
  assert (0 <= total_proof ws) as H1 by (apply sum_list_nonneg; eapply Forall_impl; [exact Hws | by intros ? []]).
  pose proof (div_sum_le u (ref_time w) (total_ref ws) Hu Hw1 H0) as Hdiv.
  assert (0 <= u * ref_time w / second) by (apply Z.div_pos; [nia | done]).
  assert (0 <= u * ref_time w /\ 0 <= u * total_ref ws) as [? ?] by (split; apply Z.mul_nonneg_nonneg; lia).
  rewrite Z.mul_add_distr_l in Hmax, Hn, Hdiv |- *.
  unfold refund_weight. rewrite Hp. unfold weight_min. rewrite !Z.min_l by lia. unfold weight_sub. cbn.
  rewrite !checked_sub_ok by lia. cbn. rewrite checked_mul_ok by lia. cbn.
  set (r := u * ref_time w / second) in *.
  destruct (IH (mkTrader (mkWeight (ref_time (bought tr) - ref_time w) (proof_size (bought tr) - proof_size w))
                 (Some (id, saturating_sub n r, u))) id (saturating_sub n r) u) as (amounts & tr' & E & Hs & Hp');
    [done | done | done | cbn; lia | cbn; lia | lia | unfold saturating_sub; lia |].
  rewrite E. cbn. exists (r :: amounts), tr'. split; [done |]. cbn. fold (sum_list_Z (fun n : Z => n) amounts) in *.
  split; [lia |]. rewrite Hp'. do 3 f_equal. unfold saturating_sub. lia.
Qed.

(** The product of a refund is a plain one. *)
Lemma refund_overflow total id n u w' :
  0 <= ref_time w' <= ref_time total -> u128_max < u * ref_time w' ->
  refund_weight (mkTrader total (Some (id, n, u))) w' = Panic.
Proof.
  intros Hw Hover. unfold refund_weight, weight_sub. cbn.
  rewrite checked_sub_ok by lia. cbn. rewrite checked_sub_ok by lia. cbn.
  rewrite Z.min_l by lia. destruct (checked_mul _ _) eqn:Hm; [| done]. apply checked_mul_Some in Hm. lia.
Qed.

(** C30: Selling execution for the first asset of a message neither creates nor loses money: after a purchase by a new
    trader and any refunds of no more than the purchased weight, what was taken from the payment is what was refunded and
    the revenue that is left, and no refund is negative; an asset that the registry does not accept for fees buys nothing.
    This is so as long as the price per second times the weight fits 128 bits.  Beyond that, refunding a part of
    the purchased weight whose product with the price does not fit panics. *)
Theorem trader_conserves_payment (x : X) w (payment unused : A) tr ws :
  buy_weight x trader_new w payment = Ok (unused, tr) -> 0 <= ref_time w <= u64_max -> 0 <= proof_size w <= u64_max ->
  (forall t u, get_units_per_second x t = Some u -> 0 <= u) ->
  weights_ok ws -> total_ref ws <= ref_time w -> total_proof ws <= proof_size w ->
  match paid tr with
  | None => unused = payment
  | Some (id, n, u) =>
      payment_is_supported x (Xcm id) = true /\
      (u * ref_time w <= u128_max ->
       exists amounts tr' revenue, refunds tr ws = Ok (amounts, tr') /\
         drop_revenue tr' = Some (mkXcmAsset (Concrete id) (Fungible revenue)) /\
         0 <= revenue /\ 0 <= sum_list_Z (fun n => n) amounts /\
         (forall b, holding payment b = holding unused b + (if decide (b = Concrete id) then sum_list_Z (fun n => n) amounts + revenue else 0))) /\
      (forall w', 0 <= ref_time w' <= ref_time w -> u128_max < u * ref_time w' -> refund_weight tr w' = Panic)
  end.
Proof.
  intros H Hw1 Hw2 Hun Hws Hr Hpr. unfold buy_weight in H. minv.
  match goal with H : (match asset_id ?a with _ => _ end) = _ |- _ => destruct (asset_id a) as [id|]; [| done]; destruct (fun_ a); [| done] end. minv.
  case_match; minv; [done |]. zbool. cbn. split; [done |].
  split; [| intros w' Hw' Hover; apply refund_overflow; [cbn; unfold u64_max in *; lia | done]]. intros Hmax.
  match goal with H : get_units_per_second _ _ = Some ?u0 |- _ => rename u0 into u; pose proof (Hun _ _ H) end.
  match goal with H : assets_checked_sub _ _ = Some _ |- _ => rename H into Hsub end. rewrite Z.min_r in * by done.
  assert (0 <= ref_time w - total_ref ws) by lia.
  assert (u * total_ref ws <= u * ref_time w) by (apply Z.mul_le_mono_nonneg_l; lia).
  assert (u * total_ref ws / second <= u * ref_time w / second) by (by apply Z.div_le_mono).
  destruct (refunds_exact ws (mkTrader (weight_saturating_add (weight_saturating_add weight_zero w) w)
              (Some (id, u * ref_time w / second, u))) id (u * ref_time w / second) u) as (amounts & tr' & E & Hs & Hp);
    [done | done | done | cbn; unfold u64_max in *; lia | cbn; unfold u64_max in *; lia | lia | done |].
  exists amounts, tr', (u * ref_time w / second - sum_list_Z (fun n => n) amounts). split; [exact E |].
  split; [unfold drop_revenue; by rewrite Hp |]. split; [lia |]. split; [lia |]. intros b.
  rewrite (checked_sub_takes _ _ _ _ b Hsub). case_decide; lia.
Qed.
End trader.

(** ** Deposits *)
Section deposits.
Context {X : Type} {FU : Fungibles X} {FL : FungiblesLaws X} (T : Adapter (X := X)).

Lemma gift_effect who c n x x' :
  give_gift T who c n x = Ok x' -> who <> GiftAccount T -> minimum_balance (NativeCurrencyId T) <= 1 ->
  (forall b y, b <> NativeCurrencyId T \/ (y <> who /\ y <> GiftAccount T) -> balance x' b y = balance x b y) /\
  (forall b, b <> NativeCurrencyId T -> total_issuance x' b = total_issuance x b) /\
  balance x (NativeCurrencyId T) (GiftAccount T) - Z.max 0 (default 0 (to_asset_balance T n c)) <=
    balance x' (NativeCurrencyId T) (GiftAccount T) /\
  balance x (NativeCurrencyId T) who <= balance x' (NativeCurrencyId T) who.
Proof.
  intros H Hne Hmin. unfold give_gift in H. case_match; minv; [| repeat split; auto; lia].
  zbool.
  pose proof (reducible_balance_range x (NativeCurrencyId T) who true).
  destruct (transfer _ _ _ _ _ x) as [x1| |] eqn:Ht; minv; [| repeat split; auto; lia].
  assert (GiftAccount T <> who) as Hne' by congruence.
  pose proof (dust_free_min_one x _ _ _ Hmin (transfer_enough _ _ _ _ _ _ _ Ht Hne')) as Hd.
  pose proof (transfer_source _ _ _ _ _ _ _ Ht Hne' Hd). pose proof (transfer_dest _ _ _ _ _ _ _ Ht Hne').
  split; [| split; [| lia]].
  - intros b y Hby. apply (transfer_frame _ _ _ _ _ _ _ b y Ht). naive_solver.
  - intros b Hbn. by apply (transfer_issuance_frame _ _ _ _ _ _ _ b Ht).
Qed.

(** A deposit credits the beneficiary with exactly the amount of the asset, newly issued; the only other
    effect is the gift of native currency, which takes no more than the gift from the gift account. *)
Lemma deposit_credits asset location x x' who c n :
  account_of T location = Some who -> currency_id_of T x asset = Some c -> matches_fungible T asset = Some n ->
  c <> NativeCurrencyId T -> who <> GiftAccount T -> minimum_balance (NativeCurrencyId T) <= 1 ->
  deposit_asset T asset location x = Ok x' ->
  balance x' c who = balance x c who + n /\ total_issuance x' c = total_issuance x c + n /\
  balance x (NativeCurrencyId T) (GiftAccount T) - Z.max 0 (default 0 (to_asset_balance T n c)) <=
    balance x' (NativeCurrencyId T) (GiftAccount T) /\
  (forall b y, b <> c \/ y <> who -> b <> NativeCurrencyId T \/ (y <> who /\ y <> GiftAccount T) -> balance x' b y = balance x b y).
Proof.
  intros Hw Hc Hm Hcn Hwg Hmin H. unfold deposit_asset in H. rewrite Hw, Hc, Hm in H. minv.
  match goal with H : transact _ = Ok _, H' : _ = Ok ?y |- _ => lazymatch type of H with context [y] => rename y into x1, H' into Hg end end.
  assert ((forall b y, b <> NativeCurrencyId T \/ (y <> who /\ y <> GiftAccount T) -> balance x1 b y = balance x b y) /\
    (forall b, b <> NativeCurrencyId T -> total_issuance x1 b = total_issuance x b) /\
    balance x (NativeCurrencyId T) (GiftAccount T) - Z.max 0 (default 0 (to_asset_balance T n c)) <=
      balance x1 (NativeCurrencyId T) (GiftAccount T)) as (H1 & H2 & H3).
  { case_decide; minv; [| split; [done |]; split; [done | lia]]. edestruct gift_effect as (? & ? & ? & ?); eauto. }
  match goal with H : transact _ = Ok _ |- _ => rename H into Hmint end.
  destruct (mint_into c who n x1) as [x2| |] eqn:Ht; cbn in Hmint; minv; try done.
  rewrite (mint_into_balance _ _ _ _ _ Ht), (mint_into_issuance _ _ _ _ _ Ht), H1, H2 by auto.
  split; [done |]. split; [done |]. split; [rewrite (mint_into_frame _ _ _ _ _ _ _ Ht) by auto; lia |].
  intros b y Hb Hy. rewrite (mint_into_frame _ _ _ _ _ _ _ Ht) by done. auto.
Qed.
End deposits.

(** ** Conversions *)

(** Making a location absolute twice is making it absolute once. *)
Lemma registry_convert_idempotent push t :
  (forall l l', push l = Some l' -> parents l' = parents l) ->
  registry_convert push (registry_convert push t) = registry_convert push t.
Proof.
  intros Hp. destruct t as [l]. unfold registry_convert. cbn. destruct (parents l =? 0) eqn:E; cbn; [| by rewrite E].
  destruct (push _) as [l'|] eqn:Hl; cbn; [by rewrite (Hp _ _ Hl) | by rewrite E, Hl].
Qed.

(** [MultiLocation::pushed_front_with_interior] of a junction: the junction is put in front, unless
    there are eight already. *)
Definition pushes (junction : Z) (push : MultiLocation -> option MultiLocation) : Prop :=
  forall l, push l = if (length (interior l) <? 8)%nat then Some (mkMultiLocation (parents l) (junction :: interior l)) else None.

(** C32: The registry behind the wrapper [XcmAssetRegistry] agrees with the pallet's, whatever the pallet's operations have
    made of it.  A local location stands for the same asset, at the same price for execution, as the location with one
    parent and this parachain in front, and the asset is turned back into that absolute location; a location with parents,
    or a local one that is too long for another junction, stands for what it is registered as and is turned back into itself. *)
Theorem locations_convert_back {OA : Ord AssetType} {OL : OrdLaws AssetType} allowed parachain push s l :
  pushes parachain push -> rtc (AssetRegistry.registry_step allowed) AssetRegistry.registry_genesis s ->
  let wrapped := xcm_asset_registry push (AG := pallet_getter) in
  let units := xcm_asset_registry_units push (UR := pallet_units) in
  exists l',
    (parents l = 0 /\ (length (interior l) < 8)%nat /\ l' = mkMultiLocation 1 (parachain :: interior l) \/
     (parents l <> 0 \/ (8 <= length (interior l))%nat) /\ l' = l) /\
    convert_location (AG := wrapped) s l = convert_location (AG := pallet_getter) s l' /\
    payment_is_supported (UnitsToWeightRatio := units) s (Xcm l) = AssetRegistry.payment_is_supported s (Xcm l') /\
    get_units_per_second (UnitsToWeightRatio := units) s (Xcm l) = AssetRegistry.get_units_per_second s (Xcm l') /\
    forall i, convert_location (AG := wrapped) s l = Some i -> convert_id (AG := wrapped) s i = Some l'.
Proof.
  intros Hp Hr wrapped units. pose proof (AssetRegistry.ri_back s (AssetRegistry.registry_reachable allowed s Hr)) as Hb.
  destruct (registry_convert push (Xcm l)) as [l'] eqn:E. exists l'.
  split; [unfold registry_convert in E; cbn [into_location] in E; rewrite Hp in E; cbn [interior parents] in E |].
  { destruct (Z.eqb_spec (parents l) 0); cbn [negb] in E; [| injection E as <-; auto].
    destruct (Nat.ltb_spec (length (interior l)) 8); cbn in E; injection E as <-; [left; auto | right; auto]. }
  unfold wrapped, units, convert_location, convert_id, convert_ref, reverse_ref, from_location. cbn [get_asset_id get_asset_type payment_is_supported get_units_per_second xcm_asset_registry
    xcm_asset_registry_units pallet_getter pallet_units]. rewrite E.
  do 3 (split; [done |]). unfold AssetRegistry.get_asset_id, AssetRegistry.get_asset_type.
  intros i H. by rewrite (Hb _ _ H).
Qed.
End theorems.

(** ** Instances *)
Section instances.
Import XcmTraits.
(** Held assets in the order of their keys *)
Abbreviation held := (list (XcmAssetId * Z)).
Fixpoint held_amount (a : held) (id : XcmAssetId) : Z :=
  match a with [] => 0 | (k, n) :: a => (if decide (id = k) then n else 0) + held_amount a id end.
Fixpoint held_sub (id : XcmAssetId) (n : Z) (a : held) : option held :=
  match a with
  | [] => None
  | (k, m) :: a =>
      if decide (id = k) then if (n <=? m) && (0 <=? held_amount a id) then Some ((k, m - n) :: a) else None
      else a' ← held_sub id n a; Some ((k, m) :: a')
  end.
#[local] Instance held_assets : XcmAssets held := {|
  first_fungible a := '(k, n) ← head a; Some (mkXcmAsset k (Fungible n));
  assets_checked_sub r a := match fun_ r with Fungible n => held_sub (asset_id r) n a | NonFungible _ => None end;
  holding := held_amount |}.
#[local] Instance held_assets_laws : XcmAssetsLaws held.
Proof.
  constructor; cbn; intros id n a; induction a as [|[k m] a IH]; intros a'; try done; cbn [held_sub held_amount].
  - intros b H. case_decide as Hk; [case_match; minv; cbn; repeat case_decide; simplify_eq; lia |].
    apply bind_Some in H as (a1 & H1 & H2). minv. cbn. rewrite (IH a1 b H1). lia.
  - intros H. case_decide as Hk; [case_match; minv; zbool; lia |].
    apply bind_Some in H as (a1 & H1 & H2). apply (IH a1 H1).
Qed.
#[local] Instance flat_units : UnitsToWeightRatio unit AssetType := {|
  payment_is_supported _ t := bool_decide (t = Xcm parent); get_units_per_second _ _ := Some (10 ^ 13) |}.

Definition some_weight : Weight := mkWeight 1000 64.
Definition some_payment : held := [(Concrete parent, 50000)].
Definition some_trader : FirstAssetTrader := mkTrader (mkWeight 2000 128) (Some (parent, 10000, 10 ^ 13)).

Lemma trader_conserves_payment_witness :
  buy_weight tt trader_new some_weight some_payment = Ok ([(Concrete parent, 40000)], some_trader) /\
  exists amounts tr' revenue, refunds some_trader [mkWeight 300 1; mkWeight 200 2] = Ok (amounts, tr') /\
    drop_revenue tr' = Some (mkXcmAsset (Concrete parent) (Fungible revenue)) /\ sum_list_Z (fun n => n) amounts + revenue = 10000.
Proof.
  split; [done |].
  destruct (trader_conserves_payment tt some_weight some_payment [(Concrete parent, 40000)] some_trader
              [mkWeight 300 1; mkWeight 200 2]) as [_ [(am & tr' & rev & H1 & H2 & _ & _ & H3) _]].
  - done.
  - done.
  - done.
  - by intros t u [= <-].
  - by repeat constructor.
  - done.
  - done.
  - done.
  - exists am, tr', rev. split; [exact H1 |]. split; [exact H2 |]. specialize (H3 (Concrete parent)). rewrite decide_True in H3 by done.
    change (holding some_payment (Concrete parent)) with 50000 in H3.
    change (holding [(Concrete parent, 40000)] (Concrete parent)) with 40000 in H3. lia.
Defined.

(** The first purchase is counted twice, so that refunding the purchased weight twice pays out twice the price. *)
Example weight_counted_twice :
  bought some_trader = mkWeight (2 * ref_time some_weight) (2 * proof_size some_weight) /\
  (exists tr', refunds some_trader [some_weight; some_weight] = Ok ([10000; 10000], tr')).
Proof. split; [done |]. eexists. by vm_compute. Qed.

Definition is_root_origin (o : RuntimeOrigin) : bool := match o with Root => true | _ => false end.

(** Types ordered by their encodings *)
#[local] Instance type_ord : Ord AssetType := fun t t' => Pos.compare (encode t) (encode t').
#[local] Instance type_ord_laws : OrdLaws AssetType.
Proof.
  constructor; unfold ord_cmp, type_ord; intros *; [| apply Pos.compare_antisym |].
  - rewrite Pos.compare_eq_iff. split; [apply (inj encode) | by intros ->].
  - rewrite !Pos.compare_lt_iff. lia.
Qed.
Definition sibling (l : MultiLocation) : option MultiLocation :=
  if (length (interior l) <? 8)%nat then Some (mkMultiLocation (parents l) (2085 :: interior l)) else None.
Definition own_registry : @AssetRegistry.State AssetType _ _ :=
  match AssetRegistry.dispatch is_root_origin Root (AssetRegistry.CallRegisterAsset 114 (Xcm (mkMultiLocation 1 [2085; 5])))
          AssetRegistry.registry_genesis with Ok (_, s) => s | _ => AssetRegistry.registry_genesis end.

Lemma locations_convert_back_witness :
  convert_location (AG := xcm_asset_registry sibling (AG := pallet_getter)) own_registry (mkMultiLocation 0 [5]) = Some 114 /\
  convert_id (AG := xcm_asset_registry sibling (AG := pallet_getter)) own_registry 114 = Some (mkMultiLocation 1 [2085; 5]).
Proof.
  split; [by vm_compute |].
  destruct (locations_convert_back is_root_origin 2085 sibling own_registry (mkMultiLocation 0 [5]))
    as (l' & [(_ & _ & ->)|([H|H] & _)] & _ & _ & _ & Hback).
  - done.
  - apply rtc_once. exists Root, (AssetRegistry.CallRegisterAsset 114 (Xcm (mkMultiLocation 1 [2085; 5]))). by vm_compute.
  - apply Hback. by vm_compute.
  - by destruct H.
  - cbn in H. lia.
Defined.
End instances.
