(* ===== verification/EvmData.v ===== *)
(** * ABI encoding (src/precompiles/utils/src/data.rs)

    The reader and the writer of EVM call data.  Values of static size are written in place;
    for the others a pointer is written, which [build] fills in when it appends what it points
    to.  Bytes are numbers from 0 to 255; [usize] is that of wasm32, for which runtimes are built. *)

From stdpp Require Import strings.
From S2P Require Import Prelude.
From stdpp Require Import list.
#[local] Open Scope Z_scope.

Module EvmData.

Abbreviation bytes := (list Z) (only parsing).
Definition usize_max : Z := u32_max.
Abbreviation EvmResult := (result string).
Definition revert {A} (output : string) : EvmResult A := Err output.

(** ** Numbers as bytes, most significant first *)

Fixpoint to_be (n : nat) (z : Z) : bytes :=
  match n with O => [] | S n => to_be n (z / 256) ++ [z mod 256] end.
Definition from_be (l : bytes) : Z := foldl (fun acc b => 256 * acc + b) 0 l.
Definition u256_max : Z := 2 ^ 256 - 1.

(** ** The reader *)

Record EvmDataReader := mkReader { input : bytes; cursor : nat }.
Abbreviation Read := (M EvmDataReader string).
Definition fits_usize (z : Z) : bool := (0 <=? z) && (z <=? usize_max).
Definition reader_new (input : bytes) : EvmDataReader := mkReader input 0.

Definition read_selector (input : bytes) : EvmResult Z :=
  if (length input <? 4)%nat then revert "tried to parse selector out of bounds"
  else Ok (from_be (take 4 input)).
Definition new_skip_selector (input : bytes) : EvmResult EvmDataReader :=
  if (length input <? 4)%nat then revert "input is too short" else Ok (reader_new (drop 4 input)).
Definition expect_arguments (r : EvmDataReader) (args : nat) : EvmResult unit :=
  if negb (fits_usize (Z.of_nat (cursor r + args * 32))) then Panic
  else if (cursor r + args * 32 <=? length (input r))%nat then Ok tt
  else revert "input doesn't match expected length".

(** [move_cursor] gives the range from the old cursor to the new one. *)
Definition move_cursor (len : nat) : Read (nat * nat) :=
  r ← get;
  if fits_usize (Z.of_nat (cursor r + len)) then
    _ ← put (mkReader (input r) (cursor r + len));
    mret (cursor r, cursor r + len)%nat
  else lift (revert "data reading cursor overflow").
(** [slice::get] of a range *)
Definition get_range (l : bytes) (range : nat * nat) : option bytes :=
  if (range.1 <=? range.2)%nat && (range.2 <=? length l)%nat then Some (take (range.2 - range.1) (drop range.1 l)) else None.
Definition read_range (len : nat) (message : string) : Read bytes :=
  range ← move_cursor len;
  r ← get;
  match get_range (input r) range with Some data => mret data | None => lift (revert message) end.
Definition read_raw_bytes (len : nat) : Read bytes := read_range len "tried to parse raw bytes out of bounds".
Definition read_till_end : Read bytes :=
  r ← get;
  _ ← lift (if (length (input r) <? cursor r)%nat then Panic else Ok tt);
  read_range (length (input r) - cursor r) "tried to parse raw bytes out of bounds".

(** [map_err] *)
Definition map_revert {A} (message : string) (m : Read A) : Read A := fun r =>
  match m r with Ok a => Ok a | Err _ => Err message | Panic => Panic end.
(** [try_into] from [U256] to [usize] *)
Definition to_usize (z : Z) (message : string) : EvmResult nat :=
  if fits_usize z then Ok (Z.to_nat z) else revert message.

Definition read_u256 : Read Z :=
  data ← read_range 32 "tried to parse U256 out of bounds";
  mret (from_be data).
Definition read_pointer : Read EvmDataReader :=
  z ← map_revert "tried to parse array offset out of bounds" read_u256;
  offset ← lift (to_usize z "array offset is too large");
  r ← get;
  if (length (input r) <=? offset)%nat then lift (revert "pointer points out of bounds")
  else mret (mkReader (drop offset (input r)) 0).

(** Runs a reader of its own, such as the one a pointer gives *)
Definition read_with {A} (r : EvmDataReader) (m : Read A) : Read A :=
  '(a, _) ← lift (m r); mret a.

(** ** The writer *)

Record OffsetDatum := mkDatum { offset_position : nat; datum : bytes; offset_shift : nat }.
Record EvmDataWriter := mkWriter { data : bytes; offset_data : list OffsetDatum; selector : option Z }.
Definition writer_new : EvmDataWriter := mkWriter [] [] None.
Definition new_with_selector (selector : Z) : EvmDataWriter := mkWriter [] [] (Some selector).

(** An assignment to a range of a vector; indices out of range panic *)
Definition splice (pos : nat) (bs out : bytes) : bytes := take pos out ++ bs ++ drop (pos + length bs) out.
Fixpoint bake_offsets (output : bytes) (offsets : list OffsetDatum) : EvmResult bytes :=
  match offsets with
  | [] => Ok output
  | d :: offsets =>
      if (length output <? offset_shift d)%nat || (length output <? offset_position d + 32)%nat then Panic
      else
        let free_space_offset := (length output - offset_shift d)%nat in
        bake_offsets (splice (offset_position d) (to_be 32 (Z.of_nat free_space_offset)) output ++ datum d) offsets
  end.
Definition build (w : EvmDataWriter) : EvmResult bytes :=
  out ← bake_offsets (data w) (offset_data w);
  Ok (match selector w with Some s => to_be 4 s ++ out | None => out end).
Definition write_raw_bytes (value : bytes) (w : EvmDataWriter) : EvmDataWriter :=
  mkWriter (data w ++ value) (offset_data w) (selector w).
Definition write_pointer (d : bytes) (w : EvmDataWriter) : EvmDataWriter :=
  mkWriter (data w ++ repeat 255 32) (offset_data w ++ [mkDatum (length (data w)) d 0]) (selector w).

(** ** The trait *)

Class EvmData (A : Type) := {
  evm_read : Read A;
  evm_write : A -> EvmDataWriter -> EvmResult EvmDataWriter;
  has_static_size : bool;
}.
Arguments has_static_size A {_}.

Record H256 := mkH256 { h256_bytes : bytes }.
Record Address := mkAddress { address_bytes : bytes }.
Record U256 := mkU256 { u256_value : Z }.
(** [u16], [u32], [u64] and [u128], by their size in bytes *)
Record Uint (size : nat) := mkUint { uint_value : Z }.
Arguments mkUint {size}.
Arguments uint_value {size}.
Record U8 := mkU8 { u8_value : Z }.
Record Bytes := mkBytes { bytes_value : bytes }.

Definition read_H256 : Read H256 :=
  data ← read_range 32 "tried to parse H256 out of bounds"; mret (mkH256 data).
Definition write_H256 (v : H256) (w : EvmDataWriter) : EvmResult EvmDataWriter := Ok (write_raw_bytes (h256_bytes v) w).
#[export] Instance EvmData_H256 : EvmData H256 := {| evm_read := read_H256; evm_write := write_H256; has_static_size := true |}.

#[export] Instance EvmData_Address : EvmData Address := {|
  evm_read := (data ← read_range 32 "tried to parse H160 out of bounds"; mret (mkAddress (drop 12 data)));
  evm_write v := write_H256 (mkH256 (repeat 0 12 ++ address_bytes v));
  has_static_size := true |}.

Definition write_U256 (v : Z) (w : EvmDataWriter) : EvmDataWriter := write_raw_bytes (to_be 32 v) w.
#[export] Instance EvmData_U256 : EvmData U256 := {|
  evm_read := (z ← read_u256; mret (mkU256 z));
  evm_write v w := Ok (write_U256 (u256_value v) w);
  has_static_size := true |}.

#[export] Instance EvmData_uint (size : nat) : EvmData (Uint size) := {|
  evm_read := (data ← read_range 32 "tried to parse an integer out of bounds"; mret (mkUint (from_be (drop (32 - size) data))));
  evm_write v w := Ok (write_raw_bytes (repeat 0 (32 - size) ++ to_be size (uint_value v)) w);
  has_static_size := true |}.

#[export] Instance EvmData_u8 : EvmData U8 := {|
  evm_read := (data ← read_range 32 "tried to parse u64 out of bounds";
               match data !! 31%nat with Some b => mret (mkU8 b) | None => lift Panic end);
  evm_write v w := Ok (write_raw_bytes (repeat 0 31 ++ [u8_value v]) w);
  has_static_size := true |}.

#[export] Instance EvmData_bool : EvmData bool := {|
  evm_read := (h ← map_revert "tried to parse bool out of bounds" read_H256;
               mret (negb (forallb (fun b => b =? 0) (h256_bytes h))));
  evm_write v w := Ok (write_raw_bytes (repeat 0 31 ++ [if v : bool then 1 else 0]) w);
  has_static_size := true |}.

Definition read_bytes : Read Bytes :=
  inner_reader ← read_pointer;
  read_with inner_reader (
    z ← map_revert "tried to parse bytes/string length out of bounds" read_u256;
    array_size ← lift (to_usize z "bytes/string length is too large");
    data ← read_range array_size "tried to parse bytes/string out of bounds";
    mret (mkBytes data)).
Definition padded_size (length : nat) : nat :=
  let chunks := (length / 32)%nat in
  match (length mod 32)%nat with O => (chunks * 32)%nat | _ => ((chunks + 1) * 32)%nat end.
Definition write_bytes (v : Bytes) (w : EvmDataWriter) : EvmResult EvmDataWriter :=
  let value := bytes_value v in
  let len := length value in
  let padded := take (padded_size len) (value ++ repeat 0 (padded_size len - len)) in
  inner ← build (write_raw_bytes padded (write_U256 (Z.of_nat len) writer_new));
  Ok (write_pointer inner w).
#[export] Instance EvmData_Bytes : EvmData Bytes := {| evm_read := read_bytes; evm_write := write_bytes; has_static_size := false |}.

(** Vectors: offsets inside items are relative to the first item, 32 bytes after the length *)
Section vec.
Context {A : Type} {E : EvmData A}.
Fixpoint read_items (n : nat) : Read (list A) :=
  match n with O => mret [] | S n => v ← evm_read; vs ← read_items n; mret (v :: vs) end.
Definition read_vec : Read (list A) :=
  inner_reader ← read_pointer;
  array_size ← read_with inner_reader (
    z ← map_revert "tried to parse array length out of bounds" read_u256;
    lift (to_usize z "array length is too large"));
  items ← lift (match get_range (input inner_reader) (32%nat, length (input inner_reader)) with
                | Some items => Ok items | None => revert "try to read array items out of bound" end);
  read_with (reader_new items) (read_items array_size).
Definition write_item (inner_writer : EvmDataWriter) (inner : A) : EvmResult EvmDataWriter :=
  let shift := length (data inner_writer) in
  item_writer ← evm_write inner writer_new;
  Ok (mkWriter (data inner_writer ++ data item_writer)
        (offset_data inner_writer ++
         map (fun d => mkDatum (offset_position d + shift) (datum d) (offset_shift d + 32)) (offset_data item_writer))
        (selector inner_writer)).
Fixpoint write_items (vs : list A) (w : EvmDataWriter) : EvmResult EvmDataWriter :=
  match vs with [] => Ok w | v :: vs => w ← write_item w v; write_items vs w end.
Definition write_vec (v : list A) (w : EvmDataWriter) : EvmResult EvmDataWriter :=
  inner_writer ← write_items v (write_U256 (Z.of_nat (length v)) writer_new);
  inner ← build inner_writer;
  Ok (write_pointer inner w).
#[export] Instance EvmData_vec : EvmData (list A) := {| evm_read := read_vec; evm_write := write_vec; has_static_size := false |}.
End vec.

(** Tuples: [A * (B * unit)] is the tuple of [A] and [B] *)
Class EvmTuple (A : Type) := {
  tuple_read : Read A;
  tuple_write : A -> EvmDataWriter -> EvmResult EvmDataWriter;
  tuple_static : bool;
}.
Arguments tuple_static A {_}.
#[export] Instance EvmTuple_nil : EvmTuple unit := {| tuple_read := mret tt; tuple_write _ w := Ok w; tuple_static := true |}.
#[export] Instance EvmTuple_cons {A B} {EA : EvmData A} {EB : EvmTuple B} : EvmTuple (A * B) := {|
  tuple_read := (a ← evm_read; b ← tuple_read; mret (a, b));
  tuple_write v w := (w ← evm_write v.1 w; tuple_write v.2 w);
  tuple_static := has_static_size A && tuple_static B |}.
Record Tuple (A : Type) := mkTuple { items : A }.
Arguments mkTuple {A}.
Arguments items {A}.
#[export] Instance EvmData_tuple {A} {EA : EvmTuple A} : EvmData (Tuple A) := {|
  evm_read :=
    if negb (tuple_static A) then
      reader ← read_pointer;
      v ← read_with reader tuple_read;
      mret (mkTuple v)
    else (v ← tuple_read; mret (mkTuple v));
  evm_write v w :=
    if negb (tuple_static A) then
      inner_writer ← tuple_write (items v) writer_new;
      inner ← build inner_writer;
      Ok (write_pointer inner w)
    else tuple_write (items v) w;
  has_static_size := tuple_static A |}.
End EvmData.
