(* ===== verification/EvmAbi.v ===== *)
(** * ABI encoding: what is written is read back

    A value is written as one field: in place, or as a pointer to bytes elsewhere.  A buffer
    [holds] fields at a place if the bytes of the first kind are there and the pointers of the
    second lead to their bytes.  [build] makes a buffer that holds what was written; reading
    needs no more than that, whatever surrounds it. *)

From stdpp Require Import strings.
From S2P Require Import Prelude EvmData.
From stdpp Require Import list sorting.
Import EvmData.
#[local] Open Scope Z_scope.

(** ** Numbers *)

Lemma to_be_length n z : length (to_be n z) = n.
Proof. revert z. induction n as [|n IH]; intros z; [done |]. cbn. rewrite length_app, IH. cbn. lia. Qed.
Lemma from_be_snoc l b : from_be (l ++ [b]) = 256 * from_be l + b.
Proof. unfold from_be. by rewrite foldl_app. Qed.
Lemma from_to_be n z : 0 <= z < 256 ^ Z.of_nat n -> from_be (to_be n z) = z.
Proof.
  revert z. induction n as [|n IH]; intros z Hz; [cbn in *; lia |]. cbn [to_be]. rewrite from_be_snoc, IH.
  - symmetry. apply Z.div_mod. lia.
  - rewrite Nat2Z.inj_succ, Z.pow_succ_r in Hz by lia. split; [apply Z.div_pos; lia | apply Z.div_lt_upper_bound; lia].
Qed.

(** ** Bytes at a place *)

Definition lies (a : nat) (bs buf : list Z) : Prop := exists p q, buf = p ++ bs ++ q /\ length p = a.

Lemma lies_take a bs buf : lies a bs buf -> take (length bs) (drop a buf) = bs.
Proof. intros (p & q & -> & <-). rewrite drop_app_length. by rewrite take_app_length. Qed.
Lemma lies_length a bs buf : lies a bs buf -> (a + length bs <= length buf)%nat.
Proof. intros (p & q & -> & <-). rewrite !length_app. lia. Qed.
Lemma lies_extend a b x bs buf : lies a x bs -> lies b bs buf -> lies (b + a) x buf.
Proof.
  intros (p & q & -> & <-) (p' & q' & -> & <-). exists (p' ++ p), (q ++ q'). rewrite length_app, <- !app_assoc. done.
Qed.
Lemma lies_drop a n x buf : (n <= a)%nat -> lies a x buf -> lies (a - n) x (drop n buf).
Proof.
  intros Hn (p & q & -> & <-). exists (drop n p), q. rewrite length_drop. split; [| done].
  rewrite drop_app_le by done. done.
Qed.
Lemma lies_drop_0 a x buf : lies a x buf -> lies 0 x (drop a buf).
Proof. intros H. apply (lies_drop a a) in H; [| lia]. by rewrite Nat.sub_diag in H. Qed.
Lemma lies_app a x y buf : lies a (x ++ y) buf <-> lies a x buf /\ lies (a + length x) y buf.
Proof.
  split.
  - intros (p & q & -> & <-). split; [exists p, (y ++ q); by rewrite <- app_assoc |].
    exists (p ++ x), q. rewrite length_app. split; [| done]. by rewrite <- !app_assoc.
  - intros [(p & q & -> & <-) (p' & q' & E & Hl)]. exists p, q'. split; [| done].
    rewrite app_assoc in E. apply app_inj_1 in E as [<- ->]; [| rewrite length_app; lia]. by rewrite <- app_assoc.
Qed.
Lemma lies_here x buf : lies 0 x (x ++ buf).
Proof. by exists [], buf. Qed.
Lemma lies_self x : lies 0 x x.
Proof. exists [], []. by rewrite app_nil_r. Qed.

(** ** Fields *)

Inductive Field := Inline (bs : list Z) | Pointer (bs : list Z).
Definition field_head (f : Field) : list Z := match f with Inline bs => bs | Pointer _ => repeat 255 32 end.
Abbreviation field_size f := (length (field_head f)).
Definition put_field (shift : nat) (f : Field) (w : EvmDataWriter) : EvmDataWriter :=
  mkWriter (data w ++ field_head f)
    (offset_data w ++ match f with Inline _ => [] | Pointer bs => [mkDatum (length (data w)) bs shift] end) (selector w).
Definition put_fields (shift : nat) (fs : list Field) (w : EvmDataWriter) : EvmDataWriter :=
  foldl (fun w f => put_field shift f w) w fs.

(** [buf] holds a field at [c]; pointers count from the start of [buf]. *)
Definition holds_field (buf : list Z) (c : nat) (f : Field) : Prop :=
  match f with
  | Inline bs => lies c bs buf
  | Pointer bs => exists off, lies c (to_be 32 (Z.of_nat off)) buf /\ lies off bs buf
  end.
Fixpoint holds (buf : list Z) (c : nat) (fs : list Field) : Prop :=
  match fs with [] => True | f :: fs => holds_field buf c f /\ holds buf (c + field_size f) fs end.

Lemma holds_extend c x buf fs : holds x c fs -> lies 0 x buf -> holds buf c fs.
Proof.
  intros H Hx. revert c H. induction fs as [|f fs IH]; intros c; [done |]. intros [Hf Hfs]. split; [| by apply IH].
  destruct f as [bs|bs]; cbn in *; [by apply (lies_extend c 0 _ x) |]. destruct Hf as (off & H1 & H2).
  exists off. split; [by apply (lies_extend c 0 _ x) | by apply (lies_extend off 0 _ x)].
Qed.

(** ** Filling in the pointers *)

Lemma splice_length pos bs out : (pos + length bs <= length out)%nat -> length (splice pos bs out) = length out.
Proof. intros H. unfold splice. rewrite !length_app, length_take, length_drop. lia. Qed.
Lemma splice_here pos bs out : (pos + length bs <= length out)%nat -> lies pos bs (splice pos bs out).
Proof. intros H. eexists (take pos out), _. split; [done |]. rewrite length_take. lia. Qed.
Lemma splice_other pos bs out a x :
  lies a x out -> (a + length x <= pos \/ pos + length bs <= a)%nat -> lies a x (splice pos bs out).
Proof.
  intros (p & q & -> & <-) [H|H]; unfold splice.
  - exists p, (take (pos - length p - length x) q ++ bs ++ drop (pos + length bs) (p ++ x ++ q)). split; [| done].
    rewrite take_app_ge by lia. rewrite take_app_ge by lia. by rewrite <- !app_assoc.
  - exists (take pos (p ++ x ++ q) ++ bs ++ drop (pos + length bs) p), q. split.
    + rewrite drop_app_le by lia. by rewrite <- !app_assoc.
    + rewrite !length_app, length_take, length_drop, !length_app. lia.
Qed.
Lemma lies_more a x out y : lies a x out -> lies a x (out ++ y).
Proof. intros (p & q & -> & <-). exists p, (q ++ y). by rewrite <- !app_assoc. Qed.

Definition slots_ok (n : nat) (ds : list OffsetDatum) : Prop :=
  StronglySorted (fun d d' => offset_position d + 32 <= offset_position d')%nat ds /\
  Forall (fun d => offset_position d + 32 <= n /\ offset_shift d <= n)%nat ds.
Definition apart (a : nat) (x : list Z) (d : OffsetDatum) : Prop :=
  (a + length x <= offset_position d \/ offset_position d + 32 <= a)%nat.
Definition baked (out : list Z) (d : OffsetDatum) : Prop :=
  exists off, lies (offset_position d) (to_be 32 (Z.of_nat off)) out /\ lies (off + offset_shift d) (datum d) out.

Lemma bake_ok ds : forall out, slots_ok (length out) ds ->
  exists out', bake_offsets out ds = Ok out' /\ (length out <= length out')%nat /\
    (forall a x, lies a x out -> Forall (apart a x) ds -> lies a x out') /\ Forall (baked out') ds.
Proof.
  induction ds as [|d ds IH]; intros out [Hs Hf]; [by exists out |]. cbn [bake_offsets].
  apply StronglySorted_inv in Hs as [Hs Hd]. apply Forall_cons in Hf as [[Hp Hsh] Hf].
  rewrite (proj2 (Nat.ltb_ge _ _)) by lia. rewrite (proj2 (Nat.ltb_ge _ _)) by lia. cbn [orb].
  set (off := (length out - offset_shift d)%nat). set (ptr := to_be 32 (Z.of_nat off)).
  assert (length ptr = 32%nat) as Hptr by apply to_be_length.
  pose proof (splice_length (offset_position d) ptr out ltac:(lia)) as Hlen.
  destruct (IH (splice (offset_position d) ptr out ++ datum d)) as (out' & E & Hl & Hkeep & Hb).
  { split; [done |]. eapply Forall_impl; [exact Hf |]. intros d' [? ?]. rewrite length_app. lia. }
  exists out'. split; [exact E |]. rewrite length_app, Hlen in Hl. split; [lia |]. split.
  - intros a x Hx Ha. apply Forall_cons in Ha as [Ha Has]. apply Hkeep; [| done]. apply lies_more, splice_other; [done |].
    unfold apart in Ha. lia.
  - constructor; [| done]. exists off. split.
    + apply Hkeep; [apply lies_more, splice_here; lia |]. eapply Forall_impl; [exact Hd |]. intros d' Hd'. unfold apart. rewrite to_be_length. by left.
    + replace (off + offset_shift d)%nat with (length out) by lia.
      apply Hkeep; [exists (splice (offset_position d) ptr out), []; by rewrite app_nil_r |].
      eapply Forall_impl; [exact Hf |]. intros d' [? ?]. unfold apart. right. lia.
Qed.

(** ** What a writer builds *)

Definition heads (fs : list Field) : list Z := concat (map field_head fs).
Fixpoint datums (sh c : nat) (fs : list Field) : list OffsetDatum :=
  match fs with
  | [] => []
  | f :: fs => match f with Inline _ => [] | Pointer bs => [mkDatum c bs sh] end ++ datums sh (c + field_size f) fs
  end.
Lemma put_fields_eq sh fs : forall w,
  put_fields sh fs w = mkWriter (data w ++ heads fs) (offset_data w ++ datums sh (length (data w)) fs) (selector w).
Proof.
  induction fs as [|f fs IH]; intros w; cbn; [rewrite !app_nil_r; by destruct w |]. unfold put_fields in IH.
  rewrite IH. cbn. rewrite length_app, <- !app_assoc. done.
Qed.

Lemma datums_from sh fs : forall c, Forall (fun d => c <= offset_position d)%nat (datums sh c fs).
Proof.
  induction fs as [|f fs IH]; intros c; cbn; [done |]. apply Forall_app. split; [by destruct f; repeat constructor; cbn |].
  eapply Forall_impl; [apply IH |]. cbn. lia.
Qed.
Lemma datums_slots sh fs : forall c, (sh <= c)%nat -> slots_ok (c + length (heads fs)) (datums sh c fs).
Proof.
  induction fs as [|f fs IH]; intros c Hc; cbn; [by split; constructor |]. unfold heads. cbn. fold (heads fs).
  destruct (IH (c + field_size f)%nat ltac:(lia)) as [Hs Hf]. rewrite length_app, Nat.add_assoc.
  destruct f as [bs|bs]; cbn in *; [done |]. split.
  - constructor; [done |]. eapply Forall_impl; [apply datums_from |]. cbn. lia.
  - constructor; [cbn; lia | done].
Qed.

Lemma built_holds sh out' fs : forall pre before,
  (forall a x, lies a x (pre ++ heads fs) -> Forall (apart a x) (before ++ datums sh (length pre) fs) -> lies a x out') ->
  Forall (fun d => offset_position d + 32 <= length pre)%nat before -> Forall (baked out') (datums sh (length pre) fs) ->
  (sh <= length pre)%nat -> holds (drop sh out') (length pre - sh) fs.
Proof.
  induction fs as [|f fs IH]; intros pre before Hkeep Hb Hd Hsh; [done |]. cbn in Hkeep, Hd. split.
  - destruct f as [bs|bs]; cbn in *.
    + apply lies_drop; [done |]. apply Hkeep.
      * eexists pre, (heads fs). unfold heads. cbn. done.
      * apply Forall_app. split; [eapply Forall_impl; [exact Hb |]; intros d ?; by right |].
        eapply Forall_impl; [apply datums_from |]. intros d ?. by left.
    + apply Forall_cons in Hd as [(off & H1 & H2) _]. exists off. split; [by apply lies_drop |].
      cbn in H2. replace off with (off + sh - sh)%nat at 1 by lia. apply lies_drop; [lia | done].
  - replace (length pre - sh + field_size f)%nat with (length (pre ++ field_head f) - sh)%nat by (rewrite length_app; lia).
    apply (IH _ (before ++ match f with Inline _ => [] | Pointer bs => [mkDatum (length pre) bs sh] end)).
    + intros a x Hx Ha. apply Hkeep; [by rewrite <- app_assoc in Hx |]. rewrite length_app in Ha. by rewrite <- app_assoc in Ha.
    + rewrite length_app. apply Forall_app. split; [eapply Forall_impl; [exact Hb |]; cbn; lia |].
      destruct f; repeat constructor; cbn; lia.
    + rewrite length_app. by apply Forall_app in Hd as [_ Hd].
    + rewrite length_app. lia.
Qed.

Lemma fields_built sh pre fs : (sh <= length pre)%nat ->
  exists out, bake_offsets (pre ++ heads fs) (datums sh (length pre) fs) = Ok out /\
    lies 0 pre out /\ holds (drop sh out) (length pre - sh) fs /\ (length pre + length (heads fs) <= length out)%nat.
Proof.
  intros Hsh. destruct (bake_ok (datums sh (length pre) fs) (pre ++ heads fs)) as (out & E & Hl & Hkeep & Hb).
  { rewrite length_app. by apply datums_slots. }
  exists out. split; [exact E |]. rewrite length_app in Hl. split; [| split; [| done]].
  - apply Hkeep; [apply lies_here |]. eapply Forall_impl; [apply datums_from |]. intros d ?. by left.
  - by apply (built_holds sh out fs pre []).
Qed.

(** ** Laws of the trait *)

Definition fits (buf : list Z) : Prop := Z.of_nat (length buf) <= usize_max.

Class EvmDataLaws (A : Type) {E : EvmData A} := {
  evm_ok : A -> Prop;
  evm_field : A -> Field;
  field_static v : evm_ok v -> has_static_size A = match evm_field v with Inline _ => true | Pointer _ => false end;
  field_nonempty v bs : evm_ok v -> evm_field v = Pointer bs -> bs <> [];
  write_field v w : evm_ok v -> evm_write v w = Ok (put_field 0 (evm_field v) w);
  read_field v buf c : evm_ok v -> fits buf -> holds_field buf c (evm_field v) ->
    evm_read (mkReader buf c) = Ok (v, mkReader buf (c + field_size (evm_field v)));
}.

#[local] Arguments fits_usize : simpl never.
#[local] Arguments to_be : simpl never.
Lemma fits_usize_ok n : Z.of_nat n <= usize_max -> fits_usize (Z.of_nat n) = true.
Proof. intros H. unfold fits_usize. apply andb_true_intro. split; apply Z.leb_le; lia. Qed.
Ltac mrun := cbv [mbind M_bind result_bind mret M_ret get put lift read_with map_revert]; cbn [input cursor fst snd].
Lemma read_range_ok len message buf c bs :
  lies c bs buf -> length bs = len -> fits buf ->
  read_range len message (mkReader buf c) = Ok (bs, mkReader buf (c + len)).
Proof.
  intros Hl <- Hf. pose proof (lies_length _ _ _ Hl). unfold fits in Hf. unfold read_range, move_cursor. mrun.
  rewrite fits_usize_ok by lia. mrun. unfold get_range. mrun.
  rewrite (proj2 (Nat.leb_le _ _)), (proj2 (Nat.leb_le _ _)) by lia. cbn [andb].
  replace (c + length bs - c)%nat with (length bs) by lia. by rewrite (lies_take _ _ _ Hl).
Qed.
Lemma read_u256_ok buf c z : lies c (to_be 32 z) buf -> 0 <= z <= u256_max -> fits buf ->
  read_u256 (mkReader buf c) = Ok (z, mkReader buf (c + 32)).
Proof.
  intros Hl Hz Hf. unfold read_u256. mrun. rewrite (read_range_ok 32 _ buf c _ Hl (to_be_length 32 z) Hf).
  rewrite from_to_be; [done |]. unfold u256_max in Hz. change (256 ^ Z.of_nat 32) with (2 ^ 256). lia.
Qed.
Lemma to_usize_ok n message : Z.of_nat n <= usize_max -> to_usize (Z.of_nat n) message = Ok n.
Proof.
  intros H. unfold to_usize. rewrite fits_usize_ok by done. by rewrite Nat2Z.id.
Qed.
Lemma usize_u256 n : Z.of_nat n <= usize_max -> 0 <= Z.of_nat n <= u256_max.
Proof. intros H. split; [lia |]. etrans; [exact H |]. done. Qed.
Lemma read_pointer_ok buf c off bs :
  lies c (to_be 32 (Z.of_nat off)) buf -> lies off bs buf -> bs <> [] -> fits buf ->
  read_pointer (mkReader buf c) = Ok (mkReader (drop off buf) 0, mkReader buf (c + 32)).
Proof.
  intros Hp Hb Hne Hf. pose proof (lies_length _ _ _ Hb). destruct bs as [|b bs]; [done |]. cbn in *. unfold fits in *.
  unfold read_pointer. mrun. rewrite (read_u256_ok buf c (Z.of_nat off)); [| done | apply usize_u256; lia | done].
  rewrite to_usize_ok by lia. mrun. rewrite (proj2 (Nat.leb_gt _ _)) by lia. done.
Qed.
Lemma fits_drop n buf : fits buf -> fits (drop n buf).
Proof. unfold fits. rewrite length_drop. lia. Qed.

(** ** Base types *)

#[export] Instance laws_H256 : EvmDataLaws H256.
Proof.
  refine {| evm_ok v := length (h256_bytes v) = 32%nat; evm_field v := Inline (h256_bytes v) |}; cbn; try done.
  - intros v w Hv. unfold write_H256, write_raw_bytes, put_field. cbn. by rewrite app_nil_r.
  - intros [bs] buf c Hv Hf Hl. cbn in *. unfold read_H256. mrun. by rewrite (read_range_ok 32 _ buf c bs Hl Hv Hf), Hv.
Defined.
#[export] Instance laws_Address : EvmDataLaws Address.
Proof.
  refine {| evm_ok v := length (address_bytes v) = 20%nat; evm_field v := Inline (repeat 0 12 ++ address_bytes v) |}; cbn [evm_read evm_write EvmData_Address has_static_size]; try done.
  - intros v w Hv. unfold write_H256, write_raw_bytes, put_field. cbn. by rewrite app_nil_r.
  - intros [bs] buf c Hv Hf Hl. cbn [holds_field address_bytes] in Hl, Hv. mrun. rewrite (read_range_ok 32 _ buf c _ Hl); [| cbn; lia | done]. cbn. by rewrite Hv.
Defined.
#[export] Instance laws_U256 : EvmDataLaws U256.
Proof.
  refine {| evm_ok v := 0 <= u256_value v <= u256_max; evm_field v := Inline (to_be 32 (u256_value v)) |}; cbn [evm_read evm_write EvmData_U256 has_static_size]; try done.
  - intros v w Hv. unfold write_U256, write_raw_bytes, put_field. cbn [field_head]. by rewrite app_nil_r.
  - intros [z] buf c Hv Hf Hl. cbn [u256_value holds_field field_head] in *. mrun. rewrite (read_u256_ok buf c z) by done.
    by rewrite to_be_length.
Defined.
Lemma pad_length n z : (n <= 32)%nat -> length (repeat 0 (32 - n) ++ to_be n z) = 32%nat.
Proof. intros H. rewrite length_app, repeat_length, to_be_length. lia. Qed.
Definition laws_uint (size : nat) (Hsize : (size <= 32)%nat) : EvmDataLaws (Uint size).
Proof.
  refine {| evm_ok v := 0 <= uint_value v < 256 ^ Z.of_nat size;
            evm_field v := Inline (repeat 0 (32 - size) ++ to_be size (uint_value v)) |};
    cbn [evm_read evm_write EvmData_uint has_static_size]; try done.
  - intros v w Hv. unfold write_raw_bytes, put_field. cbn [field_head]. by rewrite app_nil_r.
  - intros [z] buf c Hv Hf Hl. cbn [uint_value holds_field field_head] in *. mrun.
    rewrite (read_range_ok 32 _ buf c _ Hl (pad_length _ _ Hsize) Hf). rewrite drop_app_length'; [| by rewrite repeat_length].
    rewrite from_to_be by done. by rewrite pad_length.
Defined.
#[export] Instance laws_u8 : EvmDataLaws U8.
Proof.
  refine {| evm_ok v := 0 <= u8_value v < 256; evm_field v := Inline (repeat 0 31 ++ [u8_value v]) |}; cbn [evm_read evm_write EvmData_u8 has_static_size]; try done.
  - intros v w Hv. unfold write_raw_bytes, put_field. cbn [field_head]. by rewrite app_nil_r.
  - intros [z] buf c Hv Hf Hl. cbn [u8_value holds_field field_head] in *. mrun.
    rewrite (read_range_ok 32 _ buf c _ Hl); [| done | done]. done.
Defined.
#[export] Instance laws_bool : EvmDataLaws bool.
Proof.
  refine {| evm_ok _ := True; evm_field v := Inline (repeat 0 31 ++ [if v : bool then 1 else 0]) |}; cbn [evm_read evm_write EvmData_bool has_static_size]; try done.
  - intros v w Hv. unfold write_raw_bytes, put_field. cbn [field_head]. by rewrite app_nil_r.
  - intros v buf c Hv Hf Hl. cbn [holds_field field_head] in *. unfold read_H256. mrun.
    rewrite (read_range_ok 32 _ buf c _ Hl); [| done | done]. by destruct v.
Defined.

(** ** Bytes *)

Lemma padded_ge n : (n <= padded_size n)%nat.
Proof.
  unfold padded_size. pose proof (Nat.div_mod n 32 ltac:(lia)). destruct (n mod 32)%nat eqn:E; [lia |].
  pose proof (Nat.mod_upper_bound n 32 ltac:(lia)). lia.
Qed.
Definition bytes_tail (v : Bytes) : list Z :=
  to_be 32 (Z.of_nat (length (bytes_value v))) ++ bytes_value v ++ repeat 0 (padded_size (length (bytes_value v)) - length (bytes_value v)).
Lemma bytes_tail_built v w : write_bytes v w = Ok (write_pointer (bytes_tail v) w).
Proof.
  unfold write_bytes, build. cbn. unfold bytes_tail. rewrite take_ge; [done |]. rewrite length_app, repeat_length.
  pose proof (padded_ge (length (bytes_value v))). lia.
Qed.
#[export] Instance laws_Bytes : EvmDataLaws Bytes.
Proof.
  refine {| evm_ok v := Z.of_nat (length (bytes_value v)) <= usize_max; evm_field v := Pointer (bytes_tail v) |};
    cbn [evm_read evm_write EvmData_Bytes has_static_size]; try done.
  - intros v bs Hv [= <-] E. apply (f_equal length) in E. unfold bytes_tail in E. rewrite length_app, to_be_length in E. done.
  - intros v w Hv. by rewrite bytes_tail_built.
  - intros [bs] buf c Hv Hf (off & Hp & Hb). cbn [bytes_value field_head] in *.
    pose proof (lies_drop_0 _ _ _ Hb) as Hb0. apply lies_app in Hb0 as [Hlen [Hbs _]%lies_app]. rewrite to_be_length in Hbs. cbn in Hbs.
    unfold read_bytes. mrun. rewrite (read_pointer_ok buf c off _ Hp Hb).
    2: { intros E. apply (f_equal length) in E. unfold bytes_tail in E. rewrite length_app, to_be_length in E. done. }
    2: done. mrun. rewrite (read_u256_ok _ 0 _ Hlen (usize_u256 _ Hv) (fits_drop off buf Hf)). mrun.
    rewrite to_usize_ok by done. mrun. rewrite (read_range_ok _ _ (drop off buf) _ _ Hbs eq_refl (fits_drop off buf Hf)). done.
Defined.

(** ** Vectors *)
Section vec.
Context {A : Type} {E : EvmData A} {L : EvmDataLaws A}.
Implicit Types (v : A) (vs : list A).

Lemma write_item_field w v : evm_ok v -> write_item w v = Ok (put_field 32 (evm_field v) w).
Proof.
  intros Hv. unfold write_item. rewrite (write_field v writer_new Hv). cbn. unfold put_field. by destruct (evm_field v).
Qed.
Lemma write_items_fields vs : forall w, Forall evm_ok vs -> write_items vs w = Ok (put_fields 32 (map evm_field vs) w).
Proof.
  induction vs as [|v vs IH]; intros w H; [done |]. apply Forall_cons in H as [Hv Hvs]. cbn [write_items].
  rewrite (write_item_field w v Hv). cbn. by rewrite IH.
Qed.
Lemma read_items_fields vs : forall buf c, Forall evm_ok vs -> fits buf -> holds buf c (map evm_field vs) ->
  exists c', read_items (length vs) (mkReader buf c) = Ok (vs, mkReader buf c').
Proof.
  induction vs as [|v vs IH]; intros buf c Hok Hf Hh; [by exists c |]. apply Forall_cons in Hok as [Hv Hvs].
  destruct Hh as [Hh1 Hh2]. cbn [length read_items]. mrun. rewrite (read_field v buf c Hv Hf Hh1).
  destruct (IH buf _ Hvs Hf Hh2) as [c' ->]. by exists c'.
Qed.

Definition vec_tail vs : list Z :=
  default [] (match build (put_fields 32 (map evm_field vs) (write_U256 (Z.of_nat (length vs)) writer_new)) with Ok out => Some out | _ => None end).
Lemma vec_tail_spec vs :
  build (put_fields 32 (map evm_field vs) (write_U256 (Z.of_nat (length vs)) writer_new)) = Ok (vec_tail vs) /\
  lies 0 (to_be 32 (Z.of_nat (length vs))) (vec_tail vs) /\ holds (drop 32 (vec_tail vs)) 0 (map evm_field vs).
Proof.
  unfold vec_tail. rewrite put_fields_eq. unfold build, write_U256, write_raw_bytes. cbn [data offset_data selector writer_new app].
  destruct (fields_built 32 (to_be 32 (Z.of_nat (length vs))) (map evm_field vs)) as (out & E1 & H1 & H2 & _); [by rewrite to_be_length |].
  rewrite to_be_length in *. cbn [writer_new data offset_data selector app]. rewrite E1. cbn. done.
Qed.
Lemma lies_nonempty n z bs : (0 < n)%nat -> lies 0 (to_be n z) bs -> bs <> [].
Proof. intros Hn H ->. apply lies_length in H. rewrite to_be_length in H. cbn in H. lia. Qed.

#[export] Instance laws_vec : EvmDataLaws (list A).
Proof.
  refine {| evm_ok vs := Forall evm_ok vs /\ Z.of_nat (length vs) <= usize_max; evm_field vs := Pointer (vec_tail vs) |};
    cbn [evm_read evm_write EvmData_vec has_static_size]; try done.
  - intros vs bs Hv [= <-]. eapply (lies_nonempty 32); [lia | apply vec_tail_spec].
  - intros vs w [Hv _]. unfold write_vec. rewrite write_items_fields by done. cbn. by rewrite (proj1 (vec_tail_spec vs)).
  - intros vs buf c [Hv Hn] Hf (off & Hp & Hb). destruct (vec_tail_spec vs) as (_ & Hlen & Hitems).
    pose proof (lies_drop_0 _ _ _ Hb) as Hb0. pose proof (lies_extend _ _ _ _ _ Hlen Hb0) as Hlen0. cbn in Hlen0.
    unfold read_vec. mrun. rewrite (read_pointer_ok buf c off _ Hp Hb) by (done || by eapply (lies_nonempty 32); [lia | done]).
    mrun. rewrite (read_u256_ok _ 0 _ Hlen0 (usize_u256 _ Hn) (fits_drop off buf Hf)). mrun. rewrite to_usize_ok by done. mrun.
    apply lies_length in Hlen0 as Hlen1. rewrite to_be_length in Hlen1. unfold get_range. mrun.
    rewrite (proj2 (Nat.leb_le _ _)), (proj2 (Nat.leb_le _ _)) by lia. cbn [andb].
    rewrite take_ge by (rewrite !length_drop; lia).
    destruct (read_items_fields vs (drop 32 (drop off buf)) 0 Hv (fits_drop _ _ (fits_drop _ _ Hf))) as [c' Hr].
    { eapply holds_extend; [exact Hitems |]. destruct Hb0 as (p & q & Eb & Hp0). destruct p; [| done]. rewrite Eb. cbn.
      rewrite drop_app_le; [apply lies_here |]. apply lies_length in Hlen. by rewrite to_be_length in Hlen. }
    unfold reader_new. rewrite Hr. done.
Defined.
End vec.

(** ** Tuples *)

Definition is_inline (f : Field) : bool := match f with Inline _ => true | Pointer _ => false end.
Class EvmTupleLaws (A : Type) {E : EvmTuple A} := {
  tuple_ok : A -> Prop;
  tuple_fields : A -> list Field;
  fields_static v : tuple_ok v -> tuple_static A = forallb is_inline (tuple_fields v);
  write_fields v w : tuple_ok v -> tuple_write v w = Ok (put_fields 0 (tuple_fields v) w);
  read_fields v buf c : tuple_ok v -> fits buf -> holds buf c (tuple_fields v) ->
    tuple_read (mkReader buf c) = Ok (v, mkReader buf (c + length (heads (tuple_fields v))));
}.
#[export] Instance tuple_laws_nil : EvmTupleLaws unit.
Proof.
  refine {| tuple_ok _ := True; tuple_fields _ := [] |}; cbn; try done. intros [] buf c _ _ _. rewrite Nat.add_0_r. done.
Defined.
#[export] Instance tuple_laws_cons {A B} {EA : EvmData A} {EB : EvmTuple B} {LA : EvmDataLaws A} {LB : EvmTupleLaws B} :
  EvmTupleLaws (A * B).
Proof.
  refine {| tuple_ok v := evm_ok v.1 /\ tuple_ok v.2; tuple_fields v := evm_field v.1 :: tuple_fields v.2 |};
    cbn [tuple_read tuple_write tuple_static EvmTuple_cons].
  - intros [a b] [Ha Hb]. cbn in *. by rewrite (field_static a Ha), (fields_static b Hb).
  - intros [a b] w [Ha Hb]. cbn in *. rewrite (write_field a w Ha). cbn. by rewrite (write_fields b _ Hb).
  - intros [a b] buf c [Ha Hb] Hf [H1 H2]. cbn [fst snd] in *. mrun. rewrite (read_field a buf c Ha Hf H1), (read_fields b buf _ Hb Hf H2).
    unfold heads. cbn. rewrite length_app, Nat.add_assoc. done.
Defined.

Section tuple.
Context {A : Type} {E : EvmTuple A} {L : EvmTupleLaws A}.
Definition tuple_tail (v : A) : list Z :=
  default [] (match build (put_fields 0 (tuple_fields v) writer_new) with Ok out => Some out | _ => None end).
Lemma tuple_tail_spec v :
  build (put_fields 0 (tuple_fields v) writer_new) = Ok (tuple_tail v) /\ holds (tuple_tail v) 0 (tuple_fields v) /\
  (length (heads (tuple_fields v)) <= length (tuple_tail v))%nat.
Proof.
  unfold tuple_tail. rewrite put_fields_eq. unfold build. cbn [data offset_data selector writer_new].
  destruct (fields_built 0 [] (tuple_fields v)) as (out & E1 & _ & H2 & H3); [done |]. cbn [app length] in *. rewrite E1. done.
Qed.
Lemma datums_inline sh fs : forall c, forallb is_inline fs = true -> datums sh c fs = [].
Proof. induction fs as [|[bs|bs] fs IH]; intros c H; [done | by apply IH | done]. Qed.
Lemma holds_inline buf fs : forall c, forallb is_inline fs = true -> lies c (heads fs) buf -> holds buf c fs.
Proof.
  induction fs as [|[bs|bs] fs IH]; intros c H Hl; [done | | done]. apply lies_app in Hl as [H1 H2]. split; [done |]. by apply IH.
Qed.
Lemma heads_pointer fs : forallb is_inline fs = false -> (32 <= length (heads fs))%nat.
Proof.
  induction fs as [|[bs|bs] fs IH]; intros H; [done | |]; unfold heads; cbn [map concat field_head]; rewrite length_app.
  - specialize (IH H). unfold heads in IH. lia.
  - cbn. lia.
Qed.
#[export] Instance laws_tuple : EvmDataLaws (Tuple A).
Proof.
  refine {| evm_ok v := tuple_ok (items v);
            evm_field v := if tuple_static A then Inline (heads (tuple_fields (items v))) else Pointer (tuple_tail (items v)) |};
    cbn [evm_read evm_write EvmData_tuple has_static_size].
  - intros v _. by destruct (tuple_static A).
  - intros [v] bs Hv. pose proof (fields_static v Hv) as Hs. destruct (tuple_static A); [done |]. intros [= <-] En.
    symmetry in Hs. apply heads_pointer in Hs. destruct (tuple_tail_spec v) as (_ & _ & Hl). cbn in En. rewrite En in Hl. cbn in Hl. lia.
  - intros [v] w Hv. pose proof (fields_static v Hv) as Hs. cbn [items] in *. destruct (tuple_static A); cbn [negb].
    + rewrite (write_fields v w Hv), put_fields_eq. by rewrite datums_inline.
    + rewrite (write_fields v writer_new Hv). cbn. by rewrite (proj1 (tuple_tail_spec v)).
  - intros [v] buf c Hv Hf Hh. pose proof (fields_static v Hv) as Hs. cbn [items] in *. destruct (tuple_static A); cbn [negb].
    + mrun. rewrite (read_fields v buf c Hv Hf); [done |]. by apply holds_inline.
    + destruct Hh as (off & Hp & Hb). destruct (tuple_tail_spec v) as (_ & Hh & Hl). mrun.
      rewrite (read_pointer_ok buf c off _ Hp Hb); [| | done].
      * mrun. rewrite (read_fields v (drop off buf) 0 Hv (fits_drop _ _ Hf)); [done |]. eapply holds_extend; [exact Hh | by apply lies_drop_0].
      * symmetry in Hs. apply heads_pointer in Hs. intros En. rewrite En in Hl. cbn in Hl. lia.
Defined.
End tuple.

(** ** All types *)

Inductive EvmType :=
| TH256 | TAddress | TU256 | TU8 | TU16 | TU32 | TU64 | TU128 | TBool | TBytes
| TVec (t : EvmType)
| TTuple (ts : EvmTypes)
with EvmTypes := TNil | TCons (t : EvmType) (ts : EvmTypes).

(** What a type stands for, with its encoding *)
Record Coder := mkCoder { carrier : Type; coder : EvmData carrier; coder_laws : EvmDataLaws carrier }.
Record TupleCoder := mkTupleCoder { tuple_carrier : Type; tuple_coder : EvmTuple tuple_carrier; tuple_coder_laws : EvmTupleLaws tuple_carrier }.
#[export] Existing Instances coder coder_laws tuple_coder tuple_coder_laws.
Definition uint_coder (size : nat) (H : (size <= 32)%nat) : Coder := mkCoder (Uint size) _ (laws_uint size H).
Fixpoint coder_of (t : EvmType) : Coder :=
  match t with
  | TH256 => mkCoder H256 _ _
  | TAddress => mkCoder Address _ _
  | TU256 => mkCoder U256 _ _
  | TU8 => mkCoder U8 _ _
  | TU16 => uint_coder 2 ltac:(lia)
  | TU32 => uint_coder 4 ltac:(lia)
  | TU64 => uint_coder 8 ltac:(lia)
  | TU128 => uint_coder 16 ltac:(lia)
  | TBool => mkCoder bool _ _
  | TBytes => mkCoder Bytes _ _
  | TVec t => let c := coder_of t in mkCoder (list (carrier c)) _ _
  | TTuple ts => let c := coders_of ts in mkCoder (Tuple (tuple_carrier c)) _ _
  end
with coders_of (ts : EvmTypes) : TupleCoder :=
  match ts with
  | TNil => mkTupleCoder unit _ _
  | TCons t ts => let c := coder_of t in let cs := coders_of ts in mkTupleCoder (carrier c * tuple_carrier cs) _ _
  end.

(** A call: the selector, and the arguments one after the other *)
Definition encode_call (ts : EvmTypes) (s : Z) (v : tuple_carrier (coders_of ts)) : EvmResult (list Z) :=
  w ← tuple_write v (new_with_selector s); build w.
Definition decode_call (ts : EvmTypes) (call : list Z) : EvmResult (Z * tuple_carrier (coders_of ts)) :=
  s ← read_selector call;
  reader ← new_skip_selector call;
  '(v, _) ← tuple_read reader;
  Ok (s, v).

(** C27: What is encoded for the EVM is decoded from it: for every list of argument types, built from words, addresses,
    integers, booleans, byte strings, vectors and tuples nested in any way, encoding a call with its selector never fails, and
    if the call fits into memory, the reader gets back the selector and every argument, following the pointers of the nested
    vectors and tuples. *)
Theorem call_round_trip (ts : EvmTypes) s (v : tuple_carrier (coders_of ts)) :
  tuple_ok v -> 0 <= s < 2 ^ 32 ->
  exists call, encode_call ts s v = Ok call /\ (Z.of_nat (length call) <= usize_max -> decode_call ts call = Ok (s, v)).
Proof.
  intros Hv Hs. unfold encode_call. rewrite (write_fields v _ Hv), put_fields_eq. cbn. unfold build. cbn.
  destruct (fields_built 0 [] (tuple_fields v)) as (out & E1 & _ & H2 & H3); [done |]. cbn [app length Nat.sub drop] in *. rewrite E1. cbn.
  exists (to_be 4 s ++ out). split; [done |]. intros Hf. unfold decode_call, read_selector, new_skip_selector.
  rewrite length_app, to_be_length in *. rewrite (proj2 (Nat.ltb_ge _ _)) by lia. cbn -[Nat.ltb].
  rewrite take_app_length' by (by rewrite to_be_length). rewrite from_to_be by done.
  rewrite drop_app_length' by (by rewrite to_be_length). unfold reader_new.
  rewrite (read_fields v out 0 Hv); [done | unfold fits; lia | done].
Qed.

(** [f((uint8,bytes)[],address,uint256[][])] *)
Definition some_types : EvmTypes :=
  TCons (TVec (TTuple (TCons TU8 (TCons TBytes TNil)))) (TCons TAddress (TCons (TVec (TVec TU256)) TNil)).
Definition some_value : tuple_carrier (coders_of some_types) :=
  ([mkTuple (mkU8 7, (mkBytes [1; 2; 3], tt)); mkTuple (mkU8 9, (mkBytes [], tt))],
   (mkAddress (repeat 17 20), ([[mkU256 5; mkU256 (2 ^ 200)]; []], tt))).
Lemma some_value_ok : tuple_ok some_value.
Proof.
  assert (forall z, 0 <= z <= 2 ^ 200 -> 0 <= z <= u256_max) as Hz.
  { intros z Hz. split; [lia |]. etrans; [apply Hz |]. done. }
  split; [| split; [done | split; [| done]]].
  - split; [| done]. repeat constructor; done.
  - split; [| done]. repeat constructor; try done; apply Hz; done.
Qed.
Lemma call_round_trip_witness :
  exists call, encode_call some_types 3405691582 some_value = Ok call /\ length call = 644%nat /\
    decode_call some_types call = Ok (3405691582, some_value).
Proof.
  destruct (call_round_trip some_types 3405691582 some_value some_value_ok) as (call & H1 & H2); [done |].
  assert (length call = 644%nat) as Hl.
  { enough (match encode_call some_types 3405691582 some_value with Ok c => length c | _ => 0%nat end = 644%nat) as Hc; [by rewrite H1 in Hc | by vm_compute]. }
  exists call. split; [exact H1 |]. split; [exact Hl |]. apply H2. rewrite Hl. done.
Defined.
