(* ===== verification/EvmXcm.v ===== *)
(** * XCM locations for the EVM (src/precompiles/utils/src/data/xcm.rs)

    Network ids, junctions and locations as call data.  A junction is a byte string: a selector,
    what the variant needs, and a network id up to the end.  Locations read back as they were
    written unless they name a network by fork or an Ethereum chain. *)

From stdpp Require Import strings.
From S2P Require Import Prelude EvmData EvmAbi.
From stdpp Require Import list.
Import EvmData.
#[local] Open Scope Z_scope.

Module EvmXcm.

(** ** The types of [xcm::latest] *)

Inductive NetworkId :=
| ByGenesis (id : list Z)
| ByFork (block_number : Z) (block_hash : list Z)
| Polkadot | Kusama | Westend | Rococo | Wococo
| Ethereum (chain_id : Z)
| BitcoinCore | BitcoinCash.

Section junction.
(** The arguments of [Plurality], which is not supported *)
Context {BodyId BodyPart : Type}.
Inductive Junction :=
| Parachain (id : Z)
| AccountId32 (network : option NetworkId) (id : list Z)
| AccountIndex64 (network : option NetworkId) (index : Z)
| AccountKey20 (network : option NetworkId) (key : list Z)
| PalletInstance (instance : Z)
| GeneralIndex (id : Z)
| GeneralKey (length : Z) (data : list Z)
| OnlyChild
| Plurality (id : BodyId) (part : BodyPart)
| GlobalConsensus (network : NetworkId).

(** [Here], [X1], ..., [X8]: at most eight junctions *)
Record Junctions := mkJunctions { junctions : list Junction }.
Definition Here : Junctions := mkJunctions [].
Definition push (new : Junction) (js : Junctions) : option Junctions :=
  if (length (junctions js) <? 8)%nat then Some (mkJunctions (junctions js ++ [new])) else None.
Record MultiLocation := mkLocation { parents : Z; interior : Junctions }.

(** ** Network ids *)

Definition network_id_to_bytes (network_id : option NetworkId) : list Z :=
  match network_id with
  | None => [0]
  | Some (ByGenesis id) => 1 :: id
  | Some Polkadot => [2; 2]
  | Some Kusama => [3; 3]
  | Some (ByFork block_number block_hash) => [4; 1] ++ to_be 8 block_number ++ block_hash
  | Some Westend => [5; 4]
  | Some Rococo => [6; 5]
  | Some Wococo => [7; 6]
  | Some (Ethereum chain_id) => [8; 7] ++ to_be 8 chain_id
  | Some BitcoinCore => [9; 8]
  | Some BitcoinCash => [10; 9]
  end.

(** The first byte of a slice; indexing an empty one panics *)
Definition first (l : list Z) : EvmResult Z := match l with b :: _ => Ok b | [] => Panic end.
(** [copy_from_slice] into an array of [n] bytes panics if the lengths differ. *)
Definition copy_from_slice (n : nat) (src : list Z) : EvmResult (list Z) := if (length src =? n)%nat then Ok src else Panic.
(** [[u8; 32]::try_from] of a vector *)
Definition try_into_32 (v : list Z) (message : string) : EvmResult (list Z) := if (length v =? 32)%nat then Ok v else revert message.
Definition read_array (n : nat) : Read (list Z) := data ← read_raw_bytes n; lift (copy_from_slice n data).

Definition read_network_id : Read (option NetworkId) :=
  network_selector ← read_raw_bytes 1;
  s ← lift (first network_selector);
  match s with
  | 0 => mret None
  | 1 => rest ← read_till_end; id ← lift (try_into_32 rest "network by genesis too large"); mret (Some (ByGenesis id))
  | 2 => mret (Some Polkadot)
  | 3 => mret (Some Kusama)
  | 4 => block_number ← read_array 8; block_hash ← read_array 32; mret (Some (ByFork (from_be block_number) block_hash))
  | 5 => mret (Some Westend)
  | 6 => mret (Some Rococo)
  | 7 => mret (Some Wococo)
  | 8 => chain_id ← read_array 8; mret (Some (Ethereum (from_be chain_id)))
  | 9 => mret (Some BitcoinCore)
  | 10 => mret (Some BitcoinCash)
  | _ => lift (revert "Non-valid Network Id")
  end.
Definition network_id_from_bytes (encoded_bytes : list Z) : EvmResult (option NetworkId) :=
  if bool_decide (encoded_bytes = []) then revert "Junctions cannot be empty"
  else '(id, _) ← read_network_id (reader_new encoded_bytes); Ok id.

(** ** Junctions *)

Definition read_network : Read (option NetworkId) := network ← read_till_end; lift (network_id_from_bytes network).
Definition decode_junction : Read Junction :=
  enum_selector ← read_raw_bytes 1;
  s ← lift (first enum_selector);
  match s with
  | 0 => data ← read_array 4; mret (Parachain (from_be data))
  | 1 => account ← read_array 32; network ← read_network; mret (AccountId32 network account)
  | 2 => index ← read_array 8; network ← read_network; mret (AccountIndex64 network (from_be index))
  | 3 => account ← read_array 20; network ← read_network; mret (AccountKey20 network account)
  | 4 => data ← read_raw_bytes 1; instance ← lift (first data); mret (PalletInstance instance)
  | 5 => general_index ← read_array 16; mret (GeneralIndex (from_be general_index))
  | 6 => data ← map_revert "General Key length" (read_raw_bytes 1);
         len ← lift (copy_from_slice 1 data);
         rest ← read_till_end;
         data ← lift (copy_from_slice 32 rest);
         mret (GeneralKey (from_be len) data)
  | 7 => mret OnlyChild
  | 8 => lift (revert "Junction::Plurality not supported yet")
  | 9 => network ← read_network;
         match network with Some id => mret (GlobalConsensus id) | None => lift (revert "Unknown NetworkId") end
  | _ => lift (revert "No selector for this")
  end.
Definition read_junction : Read Junction :=
  junction ← evm_read;
  let junction_bytes := bytes_value junction in
  if bool_decide (junction_bytes = []) then lift (revert "Junctions cannot be empty")
  else read_with (reader_new junction_bytes) decode_junction.

(** [unreachable!] panics. *)
Definition encode_junction (value : Junction) : EvmResult (list Z) :=
  match value with
  | Parachain para_id => Ok (0 :: to_be 4 para_id)
  | AccountId32 network id => Ok (1 :: id ++ network_id_to_bytes network)
  | AccountIndex64 network index => Ok (2 :: to_be 8 index ++ network_id_to_bytes network)
  | AccountKey20 network key => Ok (3 :: key ++ network_id_to_bytes network)
  | PalletInstance instance => Ok (4 :: to_be 1 instance)
  | GeneralIndex id => Ok (5 :: to_be 16 id)
  | GeneralKey length data => Ok (6 :: length :: data)
  | OnlyChild => Ok [7]
  | GlobalConsensus network_id => Ok (9 :: network_id_to_bytes (Some network_id))
  | Plurality _ _ => Panic
  end.
Definition write_junction (value : Junction) (w : EvmDataWriter) : EvmResult EvmDataWriter :=
  encoded ← encode_junction value; evm_write (mkBytes encoded) w.
#[export] Instance EvmData_Junction : EvmData Junction :=
  {| evm_read := read_junction; evm_write := write_junction; has_static_size := false |}.

(** ** Locations *)

Fixpoint push_all (js : Junctions) (items : list Junction) : EvmResult Junctions :=
  match items with
  | [] => Ok js
  | item :: items =>
      match push item js with Some js => push_all js items | None => revert "overflow when reading junctions" end
  end.
#[export] Instance EvmData_Junctions : EvmData Junctions := {|
  evm_read := (junctions_bytes ← evm_read; lift (push_all Here junctions_bytes));
  evm_write value w := evm_write (junctions value) w;
  has_static_size := false |}.

Abbreviation LocationTuple := (Tuple (U8 * (Junctions * unit))).
Definition read_location : Read MultiLocation :=
  t ← (evm_read : Read LocationTuple);
  let '(p, (js, _)) := items t in mret (mkLocation (u8_value p) js).
Definition write_location (value : MultiLocation) (w : EvmDataWriter) : EvmResult EvmDataWriter :=
  evm_write (mkTuple (mkU8 (parents value), (interior value, tt)) : LocationTuple) w.
#[export] Instance EvmData_MultiLocation : EvmData MultiLocation :=
  {| evm_read := read_location; evm_write := write_location; has_static_size := has_static_size LocationTuple |}.
End junction.
Arguments Junction : clear implicits.
Arguments Junctions : clear implicits.
Arguments MultiLocation : clear implicits.
End EvmXcm.
Import EvmXcm.

(** ** Reading inside a byte string *)

Lemma from_be_cons b l : from_be (b :: l) = b * 256 ^ Z.of_nat (length l) + from_be l.
Proof.
  induction l as [|x l IH] using rev_ind; [cbn; lia |]. change (b :: l ++ [x]) with ((b :: l) ++ [x]).
  rewrite !from_be_snoc, IH, length_app. cbn [length]. rewrite Nat2Z.inj_add, Z.pow_add_r by lia. cbn. lia.
Qed.

#[local] Arguments to_be : simpl never.
Lemma read_raw_at bs buf c : lies c bs buf -> fits buf ->
  read_raw_bytes (length bs) (mkReader buf c) = Ok (bs, mkReader buf (c + length bs)).
Proof. intros Hl Hf. unfold read_raw_bytes. by rewrite (read_range_ok (length bs) _ _ _ bs). Qed.
Lemma read_array_at n bs buf c : lies c bs buf -> length bs = n -> fits buf ->
  read_array n (mkReader buf c) = Ok (bs, mkReader buf (c + n)).
Proof.
  intros Hl <- Hf. unfold read_array. mrun. rewrite (read_raw_at bs) by done. unfold copy_from_slice. by rewrite Nat.eqb_refl.
Qed.
Lemma read_rest bs buf c : drop c buf = bs -> (c <= length buf)%nat -> fits buf ->
  read_till_end (mkReader buf c) = Ok (bs, mkReader buf (length buf)).
Proof.
  intros <- Hc Hf. unfold read_till_end. mrun. rewrite (proj2 (Nat.ltb_ge _ _)) by lia.
  assert (lies c (drop c buf) buf) as Hl.
  { exists (take c buf), []. rewrite app_nil_r, take_drop. split; [done |]. rewrite length_take. lia. }
  rewrite (read_range_ok _ _ _ _ _ Hl (length_drop _ _) Hf). by replace (c + (length buf - c))%nat with (length buf) by lia.
Qed.
Lemma read_selector_byte b buf : head buf = Some b -> fits buf ->
  read_raw_bytes 1 (reader_new buf) = Ok ([b], mkReader buf 1).
Proof. destruct buf as [|b' rest]; intros [= ->] Hf. apply (read_raw_at [b]); [by exists [], rest | done]. Qed.
Lemma short_fits (bs : list Z) : (length bs <= 1000)%nat -> fits bs.
Proof. intros H. unfold fits. apply Z.le_trans with 1000; [lia | done]. Qed.

(** ** Network ids *)

(** Networks with no more than a selector, or the genesis hash *)
Definition network_ok (n : NetworkId) : Prop :=
  match n with ByGenesis id => length id = 32%nat | ByFork _ _ | Ethereum _ => False | _ => True end.
Definition network_opt_ok (n : option NetworkId) : Prop := match n with Some n => network_ok n | None => True end.

Lemma network_bytes_length n : network_opt_ok n -> (length (network_id_to_bytes n) <= 33)%nat.
Proof. destruct n as [[]|]; cbn; lia. Qed.
Lemma network_reads_back n : network_opt_ok n -> network_id_from_bytes (network_id_to_bytes n) = Ok n.
Proof.
  destruct n as [[id| | | | | | | | |]|]; intros H; try done. cbn in H. unfold network_id_from_bytes. cbn [network_id_to_bytes].
  rewrite bool_decide_eq_false_2 by done. assert (fits (1 :: id)) as Hf by (apply short_fits; cbn; lia).
  unfold read_network_id. mrun. rewrite (read_selector_byte 1 (1 :: id) eq_refl Hf). cbn [first]. mrun.
  rewrite (read_rest id) by (done || cbn; lia). unfold try_into_32. by rewrite H.
Qed.
Lemma network_at n buf c : drop c buf = network_id_to_bytes n -> network_opt_ok n -> (c <= length buf)%nat -> fits buf ->
  read_network (mkReader buf c) = Ok (n, mkReader buf (length buf)).
Proof. intros Hb Hn Hl Hf. unfold read_network. mrun. rewrite (read_rest _ _ _ Hb Hl Hf). by rewrite network_reads_back. Qed.

(** ** Junctions *)

Lemma lies_mid b (x y : list Z) : lies 1 x (b :: x ++ y).
Proof. by exists [b], y. Qed.
Lemma lies_tail b (x : list Z) : lies 1 x (b :: x).
Proof. exists [b], []. by rewrite app_nil_r. Qed.
Lemma drop_mid n b (x y : list Z) : length x = n -> drop (1 + n) (b :: x ++ y) = y.
Proof. intros <-. cbn. by rewrite drop_app_length. Qed.
Lemma mid_length n b (x y : list Z) : length x = n -> (1 + n <= length (b :: x ++ y))%nat.
Proof. intros <-. cbn. rewrite length_app. lia. Qed.

Section junction.
Context {BodyId BodyPart : Type}.
Abbreviation Junction := (Junction BodyId BodyPart).
Implicit Types (j : Junction).

Definition junction_ok j : Prop :=
  match j with
  | Parachain id => 0 <= id <= u32_max
  | AccountId32 network id => network_opt_ok network /\ length id = 32%nat
  | AccountIndex64 network index => network_opt_ok network /\ 0 <= index <= u64_max
  | AccountKey20 network key => network_opt_ok network /\ length key = 20%nat
  | PalletInstance instance => 0 <= instance < 256
  | GeneralIndex id => 0 <= id <= u128_max
  | GeneralKey len data => 0 <= len < 256 /\ length data = 32%nat
  | OnlyChild => True
  | Plurality _ _ => False
  | GlobalConsensus network => network_ok network
  end.
Definition junction_bytes j : list Z := match encode_junction j with Ok bs => bs | _ => [] end.

Lemma junction_encoded j : junction_ok j -> encode_junction j = Ok (junction_bytes j) /\ junction_bytes j <> [] /\ (length (junction_bytes j) <= 100)%nat.
Proof.
  destruct j as [id|n id|n i|n k|i|i|l d| |? ?|n]; intros H; try done; unfold junction_bytes; cbn [encode_junction];
    (split; [done | split; [done |]]); cbn [length]; rewrite ?length_app, ?to_be_length; try lia;
    try (destruct H as [H ?]; pose proof (network_bytes_length _ H); lia); try (cbn; lia).
  - destruct H. lia.
  - pose proof (network_bytes_length (Some n) H). lia.
Qed.

Lemma first_step b rest {A} (k : Z -> Read A) : fits (b :: rest) ->
  (enum_selector ← read_raw_bytes 1; s ← lift (first enum_selector); k s) (reader_new (b :: rest)) = k b (mkReader (b :: rest) 1).
Proof. intros Hf. mrun. by rewrite (read_selector_byte b (b :: rest) eq_refl Hf). Qed.
Lemma be_small n z : 0 <= z < 256 ^ Z.of_nat n -> from_be (to_be n z) = z /\ length (to_be n z) = n.
Proof. intros H. split; [by apply from_to_be | apply to_be_length]. Qed.

Lemma junction_reads_back j : junction_ok j ->
  exists r, decode_junction (reader_new (junction_bytes j)) = Ok (j, r).
Proof.
  intros H. destruct (junction_encoded j H) as (_ & _ & Hl). pose proof (short_fits (junction_bytes j) ltac:(lia)) as Hf. revert Hl Hf.
  destruct j as [id|n id|n i|n k|i|i|l d| |? ?|n]; try done; unfold junction_bytes; cbn [encode_junction]; intros Hl Hf;
    unfold decode_junction; rewrite (first_step _ _ _ Hf); cbv beta iota.
  - destruct (be_small 4 id) as [E El]; [cbn in H; unfold u32_max in H; lia |]. mrun. rewrite (read_array_at 4 _ _ _ (lies_tail _ _)) by done. rewrite E. by eexists.
  - destruct H as [Hn Hk]. mrun. rewrite (read_array_at 32 _ _ _ (lies_mid _ _ _)) by done.
    rewrite (network_at n) by (done || by (apply drop_mid || apply mid_length)). by eexists.
  - destruct H as [Hn Hk]. destruct (be_small 8 i) as [E El]; [unfold u64_max in Hk; lia |]. mrun. rewrite (read_array_at 8 _ _ _ (lies_mid _ _ _)) by done.
    rewrite (network_at n) by (done || by (apply drop_mid || apply mid_length)). rewrite E. by eexists.
  - destruct H as [Hn Hk]. mrun. rewrite (read_array_at 20 _ _ _ (lies_mid _ _ _)) by done.
    rewrite (network_at n) by (done || by (apply drop_mid || apply mid_length)). by eexists.
  - mrun. pose proof (read_raw_at [i mod 256] (4 :: to_be 1 i) 1) as R. cbn [length] in R. rewrite R; [| by exists [4], [] | done].
    cbn in H |- *. rewrite Z.mod_small by lia. by eexists.
  - destruct (be_small 16 i) as [E El]; [cbn in H; unfold u128_max in H; lia |]. mrun. rewrite (read_array_at 16 _ _ _ (lies_tail _ _)) by done. rewrite E. by eexists.
  - destruct H as [Hn Hk]. mrun. pose proof (read_raw_at [l] (6 :: l :: d) 1) as R. cbn [length] in R. rewrite R; [| by exists [6], d | done].
    cbn [copy_from_slice length Nat.eqb]. rewrite (read_rest d) by (done || cbn; lia). unfold copy_from_slice. rewrite Hk. by eexists.
  - by eexists.
  - mrun. rewrite (network_at (Some n)) by (done || cbn; lia). by eexists.
Qed.

#[export] Instance laws_Junction : EvmDataLaws Junction.
Proof.
  refine {| evm_ok j := junction_ok j; evm_field j := evm_field (mkBytes (junction_bytes j)) |};
    cbn [evm_read evm_write EvmData_Junction has_static_size]; try done.
  - intros j bs Hj E. apply (field_nonempty (mkBytes (junction_bytes j)) bs); [| done].
    destruct (junction_encoded j Hj) as (_ & _ & Hl). apply (short_fits (junction_bytes j)). lia.
  - intros j w Hj. destruct (junction_encoded j Hj) as (E & _ & Hl). unfold write_junction. rewrite E. cbn [mbind result_bind].
    apply write_field. apply (short_fits (junction_bytes j)). lia.
  - intros j buf c Hj Hf Hh. destruct (junction_encoded j Hj) as (_ & Hne & Hl). unfold read_junction. mrun.
    rewrite (read_field (mkBytes (junction_bytes j)) buf c); [| apply (short_fits (junction_bytes j)); lia | done | done].
    cbn [bytes_value]. rewrite bool_decide_eq_false_2 by done. destruct (junction_reads_back j Hj) as [r ->]. done.
Defined.

(** ** Locations *)

Lemma push_all_ok (js : Junctions BodyId BodyPart) (items : list Junction) :
  (length (junctions js) + length items <= 8)%nat -> push_all js items = Ok (mkJunctions (junctions js ++ items)).
Proof.
  revert js. induction items as [|j items IH]; intros js H; cbn in *; [by rewrite app_nil_r; destruct js |].
  unfold push. rewrite (proj2 (Nat.ltb_lt _ _)) by lia. rewrite IH; cbn; [by rewrite <- app_assoc | rewrite length_app; cbn; lia].
Qed.
Definition junctions_ok (js : Junctions BodyId BodyPart) : Prop := Forall junction_ok (junctions js) /\ (length (junctions js) <= 8)%nat.
Lemma junctions_vec_ok js : junctions_ok js -> evm_ok (junctions js).
Proof. intros [H1 H2]. split; [done |]. etrans; [apply Nat2Z.inj_le, H2 |]. done. Qed.
#[export] Instance laws_Junctions : EvmDataLaws (Junctions BodyId BodyPart).
Proof.
  refine {| evm_ok := junctions_ok; evm_field js := evm_field (junctions js) |};
    cbn [evm_read evm_write EvmData_Junctions has_static_size]; try done.
  - intros js bs Hj. apply field_nonempty. by apply junctions_vec_ok.
  - intros js w Hj. apply write_field. by apply junctions_vec_ok.
  - intros js buf c Hj Hf Hh. mrun. rewrite (read_field (junctions js) buf c (junctions_vec_ok js Hj) Hf Hh).
    destruct Hj as [_ Hl]. rewrite (push_all_ok Here) by (cbn; lia). by destruct js.
Defined.

Definition location_ok (l : MultiLocation BodyId BodyPart) : Prop := 0 <= parents l < 256 /\ junctions_ok (interior l).
Definition location_tuple (l : MultiLocation BodyId BodyPart) : Tuple (U8 * (Junctions BodyId BodyPart * unit)) :=
  mkTuple (mkU8 (parents l), (interior l, tt)).
Lemma location_tuple_ok l : location_ok l -> evm_ok (location_tuple l).
Proof. intros [H1 H2]. split; [done |]. by split. Qed.
#[export] Instance laws_MultiLocation : EvmDataLaws (MultiLocation BodyId BodyPart).
Proof.
  refine {| evm_ok := location_ok; evm_field l := evm_field (location_tuple l) |};
    cbn [evm_read evm_write EvmData_MultiLocation has_static_size]; try done.
  - intros l bs Hj. apply field_nonempty. by apply location_tuple_ok.
  - intros l w Hj. apply (write_field (location_tuple l)). by apply location_tuple_ok.
  - intros l buf c Hj Hf Hh. unfold read_location. mrun.
    rewrite (read_field (location_tuple l) buf c (location_tuple_ok l Hj) Hf Hh). by destruct l.
Defined.
End junction.

(** ** Encoding one value *)

Definition abi_encode {A} {E : EvmData A} (v : A) : EvmResult (list Z) := w ← evm_write v writer_new; build w.
Definition abi_decode {A} {E : EvmData A} (input : list Z) : EvmResult A := '(v, _) ← evm_read (reader_new input); Ok v.

Lemma encoded_reads_back {A} {E : EvmData A} {L : EvmDataLaws A} (v : A) : evm_ok v ->
  exists out, abi_encode v = Ok out /\ (fits out -> abi_decode out = Ok v).
Proof.
  intros Hv. unfold abi_encode. rewrite (write_field v writer_new Hv). cbn [mbind result_bind].
  change (put_field 0 (evm_field v) writer_new) with (put_fields 0 [evm_field v] writer_new). rewrite put_fields_eq. unfold build.
  destruct (fields_built 0 [] [evm_field v]) as (out & E1 & _ & [H2 _] & _); [done |]. cbn [app length] in E1.
  cbn [data offset_data selector writer_new app length]. rewrite E1. cbn.
  exists out. split; [done |]. intros Hf. unfold abi_decode, reader_new. by rewrite (read_field v out 0 Hv Hf H2).
Qed.

(** C33: Locations survive the EVM: every XCM location of at most eight junctions, none of them a plurality and none of whose
    networks is named by a fork or is an Ethereum chain, is encoded without a panic, and call data that fits into memory is
    decoded to the same location, the pointers to the junctions and the network ids inside them included. *)
Theorem location_round_trip {BodyId BodyPart} (l : MultiLocation BodyId BodyPart) :
  location_ok l ->
  exists out, abi_encode l = Ok out /\ (Z.of_nat (length out) <= usize_max -> abi_decode out = Ok l).
Proof.
  exact (encoded_reads_back l).
Qed.

(** A place on a sibling chain *)
Definition some_location : MultiLocation unit unit :=
  mkLocation 1 (mkJunctions [Parachain 2085; AccountId32 (Some Kusama) (repeat 3 32); GeneralKey 2 (repeat 0 32)]).
Lemma location_round_trip_witness :
  location_ok some_location /\
  exists out, abi_encode some_location = Ok out /\ length out = 480%nat /\ abi_decode out = Ok some_location.
Proof.
  assert (location_ok some_location) as Hok by (split; [done |]; split; [repeat constructor; done | cbn; lia]).
  split; [exact Hok |]. destruct (location_round_trip some_location Hok) as (out & H1 & H2). exists out.
  assert (length out = 480%nat) as Hl.
  { enough (match abi_encode some_location with Ok c => length c | _ => 0%nat end = 480%nat) as Hc; [by rewrite H1 in Hc |]. vm_compute. reflexivity. }
  split; [exact H1 |]. split; [exact Hl |]. apply H2. rewrite Hl. done.
Defined.

(** ** What does not survive *)

(** The writer puts two bytes before the chain id, the reader takes one for the selector: the id is read one byte early. *)
Lemma ethereum_shifted c : 0 <= c < 2 ^ 64 ->
  network_id_from_bytes (network_id_to_bytes (Some (Ethereum c))) = Ok (Some (Ethereum (7 * 2 ^ 56 + c / 256))).
Proof.
  intros Hc. unfold network_id_from_bytes. cbn [network_id_to_bytes]. rewrite bool_decide_eq_false_2 by done.
  change (to_be 8 c) with (to_be 7 (c / 256) ++ [c mod 256]). set (q := c / 256).
  assert (0 <= q < 256 ^ Z.of_nat 7) as Hq by (split; [apply Z.div_pos; lia | apply Z.div_lt_upper_bound; lia]).
  set (buf := [8; 7] ++ to_be 7 q ++ [c mod 256]).
  assert (fits buf) as Hf by (apply short_fits; unfold buf; rewrite !length_app, to_be_length; cbn; lia).
  unfold read_network_id. mrun. rewrite (read_selector_byte 8 buf eq_refl Hf). cbn [first]. mrun.
  rewrite (read_array_at 8 (7 :: to_be 7 q) buf 1); [| by exists [8], [c mod 256] | cbn [length]; by rewrite to_be_length | done].
  do 3 f_equal. rewrite from_be_cons, from_to_be by done. by rewrite to_be_length.
Qed.
Example chain_one_misread : network_id_from_bytes (network_id_to_bytes (Some (Ethereum 1))) = Ok (Some (Ethereum (7 * 2 ^ 56))).
Proof. apply (ethereum_shifted 1). lia. Qed.

(** The same for the block number of a fork, whose last byte becomes the first of the hash *)
Lemma fork_shifted n h : 0 <= n < 2 ^ 64 -> length h = 32%nat ->
  network_id_from_bytes (network_id_to_bytes (Some (ByFork n h))) =
  Ok (Some (ByFork (2 ^ 56 + n / 256) (n mod 256 :: take 31 h))).
Proof.
  intros Hc Hh. unfold network_id_from_bytes. cbn [network_id_to_bytes]. rewrite bool_decide_eq_false_2 by done.
  change (to_be 8 n) with (to_be 7 (n / 256) ++ [n mod 256]). set (q := n / 256).
  assert (0 <= q < 256 ^ Z.of_nat 7) as Hq by (split; [apply Z.div_pos; lia | apply Z.div_lt_upper_bound; lia]).
  set (buf := [4; 1] ++ (to_be 7 q ++ [n mod 256]) ++ h).
  assert (fits buf) as Hf by (apply short_fits; unfold buf; rewrite !length_app, to_be_length; cbn; lia).
  unfold read_network_id. mrun. rewrite (read_selector_byte 4 buf eq_refl Hf). cbn [first]. mrun.
  rewrite (read_array_at 8 (1 :: to_be 7 q) buf 1); [| exists [4], (n mod 256 :: h); unfold buf; cbn; by rewrite <- app_assoc | cbn [length]; by rewrite to_be_length | done].
  change (1 + 8)%nat with 9%nat. rewrite (read_array_at 32 (n mod 256 :: take 31 h) buf 9); [| | cbn [length]; rewrite length_take; lia | done].
  - rewrite from_be_cons, from_to_be by done. by rewrite to_be_length.
  - exists ([4; 1] ++ to_be 7 q), (drop 31 h). unfold buf. rewrite <- !app_assoc. cbn. rewrite take_drop. split; [done |]. by rewrite to_be_length.
Qed.

(** A general key that is not followed by 32 bytes stops the runtime, where other malformed input is turned down. *)
Lemma short_key_panics {BodyId BodyPart} len rest : length rest <> 32%nat -> (length rest <= 900)%nat ->
  @decode_junction BodyId BodyPart (reader_new (6 :: len :: rest)) = Panic.
Proof.
  intros Hr Hs. assert (fits (6 :: len :: rest)) as Hf by (apply short_fits; cbn; lia).
  unfold decode_junction. rewrite (first_step _ _ _ Hf). mrun.
  pose proof (read_raw_at [len] (6 :: len :: rest) 1) as R. cbn [length] in R. rewrite R; [| by exists [6], rest | done].
  cbn [copy_from_slice length Nat.eqb]. rewrite (read_rest rest) by (done || cbn; lia). unfold copy_from_slice.
  by rewrite (proj2 (Nat.eqb_neq _ _)).
Qed.
