(* ===== verification/Precompile.v ===== *)
(** * Precompile utilities (src/precompiles/utils/src/lib.rs, src/precompiles/utils/macro/src/lib.rs)

    What precompiles share: failures, logs and their cost, the call context, function modifiers,
    selectors and the dispatch of a substrate call for gas.  The handle that the EVM passes in, the hash
    function and the dispatch of calls are not part of the repository: the handle is the class
    [PrecompileHandle] with its laws, the runtime the class [EvmRuntime]. *)

From stdpp Require Import strings.
From S2P Require Import Prelude Arith Frame EvmData EvmAbi.
From stdpp Require Import list.
#[local] Open Scope Z_scope.

Module Precompile.
Import EvmData.

Abbreviation H160 := (list Z) (only parsing).
Abbreviation U256Z := Z (only parsing).

Inductive ExitError := OutOfGas | OtherError (text : string).
Inductive PrecompileFailure := Revert (output : string) | Error (exit_status : ExitError).
Definition error (text : string) : PrecompileFailure := Error (OtherError text).
Definition revert (output : string) : PrecompileFailure := Revert output.
(** Reading and writing call data fails with a revert only. *)
Definition of_data {A} (r : EvmResult A) : result PrecompileFailure A :=
  match r with Ok a => Ok a | Err output => Err (Revert output) | Panic => Panic end.
Definition of_exit {A} (r : result ExitError A) : result PrecompileFailure A :=
  match r with Ok a => Ok a | Err e => Err (Error e) | Panic => Panic end.

(** ** Logs *)

Record Log := mkLog { log_address : H160; topics : list (list Z); log_data : list Z }.
(** [H256::from] of an address *)
Definition topic_of_address (a : H160) : list Z := repeat 0 12 ++ a.
Definition log0 (address : H160) (data : list Z) : Log := mkLog address [] data.
Definition log1 (address : H160) (t0 data : list Z) : Log := mkLog address [t0] data.
Definition log2 (address : H160) (t0 t1 data : list Z) : Log := mkLog address [t0; t1] data.
Definition log3 (address : H160) (t0 t1 t2 data : list Z) : Log := mkLog address [t0; t1; t2] data.
Definition log4 (address : H160) (t0 t1 t2 t3 data : list Z) : Log := mkLog address [t0; t1; t2; t3] data.

(** [u64] arithmetic *)
Definition add64 : Z -> Z -> option Z := checked_add_to u64_max.
Definition mul64 : Z -> Z -> option Z := checked_mul_to u64_max.
Definition log_costs (topics data_len : nat) : result PrecompileFailure Z :=
  topic_cost ← ok_or (mul64 375 (Z.of_nat topics)) (Error OutOfGas);
  data_cost ← ok_or (mul64 8 (Z.of_nat data_len)) (Error OutOfGas);
  cost ← ok_or (add64 375 topic_cost) (Error OutOfGas);
  ok_or (add64 cost data_cost) (Error OutOfGas).
Definition compute_cost (l : Log) : result PrecompileFailure Z := log_costs (length (topics l)) (length (log_data l)).

(** The fields of [evm::Config] that [call_cost] reads *)
Record EvmConfig := mkEvmConfig {
  increase_state_access_gas : bool;
  gas_account_access_cold : Z;
  gas_storage_read_warm : Z;
  gas_call : Z;
  empty_considered_exists : bool;
}.
Definition address_access_cost (is_cold : bool) (regular_value : Z) (config : EvmConfig) : Z :=
  if increase_state_access_gas config then
    if is_cold then gas_account_access_cold config else gas_storage_read_warm config
  else regular_value.
Definition xfer_cost (is_call_or_callcode transfers_value : bool) : Z := if is_call_or_callcode && transfers_value then 9000 else 0.
Definition new_cost (is_call_or_staticcall new_account transfers_value : bool) (config : EvmConfig) : Z :=
  let eip161 := negb (empty_considered_exists config) in
  if is_call_or_staticcall then
    if eip161 then (if transfers_value && new_account then 25000 else 0)
    else (if new_account then 25000 else 0)
  else 0.
Definition call_cost {E} (value : U256Z) (config : EvmConfig) : result E Z :=
  let transfers_value := negb (value =? 0) in
  a ← or_panic (add64 (address_access_cost true (gas_call config) config) (xfer_cost true transfers_value));
  or_panic (add64 a (new_cost true true transfers_value config)).

(** ** The handle *)

Record EvmContext := mkContext { address : H160; caller : H160; apparent_value : U256Z }.
(** What a call comes with, which a precompile cannot change *)
Record CallFrame := mkFrame { call_input : list Z; context : EvmContext; code_address : H160; is_static : bool }.
Class PrecompileHandle (H : Type) := {
  frame : H -> CallFrame;
  remaining_gas : H -> Z;
  record_cost : Z -> H -> result ExitError H;
  record_log : Log -> H -> result ExitError H;
}.
(** Recording a cost or a log changes nothing about the call; costs are taken from the gas. *)
Class PrecompileHandleLaws (H : Type) {P : PrecompileHandle H} : Prop := {
  record_cost_frame cost h h' : record_cost cost h = Ok h' -> frame h' = frame h;
  record_cost_gas cost h h' : record_cost cost h = Ok h' -> remaining_gas h' = remaining_gas h - cost;
  record_log_frame l h h' : record_log l h = Ok h' -> frame h' = frame h;
}.

Inductive FunctionModifier := View | NonPayable | Payable.
#[global] Instance FunctionModifier_eq_dec : EqDecision FunctionModifier.
Proof. solve_decision. Defined.
Definition check_function_modifier (ctx : EvmContext) (static : bool) (modifier : FunctionModifier) : result PrecompileFailure unit :=
  if static && negb (bool_decide (modifier = View)) then Err (revert "can't call non-static function in static context")
  else if negb (bool_decide (modifier = Payable)) && (0 <? apparent_value ctx) then Err (revert "function is not payable")
  else Ok tt.

(** ** The runtime *)

Class EvmRuntime (W : Type) := {
  keccak_256 : list Z -> list Z;
  weight_to_gas : W -> Z;
  db_reads : Z -> W;
  db_writes : Z -> W;
  into_account_id : H160 -> AccountId;
  show_error : DispatchError -> string;
}.
Class EvmRuntimeLaws (W : Type) {R : EvmRuntime W} : Prop := keccak_256_length bs : length (keccak_256 bs) = 32%nat.

(** The macros [keccak256!] and [generate_function_selector] *)
Definition string_bytes (s : string) : list Z := map (fun c => Z.of_nat (Ascii.nat_of_ascii c)) (String.list_ascii_of_string s).
Section runtime.
Context {W : Type} {R : EvmRuntime W}.
Definition keccak256 (s : string) : list Z := keccak_256 (string_bytes s).
Definition generate_function_selector (s : string) : Z := from_be (take 4 (keccak256 s)).
Definition db_read_gas_cost : Z := weight_to_gas (db_reads 1).
Definition db_write_gas_cost : Z := weight_to_gas (db_writes 1).

(** [TryFromPrimitive] of an enum whose variants carry signatures *)
Definition try_from_primitive {A} (variants : list A) (signature : A -> string) (selector : Z) : option A :=
  List.find (fun v => generate_function_selector (signature v) =? selector) variants.
End runtime.

(** A call into the runtime: its weight, and what it does to the chain *)
Class Dispatchable (W S C : Type) := {
  get_dispatch_info : C -> W;
  dispatch : RuntimeOrigin -> C -> S -> Res (option W * S);
}.

(** ** Precompiles as computations

    A precompile changes the handle and the storage.  The EVM undoes both if it fails. *)

Record World (H S : Type) := mkWorld { handle : H; storage : S }.
Arguments mkWorld {H S}.
Arguments handle {H S}.
Arguments storage {H S}.
Abbreviation Run H S := (M (World H S) PrecompileFailure).

Section run.
Context {W H S C : Type} {R : EvmRuntime W} {P : PrecompileHandle H} {D : Dispatchable W S C}.
Abbreviation Run := (Run H S).

Definition on_handle (f : H -> result ExitError H) : Run unit := fun w =>
  h ← of_exit (f (handle w)); Ok (tt, mkWorld h (storage w)).
Definition the_frame : Run CallFrame := gets (fun w => frame (handle w)).
Definition charge (cost : Z) : Run unit := on_handle (record_cost cost).
Definition record (l : Log) : Run unit := on_handle (record_log l).
Definition record_log_costs_manual (topics data_len : nat) : Run unit :=
  cost ← lift (log_costs topics data_len); charge cost.
Definition record_log_costs (logs : list Log) : Run unit :=
  for_each (fun l => record_log_costs_manual (length (topics l)) (length (log_data l))) logs.
Definition check_modifier (modifier : FunctionModifier) : Run unit :=
  f ← the_frame; lift (check_function_modifier (context f) (is_static f) modifier).
Definition read_action {A} (variants : list A) (signature : A -> string) : Run A :=
  f ← the_frame;
  selector ← lift (of_data (read_selector (call_input f)));
  lift (ok_or (try_from_primitive variants signature selector) (revert "unknown selector")).
Definition read_input : Run EvmDataReader :=
  f ← the_frame; lift (of_data (new_skip_selector (call_input f))).
(** [input.read()?] for one argument after the other *)
Definition read_arguments {A} {E : EvmTuple A} (input : EvmDataReader) : Run A :=
  '(args, _) ← lift (of_data (tuple_read input)); mret args.
(** [succeed(EvmDataWriter::new().write(..).build())] *)
Definition output {A} {E : EvmTuple A} (v : A) : Run (list Z) :=
  lift (of_data (w ← tuple_write v writer_new; build w)).

Definition try_dispatch (origin : RuntimeOrigin) (call : C) : Run unit :=
  let info := get_dispatch_info call in
  w ← get;
  let required_gas := weight_to_gas info in
  if remaining_gas (handle w) <? required_gas then lift (Err (Error OutOfGas))
  else
    '(used_weight, s) ← lift (match dispatch origin call (storage w) with
                              | Ok r => Ok r
                              | Err e => Err (revert ("Dispatched call failed with error: " +:+ show_error e))
                              | Panic => Panic end);
    _ ← put (mkWorld (handle w) s);
    charge (weight_to_gas (default info used_weight)).
End run.
End Precompile.

(** ** What a computation leaves alone *)
Import Precompile.
Lemma of_data_Ok {A} (r : EvmData.EvmResult A) a : of_data r = Ok a <-> r = Ok a.
Proof. destruct r; naive_solver. Qed.
Lemma of_exit_Ok {A} (r : result ExitError A) a : of_exit r = Ok a <-> r = Ok a.
Proof. destruct r; naive_solver. Qed.

Section keeps.
Context {W H S : Type} {R : EvmRuntime W} {P : PrecompileHandle H} {PL : PrecompileHandleLaws H}.
Abbreviation Run := (Run H S).
Implicit Types (h : H) (s : S).

(** The storage and the call: it only reads, charges gas and logs. *)
Definition keeps {A} (m : Run A) : Prop :=
  forall h s a w, m (mkWorld h s) = Ok (a, w) -> exists h', w = mkWorld h' s /\ frame h' = frame h.

Lemma keeps_lift {A} (r : result PrecompileFailure A) : keeps (lift r).
Proof. intros h s a w [_ ->]%lift_Ok. by exists h. Qed.
Lemma keeps_ret {A} (a : A) : keeps (mret a).
Proof. intros h s b w [= <- <-]. by exists h. Qed.
Lemma keeps_gets {A} (f : World H S -> A) : keeps (gets f).
Proof. intros h s b w [= <- <-]. by exists h. Qed.
Lemma keeps_bind {A B} (m : Run A) (f : A -> Run B) : keeps m -> (forall a, keeps (f a)) -> keeps (m ≫= f).
Proof.
  intros Hm Hf h s b w (a & w1 & H1 & H2)%M_bind_Ok. apply Hm in H1 as (h1 & -> & E1).
  apply Hf in H2 as (h2 & -> & E2). exists h2. split; [done | congruence].
Qed.
Lemma keeps_on_handle (f : H -> result ExitError H) : (forall h h', f h = Ok h' -> frame h' = frame h) -> keeps (on_handle f).
Proof.
  intros Hf h s a w (h' & H1 & [= _ <-])%result_bind_Ok. exists h'. split; [done |]. by apply Hf, of_exit_Ok.
Qed.
Lemma keeps_charge cost : keeps (charge cost).
Proof. apply keeps_on_handle, record_cost_frame. Qed.
Lemma keeps_record l : keeps (record l).
Proof. apply keeps_on_handle, record_log_frame. Qed.
Lemma keeps_log_costs n m : keeps (record_log_costs_manual n m).
Proof. apply keeps_bind; [apply keeps_lift |]. intros cost. apply keeps_charge. Qed.
Lemma keeps_frame : keeps the_frame.
Proof. apply keeps_gets. Qed.
Lemma keeps_input : keeps read_input.
Proof. apply keeps_bind; [apply keeps_frame | intros f; apply keeps_lift]. Qed.
Lemma keeps_arguments {A} {E : EvmData.EvmTuple A} r : keeps (read_arguments (A := A) r).
Proof. apply keeps_bind; [apply keeps_lift |]. intros [args ?]. apply keeps_ret. Qed.
Lemma keeps_output {A} {E : EvmData.EvmTuple A} (v : A) : keeps (output v).
Proof. apply keeps_lift. Qed.
Lemma keeps_action {A} (variants : list A) signature : keeps (read_action variants signature).
Proof. repeat (apply keeps_bind; [apply keeps_gets || apply keeps_lift | intros]). apply keeps_lift. Qed.
Lemma keeps_modifier m : keeps (check_modifier m).
Proof. apply keeps_bind; [apply keeps_frame | intros; apply keeps_lift]. Qed.

(** The arguments that the call data holds after the selector *)
Definition parsed {A} {E : EvmData.EvmTuple A} (f : CallFrame) : EvmData.EvmResult A :=
  r ← EvmData.new_skip_selector (call_input f); '(args, _) ← EvmData.tuple_read r; Ok args.
Lemma arguments_parsed {A} {E : EvmData.EvmTuple A} h s r w1 (w w2 : World H S) args :
  read_input (mkWorld h s) = Ok (r, w1) -> read_arguments (A := A) r w = Ok (args, w2) -> parsed (frame h) = Ok args.
Proof.
  intros (? & ? & [= <- <-] & [E0%of_data_Ok _]%lift_Ok)%M_bind_Ok ([? rest] & ? & [E1%of_data_Ok _]%lift_Ok & [= -> _])%M_bind_Ok.
  unfold parsed. cbn in E0. rewrite E0. cbn [mbind result_bind]. by rewrite E1.
Qed.

Lemma keeps_step {A B} (m : Run A) (f : A -> Run B) h s b w : keeps m -> (m ≫= f) (mkWorld h s) = Ok (b, w) ->
  exists a h', m (mkWorld h s) = Ok (a, mkWorld h' s) /\ frame h' = frame h /\ f a (mkWorld h' s) = Ok (b, w).
Proof.
  intros Hm (a & w1 & H1 & H2)%M_bind_Ok. destruct (Hm _ _ _ _ H1) as (h' & -> & E). by exists a, h'.
Qed.

(** What a dispatched call does *)
Lemma try_dispatch_Ok {C} {D : Dispatchable W S C} origin call h s u w :
  try_dispatch origin call (mkWorld h s) = Ok (u, w) ->
  exists used h' s', dispatch origin call s = Ok (used, s') /\ w = mkWorld h' s' /\ frame h' = frame h.
Proof.
  unfold try_dispatch. intros (w1 & ? & [= <- <-] & H1)%M_bind_Ok. cbn in H1.
  destruct (remaining_gas h <? _); [done |]. apply M_bind_Ok in H1 as ([used s'] & w1 & [H1 ->]%lift_Ok & H2).
  apply M_bind_Ok in H2 as (? & w2 & [= _ <-] & H2). apply keeps_charge in H2 as (h' & -> & E).
  exists used, h', s'. split; [| done]. destruct (dispatch origin call s) as [[]| |]; cbn in H1; congruence.
Qed.
End keeps.
Create HintDb keeps discriminated.
#[export] Hint Resolve keeps_lift keeps_ret keeps_gets keeps_charge keeps_record keeps_log_costs keeps_frame keeps_input
  keeps_arguments keeps_output keeps_action keeps_modifier : keeps.
#[export] Hint Extern 1 (keeps (_ ≫= _)) => apply keeps_bind; [| intros] : keeps.
(** The next step of a call [H], which leaves the storage alone *)
Ltac peel H :=
  let a := fresh "a" in let h := fresh "h" in let E := fresh "E" in let F := fresh "F" in
  apply keeps_step in H as (a & h & E & F & H); [| by auto 6 with keeps].
