(* ===== verification/Erc20Balances.v ===== *)
(** * The ERC-20 view of the native currency (src/precompiles/balances-erc20/src)

    The precompile that exposes [pallet_balances] as an ERC-20 token, with approvals and EIP-2612
    permits in storage of its own.  The pallet, the clock, the signature recovery and the
    token's metadata are parameters. *)

From stdpp Require Import strings.
From S2P Require Import Prelude Arith Frame EvmData EvmAbi Precompile.
From stdpp Require Import list.
Import EvmData Precompile.
#[local] Open Scope Z_scope.

Module Erc20Balances.

(** ** Actions and their selectors *)

Inductive Action :=
| TotalSupply | BalanceOf | Allowance | Transfer | Approve | TransferFrom | Name | Symbol | Decimals
| Deposit | Withdraw | Eip2612Permit | Eip2612Nonces | Eip2612DomainSeparator.
Definition actions : list Action :=
  [TotalSupply; BalanceOf; Allowance; Transfer; Approve; TransferFrom; Name; Symbol; Decimals;
   Deposit; Withdraw; Eip2612Permit; Eip2612Nonces; Eip2612DomainSeparator].
Definition signature (a : Action) : string :=
  match a with
  | TotalSupply => "totalSupply()"
  | BalanceOf => "balanceOf(address)"
  | Allowance => "allowance(address,address)"
  | Transfer => "transfer(address,uint256)"
  | Approve => "approve(address,uint256)"
  | TransferFrom => "transferFrom(address,address,uint256)"
  | Name => "name()"
  | Symbol => "symbol()"
  | Decimals => "decimals()"
  | Deposit => "deposit()"
  | Withdraw => "withdraw(uint256)"
  | Eip2612Permit => "permit(address,address,uint256,uint256,uint8,bytes32,bytes32)"
  | Eip2612Nonces => "nonces(address)"
  | Eip2612DomainSeparator => "DOMAIN_SEPARATOR()"
  end.

(** [Erc20Metadata] *)
Record Metadata := mkMetadata { token_name : string; token_symbol : string; token_decimals : Z; is_native_currency : bool }.

(** ** What the precompile takes from the runtime *)

(** The call [pallet_balances::Call::transfer] *)
Inductive BalancesCall := BalancesTransfer (dest : AccountId) (value : Balance).
Class BalancesRuntime (L : Type) := {
  balances_total_issuance : L -> Balance;
  usable_balance : L -> AccountId -> Balance;
  (** [pallet_timestamp::get], in milliseconds *)
  timestamp : L -> Z;
  ChainId : Z;
  secp256k1_ecdsa_recover : list Z -> list Z -> option (list Z);
}.

(** ** Storage *)

Record Storage (L : Type) := mkStorage {
  Approves : gmap (AccountId * AccountId) Balance;
  Nonces : gmap (list Z) Z;
  chain : L;
}.
Arguments mkStorage {L}.
Arguments Approves {L}.
Arguments Nonces {L}.
Arguments chain {L}.

(** The arguments of [permit]: owner, spender, value, deadline, v, r and s *)
Abbreviation PermitArgs := (Address * (Address * (U256 * (U256 * (U8 * (H256 * (H256 * unit)))))))%type.

Section precompile.
Context {W H L : Type} {R : EvmRuntime W} {P : PrecompileHandle H} {B : BalancesRuntime L} {D : Dispatchable W L BalancesCall}.
Context (meta : Metadata).

#[export] Instance storage_dispatch : Dispatchable W (Storage L) BalancesCall := {|
  get_dispatch_info := get_dispatch_info (S := L);
  dispatch o c s := '(used, l) ← dispatch o c (chain s); Ok (used, mkStorage (Approves s) (Nonces s) l) |}.
Abbreviation Run := (Run H (Storage L)).

Definition the_storage : Run (Storage L) := gets storage.
Definition set_storage (f : Storage L -> Storage L) : Run unit := modify (fun w => mkWorld (handle w) (f (storage w))).
Definition insert_approval (owner spender : AccountId) (amount : Balance) (s : Storage L) : Storage L :=
  mkStorage (<[(owner, spender) := amount]> (Approves s)) (Nonces s) (chain s).
Definition insert_nonce (owner : list Z) (nonce : Z) (s : Storage L) : Storage L :=
  mkStorage (Approves s) (<[owner := nonce]> (Nonces s)) (chain s).
Definition nonce_of (s : Storage L) (owner : list Z) : Z := default 0 (Nonces s !! owner).

Definition u256_to_amount (value : Z) : result PrecompileFailure Balance :=
  if value <=? u128_max then Ok value else Err (revert "amount is too large for provided balance type").
(** [unwrap_or_else(|_| Bounded::max_value())] *)
Definition saturate_amount (value : Z) : Balance := match u256_to_amount value with Ok a => a | _ => u128_max end.

Definition SELECTOR_LOG_TRANSFER : list Z := keccak256 "Transfer(address,address,uint256)".
Definition SELECTOR_LOG_APPROVAL : list Z := keccak256 "Approval(address,address,uint256)".
Definition SELECTOR_LOG_DEPOSIT : list Z := keccak256 "Deposit(address,uint256)".
Definition SELECTOR_LOG_WITHDRAWAL : list Z := keccak256 "Withdrawal(address,uint256)".

(** ** Queries *)

Definition total_supply : Run (list Z) :=
  _ ← charge db_read_gas_cost;
  input ← read_input;
  _ ← lift (of_data (expect_arguments input 0));
  s ← the_storage;
  output (mkU256 (balances_total_issuance (chain s)), tt).
Definition balance_of : Run (list Z) :=
  _ ← charge db_read_gas_cost;
  input ← read_input;
  _ ← lift (of_data (expect_arguments input 1));
  '(owner, _) ← read_arguments (A := Address * unit) input;
  s ← the_storage;
  output (mkU256 (usable_balance (chain s) (into_account_id (address_bytes owner))), tt).
Definition allowance : Run (list Z) :=
  _ ← charge db_read_gas_cost;
  input ← read_input;
  _ ← lift (of_data (expect_arguments input 2));
  '(owner, (spender, _)) ← read_arguments (A := Address * (Address * unit)) input;
  s ← the_storage;
  output (mkU256 (default 0 (Approves s !! (into_account_id (address_bytes owner), into_account_id (address_bytes spender)))), tt).
Definition name : Run (list Z) := output (mkBytes (string_bytes (token_name meta)), tt).
Definition symbol : Run (list Z) := output (mkBytes (string_bytes (token_symbol meta)), tt).
Definition decimals : Run (list Z) := output (mkU8 (token_decimals meta), tt).

(** ** Approvals and transfers *)

Definition record3 (selector from to : list Z) (amount : Z) : Run unit :=
  f ← the_frame;
  data ← output (mkU256 amount, tt);
  record (log3 (address (context f)) selector (topic_of_address from) (topic_of_address to) data).
Definition record2 (selector who : list Z) (amount : Z) : Run unit :=
  f ← the_frame;
  data ← output (mkU256 amount, tt);
  record (log2 (address (context f)) selector (topic_of_address who) data).

Definition approve : Run (list Z) :=
  _ ← charge db_write_gas_cost;
  _ ← record_log_costs_manual 3 32;
  input ← read_input;
  _ ← lift (of_data (expect_arguments input 2));
  '(spender, (amount, _)) ← read_arguments (A := Address * (U256 * unit)) input;
  f ← the_frame;
  _ ← set_storage (insert_approval (into_account_id (caller (context f))) (into_account_id (address_bytes spender))
                     (saturate_amount (u256_value amount)));
  _ ← record3 SELECTOR_LOG_APPROVAL (caller (context f)) (address_bytes spender) (u256_value amount);
  output (true, tt).

Definition transfer : Run (list Z) :=
  _ ← record_log_costs_manual 3 32;
  input ← read_input;
  _ ← lift (of_data (expect_arguments input 2));
  '(to, (amount, _)) ← read_arguments (A := Address * (U256 * unit)) input;
  f ← the_frame;
  value ← lift (u256_to_amount (u256_value amount));
  _ ← try_dispatch (Signed (into_account_id (caller (context f)))) (BalancesTransfer (into_account_id (address_bytes to)) value);
  _ ← record3 SELECTOR_LOG_TRANSFER (caller (context f)) (address_bytes to) (u256_value amount);
  output (true, tt).

Definition spend_allowance (from caller : AccountId) (amount : Balance) : Run unit :=
  s ← the_storage;
  value ← lift (ok_or (Approves s !! (from, caller)) (revert "spender not allowed"));
  new_value ← lift (ok_or (checked_sub value amount) (revert "trying to spend more than allowed"));
  set_storage (insert_approval from caller new_value).
Definition transfer_from : Run (list Z) :=
  _ ← charge db_read_gas_cost;
  _ ← charge db_write_gas_cost;
  _ ← record_log_costs_manual 3 32;
  input ← read_input;
  _ ← lift (of_data (expect_arguments input 3));
  '(from, (to, (amount, _))) ← read_arguments (A := Address * (Address * (U256 * unit))) input;
  f ← the_frame;
  let caller_id := into_account_id (caller (context f)) in
  let from_id := into_account_id (address_bytes from) in
  value ← lift (u256_to_amount (u256_value amount));
  _ ← (if bool_decide (caller_id = from_id) then mret tt else spend_allowance from_id caller_id value);
  _ ← try_dispatch (Signed from_id) (BalancesTransfer (into_account_id (address_bytes to)) value);
  _ ← record3 SELECTOR_LOG_TRANSFER (address_bytes from) (address_bytes to) (u256_value amount);
  output (true, tt).

Definition deposit : Run (list Z) :=
  if negb (is_native_currency meta) then lift (Err (revert "unknown selector"))
  else
    f ← the_frame;
    amount ← lift (u256_to_amount (apparent_value (context f)));
    _ ← lift (ensure (negb (amount =? 0)) (revert "deposited amount must be non-zero"));
    _ ← record_log_costs_manual 2 32;
    _ ← try_dispatch (Signed (into_account_id (address (context f))))
          (BalancesTransfer (into_account_id (caller (context f))) amount);
    _ ← record2 SELECTOR_LOG_DEPOSIT (caller (context f)) (apparent_value (context f));
    mret [].
Definition withdraw : Run (list Z) :=
  if negb (is_native_currency meta) then lift (Err (revert "unknown selector"))
  else
    _ ← record_log_costs_manual 2 32;
    input ← read_input;
    '(withdrawn_amount, _) ← read_arguments (A := U256 * unit) input;
    f ← the_frame;
    s ← the_storage;
    let account_amount := usable_balance (chain s) (into_account_id (caller (context f))) in
    _ ← lift (ensure (negb (account_amount <? u256_value withdrawn_amount)) (revert "trying to withdraw more than owned"));
    _ ← record2 SELECTOR_LOG_WITHDRAWAL (caller (context f)) (u256_value withdrawn_amount);
    mret [].

(** ** Permits (eip2612.rs) *)

Definition PERMIT_TYPEHASH : list Z :=
  keccak256 "Permit(address owner,address spender,uint256 value,uint256 nonce,uint256 deadline)".
Definition PERMIT_DOMAIN : list Z :=
  keccak256 "EIP712Domain(string name,string version,uint256 chainId,address verifyingContract)".
Definition compute_domain_separator (addr : list Z) : EvmResult (list Z) :=
  w ← tuple_write (mkH256 PERMIT_DOMAIN, (mkH256 (keccak256 (token_name meta)), (mkH256 (keccak256 "1"),
                   (mkU256 ChainId, (mkAddress addr, tt))))) writer_new;
  domain_separator_inner ← build w;
  Ok (keccak_256 domain_separator_inner).
Definition generate_permit (addr owner spender : list Z) (value nonce deadline : Z) : EvmResult (list Z) :=
  domain_separator ← compute_domain_separator addr;
  w ← tuple_write (mkH256 PERMIT_TYPEHASH, (mkAddress owner, (mkAddress spender, (mkU256 value, (mkU256 nonce,
                   (mkU256 deadline, tt)))))) writer_new;
  permit_content ← build w;
  Ok (keccak_256 ([25; 1] ++ domain_separator ++ keccak_256 permit_content)).

(** [H160::from(H256::from_slice(keccak_256(&signer)))] *)
Definition signer_address (public : list Z) : list Z := drop 12 (keccak_256 public).
Definition permit : Run (list Z) :=
  _ ← charge db_read_gas_cost;
  input ← read_input;
  '(owner, (spender, (value, (deadline, (v, (r, (s, _))))))) ← read_arguments (A := PermitArgs) input;
  st ← the_storage;
  _ ← lift (ensure (timestamp (chain st) / 1000 <=? u256_value deadline) (revert "permit expired"));
  let nonce := nonce_of st (address_bytes owner) in
  f ← the_frame;
  permit ← lift (of_data (generate_permit (address (context f)) (address_bytes owner) (address_bytes spender)
                            (u256_value value) nonce (u256_value deadline)));
  let sig := h256_bytes r ++ h256_bytes s ++ [u8_value v] in
  public ← lift (ok_or (secp256k1_ecdsa_recover (L := L) sig permit) (revert "invalid permit"));
  let signer := signer_address public in
  _ ← lift (ensure (negb (bool_decide (signer = repeat 0 20)) && bool_decide (signer = address_bytes owner))
                   (revert "invalid permit"));
  next ← lift (or_panic (checked_add_to u256_max nonce 1));
  _ ← set_storage (insert_nonce (address_bytes owner) next);
  _ ← set_storage (insert_approval (into_account_id (address_bytes owner)) (into_account_id (address_bytes spender))
                     (saturate_amount (u256_value value)));
  _ ← record3 SELECTOR_LOG_APPROVAL (address_bytes owner) (address_bytes spender) (u256_value value);
  mret [].
Definition nonces : Run (list Z) :=
  _ ← charge db_read_gas_cost;
  input ← read_input;
  '(owner, _) ← read_arguments (A := Address * unit) input;
  s ← the_storage;
  output (mkU256 (nonce_of s (address_bytes owner)), tt).
Definition domain_separator : Run (list Z) :=
  _ ← charge db_read_gas_cost;
  f ← the_frame;
  d ← lift (of_data (compute_domain_separator (address (context f))));
  output (mkH256 d, tt).

(** ** The precompile *)

Definition modifier_of (a : Action) : FunctionModifier :=
  match a with Approve | Transfer | TransferFrom | Withdraw => NonPayable | Deposit => Payable | _ => View end.
(** [.unwrap_or(Action::Deposit)] and [.ok()]: what goes wrong is dropped. *)
Definition unwrap_or {A} (m : Run A) (a : A) : Run A := fun w =>
  match m w with Err _ => Ok (a, w) | r => r end.
Definition execute : Run (list Z) :=
  selector ← unwrap_or (read_action actions signature) Deposit;
  _ ← unwrap_or (check_modifier (modifier_of selector)) tt;
  match selector with
  | TotalSupply => total_supply
  | BalanceOf => balance_of
  | Allowance => allowance
  | Approve => approve
  | Transfer => transfer
  | TransferFrom => transfer_from
  | Name => name
  | Symbol => symbol
  | Decimals => decimals
  | Deposit => deposit
  | Withdraw => withdraw
  | Eip2612Permit => permit
  | Eip2612Nonces => nonces
  | Eip2612DomainSeparator => domain_separator
  end.
End precompile.
End Erc20Balances.
