(* ===== verification/Erc20BalancesProps.v ===== *)
(** * The ERC-20 view of the native currency: what calls may do

    Every call of the precompile is one step of an abstract token: it reads, approves, transfers
    for its caller, spends an allowance, returns a deposit or redeems a signed permit.  From
    there: nobody's balance is spent without an allowance, and permits are redeemed once. *)

From stdpp Require Import strings.
From S2P Require Import Prelude Arith Frame EvmData EvmAbi Precompile Erc20Balances.
From stdpp Require Import list relations.
Import EvmData Precompile Erc20Balances.
#[local] Open Scope Z_scope.

Section props.
Context {W H L : Type} {R : EvmRuntime W} {P : PrecompileHandle H} {PL : PrecompileHandleLaws H}.
Context {B : BalancesRuntime L} {D : Dispatchable W L BalancesCall}.
Context (meta : Metadata).
Implicit Types (f : CallFrame) (s : Storage L) (h : H).

(** ** The token as an abstract machine *)

Abbreviation me f := (into_account_id (caller (context f))).
Abbreviation here f := (into_account_id (address (context f))).
Abbreviation pays from to v := (dispatch (Signed from) (BalancesTransfer to v)).

(** [owner] signed the permit for [spender] with the nonce it has in [s]. *)
Definition signed_permit f s (sig owner spender : list Z) (value deadline : Z) : Prop :=
  exists digest public,
    generate_permit meta (address (context f)) owner spender value (nonce_of s owner) deadline = Ok digest /\
    secp256k1_ecdsa_recover (L := L) sig digest = Some public /\ signer_address public = owner /\ owner <> repeat 0 20.

Inductive token_step f s : Storage L -> Prop :=
| step_read : token_step f s s
| step_approve spender amount : token_step f s (insert_approval (me f) spender amount s)
| step_transfer to v used s' : pays (me f) to v s = Ok (used, s') -> token_step f s s'
| step_spend from to v a used s' :
    from <> me f -> Approves s !! (from, me f) = Some a -> v <= a ->
    pays from to v (insert_approval from (me f) (a - v) s) = Ok (used, s') -> token_step f s s'
| step_deposit used s' :
    pays (here f) (me f) (apparent_value (context f)) s = Ok (used, s') -> token_step f s s'
| step_permit sig owner spender value deadline :
    signed_permit f s sig owner spender value deadline -> timestamp (chain s) / 1000 <= deadline ->
    nonce_of s owner + 1 <= u256_max ->
    token_step f s (insert_approval (into_account_id owner) (into_account_id spender) (saturate_amount value)
                      (insert_nonce owner (nonce_of s owner + 1) s)).

Lemma pays_frame from to v s used s' : pays from to v s = Ok (used, s') -> Approves s' = Approves s /\ Nonces s' = Nonces s.
Proof. by intros ([used' l'] & Hd & [= -> <-])%result_bind_Ok. Qed.

(** ** Every call is a step *)

Lemma keeps_unwrap_or {A} (m : Run H (Storage L) A) a : keeps m -> keeps (unwrap_or m a).
Proof. intros Hm h s b w. unfold unwrap_or. destruct (m (mkWorld h s)) as [r|e|] eqn:E; intros E'; simplify_eq; [by eapply Hm | by exists h]. Qed.
Lemma keeps_storage : keeps (the_storage (H := H) (L := L)).
Proof. apply keeps_gets. Qed.
Lemma keeps_record3 t0 t1 t2 v : keeps (record3 (H := H) (L := L) t0 t1 t2 v).
Proof. unfold record3. auto 6 with keeps. Qed.
Lemma keeps_record2 t0 t1 v : keeps (record2 (H := H) (L := L) t0 t1 v).
Proof. unfold record2. auto 6 with keeps. Qed.
Hint Resolve keeps_unwrap_or keeps_storage keeps_record3 keeps_record2 : keeps.


Ltac peel_dispatch H :=
  let u := fresh "u" in let w := fresh "w" in let E := fresh "E" in
  apply M_bind_Ok in H as (u & w & E & H); apply try_dispatch_Ok in E as (? & ? & ? & E & -> & ?).

Lemma keeps_queries : keeps (total_supply (W := W) (H := H) (L := L)) /\ keeps (balance_of (W := W) (H := H) (L := L)) /\
  keeps (allowance (W := W) (H := H) (L := L)) /\ keeps (name (H := H) (L := L) meta) /\ keeps (symbol (H := H) (L := L) meta) /\
  keeps (decimals (H := H) (L := L) meta) /\ keeps (nonces (W := W) (H := H) (L := L)) /\
  keeps (domain_separator (W := W) (H := H) (L := L) meta) /\ keeps (withdraw (W := W) (H := H) (L := L) meta).
Proof.
  unfold total_supply, balance_of, allowance, name, symbol, decimals, nonces, domain_separator, withdraw.
  repeat split; try (destruct (negb _); [by auto with keeps |]);
    repeat (apply keeps_bind; [by auto with keeps | intros; repeat case_match]); auto with keeps.
Qed.


Definition steps {A} (m : Run H (Storage L) A) : Prop :=
  forall h s out w, m (mkWorld h s) = Ok (out, w) -> frame (handle w) = frame h /\ token_step (frame h) s (storage w).
Lemma keeps_steps {A} (m : Run H (Storage L) A) : keeps m -> steps m.
Proof. intros Hm h s out w Hr. apply Hm in Hr as (h' & -> & E). split; [done | constructor]. Qed.
(** The end of a call, after its last write *)
Lemma keeps_end {A} (m : Run H (Storage L) A) h s out w : keeps m -> m (mkWorld h s) = Ok (out, w) -> storage w = s /\ frame (handle w) = frame h.
Proof. intros Hm Hr. by apply Hm in Hr as (h' & -> & E). Qed.
Lemma set_storage_step g {A} (k : unit -> Run H (Storage L) A) h s r :
  (set_storage g ≫= k) (mkWorld h s) = Ok r -> k tt (mkWorld h (g s)) = Ok r.
Proof. done. Qed.
Lemma frame_read h s f w : the_frame (mkWorld h s) = Ok (f, w) -> f = frame h.
Proof. by intros [= <- _]. Qed.
Lemma storage_read h s s' w : the_storage (H := H) (mkWorld h s) = Ok (s', w) -> s' = s.
Proof. by intros [= <- _]. Qed.

Lemma approve_steps : steps approve.
Proof.
  intros h s out w Hr. unfold approve in Hr. do 5 peel Hr. destruct a3 as [spender [amount ?]]. peel Hr. apply frame_read in E4 as ->.
  apply set_storage_step in Hr. apply keeps_end in Hr as [-> ->]; [| by auto with keeps].
  assert (frame h4 = frame h) as Ef by congruence. rewrite Ef. split; [congruence |]. apply step_approve.
Qed.
Lemma transfer_steps : steps transfer.
Proof.
  intros h s out w Hr. unfold transfer in Hr. do 4 peel Hr. destruct a2 as [to [amount ?]]. peel Hr. apply frame_read in E3 as ->. peel Hr.
  peel_dispatch Hr. apply keeps_end in Hr as [-> ->]; [| by auto with keeps].
  assert (frame h3 = frame h) as Ef by congruence. rewrite Ef in *. split; [congruence |]. by eapply step_transfer.
Qed.
Lemma spend_Ok from who v h s u w : spend_allowance from who v (mkWorld h s) = Ok (u, w) ->
  exists a, Approves s !! (from, who) = Some a /\ v <= a /\ w = mkWorld h (insert_approval from who (a - v) s).
Proof.
  unfold spend_allowance. intros (s0 & ? & [= <- <-] & Hr)%M_bind_Ok. cbn [storage] in Hr.
  apply M_bind_Ok in Hr as (a & ? & [[Ea%ok_or_Ok ->]%lift_Ok Hr]).
  apply M_bind_Ok in Hr as (n & ? & [[[-> Hv]%ok_or_Ok%checked_sub_Some ->]%lift_Ok Hr]). injection Hr as _ <-. by exists a.
Qed.
Lemma transfer_from_steps : steps transfer_from.
Proof.
  intros h s out w Hr. unfold transfer_from in Hr. do 6 peel Hr. destruct a4 as [from [to [amount ?]]].
  peel Hr. apply frame_read in E5 as ->. peel Hr. cbn [fst snd] in *. assert (frame h5 = frame h) as Ef by congruence. rewrite Ef in *.
  apply M_bind_Ok in Hr as (un & w1 & Hs & Hr). case_bool_decide as Hc.
  - injection Hs as _ <-. peel_dispatch Hr. apply keeps_end in Hr as [-> ->]; [| by auto with keeps].
    split; [congruence |]. rewrite <- Hc in *. by eapply step_transfer.
  - apply spend_Ok in Hs as (b & Hb & Hv & ->). peel_dispatch Hr. apply keeps_end in Hr as [-> ->]; [| by auto with keeps].
    split; [congruence |]. eapply step_spend; [by intros Hn; apply Hc | exact Hb | exact Hv | done].
Qed.
Lemma deposit_steps : steps (deposit meta).
Proof.
  intros h s out w Hr. unfold deposit in Hr. destruct (negb _); [done |]. peel Hr. apply frame_read in E as ->.
  peel Hr. apply lift_Ok in E as [Ev _]. unfold u256_to_amount in Ev. case_match; [| done]. injection Ev as <-. do 2 peel Hr.
  peel_dispatch Hr. apply keeps_end in Hr as [-> ->]; [| by auto with keeps].
  split; [congruence |]. by eapply step_deposit.
Qed.
(** What the call data of a permit says, and its signature *)
Definition permit_args f : EvmResult PermitArgs := parsed f.
Definition permit_signature (v : U8) (r sg : H256) : list Z := h256_bytes r ++ h256_bytes sg ++ [u8_value v].
Lemma permit_Ok h s out w : permit meta (mkWorld h s) = Ok (out, w) ->
  exists owner spender value deadline v r sg,
    permit_args (frame h) = Ok (owner, (spender, (value, (deadline, (v, (r, (sg, tt))))))) /\
    signed_permit (frame h) s (permit_signature v r sg) (address_bytes owner) (address_bytes spender) (u256_value value) (u256_value deadline) /\
    timestamp (chain s) / 1000 <= u256_value deadline /\ nonce_of s (address_bytes owner) + 1 <= u256_max /\
    frame (handle w) = frame h /\
    storage w = insert_approval (into_account_id (address_bytes owner)) (into_account_id (address_bytes spender))
                  (saturate_amount (u256_value value))
                  (insert_nonce (address_bytes owner) (nonce_of s (address_bytes owner) + 1) s).
Proof.
  intros Hr. unfold permit in Hr. do 3 peel Hr. destruct a1 as (owner & spender & value & deadline & v & r & sg & []).
  peel Hr. apply storage_read in E2 as ->. peel Hr. apply lift_Ok in E2 as [Et%ensure_Ok _]. zbool.
  peel Hr. apply frame_read in E2 as ->. peel Hr. apply lift_Ok in E2 as [Ed _]. peel Hr. apply lift_Ok in E2 as [Ep%ok_or_Ok _].
  peel Hr. apply lift_Ok in E2 as [[Hz%negb_true_iff%bool_decide_eq_false Ho%bool_decide_eq_true]%ensure_Ok%andb_true_iff _].
  peel Hr. apply lift_Ok in E2 as [[-> Hn]%or_panic_Ok%checked_add_to_Some _].
  apply set_storage_step, set_storage_step in Hr. apply keeps_end in Hr as [-> ->]; [| by auto with keeps].
  assert (frame h4 = frame h) as Ef by congruence. rewrite Ef in *.
  exists owner, spender, value, deadline, v, r, sg. split; [| split; [| split; [exact Et | split; [exact Hn | split; [congruence | done]]]]].
  - unfold permit_args. rewrite <- F. exact (arguments_parsed _ _ _ _ _ _ _ E0 E1).
  - exists a2, a3. rewrite Ho in Hz. by apply of_data_Ok in Ed.
Qed.
Lemma permit_steps : steps (permit meta).
Proof.
  intros h s out w (owner & spender & value & deadline & v & r & sg & _ & Hs & Ht & Hn & Hf & ->)%permit_Ok. split; [done |].
  by eapply step_permit.
Qed.

Hint Resolve approve_steps transfer_steps transfer_from_steps deposit_steps permit_steps : keeps.
Lemma execute_steps : steps (execute meta).
Proof.
  intros h s out w Hr. destruct keeps_queries as (K1 & K2 & K3 & K4 & K5 & K6 & K7 & K8 & K9).
  unfold execute in Hr. peel Hr. peel Hr. rewrite <- F, <- F0. clear E F E0 F0.
  match type of Hr with ?m _ = _ => cut (steps m); [intros Hs; exact (Hs _ _ _ _ Hr) |] end. destruct a; auto using keeps_steps with keeps.
Qed.
End props.

(** ** Spending *)

(** What [pallet_balances] promises about the call [transfer]: it is the origin that pays, no more
    than the value, and all it has if the rest is below the existential deposit. *)
Class BalancesLaws (W L : Type) {D : Dispatchable W L BalancesCall} := {
  account_balance : L -> AccountId -> Balance;
  ExistentialDeposit : Balance;
  pays_at_most from to v l used l' : dispatch (Signed from) (BalancesTransfer to v) l = Ok (used, l') ->
    account_balance l from - v <= account_balance l' from \/
    account_balance l' from = 0 /\ account_balance l from - v < ExistentialDeposit;
  others_not_worse from to v l used l' x : dispatch (Signed from) (BalancesTransfer to v) l = Ok (used, l') ->
    x <> from -> account_balance l x <= account_balance l' x;
}.

Section spending.
Context {W H L : Type} {R : EvmRuntime W} {P : PrecompileHandle H} {PL : PrecompileHandleLaws H}.
Context {B : BalancesRuntime L} {D : Dispatchable W L BalancesCall} {BL : BalancesLaws W L}.
Context (meta : Metadata).
Implicit Types (f : CallFrame) (s : Storage L) (h : H).
Abbreviation me f := (into_account_id (caller (context f))).
Abbreviation here f := (into_account_id (address (context f))).

(** [x] lost at most [v]; or it was left with less than the existential deposit, and its account was
    closed and that rest lost with it. *)
Definition lost_at_most s s' (x : AccountId) (v : Balance) : Prop :=
  account_balance (chain s) x - v <= account_balance (chain s') x \/
  account_balance (chain s') x = 0 /\ account_balance (chain s) x - v < ExistentialDeposit.
(** [x] let [who] spend [v]. *)
Definition allowed s s' (x who : AccountId) (v : Balance) : Prop :=
  exists a, Approves s !! (x, who) = Some a /\ v <= a /\ Approves s' !! (x, who) = Some (a - v).

Lemma pays_inv from to v s used s' : dispatch (Signed from) (BalancesTransfer to v) s = Ok (used, s') ->
  Approves s' = Approves s /\ Nonces s' = Nonces s /\ lost_at_most s s' from v /\
  forall x, x <> from -> account_balance (chain s) x <= account_balance (chain s') x.
Proof.
  intros ([used' l'] & Hd & [= -> <-])%result_bind_Ok. split; [done |]. split; [done |]. split.
  - exact (pays_at_most _ _ _ _ _ _ Hd).
  - intros x Hx. exact (others_not_worse _ _ _ _ _ _ x Hd Hx).
Qed.

(** C12: Nobody's balance is spent without an allowance: whatever call data a caller sends to the precompile, an account that
    is worse off after a successful call is the caller's, or the precompile's own, which pays out no more than the value
    that came with the call, or it had approved the caller for at least the amount that was transferred, and the allowance is
    less by exactly that.  What the account loses is no more than the amount; only if that leaves it with less than the
    existential deposit is the account closed, as by any transfer, and this rest lost on top. *)
Theorem spending_needs_allowance h s out w x :
  execute meta (mkWorld h s) = Ok (out, w) ->
  account_balance (chain (storage w)) x < account_balance (chain s) x ->
  x = me (frame h) \/
  x = here (frame h) /\ lost_at_most s (storage w) x (apparent_value (context (frame h))) \/
  exists v, allowed s (storage w) x (me (frame h)) v /\ lost_at_most s (storage w) x v.
Proof.
  intros Hr Hx. apply execute_steps in Hr as [_ Hs]. revert Hx Hs. generalize (storage w) as s1. intros s1 Hx Hs. destruct Hs as [| |to v used s' Hp|from to v a used s' Hne Ha Hv Hp|used s' Hp|]; cbn [insert_approval insert_nonce chain] in *; try lia.
  - apply pays_inv in Hp as (_ & _ & _ & Hp). destruct (decide (x = me (frame h))) as [->|Hn]; [by left |]. specialize (Hp x Hn). lia.
  - apply pays_inv in Hp as (HA & _ & Hl & Hp). cbn [insert_approval Approves chain] in HA, Hp. destruct (decide (x = from)) as [->|Hn]; [| specialize (Hp x Hn); lia].
    right; right. exists v. split; [| exact Hl]. exists a. split; [done |]. split; [done |]. rewrite HA. apply lookup_insert_eq.
  - apply pays_inv in Hp as (_ & _ & Hl & Hp). destruct (decide (x = here (frame h))) as [->|Hn]; [by right; left |].
    specialize (Hp x Hn). lia.
Qed.

(** Approvals are the owner's: a call changes what [owner] lets [spender] spend only if the caller is the owner, if the
    spender is the caller and spends from it, or if the call redeems a permit that the owner signed for that spender and
    with the owner's current nonce, before its deadline. *)
Theorem approvals_authorised h s out w owner spender :
  execute meta (mkWorld h s) = Ok (out, w) ->
  Approves (storage w) !! (owner, spender) = Approves s !! (owner, spender) \/
  owner = me (frame h) \/
  spender = me (frame h) /\ (exists v, allowed s (storage w) owner spender v) \/
  exists sig o sp value deadline, into_account_id o = owner /\ into_account_id sp = spender /\
    signed_permit meta (frame h) s sig o sp value deadline /\ timestamp (chain s) / 1000 <= deadline /\
    Approves (storage w) !! (owner, spender) = Some (saturate_amount value).
Proof.
  intros Hr. apply execute_steps in Hr as [_ Hs]. revert Hs. generalize (storage w) as s1. intros s1 Hs.
  destruct Hs as [|sp amount|to v used s' Hp|from to v a used s' Hne Ha Hv Hp|used s' Hp|sig o sp value deadline Hsig Ht Hn]; cbn [insert_approval insert_nonce Approves] in *.
  - by left.
  - destruct (decide (owner = me (frame h))) as [->|Hn]; [by right; left |]. left. apply lookup_insert_ne. congruence.
  - apply pays_inv in Hp as (-> & _). by left.
  - apply pays_inv in Hp as (HA & _). cbn [insert_approval Approves] in HA. destruct (decide ((from, me (frame h)) = (owner, spender))) as [[= -> <-]|Hn].
    + right; right; left. split; [done |]. exists v, a. split; [done |]. split; [done |]. rewrite HA. apply lookup_insert_eq.
    + left. rewrite HA. by apply lookup_insert_ne.
  - apply pays_inv in Hp as (-> & _). by left.
  - destruct (decide ((into_account_id o, into_account_id sp) = (owner, spender))) as [[= <- <-]|Hne].
    + right; right; right. exists sig, o, sp, value, deadline. repeat (split; [done |]). apply lookup_insert_eq.
    + left. by apply lookup_insert_ne.
Qed.
End spending.

(** ** Permits are redeemed once *)
Section permits.
Context {W H L : Type} {R : EvmRuntime W} {RL : EvmRuntimeLaws W} {P : PrecompileHandle H} {PL : PrecompileHandleLaws H}.
Context {B : BalancesRuntime L} {D : Dispatchable W L BalancesCall}.
Context (meta : Metadata).
Implicit Types (f : CallFrame) (s : Storage L) (h : H).

(** The message of EIP-2612: the domain and the struct that are hashed and signed *)
Definition domain_of (addr : list Z) : list Z :=
  keccak_256 (PERMIT_DOMAIN ++ keccak256 (token_name meta) ++ keccak256 "1" ++ to_be 32 (ChainId (L := L)) ++ repeat 0 12 ++ addr).
Definition content_of (owner spender : list Z) (value nonce deadline : Z) : list Z :=
  PERMIT_TYPEHASH ++ (repeat 0 12 ++ owner) ++ (repeat 0 12 ++ spender) ++ to_be 32 value ++ to_be 32 nonce ++ to_be 32 deadline.
Definition digest_of (m : list Z * list Z) : list Z := keccak_256 ([25; 1] ++ m.1 ++ keccak_256 m.2).
Lemma generate_permit_eq addr owner spender value nonce deadline :
  generate_permit meta addr owner spender value nonce deadline = Ok (digest_of (domain_of addr, content_of owner spender value nonce deadline)).
Proof.
  unfold generate_permit, compute_domain_separator. cbn -[to_be]. unfold digest_of, domain_of, content_of. cbn -[to_be].
  rewrite <- !app_assoc. done.
Qed.

Definition action_of f : option Action :=
  match read_selector (call_input f) with Ok selector => try_from_primitive actions signature selector | _ => None end.
Lemma execute_action h s a : action_of (frame h) = Some a ->
  (selector ← unwrap_or (read_action actions signature) Deposit; mret selector) (mkWorld h s) = Ok (a, mkWorld h s).
Proof.
  unfold action_of. intros Ha. cbv [mbind M_bind mret M_ret unwrap_or read_action the_frame gets lift of_data ok_or]. cbn [handle].
  destruct (read_selector (call_input (frame h))) as [z| |]; [| done | done]. by rewrite Ha.
Qed.
(** Whatever the check of the modifier says, the call goes on. *)
Lemma modifier_ignored m h s : unwrap_or (check_modifier m) tt (mkWorld h s) = Ok (tt, mkWorld h s).
Proof.
  cbv [unwrap_or check_modifier mbind M_bind the_frame gets lift]. cbn [handle].
  destruct (check_function_modifier (context (frame h)) (is_static (frame h)) m) as [[]| |] eqn:E; [done | done |].
  unfold check_function_modifier in E. repeat case_match; done.
Qed.
Lemma execute_permit h s r : action_of (frame h) = Some Eip2612Permit -> execute meta (mkWorld h s) = Ok r -> permit meta (mkWorld h s) = Ok r.
Proof.
  intros Ha. pose proof (execute_action h s _ Ha) as E. unfold execute, mbind, M_bind in *.
  destruct (unwrap_or (read_action actions signature) Deposit (mkWorld h s)) as [[a w]| |]; [| done | done]. injection E as -> ->.
  by rewrite modifier_ignored.
Qed.

(** The message that a permit call is about, and the signature and the owner it comes with *)
Definition permit_message f s : option (list Z * list Z * (list Z * list Z)) :=
  match permit_args f with
  | Ok (owner, (spender, (value, (deadline, (v, (r, (sg, _))))))) =>
      Some (permit_signature v r sg, address_bytes owner,
            (domain_of (address (context f)),
             content_of (address_bytes owner) (address_bytes spender) (u256_value value) (nonce_of s (address_bytes owner)) (u256_value deadline)))
  | _ => None
  end.
(** The signature on the message is the owner's. *)
Definition signature_valid (m : list Z * list Z * (list Z * list Z)) : Prop :=
  exists public, secp256k1_ecdsa_recover (L := L) m.1.1 (digest_of m.2) = Some public /\ signer_address public = m.1.2.

Lemma permit_accepted h s out w : action_of (frame h) = Some Eip2612Permit -> execute meta (mkWorld h s) = Ok (out, w) ->
  exists m, permit_message (frame h) s = Some m /\ signature_valid m /\
    nonce_of (storage w) m.1.2 = nonce_of s m.1.2 + 1 /\ nonce_of s m.1.2 + 1 <= u256_max.
Proof.
  intros Ha Hr. apply execute_permit in Hr; [| done].
  apply (permit_Ok meta) in Hr as (owner & spender & value & deadline & v & r & sg & Hargs & Hs & _ & Hn & _ & ->).
  destruct Hs as (digest & public & Hd & Hrec & Hsig & _). rewrite generate_permit_eq in Hd. injection Hd as <-.
  unfold permit_message. rewrite Hargs. eexists. split; [done |]. split; [by exists public |]. split; [| done]. cbn [fst snd].
  unfold nonce_of at 1. cbn. by rewrite lookup_insert_eq.
Qed.

(** How the storage of the precompile evolves: calls of anybody, and whatever happens on the chain in between *)
Inductive evolves s : Storage L -> Prop :=
| evolves_call h out w : execute meta (mkWorld h s) = Ok (out, w) -> evolves s (storage w)
| evolves_chain l : evolves s (mkStorage (Approves s) (Nonces s) l).
Definition nonces_ok s : Prop := forall o, 0 <= nonce_of s o.

Lemma nonce_of_insert o n o' s : nonce_of (insert_nonce o n s) o' = if bool_decide (o = o') then n else nonce_of s o'.
Proof. unfold nonce_of, insert_nonce. cbn. case_bool_decide as E; [subst; by rewrite lookup_insert_eq | by rewrite lookup_insert_ne]. Qed.
Lemma token_step_nonce f s s' o : token_step meta f s s' -> nonce_of s o <= nonce_of s' o.
Proof.
  intros Hs. destruct Hs as [|sp amount|to v used s' Hp|from to v a used s' Hne Ha Hv Hp|used s' Hp|sig ow sp value deadline Hsig Ht Hn]; try done.
  - apply pays_frame in Hp as [_ Hp]. unfold nonce_of. by rewrite Hp.
  - apply pays_frame in Hp as [_ Hp]. unfold nonce_of. by rewrite Hp.
  - apply pays_frame in Hp as [_ Hp]. unfold nonce_of. by rewrite Hp.
  - change (nonce_of s o <= nonce_of (insert_nonce ow (nonce_of s ow + 1) s) o). rewrite nonce_of_insert. case_bool_decide; [subst; lia | done].
Qed.
Lemma evolves_nonce s s' o : rtc evolves s s' -> nonce_of s o <= nonce_of s' o.
Proof.
  induction 1 as [|s s1 s2 H1 _ IH]; [done |]. etrans; [| exact IH]. destruct H1 as [h out w Hr|l]; [| done].
  apply execute_steps in Hr as [_ Hs]. by eapply token_step_nonce.
Qed.

Lemma content_of_nonce owner spender value deadline n n' :
  0 <= n <= u256_max -> 0 <= n' <= u256_max ->
  content_of owner spender value n deadline = content_of owner spender value n' deadline -> n = n'.
Proof.
  intros Hn Hn' E. unfold content_of in E. do 4 apply app_inv_head in E. apply app_inj_1 in E as [E _]; [| by rewrite !to_be_length].
  unfold u256_max in *. rewrite <- (from_to_be 32 n), <- (from_to_be 32 n'), E by lia. done.
Qed.

(** C13: A permit is redeemed once: if call data with a permit was accepted, then whatever happens in between, calls by anybody
    included, the same call data is accepted again only if its signature is also the owner's on a different message, one
    with a higher nonce. *)
Theorem permit_not_replayed h s out w s2 h2 out2 w2 :
  nonces_ok s -> action_of (frame h) = Some Eip2612Permit -> execute meta (mkWorld h s) = Ok (out, w) ->
  rtc evolves (storage w) s2 ->
  call_input (frame h2) = call_input (frame h) -> execute meta (mkWorld h2 s2) = Ok (out2, w2) ->
  exists m m2, permit_message (frame h) s = Some m /\ permit_message (frame h2) s2 = Some m2 /\
    m.1 = m2.1 /\ m.2 <> m2.2 /\ signature_valid m /\ signature_valid m2.
Proof.
  intros Hok Ha Hr Hev Hin Hr2. assert (action_of (frame h2) = Some Eip2612Permit) as Ha2 by (unfold action_of in *; by rewrite Hin).
  apply permit_accepted in Hr as (m & Hm & Hv & Hn & Hmax); [| done]. apply permit_accepted in Hr2 as (m2 & Hm2 & Hv2 & _ & Hmax2); [| done].
  exists m, m2. split; [done |]. split; [done |]. unfold permit_message, permit_args, parsed in Hm, Hm2. rewrite Hin in Hm2.
  destruct (new_skip_selector (call_input (frame h)) ≫= _) as [(owner & spender & value & deadline & v & r & sg & ?)| |]; [| done | done].
  injection Hm as <-. injection Hm2 as <-. cbn [fst snd] in *. split; [done |]. split; [| done].
  intros [= _ E]. apply (evolves_nonce _ _ (address_bytes owner)) in Hev. pose proof (Hok (address_bytes owner)).
  apply content_of_nonce in E; lia.
Qed.
End permits.
