(* ===== verification/EvmDemo.v ===== *)
(** * A concrete EVM

    A handle that counts gas and keeps logs, a hash function, and accounts that are addresses
    read as numbers: what the precompiles' theorems are applied to. *)

From stdpp Require Import strings.
From S2P Require Import Prelude Arith Frame EvmData EvmAbi Precompile Erc20Balances Erc20BalancesProps.
From stdpp Require Import list relations.
Import EvmData Precompile Erc20Balances.
#[local] Open Scope Z_scope.

Record demo_handle := mkHandle { demo_frame : CallFrame; demo_gas : Z; demo_logs : list Log }.
#[export] Instance demo_handle_ops : PrecompileHandle demo_handle := {|
  frame := demo_frame;
  remaining_gas := demo_gas;
  record_cost cost h := if demo_gas h <? cost then Err OutOfGas else Ok (mkHandle (demo_frame h) (demo_gas h - cost) (demo_logs h));
  record_log l h := Ok (mkHandle (demo_frame h) (demo_gas h) (demo_logs h ++ [l])) |}.
#[export] Instance demo_handle_laws : PrecompileHandleLaws demo_handle.
Proof.
  constructor; cbn.
  - intros cost h h'. case_match; [done |]. by intros [= <-].
  - intros cost h h'. case_match; [done |]. by intros [= <-].
  - by intros l h h' [= <-].
Qed.

Definition demo_hash (bs : list Z) : list Z :=
  let word := to_be 8 (foldl (fun acc b => ((acc + b + 1) * 0x9e3779b97f4a7c15) mod (2 ^ 64)) 7 bs) in
  word ++ repeat 0 16 ++ word.
#[export] Instance demo_runtime : EvmRuntime Z := {|
  keccak_256 := demo_hash;
  weight_to_gas w := w / 10;
  db_reads n := n * 100;
  db_writes n := n * 200;
  into_account_id := from_be;
  show_error _ := "" |}.
#[export] Instance demo_runtime_laws : EvmRuntimeLaws Z.
Proof. intros bs. change (length (demo_hash bs) = 32%nat). unfold demo_hash. rewrite !length_app, !to_be_length. done. Qed.

(** ** Balances *)

Definition coins (l : gmap AccountId Balance) (x : AccountId) : Balance := default 0 (l !! x).
Definition demo_transfer (from to : AccountId) (v : Balance) (l : gmap AccountId Balance) : Res (gmap AccountId Balance) :=
  _ ← ensure ((0 <=? v) && (v <=? coins l from)) (Token NoFunds);
  let l := <[from := coins l from - v]> l in
  Ok (<[to := coins l to + v]> l).
#[export] Instance demo_dispatch : Dispatchable Z (gmap AccountId Balance) BalancesCall := {|
  get_dispatch_info _ := 5000;
  dispatch o c l :=
    match o, c with
    | Signed from, BalancesTransfer to v => l ← demo_transfer from to v l; Ok (None, l)
    | _, _ => Err BadOrigin
    end |}.
(** A signature that does not depend on the message *)
#[export] Instance demo_balances : BalancesRuntime (gmap AccountId Balance) := {|
  balances_total_issuance l := map_sum (fun _ v => v) l;
  usable_balance := coins;
  timestamp _ := 5000000;
  ChainId := 2012;
  secp256k1_ecdsa_recover sig _ := Some (take 32 (drop 32 sig)) |}.

Lemma demo_transfer_Ok from to v l l' : demo_transfer from to v l = Ok l' ->
  0 <= v <= coins l from /\ forall x, coins l' x = coins l x - (if decide (x = from) then v else 0) + (if decide (x = to) then v else 0).
Proof.
  unfold demo_transfer. intros (? & [E1 E2]%ensure_Ok%andb_true_iff & [= <-])%result_bind_Ok. zbool. split; [done |]. intros y. unfold coins.
  destruct (decide (y = to)) as [->|Ht]; [rewrite lookup_insert_eq | rewrite (lookup_insert_ne _ to) by done]; cbn.
  - destruct (decide (to = from)) as [->|Hf]; [rewrite lookup_insert_eq; cbn; lia | rewrite lookup_insert_ne by done; lia].
  - destruct (decide (y = from)) as [->|Hf]; [rewrite lookup_insert_eq; cbn; lia | rewrite lookup_insert_ne by done; lia].
Qed.
#[export] Instance demo_balances_laws : BalancesLaws Z (gmap AccountId Balance).
Proof.
  refine {| account_balance := coins; ExistentialDeposit := 0 |}; cbn.
  - intros from to v l used l' (l1 & [Hv Hc]%demo_transfer_Ok & [= _ <-])%result_bind_Ok. rewrite Hc. left. repeat case_decide; lia.
  - intros from to v l used l' x (l1 & [Hv Hc]%demo_transfer_Ok & [= _ <-])%result_bind_Ok Hx. rewrite Hc. repeat case_decide; lia.
Defined.

(** ** Calls *)

Definition addr (n : Z) : list Z := to_be 20 n.
Definition selector_of (a : Action) : Z := generate_function_selector (signature a).
Example selectors_differ : NoDup (map selector_of actions) /\ Forall (fun a => 0 <= selector_of a < 2 ^ 32) actions.
Proof. split; [apply (bool_decide_unpack _); vm_compute; exact I | repeat constructor; vm_compute; congruence]. Qed.

(** Call data, the value sent, whether the context is static, and a million of gas *)
Definition call_by (who : Z) (input : EvmResult (list Z)) (value : Z) (static : bool) : demo_handle :=
  mkHandle (mkFrame (match input with Ok bs => bs | _ => [] end) (mkContext (addr 2050) (addr who) value) (addr 2050) static) 1000000 [].
Definition demo_meta : Metadata := mkMetadata "Parallel" "PARA" 12 true.
Definition encode {A} {E : EvmTuple A} (a : Action) (v : A) : EvmResult (list Z) :=
  w ← tuple_write v (new_with_selector (selector_of a)); build w.
Abbreviation world h s := (mkWorld (h : demo_handle) (s : Storage (gmap AccountId Balance))).
(** The storage after a call, if it succeeds *)
Definition after {A} (r : result PrecompileFailure (A * World demo_handle (Storage (gmap AccountId Balance)))) :=
  match r with Ok (_, w) => Some (storage w) | _ => None end.

(** Alice (1) has 1000 and let Bob (2) spend 100 of it. *)
Definition alice_pays : Storage (gmap AccountId Balance) := mkStorage {[ (1, 2) := 100 ]} ∅ {[ 1 := 1000; 3 := 5 ]}.
Definition bob_sends (v : Z) : demo_handle := call_by 2 (encode TransferFrom (mkAddress (addr 1), (mkAddress (addr 3), (mkU256 v, tt)))) 0 false.
Example bob_overspends : execute demo_meta (world (bob_sends 101) alice_pays) = Err (Revert "trying to spend more than allowed").
Proof. vm_compute. reflexivity. Qed.

Lemma run_ok {A} (r : result PrecompileFailure (A * World demo_handle (Storage (gmap AccountId Balance))))
    (p : Storage (gmap AccountId Balance) -> bool) :
  match after r with Some s => p s | None => false end = true -> exists out w, r = Ok (out, w) /\ p (storage w) = true.
Proof. destruct r as [[out w]| |]; cbn; intros Hp; [by exists out, w | done | done]. Qed.

Lemma spending_needs_allowance_witness :
  exists out w, execute demo_meta (world (bob_sends 40) alice_pays) = Ok (out, w) /\ coins (chain (storage w)) 1 = 960 /\
    Approves (storage w) !! (1, 2) = Some 60 /\
    let f := demo_frame (bob_sends 40) in
    (1 = from_be (caller (context f)) \/
     1 = from_be (address (context f)) /\ lost_at_most alice_pays (storage w) 1 (apparent_value (context f)) \/
     exists v, allowed alice_pays (storage w) 1 (from_be (caller (context f))) v /\ lost_at_most alice_pays (storage w) 1 v).
Proof.
  destruct (run_ok (execute demo_meta (world (bob_sends 40) alice_pays))
              (fun s => (coins (chain s) 1 =? 960) && bool_decide (Approves s !! (1, 2) = Some 60))) as (out & w & E & Hc); [vm_compute; reflexivity |].
  apply andb_true_iff in Hc as [Hc%Z.eqb_eq Ha%bool_decide_eq_true]. exists out, w. split; [exact E |]. split; [exact Hc |]. split; [exact Ha |].
  apply (spending_needs_allowance demo_meta (bob_sends 40) alice_pays out w 1 E).
  change (coins (chain (storage w)) 1 < coins (chain alice_pays) 1). rewrite Hc. vm_compute. reflexivity.
Defined.

(** Alice lets Carol spend more than a balance can hold. *)
Definition alice_approves : demo_handle := call_by 1 (encode Approve (mkAddress (addr 3), (mkU256 (2 ^ 200), tt))) 0 false.
Lemma approvals_authorised_witness :
  exists out w, execute demo_meta (world alice_approves alice_pays) = Ok (out, w) /\ Approves (storage w) !! (1, 3) = Some u128_max /\
    let f := demo_frame alice_approves in
    (Approves (storage w) !! (1, 3) = Approves alice_pays !! (1, 3) \/ 1 = from_be (caller (context f)) \/
     3 = from_be (caller (context f)) /\ (exists v, allowed alice_pays (storage w) 1 3 v) \/
     exists sig o sp value deadline, from_be o = 1 /\ from_be sp = 3 /\
       signed_permit demo_meta f alice_pays sig o sp value deadline /\ timestamp (chain alice_pays) / 1000 <= deadline /\
       Approves (storage w) !! (1, 3) = Some (saturate_amount value)).
Proof.
  destruct (run_ok (execute demo_meta (world alice_approves alice_pays))
              (fun s => bool_decide (Approves s !! (1, 3) = Some u128_max))) as (out & w & E & Ha%bool_decide_eq_true); [vm_compute; reflexivity |].
  exists out, w. split; [exact E |]. split; [exact Ha |]. exact (approvals_authorised demo_meta alice_approves alice_pays out w 1 3 E).
Defined.

(** ** A permit *)

Definition dora_key : list Z := to_be 32 77.
Definition dora : list Z := signer_address (W := Z) dora_key.
Definition dora_permit : demo_handle :=
  call_by 2 (encode Eip2612Permit (mkAddress dora, (mkAddress (addr 2), (mkU256 30, (mkU256 9999, (mkU8 27,
    (mkH256 (repeat 9 32), (mkH256 dora_key, tt)))))))) 0 false.
Lemma permit_not_replayed_witness :
  exists out w out2 w2 m m2,
    execute demo_meta (world dora_permit alice_pays) = Ok (out, w) /\
    execute demo_meta (world dora_permit (storage w)) = Ok (out2, w2) /\
    permit_message demo_meta (demo_frame dora_permit) alice_pays = Some m /\
    permit_message demo_meta (demo_frame dora_permit) (storage w) = Some m2 /\
    m.1 = m2.1 /\ m.2 <> m2.2 /\
    signature_valid (L := gmap AccountId Balance) m /\ signature_valid (L := gmap AccountId Balance) m2.
Proof.
  destruct (run_ok (execute demo_meta (world dora_permit alice_pays))
              (fun s => match after (execute demo_meta (world dora_permit s)) with Some _ => true | None => false end)) as (out & w & E & Hw);
    [vm_compute; reflexivity |].
  destruct (execute demo_meta (world dora_permit (storage w))) as [[out2 w2]| |] eqn:E2; [| discriminate Hw | discriminate Hw].
  destruct (permit_not_replayed demo_meta dora_permit alice_pays out w (storage w) dora_permit out2 w2) as (m & m2 & H1).
  - intros o. apply Z.eq_le_incl. symmetry. unfold nonce_of. by change (Nonces alice_pays) with (∅ : gmap (list Z) Z); rewrite lookup_empty.
  - vm_compute. reflexivity.
  - exact E.
  - apply rtc_refl.
  - reflexivity.
  - exact E2.
  - exists out, w, out2, w2, m, m2. split; [exact E |]. split; [exact E2 |]. exact H1.
Defined.

(** ** What the dropped check lets through *)

(** In a static context, where nothing may be written, an approval is written all the same. *)
Example static_call_writes :
  let h := call_by 1 (encode Approve (mkAddress (addr 3), (mkU256 7, tt))) 0 true in
  check_function_modifier (context (frame h)) (is_static (frame h)) (modifier_of Approve) =
    Err (Revert "can't call non-static function in static context") /\
  (fun s : Storage _ => Approves s !! (1, 3)) <$> after (execute demo_meta (world h alice_pays)) = Some (Some 7).
Proof. split; vm_compute; reflexivity. Qed.
(** A function that is not payable takes the value that is sent with the call. *)
Example unpayable_call_paid :
  let h := call_by 1 (encode Transfer (mkAddress (addr 3), (mkU256 7, tt))) 500 false in
  check_function_modifier (context (frame h)) (is_static (frame h)) (modifier_of Transfer) = Err (Revert "function is not payable") /\
  (fun s : Storage (gmap AccountId Balance) => coins (chain s) 3) <$> after (execute demo_meta (world h alice_pays)) = Some 12.
Proof. split; vm_compute; reflexivity. Qed.
