(* ===== verification/Erc20Assets.v ===== *)
(** * The ERC-20 view of assets (src/precompiles/assets-erc20/src)

    One precompile per asset of [pallet_assets], found by the address that is called.  Approvals
    are the pallet's own; permits keep their nonces here.  The pallet is a parameter. *)

From stdpp Require Import strings.
From S2P Require Import Prelude Arith Frame EvmData EvmAbi Precompile.
From stdpp Require Import list.
Import EvmData Precompile.
#[local] Open Scope Z_scope.

Module Erc20Assets.

Inductive Action :=
| TotalSupply | BalanceOf | Allowance | Transfer | Approve | TransferFrom | Name | Symbol | Decimals | MinimumBalance
| Mint | Burn | Eip2612Permit | Eip2612Nonces | Eip2612DomainSeparator.
Definition actions : list Action :=
  [TotalSupply; BalanceOf; Allowance; Transfer; Approve; TransferFrom; Name; Symbol; Decimals; MinimumBalance;
   Mint; Burn; Eip2612Permit; Eip2612Nonces; Eip2612DomainSeparator].
Definition signature (a : Action) : string :=
  match a with
  | TotalSupply => "totalSupply()"
  | BalanceOf => "balanceOf(address)"
  | Allowance => "allowance(address,address)"
  | Transfer => "transfer(address,uint256)"
  | Approve => "approve(address,uint256)"
  | TransferFrom => "transferFrom(address,address,uint256)"
  | Name => "name()"
  | Symbol => "symbol()"
  | Decimals => "decimals()"
  | MinimumBalance => "minimumBalance()"
  | Mint => "mint(address,uint256)"
  | Burn => "burn(address,uint256)"
  | Eip2612Permit => "permit(address,address,uint256,uint256,uint8,bytes32,bytes32)"
  | Eip2612Nonces => "nonces(address)"
  | Eip2612DomainSeparator => "DOMAIN_SEPARATOR()"
  end.

(** The calls of [pallet_assets] that are dispatched *)
Inductive AssetsCall :=
| CancelApproval (id : CurrencyId) (delegate : AccountId)
| ApproveTransfer (id : CurrencyId) (delegate : AccountId) (amount : Balance)
| AssetTransfer (id : CurrencyId) (target : AccountId) (amount : Balance)
| TransferApproved (id : CurrencyId) (owner destination : AccountId) (amount : Balance)
| AssetMint (id : CurrencyId) (beneficiary : AccountId) (amount : Balance)
| AssetBurn (id : CurrencyId) (who : AccountId) (amount : Balance).
Class AssetsRuntime (L : Type) := {
  maybe_total_supply : L -> CurrencyId -> option Balance;
  assets_total_issuance : L -> CurrencyId -> Balance;
  assets_balance : L -> CurrencyId -> AccountId -> Balance;
  assets_allowance : L -> CurrencyId -> AccountId -> AccountId -> Balance;
  assets_name : L -> CurrencyId -> list Z;
  assets_symbol : L -> CurrencyId -> list Z;
  assets_decimals : L -> CurrencyId -> Z;
  assets_minimum_balance : L -> CurrencyId -> Balance;
  (** [AddressToAssetId] and [Display] of asset ids *)
  address_to_asset_id : list Z -> option CurrencyId;
  show_asset_id : CurrencyId -> string;
  timestamp : L -> Z;
  ChainId : Z;
  secp256k1_ecdsa_recover : list Z -> list Z -> option (list Z);
}.

(** Nonces are by the address of the asset's contract and the owner. *)
Record Storage (L : Type) := mkStorage { Nonces : gmap (list Z * list Z) Z; chain : L }.
Arguments mkStorage {L}.
Arguments Nonces {L}.
Arguments chain {L}.
(** The arguments of [permit]: owner, spender, value, deadline, v, r and s *)
Abbreviation PermitArgs := (Address * (Address * (U256 * (U256 * (U8 * (H256 * (H256 * unit)))))))%type.

Section precompile.
Context {W H L : Type} {R : EvmRuntime W} {P : PrecompileHandle H} {A : AssetsRuntime L} {D : Dispatchable W L AssetsCall}.
#[export] Instance storage_dispatch : Dispatchable W (Storage L) AssetsCall := {|
  get_dispatch_info := get_dispatch_info (S := L);
  dispatch o c s := '(used, l) ← dispatch o c (chain s); Ok (used, mkStorage (Nonces s) l) |}.
Abbreviation Run := (Run H (Storage L)).
Implicit Types (asset_id : CurrencyId).

Definition the_storage : Run (Storage L) := gets storage.
Definition nonce_of (s : Storage L) (contract owner : list Z) : Z := default 0 (Nonces s !! (contract, owner)).
Definition insert_nonce (contract owner : list Z) (nonce : Z) (s : Storage L) : Storage L :=
  mkStorage (<[(contract, owner) := nonce]> (Nonces s)) (chain s).
Definition set_storage (f : Storage L -> Storage L) : Run unit := modify (fun w => mkWorld (handle w) (f (storage w))).

Definition SELECTOR_LOG_TRANSFER : list Z := keccak256 "Transfer(address,address,uint256)".
Definition SELECTOR_LOG_APPROVAL : list Z := keccak256 "Approval(address,address,uint256)".
Definition record3 {V} {E : EvmData V} (selector from to : list Z) (amount : V) : Run unit :=
  f ← the_frame;
  data ← output (amount, tt);
  record (log3 (address (context f)) selector (topic_of_address from) (topic_of_address to) data).

(** ** Queries *)

Definition total_supply asset_id : Run (list Z) :=
  _ ← charge db_read_gas_cost;
  s ← the_storage;
  output (mkU256 (assets_total_issuance (chain s) asset_id), tt).
Definition balance_of asset_id : Run (list Z) :=
  _ ← charge db_read_gas_cost;
  input ← read_input;
  _ ← lift (of_data (expect_arguments input 1));
  '(owner, _) ← read_arguments (A := Address * unit) input;
  s ← the_storage;
  output (mkU256 (assets_balance (chain s) asset_id (into_account_id (address_bytes owner))), tt).
Definition allowance asset_id : Run (list Z) :=
  _ ← charge db_read_gas_cost;
  input ← read_input;
  _ ← lift (of_data (expect_arguments input 2));
  '(owner, (spender, _)) ← read_arguments (A := Address * (Address * unit)) input;
  s ← the_storage;
  output (mkU256 (assets_allowance (chain s) asset_id (into_account_id (address_bytes owner)) (into_account_id (address_bytes spender))), tt).
Definition name asset_id : Run (list Z) :=
  _ ← charge db_read_gas_cost; s ← the_storage; output (mkBytes (assets_name (chain s) asset_id), tt).
Definition symbol asset_id : Run (list Z) :=
  _ ← charge db_read_gas_cost; s ← the_storage; output (mkBytes (assets_symbol (chain s) asset_id), tt).
Definition decimals asset_id : Run (list Z) :=
  _ ← charge db_read_gas_cost; s ← the_storage; output (mkU8 (assets_decimals (chain s) asset_id), tt).
Definition minimum_balance asset_id : Run (list Z) :=
  _ ← charge db_read_gas_cost; s ← the_storage; output (mkU256 (assets_minimum_balance (chain s) asset_id), tt).

(** ** Approvals and transfers *)

(** [try_into().unwrap_or_else(|_| Bounded::max_value())] *)
Definition saturate_amount (value : Z) : Balance := if value <=? u128_max then value else u128_max.
(** [pallet_assets] adds to an approval that exists, so it is cancelled first. *)
Definition approve_inner asset_id (owner spender : list Z) (value : Z) : Run unit :=
  let owner := into_account_id owner in
  let spender := into_account_id spender in
  let amount := saturate_amount value in
  _ ← charge db_read_gas_cost;
  s ← the_storage;
  _ ← (if assets_allowance (chain s) asset_id owner spender =? 0 then mret tt
       else try_dispatch (Signed owner) (CancelApproval asset_id spender));
  try_dispatch (Signed owner) (ApproveTransfer asset_id spender amount).
Definition approve asset_id : Run (list Z) :=
  _ ← record_log_costs_manual 3 32;
  input ← read_input;
  _ ← lift (of_data (expect_arguments input 2));
  '(spender, (amount, _)) ← read_arguments (A := Address * (U256 * unit)) input;
  f ← the_frame;
  _ ← approve_inner asset_id (caller (context f)) (address_bytes spender) (u256_value amount);
  _ ← record3 SELECTOR_LOG_APPROVAL (caller (context f)) (address_bytes spender) amount;
  output (true, tt).

(** [read::<Balance>] reads an [u128]. *)
Definition transfer asset_id : Run (list Z) :=
  _ ← record_log_costs_manual 3 32;
  input ← read_input;
  _ ← lift (of_data (expect_arguments input 2));
  '(to, (amount, _)) ← read_arguments (A := Address * (Uint 16 * unit)) input;
  f ← the_frame;
  _ ← try_dispatch (Signed (into_account_id (caller (context f))))
        (AssetTransfer asset_id (into_account_id (address_bytes to)) (uint_value amount));
  _ ← record3 SELECTOR_LOG_TRANSFER (caller (context f)) (address_bytes to) amount;
  output (true, tt).
Definition transfer_from asset_id : Run (list Z) :=
  _ ← record_log_costs_manual 3 32;
  input ← read_input;
  _ ← lift (of_data (expect_arguments input 3));
  '(from, (to, (amount, _))) ← read_arguments (A := Address * (Address * (Uint 16 * unit))) input;
  f ← the_frame;
  let caller_id := into_account_id (caller (context f)) in
  let from_id := into_account_id (address_bytes from) in
  let to_id := into_account_id (address_bytes to) in
  _ ← (if bool_decide (caller_id = from_id)
       then try_dispatch (Signed from_id) (AssetTransfer asset_id to_id (uint_value amount))
       else try_dispatch (Signed caller_id) (TransferApproved asset_id from_id to_id (uint_value amount)));
  _ ← record3 SELECTOR_LOG_TRANSFER (address_bytes from) (address_bytes to) amount;
  output (true, tt).
Definition mint asset_id : Run (list Z) :=
  input ← read_input;
  _ ← lift (of_data (expect_arguments input 2));
  '(beneficiary, (amount, _)) ← read_arguments (A := Address * (Uint 16 * unit)) input;
  f ← the_frame;
  _ ← try_dispatch (Signed (into_account_id (caller (context f))))
        (AssetMint asset_id (into_account_id (address_bytes beneficiary)) (uint_value amount));
  output (true, tt).
Definition burn asset_id : Run (list Z) :=
  input ← read_input;
  _ ← lift (of_data (expect_arguments input 2));
  '(who, (amount, _)) ← read_arguments (A := Address * (Uint 16 * unit)) input;
  f ← the_frame;
  _ ← try_dispatch (Signed (into_account_id (caller (context f))))
        (AssetBurn asset_id (into_account_id (address_bytes who)) (uint_value amount));
  output (true, tt).

(** ** Permits (eip2612.rs) *)

Definition PERMIT_TYPEHASH : list Z :=
  keccak256 "Permit(address owner,address spender,uint256 value,uint256 nonce,uint256 deadline)".
Definition PERMIT_DOMAIN : list Z :=
  keccak256 "EIP712Domain(string name,string version,uint256 chainId,address verifyingContract)".
Definition compute_domain_separator (l : L) (contract : list Z) asset_id : EvmResult (list Z) :=
  let asset_name := assets_name l asset_id in
  let name := if bool_decide (asset_name = []) then string_bytes ("Unnamed XC20 #" +:+ show_asset_id asset_id) else asset_name in
  w ← tuple_write (mkH256 PERMIT_DOMAIN, (mkH256 (keccak_256 name), (mkH256 (keccak256 "1"),
                   (mkU256 ChainId, (mkAddress contract, tt))))) writer_new;
  domain_separator_inner ← build w;
  Ok (keccak_256 domain_separator_inner).
Definition generate_permit (l : L) (contract : list Z) asset_id (owner spender : list Z) (value nonce deadline : Z) : EvmResult (list Z) :=
  domain_separator ← compute_domain_separator l contract asset_id;
  w ← tuple_write (mkH256 PERMIT_TYPEHASH, (mkAddress owner, (mkAddress spender, (mkU256 value, (mkU256 nonce,
                   (mkU256 deadline, tt)))))) writer_new;
  permit_content ← build w;
  Ok (keccak_256 ([25; 1] ++ domain_separator ++ keccak_256 permit_content)).
Definition signer_address (public : list Z) : list Z := drop 12 (keccak_256 public).
Definition permit asset_id : Run (list Z) :=
  _ ← charge db_read_gas_cost;
  input ← read_input;
  '(owner, (spender, (value, (deadline, (v, (r, (s, _))))))) ← read_arguments (A := PermitArgs) input;
  f ← the_frame;
  let contract := code_address f in
  st ← the_storage;
  _ ← lift (ensure (timestamp (chain st) / 1000 <=? u256_value deadline) (revert "permit expired"));
  let nonce := nonce_of st contract (address_bytes owner) in
  permit ← lift (of_data (generate_permit (chain st) contract asset_id (address_bytes owner) (address_bytes spender)
                            (u256_value value) nonce (u256_value deadline)));
  let sig := h256_bytes r ++ h256_bytes s ++ [u8_value v] in
  public ← lift (ok_or (secp256k1_ecdsa_recover (L := L) sig permit) (revert "invalid permit"));
  let signer := signer_address public in
  _ ← lift (ensure (negb (bool_decide (signer = repeat 0 20)) && bool_decide (signer = address_bytes owner))
                   (revert "invalid permit"));
  next ← lift (or_panic (checked_add_to u256_max nonce 1));
  _ ← set_storage (insert_nonce contract (address_bytes owner) next);
  _ ← approve_inner asset_id (address_bytes owner) (address_bytes spender) (u256_value value);
  _ ← record3 SELECTOR_LOG_APPROVAL (address_bytes owner) (address_bytes spender) value;
  mret [].
Definition nonces : Run (list Z) :=
  _ ← charge db_read_gas_cost;
  input ← read_input;
  '(owner, _) ← read_arguments (A := Address * unit) input;
  f ← the_frame;
  s ← the_storage;
  output (mkU256 (nonce_of s (code_address f) (address_bytes owner)), tt).
Definition domain_separator asset_id : Run (list Z) :=
  _ ← charge db_read_gas_cost;
  f ← the_frame;
  s ← the_storage;
  d ← lift (of_data (compute_domain_separator (chain s) (code_address f) asset_id));
  output (mkH256 d, tt).

(** ** The set of precompiles *)

Definition modifier_of (a : Action) : FunctionModifier :=
  match a with Approve | Transfer | TransferFrom | Mint | Burn => NonPayable | _ => View end.
Definition run_action asset_id (a : Action) : Run (list Z) :=
  match a with
  | TotalSupply => total_supply asset_id
  | BalanceOf => balance_of asset_id
  | Allowance => allowance asset_id
  | Approve => approve asset_id
  | Transfer => transfer asset_id
  | TransferFrom => transfer_from asset_id
  | Name => name asset_id
  | Symbol => symbol asset_id
  | Decimals => decimals asset_id
  | MinimumBalance => minimum_balance asset_id
  | Mint => mint asset_id
  | Burn => burn asset_id
  | Eip2612Permit => permit asset_id
  | Eip2612Nonces => nonces
  | Eip2612DomainSeparator => domain_separator asset_id
  end.
Definition execute (w : World H (Storage L)) : option (result PrecompileFailure (list Z * World H (Storage L))) :=
  match address_to_asset_id (code_address (frame (handle w))) with
  | Some asset_id =>
      match maybe_total_supply (chain (storage w)) asset_id with
      | Some _ =>
          Some ((selector ← read_action actions signature;
                 _ ← check_modifier (modifier_of selector);
                 run_action asset_id selector) w)
      | None => None
      end
  | None => None
  end.
Definition is_precompile (s : Storage L) (contract : list Z) : bool :=
  match address_to_asset_id contract with
  | Some asset_id => bool_decide (is_Some (maybe_total_supply (chain s) asset_id))
  | None => false
  end.
End precompile.
End Erc20Assets.
