(* ===== verification/Erc20AssetsProps.v ===== *)
(** * The ERC-20 view of assets: what calls may do

    Calls act on the chain as their caller, or as the owner of a permit that the owner signed;
    an approval is set to what was asked for. *)

From stdpp Require Import strings.
From S2P Require Import Prelude Arith Frame EvmData EvmAbi Precompile Erc20Assets.
From stdpp Require Import list relations.
Import EvmData Precompile Erc20Assets.
#[local] Open Scope Z_scope.

Create HintDb acts discriminated.

Section props.
Context {W H L : Type} {R : EvmRuntime W} {P : PrecompileHandle H} {PL : PrecompileHandleLaws H}.
Context {A : AssetsRuntime L} {D : Dispatchable W L AssetsCall}.
Implicit Types (f : CallFrame) (s : Storage L) (h : H) (l : L) (id : CurrencyId).
Abbreviation me f := (into_account_id (caller (context f))).
Abbreviation Run := (Run H (Storage L)).

(** [who] dispatched a call of the pallet; several, one after the other *)
Definition acted who l l' : Prop := exists c used, dispatch (Signed who) c l = Ok (used, l').
Definition acts (who : AccountId) : relation L := rtc (acted who).

(** [owner] signed the permit for [spender] with the nonce it has. *)
Definition signed_permit f s id (sig owner spender : list Z) (value deadline : Z) : Prop :=
  exists digest public,
    generate_permit (chain s) (code_address f) id owner spender value (nonce_of s (code_address f) owner) deadline = Ok digest /\
    secp256k1_ecdsa_recover (L := L) sig digest = Some public /\ signer_address public = owner /\ owner <> repeat 0 20.

(** What a call does, with the authority it does it on *)
Inductive asset_step f s id : Storage L -> Prop :=
| step_read : asset_step f s id s
| step_act l : is_static f = false -> acts (me f) (chain s) l -> asset_step f s id (mkStorage (Nonces s) l)
| step_permit sig owner spender value deadline l :
    signed_permit f s id sig owner spender value deadline -> timestamp (chain s) / 1000 <= deadline ->
    acts (into_account_id owner) (chain s) l ->
    asset_step f s id (mkStorage (<[(code_address f, owner) := nonce_of s (code_address f) owner + 1]> (Nonces s)) l).

(** ** Computations that act as somebody *)

Definition acts_as (who : CallFrame -> AccountId) {B} (m : Run B) : Prop :=
  forall h s a w, m (mkWorld h s) = Ok (a, w) ->
    exists h' l, w = mkWorld h' (mkStorage (Nonces s) l) /\ frame h' = frame h /\ acts (who (frame h)) (chain s) l.
Lemma keeps_acts who {B} (m : Run B) : keeps m -> acts_as who m.
Proof. intros Hm h s a w Hr. apply Hm in Hr as (h' & -> & E). exists h', (chain s). by destruct s. Qed.
Lemma acts_bind who {B C} (m : Run B) (k : B -> Run C) : acts_as who m -> (forall b, acts_as who (k b)) -> acts_as who (m ≫= k).
Proof.
  intros Hm Hk h s a w (b & w1 & H1 & H2)%M_bind_Ok. apply Hm in H1 as (h1 & l1 & -> & E1 & A1).
  apply Hk in H2 as (h2 & l2 & -> & E2 & A2). exists h2, l2. split; [done |]. split; [congruence |]. rewrite E1 in A2. cbn in A2.
  by etrans.
Qed.
(** The frame that is read is the one of the call. *)
Lemma acts_frame who {C} (k : CallFrame -> Run C) :
  (forall f, acts_as (fun _ => who f) (k f)) -> acts_as who (f ← the_frame; k f).
Proof. intros Hk h s a w (f & w1 & [= <- <-] & H2)%M_bind_Ok. exact (Hk (frame h) h s a w H2). Qed.
Lemma acts_dispatch who c : acts_as (fun _ => who) (try_dispatch (Signed who) c).
Proof.
  intros h s a w Hr. apply try_dispatch_Ok in Hr as (used & h' & s' & Hd & -> & E).
  apply result_bind_Ok in Hd as ([used' l] & Hd & [= -> <-]). exists h', l. split; [done |]. split; [done |].
  apply rtc_once. by exists c, used.
Qed.

Lemma keeps_asset_storage : keeps (the_storage (H := H) (L := L)).
Proof. apply keeps_gets. Qed.
Lemma keeps_asset_log {V} {E : EvmData V} t0 t1 t2 (v : V) : keeps (record3 (H := H) (L := L) t0 t1 t2 v).
Proof. unfold record3. auto 6 with keeps. Qed.
Hint Resolve keeps_asset_storage keeps_asset_log : keeps.
Hint Resolve acts_dispatch : acts.
Hint Extern 1 (acts_as _ (the_frame ≫= _)) => apply acts_frame; intros : acts.
Hint Extern 2 (acts_as _ (_ ≫= _)) => apply acts_bind; [| intros] : acts.
Hint Extern 3 (acts_as _ _) => apply keeps_acts; solve [auto 6 with keeps] : acts.
Hint Extern 4 (acts_as _ (match ?x with _ => _ end)) => destruct x : acts.

Lemma approve_inner_acts id owner spender value : acts_as (fun _ => into_account_id owner) (approve_inner id owner spender value).
Proof. unfold approve_inner. cbv zeta. auto 8 with acts. Qed.
Hint Resolve approve_inner_acts : acts.
Lemma approve_acts id : acts_as (fun f => me f) (approve id).
Proof. unfold approve. auto 20 with acts. Qed.
Lemma transfer_acts id : acts_as (fun f => me f) (transfer id).
Proof. unfold transfer. auto 20 with acts. Qed.
Lemma transfer_from_acts id : acts_as (fun f => me f) (transfer_from id).
Proof.
  unfold transfer_from. do 3 (apply acts_bind; [by auto with acts | intros]). apply acts_bind; [by auto with acts |]. intros [from [to [amount ?]]].
  apply acts_frame. intros f. cbv zeta. case_bool_decide as E; [rewrite <- E |]; auto 8 with acts.
Qed.
Lemma mint_acts id : acts_as (fun f => me f) (mint id).
Proof. unfold mint. auto 20 with acts. Qed.
Lemma burn_acts id : acts_as (fun f => me f) (burn id).
Proof. unfold burn. auto 20 with acts. Qed.

Lemma asset_permit_Ok id h s out w : permit id (mkWorld h s) = Ok (out, w) ->
  exists sig owner spender value deadline l,
    signed_permit (frame h) s id sig owner spender value deadline /\ timestamp (chain s) / 1000 <= deadline /\
    acts (into_account_id owner) (chain s) l /\ frame (handle w) = frame h /\
    storage w = mkStorage (<[(code_address (frame h), owner) := nonce_of s (code_address (frame h)) owner + 1]> (Nonces s)) l.
Proof.
  intros Hr. unfold permit in Hr. do 3 peel Hr. destruct a1 as (owner & spender & value & deadline & v & r & sg & []).
  peel Hr. injection E2 as <- _. peel Hr. injection E2 as <- _. peel Hr. apply lift_Ok in E2 as [Et%ensure_Ok _]. zbool.
  peel Hr. apply lift_Ok in E2 as [Ed%of_data_Ok _]. peel Hr. apply lift_Ok in E2 as [Ep%ok_or_Ok _].
  peel Hr. apply lift_Ok in E2 as [[Hz%negb_true_iff%bool_decide_eq_false Ho%bool_decide_eq_true]%ensure_Ok%andb_true_iff _].
  peel Hr. apply lift_Ok in E2 as [[-> Hn]%or_panic_Ok%checked_add_to_Some _]. cbn [handle storage] in *.
  apply M_bind_Ok in Hr as (? & w1 & [= _ <-] & Hr). cbn [handle storage] in Hr.
  apply M_bind_Ok in Hr as (? & w2 & Hi & Hr). apply approve_inner_acts in Hi as (h' & l & -> & Ef & Ha). cbn in Ha.
  assert (keeps (_ ← record3 (H := H) (L := L) SELECTOR_LOG_APPROVAL (address_bytes owner) (address_bytes spender) value; mret (M := Run) [] : Run (list Z))) as Hk
    by auto with keeps.
  apply Hk in Hr as (h'' & -> & Ef'). assert (frame h2 = frame h) as E2 by congruence. rewrite E2 in *.
  exists (h256_bytes r ++ h256_bytes sg ++ [u8_value v]), (address_bytes owner), (address_bytes spender), (u256_value value), (u256_value deadline), l.
  split; [| split; [exact Et | split; [exact Ha | split; [cbn; congruence | done]]]].
  rewrite Ho in Hz. by exists a2, a3.
Qed.

Lemma keeps_query id a : modifier_of a = View -> a <> Eip2612Permit -> keeps (run_action (H := H) (L := L) id a).
Proof.
  destruct a; try done; intros _ _; unfold run_action, total_supply, balance_of, allowance, name, symbol, decimals, minimum_balance, nonces, domain_separator;
    repeat (apply keeps_bind; [by auto with keeps | intros; repeat case_match]); auto with keeps.
Qed.
Lemma action_acts id a : modifier_of a = NonPayable -> acts_as (fun f => me f) (run_action id a).
Proof. destruct a; try done; intros _; cbn [run_action]; auto using approve_acts, transfer_acts, transfer_from_acts, mint_acts, burn_acts. Qed.
Lemma nonpayable_not_static a : modifier_of a <> View -> modifier_of a = NonPayable.
Proof. by destruct a. Qed.

Definition action_of f : option Action :=
  match read_selector (call_input f) with Ok selector => try_from_primitive actions signature selector | _ => None end.
Lemma execute_Ok h s out w : execute (mkWorld h s) = Some (Ok (out, w)) ->
  exists id a, address_to_asset_id (code_address (frame h)) = Some id /\ is_Some (maybe_total_supply (chain s) id) /\
    action_of (frame h) = Some a /\ check_function_modifier (context (frame h)) (is_static (frame h)) (modifier_of a) = Ok tt /\
    run_action id a (mkWorld h s) = Ok (out, w).
Proof.
  unfold execute. cbn [handle storage]. destruct (address_to_asset_id _) as [id|] eqn:Ei; [| done].
  destruct (maybe_total_supply _ _) eqn:Es; [| done]. intros [= Hr].
  apply M_bind_Ok in Hr as (a & w1 & Ha & Hr). apply M_bind_Ok in Hr as ([] & w2 & Hc & Hr).
  apply M_bind_Ok in Ha as (f & ? & [= <- <-] & Ha). apply M_bind_Ok in Ha as (sel & ? & [Hsel%of_data_Ok ->]%lift_Ok & Ha).
  apply lift_Ok in Ha as [Ha%ok_or_Ok ->]. apply M_bind_Ok in Hc as (f & ? & [= <- <-] & [Hc ->]%lift_Ok).
  exists id, a. split; [done |]. split; [by rewrite Es |]. cbn in Hsel. unfold action_of. by rewrite Hsel.
Qed.
Lemma static_only_views f m : check_function_modifier (context f) (is_static f) m = Ok tt -> m <> View -> is_static f = false.
Proof. unfold check_function_modifier. intros Hc Hm. destruct (is_static f); [| done]. by rewrite bool_decide_eq_false_2 in Hc. Qed.

(** Calls of an asset's contract act on authority only: whatever call data is sent to it, a successful call belongs to an
    asset that exists, and it changes nothing; or it is no static call and acts on the chain with calls that are signed by the
    account of the caller; or it redeems a permit that its owner signed for this contract, before the deadline and with the
    owner's nonce, which is used up, and acts on the chain as that owner. *)
Lemma asset_calls_steps h s out w :
  execute (mkWorld h s) = Some (Ok (out, w)) ->
  exists id, address_to_asset_id (code_address (frame h)) = Some id /\ is_Some (maybe_total_supply (chain s) id) /\
    asset_step (frame h) s id (storage w).
Proof.
  intros (id & a & Hid & Hs & Ha & Hc & Hr)%execute_Ok. exists id. split; [done |]. split; [done |].
  destruct (decide (modifier_of a = View)) as [Hv|Hv].
  - destruct a eqn:Ea; try done;
      try (match type of Hr with run_action _ ?q _ = _ => pose proof (keeps_query id q Hv ltac:(done)) as Hk end;
           apply Hk in Hr as (h' & -> & _); constructor).
    apply asset_permit_Ok in Hr as (sig & owner & spender & value & deadline & l & Hsig & Ht & Hl & _ & ->). by econstructor.
  - apply (action_acts id a (nonpayable_not_static a Hv)) in Hr as (h' & l & -> & _ & Hl). constructor; [| done].
    by eapply static_only_views.
Qed.
End props.

(** ** Approvals *)

(** What [pallet_assets] promises about approvals: cancelling one removes it, approving adds to it. *)
Class AssetsLaws (W L : Type) {A : AssetsRuntime L} {D : Dispatchable W L AssetsCall} : Prop := {
  cancel_removes o id d l used l' : dispatch (Signed o) (CancelApproval id d) l = Ok (used, l') -> assets_allowance l' id o d = 0;
  approve_adds o id d v l used l' : dispatch (Signed o) (ApproveTransfer id d v) l = Ok (used, l') ->
    assets_allowance l' id o d = assets_allowance l id o d + v;
}.
Section approvals.
Context {W H L : Type} {R : EvmRuntime W} {P : PrecompileHandle H} {PL : PrecompileHandleLaws H}.
Context {A : AssetsRuntime L} {D : Dispatchable W L AssetsCall} {AL : AssetsLaws W L}.
Implicit Types (f : CallFrame) (s : Storage L) (h : H) (id : CurrencyId).
Abbreviation me f := (into_account_id (caller (context f))).

Lemma dispatch_step o c h s u w : try_dispatch (Signed o) c (mkWorld h s) = Ok (u, w) ->
  exists used h' l, dispatch (Signed o) c (chain s) = Ok (used, l) /\ w = mkWorld h' (mkStorage (Nonces s) l) /\ frame h' = frame h.
Proof.
  intros (used & h' & s' & Hd & -> & E)%try_dispatch_Ok. apply result_bind_Ok in Hd as ([used' l] & Hd & [= -> <-]). by exists used, h', l.
Qed.
Lemma approve_inner_sets id owner spender value h s u w : approve_inner id owner spender value (mkWorld h s) = Ok (u, w) ->
  assets_allowance (chain (storage w)) id (into_account_id owner) (into_account_id spender) = saturate_amount value.
Proof.
  unfold approve_inner. cbv zeta. intros Hr. peel Hr. apply M_bind_Ok in Hr as (s0 & ? & [= <- <-] & Hr). cbn [storage] in Hr.
  apply M_bind_Ok in Hr as (? & w1 & Hc & Hr). destruct (Z.eqb_spec (assets_allowance (chain s) id (into_account_id owner) (into_account_id spender)) 0) as [E0|E0].
  - injection Hc as _ <-. apply dispatch_step in Hr as (used & h' & l & Hd & -> & _). cbn. rewrite (approve_adds _ _ _ _ _ _ _ Hd). lia.
  - apply dispatch_step in Hc as (used & h' & l & Hd & -> & _). apply dispatch_step in Hr as (used' & h'' & l' & Hd' & -> & _).
    cbn in *. rewrite (approve_adds _ _ _ _ _ _ _ Hd'), (cancel_removes _ _ _ _ _ _ Hd). lia.
Qed.

(** The arguments of [approve] *)
Definition approve_args f : EvmResult (Address * (U256 * unit)) := parsed f.
(** C29: An approval is set, not added: after a successful call of [approve], what the caller lets the spender spend is the
    amount of the call data, or the largest balance if the amount is larger, whatever was allowed before, although the pallet
    adds to approvals that exist. *)
Theorem approve_sets_allowance h s out w :
  action_of (frame h) = Some Approve -> execute (mkWorld h s) = Some (Ok (out, w)) ->
  exists id spender amount, address_to_asset_id (code_address (frame h)) = Some id /\
    approve_args (frame h) = Ok (spender, (amount, tt)) /\
    assets_allowance (chain (storage w)) id (me (frame h)) (into_account_id (address_bytes spender)) =
      Z.min (u256_value amount) u128_max.
Proof.
  intros Hact (id & a & Hid & _ & Ha & _ & Hr)%execute_Ok. rewrite Hact in Ha. injection Ha as <-. cbn [run_action] in Hr.
  unfold approve in Hr. do 4 peel Hr. destruct a2 as [spender [amount []]]. peel Hr. injection E3 as <- _.
  apply M_bind_Ok in Hr as (? & [h9 s4] & Hi & Hr). apply approve_inner_sets in Hi.
  assert (storage w = s4) as ->.
  { match type of Hr with ?m _ = _ => assert (keeps m) as Hk by (unfold record3; auto 8 with keeps) end. by apply Hk in Hr as (? & -> & _). }
  exists id, spender, amount. split; [done |]. split.
  - unfold approve_args. rewrite <- F. exact (arguments_parsed _ _ _ _ _ _ _ E0 E2).
  - cbn [handle] in Hi. replace (frame h) with (frame h3) by congruence. cbn [storage] in Hi. rewrite Hi. unfold saturate_amount. case_match; zbool; lia.
Qed.
End approvals.

(** ** Amounts of transfers

    Transfers, mints and burns read the amount as an [u128]: the upper half of the word is dropped. *)

Lemma from_to_be_mod n z : from_be (to_be n z) = z mod 256 ^ Z.of_nat n.
Proof.
  revert z. induction n as [|n IH]; intros z; [cbn; by rewrite Z.mod_1_r |]. cbn [to_be]. rewrite from_be_snoc, IH.
  rewrite Nat2Z.inj_succ, Z.pow_succ_r by lia. rewrite Z.rem_mul_r by lia. lia.
Qed.
Lemma to_be_app n k z : to_be (n + k) z = to_be n (z / 256 ^ Z.of_nat k) ++ to_be k z.
Proof.
  revert z. induction k as [|k IH]; intros z; [by rewrite Nat.add_0_r, app_nil_r, Z.div_1_r |].
  rewrite Nat.add_succ_r. cbn [to_be]. rewrite IH, <- app_assoc. f_equal.
  rewrite Nat2Z.inj_succ, Z.pow_succ_r, Z.div_div by lia. done.
Qed.
Lemma amount_truncated v : 0 <= v <= u256_max ->
  evm_read (A := Uint 16) (reader_new (to_be 32 v)) = Ok (mkUint (v mod 2 ^ 128), mkReader (to_be 32 v) 32).
Proof.
  intros Hv. cbn [evm_read EvmData_uint]. mrun. unfold reader_new. rewrite (read_range_ok 32 _ _ _ (to_be 32 v)).
  - assert (drop (32 - 16) (to_be 32 v) = to_be 16 v) as -> by (rewrite (to_be_app 16 16); apply drop_app_length'; by rewrite to_be_length).
    by rewrite from_to_be_mod.
  - apply lies_self.
  - apply to_be_length.
  - unfold fits. by rewrite to_be_length.
Qed.
