(* ===== verification/RuntimePrecompiles.v ===== *)
(** * The runtimes' precompiles (src/runtime/common/src/precompiles.rs, [AddressToAssetId] of src/runtime/parallel/src/lib.rs)

    Which precompile an address belongs to.  The Ethereum precompiles are third-party code and a
    parameter; the ERC-20 views of the native currency and of assets are those of
    Erc20Balances.v and Erc20Assets.v, on one storage. *)

From stdpp Require Import strings.
From S2P Require Import Prelude Arith Frame EvmData EvmAbi Precompile Erc20Balances Erc20BalancesProps Erc20Assets Erc20AssetsProps.
From stdpp Require Import list relations.
Import EvmData Precompile.
#[local] Open Scope Z_scope.

Module RuntimePrecompiles.

(** ** Addresses of assets *)

Definition ASSET_PRECOMPILE_ADDRESS_PREFIX : list Z := repeat 255 4.
Definition address_to_asset_id (address : list Z) : option CurrencyId :=
  if bool_decide (take 4 address = ASSET_PRECOMPILE_ADDRESS_PREFIX) then Some (from_be (take 4 (drop 16 address))) else None.
Definition asset_id_to_address (asset_id : CurrencyId) : list Z :=
  ASSET_PRECOMPILE_ADDRESS_PREFIX ++ repeat 0 12 ++ to_be 4 asset_id.

(** [H160::from_low_u64_be] *)
Definition hash (a : Z) : list Z := to_be 20 a.
Definition used_addresses : list (list Z) := map hash [1; 2; 3; 4; 5; 6; 7; 8; 9; 1024; 1025; 1026; 1027; 2050].

(** ** One storage for both *)

Record State (L : Type) := mkState {
  BalanceApproves : gmap (AccountId * AccountId) Balance;
  BalanceNonces : gmap (list Z) Z;
  AssetNonces : gmap (list Z * list Z) Z;
  chain : L;
}.
Arguments mkState {L}.
Arguments BalanceApproves {L}.
Arguments BalanceNonces {L}.
Arguments AssetNonces {L}.
Arguments chain {L}.

(** The precompiles of other crates, by the address they are called at *)
Inductive EthereumPrecompile :=
| ECRecover | Sha256 | Ripemd160 | Identity | Modexp | Bn128Add | Bn128Mul | Bn128Pairing | Blake2F
| Sha3FIPS256 | ECRecoverPublicKey | Ed25519Verify.

Section precompiles.
Context {W H L : Type} {R : EvmRuntime W} {P : PrecompileHandle H}.
Context {B : Erc20Balances.BalancesRuntime L} {BD : Dispatchable W L Erc20Balances.BalancesCall}.
Context {A : Erc20Assets.AssetsRuntime L} {AD : Dispatchable W L Erc20Assets.AssetsCall}.
Context (meta : Erc20Balances.Metadata).
Context (ethereum_precompile : EthereumPrecompile -> H -> result PrecompileFailure (list Z * H)).
Abbreviation Run := (Run H (State L)).
Abbreviation Result := (result PrecompileFailure (list Z * World H (State L))).

Definition balances_view (s : State L) : Erc20Balances.Storage L := Erc20Balances.mkStorage (BalanceApproves s) (BalanceNonces s) (chain s).
Definition balances_update (b : Erc20Balances.Storage L) (s : State L) : State L :=
  mkState (Erc20Balances.Approves b) (Erc20Balances.Nonces b) (AssetNonces s) (Erc20Balances.chain b).
Definition assets_view (s : State L) : Erc20Assets.Storage L := Erc20Assets.mkStorage (AssetNonces s) (chain s).
Definition assets_update (a : Erc20Assets.Storage L) (s : State L) : State L :=
  mkState (BalanceApproves s) (BalanceNonces s) (Erc20Assets.Nonces a) (Erc20Assets.chain a).

Definition run_ethereum (p : EthereumPrecompile) (w : World H (State L)) : Result :=
  '(out, h) ← ethereum_precompile p (handle w); Ok (out, mkWorld h (storage w)).
Definition run_balances (w : World H (State L)) : Result :=
  '(out, b) ← Erc20Balances.execute meta (mkWorld (handle w) (balances_view (storage w)));
  Ok (out, mkWorld (handle b) (balances_update (storage b) (storage w))).
Definition run_assets (w : World H (State L)) : option Result :=
  match Erc20Assets.execute (mkWorld (handle w) (assets_view (storage w))) with
  | Some r => Some ('(out, a) ← r; Ok (out, mkWorld (handle a) (assets_update (storage a) (storage w))))
  | None => None
  end.

Definition is_precompile (s : State L) (address : list Z) : bool :=
  bool_decide (address ∈ used_addresses) || Erc20Assets.is_precompile (assets_view s) address.
Definition execute (w : World H (State L)) : option Result :=
  let f := frame (handle w) in
  let a := code_address f in
  if is_precompile (storage w) a && (from_be (hash 9) <? from_be a) && negb (bool_decide (address (context f) = a))
  then Some (Err (revert "cannot be called with DELEGATECALL or CALLCODE"))
  else if bool_decide (a = hash 1) then Some (run_ethereum ECRecover w)
  else if bool_decide (a = hash 2) then Some (run_ethereum Sha256 w)
  else if bool_decide (a = hash 3) then Some (run_ethereum Ripemd160 w)
  else if bool_decide (a = hash 4) then Some (run_ethereum Identity w)
  else if bool_decide (a = hash 5) then Some (run_ethereum Modexp w)
  else if bool_decide (a = hash 6) then Some (run_ethereum Bn128Add w)
  else if bool_decide (a = hash 7) then Some (run_ethereum Bn128Mul w)
  else if bool_decide (a = hash 8) then Some (run_ethereum Bn128Pairing w)
  else if bool_decide (a = hash 9) then Some (run_ethereum Blake2F w)
  else if bool_decide (a = hash 1024) then Some (run_ethereum Sha3FIPS256 w)
  else if bool_decide (a = hash 1025) then Some (run_ethereum ECRecoverPublicKey w)
  else if bool_decide (a = hash 1026) then Some (run_ethereum ECRecoverPublicKey w)
  else if bool_decide (a = hash 1027) then Some (run_ethereum Ed25519Verify w)
  else if bool_decide (a = hash 2050) then Some (run_balances w)
  else if bool_decide (take 4 a = ASSET_PRECOMPILE_ADDRESS_PREFIX) then run_assets w
  else None.
End precompiles.
End RuntimePrecompiles.
Import RuntimePrecompiles.

(** ** Addresses *)

Lemma asset_address_round_trip id : is_u32 id -> address_to_asset_id (asset_id_to_address id) = Some id.
Proof.
  intros Hid. unfold address_to_asset_id, asset_id_to_address. rewrite bool_decide_eq_true_2 by done. f_equal.
  change (from_be (take 4 (to_be 4 id)) = id). rewrite take_ge by (by rewrite to_be_length). apply from_to_be. unfold is_u32, u32_max in Hid. lia.
Qed.
(** The twelve bytes between the prefix and the asset id are not looked at. *)
Lemma many_addresses_per_asset id middle : is_u32 id -> length middle = 12%nat ->
  address_to_asset_id (ASSET_PRECOMPILE_ADDRESS_PREFIX ++ middle ++ to_be 4 id) = Some id.
Proof.
  intros Hid Hm. unfold address_to_asset_id. rewrite bool_decide_eq_true_2 by done. f_equal.
  change (from_be (take 4 (drop 12 (middle ++ to_be 4 id))) = id). rewrite <- Hm, drop_app_length, take_ge by (by rewrite to_be_length).
  apply from_to_be. unfold is_u32, u32_max in Hid. lia.
Qed.

(** ** Calls *)
Lemma from_be_nonneg l : Forall (fun b => 0 <= b) l -> 0 <= from_be l.
Proof.
  induction l as [|b l IH] using rev_ind; [done |]. intros [Hl Hb]%Forall_app. rewrite Forall_singleton in Hb. rewrite from_be_snoc.
  specialize (IH Hl). lia.
Qed.
Lemma from_be_prefix l l' : Forall (fun b => 0 <= b) (l ++ l') -> 0 <= from_be l -> from_be l <= from_be (l ++ l').
Proof.
  induction l' as [|b l' IH] using rev_ind; intros H Hl; [by rewrite app_nil_r |]. rewrite app_assoc in *. apply Forall_app in H as [H Hb].
  rewrite Forall_singleton in Hb. rewrite from_be_snoc. specialize (IH H Hl). lia.
Qed.
Lemma prefix_above a : take 4 a = ASSET_PRECOMPILE_ADDRESS_PREFIX -> Forall (fun b => 0 <= b) a -> from_be (hash 9) < from_be a.
Proof.
  intros Hp Ha. rewrite <- (take_drop 4 a) in Ha |- *. rewrite Hp in Ha |- *. eapply Z.lt_le_trans; [| by apply from_be_prefix]. done.
Qed.

Section calls.
Context {W H L : Type} {R : EvmRuntime W} {P : PrecompileHandle H} {PL : PrecompileHandleLaws H}.
Context {B : Erc20Balances.BalancesRuntime L} {BD : Dispatchable W L Erc20Balances.BalancesCall}.
Context {A : Erc20Assets.AssetsRuntime L} {AD : Dispatchable W L Erc20Assets.AssetsCall}.
Context (meta : Erc20Balances.Metadata).
Context (ethereum_precompile : EthereumPrecompile -> H -> result PrecompileFailure (list Z * H)).
Implicit Types (h : H) (s : State L).

Lemma ethereum_keeps p h s out w : run_ethereum ethereum_precompile p (mkWorld h s) = Ok (out, w) -> storage w = s.
Proof. by intros ([o h'] & _ & [= _ <-])%result_bind_Ok. Qed.
Lemma balances_run h s out w : run_balances meta (mkWorld h s) = Ok (out, w) ->
  token_step meta (frame h) (balances_view s) (balances_view (storage w)) /\ AssetNonces (storage w) = AssetNonces s.
Proof.
  intros ([o b] & Hr & [= _ <-])%result_bind_Ok. apply execute_steps in Hr as [_ Hs]. cbn [storage handle] in *. split; [| done].
  by destruct (storage b).
Qed.
Lemma assets_run h s out w : run_assets (mkWorld h s) = Some (Ok (out, w)) ->
  exists id, Erc20Assets.address_to_asset_id (L := L) (code_address (frame h)) = Some id /\
    is_Some (Erc20Assets.maybe_total_supply (chain s) id) /\ asset_step (frame h) (assets_view s) id (assets_view (storage w)) /\
    BalanceApproves (storage w) = BalanceApproves s /\ BalanceNonces (storage w) = BalanceNonces s.
Proof.
  unfold run_assets. cbn [handle storage]. destruct (Erc20Assets.execute _) as [r|] eqn:Er; [| done]. intros [= Hr].
  apply result_bind_Ok in Hr as ([o a] & -> & [= _ <-]). apply asset_calls_steps in Er as (id & Hid & Hs & Hst).
  exists id. split; [done |]. split; [done |]. split; [| done]. cbn. by destruct (storage a).
Qed.

(** C14: The storage of the precompiles changes through direct calls only, and on authority: a successful call that changes
    anything is made to the contract itself, not by DELEGATECALL or CALLCODE, and the contract is either the native currency's,
    and the call a step of its token, or an asset's, and the call acts as its caller or redeems a permit; neither touches
    the storage of the other. *)
Theorem precompile_calls_authorised h s out w :
  (forall a, Erc20Assets.address_to_asset_id (L := L) a = address_to_asset_id a) ->
  Forall (fun b => 0 <= b) (code_address (frame h)) ->
  execute meta ethereum_precompile (mkWorld h s) = Some (Ok (out, w)) -> storage w <> s ->
  address (context (frame h)) = code_address (frame h) /\
  (code_address (frame h) = hash 2050 /\ token_step meta (frame h) (balances_view s) (balances_view (storage w)) /\
   AssetNonces (storage w) = AssetNonces s \/
   exists id, address_to_asset_id (code_address (frame h)) = Some id /\ is_Some (Erc20Assets.maybe_total_supply (chain s) id) /\
     asset_step (frame h) (assets_view s) id (assets_view (storage w)) /\
     BalanceApproves (storage w) = BalanceApproves s /\ BalanceNonces (storage w) = BalanceNonces s).
Proof.
  intros Hid Hb Hr Hne. unfold execute in Hr. cbn [handle storage] in Hr.
  destruct (is_precompile _ _ && _ && _) eqn:Hdirect; [done |].
  assert (is_precompile s (code_address (frame h)) = true -> from_be (hash 9) < from_be (code_address (frame h)) ->
          address (context (frame h)) = code_address (frame h)) as Hd.
  { intros E1 E2%Z.ltb_lt. rewrite E1, E2 in Hdirect. cbn in Hdirect. by apply negb_false_iff, bool_decide_eq_true in Hdirect. }
  clear Hdirect.
  do 13 (case_bool_decide; [injection Hr as Hr; by apply ethereum_keeps in Hr |]).
  case_bool_decide as Ha; [| case_bool_decide as Hp; [| done]].
  - injection Hr as Hr. apply balances_run in Hr as [Hs Hn]. split; [| by left]. apply Hd; [| rewrite Ha; done].
    unfold is_precompile. rewrite Ha. by rewrite bool_decide_eq_true_2 by (by apply (bool_decide_unpack _)).
  - apply assets_run in Hr as (id & Hi & Hs & Hst & Hk). rewrite Hid in Hi. split; [| right; exists id; done].
    apply Hd; [| by apply prefix_above]. unfold is_precompile, Erc20Assets.is_precompile. rewrite Hid, Hi. apply orb_true_iff. right.
    by apply bool_decide_eq_true_2.
Qed.
End calls.
