(* ===== verification/AssetsDemo.v ===== *)
(** * A concrete chain with assets

    Asset 100 with approvals, next to the balances of EvmDemo.v, and calls of its contract
    through the runtime's precompiles. *)

From stdpp Require Import strings.
From S2P Require Import Prelude Arith Frame EvmData EvmAbi Precompile Erc20Balances Erc20BalancesProps EvmDemo Erc20Assets Erc20AssetsProps RuntimePrecompiles.
From stdpp Require Import list relations.
Import EvmData Precompile Erc20Assets.
#[local] Open Scope Z_scope.

Record demo_chain := mkChain {
  native : gmap AccountId Balance;
  asset_coins : gmap (CurrencyId * AccountId) Balance;
  approvals : gmap (CurrencyId * (AccountId * AccountId)) Balance;
}.
Definition asset_balance (l : demo_chain) (id : CurrencyId) (x : AccountId) : Balance := default 0 (asset_coins l !! (id, x)).
Definition approved (l : demo_chain) (id : CurrencyId) (o d : AccountId) : Balance := default 0 (approvals l !! (id, (o, d))).
Definition set_coins (id : CurrencyId) (x : AccountId) (v : Balance) (l : demo_chain) : demo_chain :=
  mkChain (native l) (<[(id, x) := v]> (asset_coins l)) (approvals l).
Definition set_approved (id : CurrencyId) (o d : AccountId) (v : Balance) (l : demo_chain) : demo_chain :=
  mkChain (native l) (asset_coins l) (<[(id, (o, d)) := v]> (approvals l)).
Definition move_asset (id : CurrencyId) (from to : AccountId) (v : Balance) (l : demo_chain) : Res demo_chain :=
  _ ← ensure ((0 <=? v) && (v <=? asset_balance l id from)) (Token NoFunds);
  let l := set_coins id from (asset_balance l id from - v) l in
  Ok (set_coins id to (asset_balance l id to + v) l).
(** Account 9 issues the asset. *)
Definition run_assets_call (who : AccountId) (c : AssetsCall) (l : demo_chain) : Res demo_chain :=
  match c with
  | CancelApproval id d => Ok (set_approved id who d 0 l)
  | ApproveTransfer id d v => Ok (set_approved id who d (approved l id who d + v) l)
  | AssetTransfer id target v => move_asset id who target v l
  | TransferApproved id o dest v =>
      _ ← ensure (v <=? approved l id o who) (Token NoFunds);
      move_asset id o dest v (set_approved id o who (approved l id o who - v) l)
  | AssetMint id x v => _ ← ensure (who =? 9) BadOrigin; Ok (set_coins id x (asset_balance l id x + v) l)
  | AssetBurn id x v => _ ← ensure (who =? 9) BadOrigin; Ok (set_coins id x (asset_balance l id x - v) l)
  end.
#[export] Instance demo_assets_dispatch : Dispatchable Z demo_chain AssetsCall := {|
  get_dispatch_info _ := 7000;
  dispatch o c l := match o with Signed who => l ← run_assets_call who c l; Ok (Some 6000, l) | _ => Err BadOrigin end |}.
#[export] Instance demo_assets : AssetsRuntime demo_chain := {|
  maybe_total_supply l id := if id =? 100 then Some (map_sum (fun _ v => v) (asset_coins l)) else None;
  assets_total_issuance l _ := map_sum (fun _ v => v) (asset_coins l);
  assets_balance := asset_balance;
  assets_allowance := approved;
  assets_name _ _ := string_bytes "Kusama";
  assets_symbol _ _ := string_bytes "KSM";
  assets_decimals _ _ := 12;
  assets_minimum_balance _ _ := 1;
  address_to_asset_id := RuntimePrecompiles.address_to_asset_id;
  show_asset_id _ := "100";
  timestamp _ := 5000000;
  ChainId := 2012;
  secp256k1_ecdsa_recover sig _ := Some (take 32 (drop 32 sig)) |}.
#[export] Instance demo_assets_laws : AssetsLaws Z demo_chain.
Proof.
  constructor.
  - intros o id d l used l' (l1 & [= <-] & [= _ <-])%result_bind_Ok. cbn. unfold approved. cbn. by rewrite lookup_insert_eq.
  - intros o id d v l used l' (l1 & [= <-] & [= _ <-])%result_bind_Ok. cbn. unfold approved at 1. cbn. by rewrite lookup_insert_eq.
Qed.
#[export] Instance demo_native_dispatch : Dispatchable Z demo_chain Erc20Balances.BalancesCall := {|
  get_dispatch_info := get_dispatch_info (S := gmap AccountId Balance);
  dispatch o c l := '(used, m) ← dispatch o c (native l); Ok (used, mkChain m (asset_coins l) (approvals l)) |}.
#[export] Instance demo_native : Erc20Balances.BalancesRuntime demo_chain := {|
  Erc20Balances.balances_total_issuance l := Erc20Balances.balances_total_issuance (native l);
  Erc20Balances.usable_balance l := Erc20Balances.usable_balance (native l);
  Erc20Balances.timestamp _ := 5000000;
  Erc20Balances.ChainId := 2012;
  Erc20Balances.secp256k1_ecdsa_recover := Erc20Balances.secp256k1_ecdsa_recover (L := gmap AccountId Balance) |}.

(** ** Calls of the contract of asset 100 *)

Definition asset_contract : list Z := RuntimePrecompiles.asset_id_to_address 100.
Definition asset_selector (a : Action) : Z := generate_function_selector (signature a).
Definition asset_call (who : Z) (input : EvmResult (list Z)) (static : bool) : demo_handle :=
  mkHandle (mkFrame (match input with Ok bs => bs | _ => [] end) (mkContext asset_contract (addr who) 0) asset_contract static) 1000000 [].
Definition encode_asset {A} {E : EvmTuple A} (a : Action) (v : A) : EvmResult (list Z) :=
  w ← tuple_write v (new_with_selector (asset_selector a)); build w.
(** Alice (1) has 1000 and let Bob (2) spend 100 of it. *)
Definition alice_assets : Storage demo_chain := mkStorage ∅ (mkChain {[ 1 := 50 ]} {[ (100, 1) := 1000 ]} {[ (100, (1, 2)) := 100 ]}).
Definition asset_after (r : option (result PrecompileFailure (list Z * World demo_handle (Storage demo_chain)))) : option demo_chain :=
  match r with Some (Ok (_, w)) => Some (chain (storage w)) | _ => None end.

Definition alice_lowers : demo_handle := asset_call 1 (encode_asset Approve (mkAddress (addr 2), (mkU256 30, tt))) false.
Lemma approve_sets_allowance_witness :
  exists out w id spender amount, execute (mkWorld alice_lowers alice_assets) = Some (Ok (out, w)) /\
    address_to_asset_id (L := demo_chain) (code_address (frame alice_lowers)) = Some id /\
    approve_args (frame alice_lowers) = Ok (spender, (amount, tt)) /\
    approved (chain (storage w)) id (from_be (caller (context (frame alice_lowers)))) (from_be (address_bytes spender)) =
      Z.min (u256_value amount) u128_max.
Proof.
  destruct (execute (mkWorld alice_lowers alice_assets)) as [[[out w]| |]|] eqn:E;
    [| vm_compute in E; discriminate E | vm_compute in E; discriminate E | vm_compute in E; discriminate E].
  destruct (approve_sets_allowance alice_lowers alice_assets out w) as (id & spender & amount & H1); [vm_compute; reflexivity | exact E |].
  exists out, w, id, spender, amount. split; [reflexivity |]. exact H1.
Defined.
Example alice_lowered : (fun l => approved l 100 1 2) <$> asset_after (execute (mkWorld alice_lowers alice_assets)) = Some 30.
Proof. vm_compute. reflexivity. Qed.

(** ** What is let through *)

(** An amount that no balance can hold is not turned down: its lower half is sent. *)
Example large_transfer_truncated :
  (fun l => (asset_balance l 100 1, asset_balance l 100 3)) <$>
    asset_after (execute (mkWorld (asset_call 1 (encode_asset Transfer (mkAddress (addr 3), (mkU256 (2 ^ 128 + 5), tt))) false) alice_assets)) =
  Some (995, 5).
Proof. vm_compute. reflexivity. Qed.
(** A permit is taken for a view and redeemed in a static context. *)
Definition static_permit : demo_handle :=
  asset_call 2 (encode_asset Eip2612Permit (mkAddress dora, (mkAddress (addr 2), (mkU256 30, (mkU256 9999, (mkU8 27,
    (mkH256 (repeat 9 32), (mkH256 dora_key, tt)))))))) true.
Example static_permit_writes :
  is_static (frame static_permit) = true /\
  (fun l => approved l 100 (from_be dora) 2) <$> asset_after (execute (mkWorld static_permit alice_assets)) = Some 30.
Proof. split; vm_compute; reflexivity. Qed.
Example static_transfer_refused :
  execute (mkWorld (asset_call 1 (encode_asset Transfer (mkAddress (addr 3), (mkU256 5, tt))) true) alice_assets) =
  Some (Err (Revert "can't call non-static function in static context")).
Proof. vm_compute. reflexivity. Qed.

(** ** Through the runtime's precompiles *)

Definition no_ethereum (p : RuntimePrecompiles.EthereumPrecompile) (h : demo_handle) : result PrecompileFailure (list Z * demo_handle) := Ok ([], h).
Definition runtime_state : RuntimePrecompiles.State demo_chain := RuntimePrecompiles.mkState ∅ ∅ (Nonces alice_assets) (chain alice_assets).
Lemma precompile_calls_authorised_witness :
  exists out w, RuntimePrecompiles.execute demo_meta no_ethereum (mkWorld alice_lowers runtime_state) = Some (Ok (out, w)) /\
    approved (RuntimePrecompiles.chain (storage w)) 100 1 2 = 30 /\
    address (context (frame alice_lowers)) = code_address (frame alice_lowers) /\
    (code_address (frame alice_lowers) = RuntimePrecompiles.hash 2050 /\
     token_step demo_meta (frame alice_lowers) (RuntimePrecompiles.balances_view runtime_state) (RuntimePrecompiles.balances_view (storage w)) /\
     RuntimePrecompiles.AssetNonces (storage w) = RuntimePrecompiles.AssetNonces runtime_state \/
     exists id, RuntimePrecompiles.address_to_asset_id (code_address (frame alice_lowers)) = Some id /\
       is_Some (maybe_total_supply (RuntimePrecompiles.chain runtime_state) id) /\
       asset_step (frame alice_lowers) (RuntimePrecompiles.assets_view runtime_state) id (RuntimePrecompiles.assets_view (storage w)) /\
       RuntimePrecompiles.BalanceApproves (storage w) = RuntimePrecompiles.BalanceApproves runtime_state /\
       RuntimePrecompiles.BalanceNonces (storage w) = RuntimePrecompiles.BalanceNonces runtime_state).
Proof.
  assert (match RuntimePrecompiles.execute demo_meta no_ethereum (mkWorld alice_lowers runtime_state) with
          | Some (Ok (_, w)) => approved (RuntimePrecompiles.chain (storage w)) 100 1 2 | _ => 0 end = 30) as Hc by (vm_compute; reflexivity).
  destruct (RuntimePrecompiles.execute demo_meta no_ethereum (mkWorld alice_lowers runtime_state)) as [[[out w]| |]|] eqn:E;
    [| discriminate Hc | discriminate Hc | discriminate Hc].
  exists out, w. split; [reflexivity |]. split; [exact Hc |].
  apply (precompile_calls_authorised demo_meta no_ethereum alice_lowers runtime_state out w); [reflexivity | | exact E |].
  - apply (bool_decide_unpack _). vm_compute. exact I.
  - intros Es. rewrite Es in Hc. vm_compute in Hc. discriminate Hc.
Defined.
