(* ===== verification/Amm.v ===== *)
(** * The automatic market maker (src/pallets/amm/src/lib.rs)

    Constant-product pools of two assets.  [State] is the pallet's storage with the ledger,
    the block number and the deposited events; [Config] holds the constants of the pallet's
    [Config] trait.  One definition per function of the source, with its name. *)

From S2P Require Import Prelude Arith Frame.

Module Amm.

(** src/pallets/traits/src/lib.rs: [struct Pool] *)
Record Pool := mkPool {
  base_amount : Balance;
  quote_amount : Balance;
  base_amount_last : Balance;
  quote_amount_last : Balance;
  lp_token_id : CurrencyId;
  block_timestamp_last : BlockNumber;
  price_0_cumulative_last : Balance;
  price_1_cumulative_last : Balance;
}.

Definition Pool_new (lp_token_id : CurrencyId) : Pool :=
  mkPool 0 0 0 0 lp_token_id 0 0 0.

Definition is_empty (pool : Pool) : bool :=
  (base_amount pool =? 0) && (quote_amount pool =? 0).

Definition set_amounts (base quote : Balance) (p : Pool) : Pool :=
  mkPool base quote (base_amount_last p) (quote_amount_last p) (lp_token_id p)
    (block_timestamp_last p) (price_0_cumulative_last p) (price_1_cumulative_last p).
Definition set_last (base quote : Balance) (p : Pool) : Pool :=
  mkPool (base_amount p) (quote_amount p) base quote (lp_token_id p)
    (block_timestamp_last p) (price_0_cumulative_last p) (price_1_cumulative_last p).
Definition set_oracle (p0 p1 : Balance) (t : BlockNumber) (p : Pool) : Pool :=
  mkPool (base_amount p) (quote_amount p) (base_amount_last p) (quote_amount_last p)
    (lp_token_id p) t p0 p1.

(** [ConvertToBigUint for u128] keeps the value. *)
Definition get_big_uint (x : Balance) : Z := x.

Record Config := mkConfig {
  account_id : AccountId;           (* PalletId::get().into_account_truncating() *)
  LockAccountId : AccountId;
  CreatePoolOrigin : RuntimeOrigin -> bool;
  ProtocolFeeUpdateOrigin : RuntimeOrigin -> bool;
  LpFee : Ratio;
  MinimumLiquidity : Balance;
  GetNativeCurrencyId : CurrencyId;
}.

Inductive Event :=
| LiquidityAdded (who : AccountId) (base quote : CurrencyId) (base_added quote_added : Balance)
    (lp : CurrencyId) (new_base new_quote : Balance)
| LiquidityRemoved (who : AccountId) (base quote : CurrencyId) (liquidity : Balance)
    (base_removed quote_removed : Balance) (lp : CurrencyId) (new_base new_quote : Balance)
| PoolCreated (who : AccountId) (base quote lp : CurrencyId)
| Traded (who : AccountId) (currency_in currency_out : CurrencyId)
    (amount_in amount_out : Balance) (lp : CurrencyId) (new_quote new_base : Balance)
| ProtocolFeeUpdated (fee : Ratio)
| ProtocolFeeReceiverUpdated (receiver : AccountId).

Record State (L : Type) := mkState {
  Pools : gmap (CurrencyId * CurrencyId) Pool;
  ProtocolFee : Ratio;
  ProtocolFeeReceiver : option AccountId;
  assets : L;
  block_number : BlockNumber;
  events : list Event;
}.
Arguments mkState {L}.
Arguments Pools {L}.
Arguments ProtocolFee {L}.
Arguments ProtocolFeeReceiver {L}.
Arguments assets {L}.
Arguments block_number {L}.
Arguments events {L}.

Section pallet.
Context {SA : SpArithmetic} {NB : NumBigint} {L : Type} {FU : Fungibles L}.
Variable T : Config.

Abbreviation St := (State L).
Abbreviation Run := (M St DispatchError).

Definition set_assets (l : L) (s : St) : St :=
  mkState (Pools s) (ProtocolFee s) (ProtocolFeeReceiver s) l (block_number s) (events s).
Definition set_block_number (n : BlockNumber) (s : St) : St :=
  mkState (Pools s) (ProtocolFee s) (ProtocolFeeReceiver s) (assets s) n (events s).
Definition insert_pool (k : CurrencyId * CurrencyId) (p : Pool) (s : St) : St :=
  mkState (<[k := p]> (Pools s)) (ProtocolFee s) (ProtocolFeeReceiver s) (assets s)
    (block_number s) (events s).
Definition set_fee (f : Ratio) (s : St) : St :=
  mkState (Pools s) f (ProtocolFeeReceiver s) (assets s) (block_number s) (events s).
Definition set_receiver (r : option AccountId) (s : St) : St :=
  mkState (Pools s) (ProtocolFee s) r (assets s) (block_number s) (events s).
Definition push_event (e : Event) (s : St) : St :=
  mkState (Pools s) (ProtocolFee s) (ProtocolFeeReceiver s) (assets s) (block_number s)
    (events s ++ [e]).

Definition deposit_event (e : Event) : Run unit := modify (push_event e).
(** a call of [T::Assets] that changes the ledger *)
Definition on_assets (f : L -> Res L) : Run unit := fun s =>
  match f (assets s) with
  | Ok l => Ok (tt, set_assets l s) | Err e => Err e | Panic => Panic
  end.

Definition protolcol_fee_receiver (s : St) : Res AccountId :=
  ok_or (ProtocolFeeReceiver s) (Amm ProtocolFeeReceiverNotSet).

Definition quote (base_amount base_pool quote_pool : Balance) : Res Balance :=
  ok_or (r ← big_checked_mul (get_big_uint base_amount) (get_big_uint quote_pool);
         r ← big_checked_div r (get_big_uint base_pool);
         big_to_u128 r) (Arithmetic Overflow).

Definition sort_assets (pair : CurrencyId * CurrencyId) : Res (bool * CurrencyId * CurrencyId) :=
  let '(curr_a, curr_b) := pair in
  if curr_a >? curr_b then Ok (false, curr_a, curr_b)
  else if curr_a <? curr_b then Ok (true, curr_b, curr_a)
  else Err (Amm IdenticalAssets).

Definition get_ideal_amounts (pool : Pool) (amounts : Balance * Balance)
    : Res (Balance * Balance) :=
  let '(b_amount, q_amount) := amounts in
  if is_empty pool then Ok (b_amount, q_amount) else
  ideal_quote_amount ← quote b_amount (base_amount pool) (quote_amount pool);
  if ideal_quote_amount <=? q_amount then Ok (b_amount, ideal_quote_amount) else
  ideal_base_amount ← quote q_amount (quote_amount pool) (base_amount pool);
  Ok (ideal_base_amount, q_amount).

Definition protocol_fee_on (s : St) : bool :=
  negb (ProtocolFee s =? 0) && is_ok (protolcol_fee_receiver s).

Definition get_protocol_fee_reciprocal_proportion (s : St) : Res Balance :=
  Ok (permill_saturating_reciprocal_mul_floor (ProtocolFee s) 1).

Definition get_reserves (s : St) (asset_in asset_out : CurrencyId) : Res (Balance * Balance) :=
  '(is_inverted, base_asset, quote_asset) ← sort_assets (asset_in, asset_out);
  pool ← ok_or (Pools s !! (base_asset, quote_asset)) (Amm PoolDoesNotExist);
  if is_inverted : bool then Ok (quote_amount pool, base_amount pool)
  else Ok (base_amount pool, quote_amount pool).

Definition get_amount_out (amount_in reserve_in reserve_out : Balance) : Res Balance :=
  let fees := permill_mul_ceil (LpFee T) amount_in in
  amount_in ← ok_or (checked_sub amount_in fees) (Arithmetic Underflow);
  let amount_in := get_big_uint amount_in in
  let reserve_in := get_big_uint reserve_in in
  let reserve_out := get_big_uint reserve_out in
  numerator ← ok_or (big_checked_mul amount_in reserve_out) (Arithmetic Overflow);
  denominator ← ok_or (big_checked_add reserve_in amount_in) (Arithmetic Overflow);
  amount_out ← ok_or (big_checked_div numerator denominator) (Arithmetic Underflow);
  ok_or (big_to_u128 amount_out) (Arithmetic Overflow).

Definition get_amount_in (amount_out reserve_in reserve_out : Balance) : Res Balance :=
  _ ← ensure (amount_out <? reserve_out) (Amm InsufficientSupplyOut);
  let amount_out := get_big_uint amount_out in
  let reserve_in := get_big_uint reserve_in in
  let reserve_out := get_big_uint reserve_out in
  numerator ← ok_or (big_checked_mul reserve_in amount_out) (Arithmetic Overflow);
  denominator ← ok_or (big_checked_sub reserve_out amount_out) (Arithmetic Underflow);
  amount_in ← ok_or (big_checked_div numerator denominator) (Arithmetic Underflow);
  amount_in ← ok_or (big_to_u128 amount_in) (Arithmetic Overflow);
  fee_percent ← ok_or (permill_checked_sub PERMILL_ONE (LpFee T)) (Arithmetic Underflow);
  ok_or (checked_add (permill_saturating_reciprocal_mul_ceil fee_percent amount_in) 1)
    (Arithmetic Overflow).

(** The two path quotes fill a vector by index; [vec[i]] panics out of range. *)
Definition vec_get (v : list Z) (i : nat) : Res Z := or_panic (v !! i).
Definition vec_set (v : list Z) (i : nat) (x : Z) : Res (list Z) :=
  if decide (i < length v)%nat then Ok (<[i := x]> v) else Panic.

Definition get_amounts_out (s : St) (amount_in : Balance) (path : list CurrencyId)
    : Res (list Balance) :=
  let amounts_out := replicate (length path) 0 in
  amounts_out ← vec_set amounts_out 0 amount_in;
  fold_res (fun amounts_out i =>
    path_i ← vec_get path i;
    path_i1 ← vec_get path (i + 1);
    '(reserve_in, reserve_out) ← get_reserves s path_i path_i1;
    amount ← vec_get amounts_out i;
    amount_out ← get_amount_out amount reserve_in reserve_out;
    vec_set amounts_out (i + 1) amount_out)
    (seq 0 (length path - 1)) amounts_out.

Definition get_amounts_in (s : St) (amount_out : Balance) (path : list CurrencyId)
    : Res (list Balance) :=
  let amounts_in := replicate (length path) 0 in
  let amount_len := length amounts_in in
  amounts_in ← (if decide (amount_len = 0)%nat then Panic
                else vec_set amounts_in (amount_len - 1) amount_out);
  fold_res (fun amounts_in i =>
    path_i0 ← vec_get path (i - 1);
    path_i ← vec_get path i;
    '(reserve_in, reserve_out) ← get_reserves s path_i0 path_i;
    amount ← vec_get amounts_in i;
    amount_in ← get_amount_in amount reserve_in reserve_out;
    vec_set amounts_in (i - 1) amount_in)
    (reverse (seq 1 (length path - 1))) amounts_in.

Definition do_update_oracle (now : BlockNumber) (pool : Pool) : Res Pool :=
  if block_timestamp_last pool =? now then Ok pool else
  let time_elapsed := saturating_sub now (block_timestamp_last pool) in
  n0 ← ok_or (big_checked_mul (get_big_uint time_elapsed) (get_big_uint (quote_amount pool)))
    (Amm ConversionToU128Failed);
  n0 ← ok_or (big_to_u128 n0) (Arithmetic Overflow);
  price0_fraction ← or_panic (fixed_saturating_from_rational n0 (base_amount pool));
  n1 ← ok_or (big_checked_mul (get_big_uint time_elapsed) (get_big_uint (base_amount pool)))
    (Amm ConversionToU128Failed);
  n1 ← ok_or (big_to_u128 n1) (Arithmetic Overflow);
  price1_fraction ← or_panic (fixed_saturating_from_rational n1 (quote_amount pool));
  p0 ← ok_or (fixed_checked_add (price_0_cumulative_last pool) price0_fraction)
    (Arithmetic Overflow);
  p1 ← ok_or (fixed_checked_add (price_1_cumulative_last pool) price1_fraction)
    (Arithmetic Overflow);
  Ok (set_oracle p0 p1 now pool).

(** [x * supply / reserve] of [do_add_liquidity] and [calculate_reserves_to_remove] *)
Definition share_of (x supply reserve : Balance) : Res Balance :=
  r ← ok_or (r ← big_checked_mul (get_big_uint x) (get_big_uint supply);
             big_checked_div r (get_big_uint reserve)) (Amm ConversionToU128Failed);
  ok_or (big_to_u128 r) (Arithmetic Underflow).

(** The liquidity minted when the pool is first initialised:
    [sqrt(base * quote) - MinimumLiquidity]. *)
Definition initial_liquidity (ideal_base_amount ideal_quote_amount : Balance) : Res Balance :=
  r ← ok_or (r ← big_checked_mul (get_big_uint ideal_base_amount)
                   (get_big_uint ideal_quote_amount);
             big_checked_sub (big_sqrt r) (get_big_uint (MinimumLiquidity T)))
    (Amm ConversionToU128Failed);
  ok_or (big_to_u128 r) (Arithmetic Underflow).

Definition do_add_liquidity (who : AccountId) (pool : Pool) (ideal : Balance * Balance)
    (pair : CurrencyId * CurrencyId) : Run Pool :=
  let '(ideal_base_amount, ideal_quote_amount) := ideal in
  let '(base_asset, quote_asset) := pair in
  s ← get;
  let total_supply := total_issuance (assets s) (lp_token_id pool) in
  liquidity ←
    (if total_supply =? 0 then
       _ ← on_assets (mint_into (lp_token_id pool) (LockAccountId T) (MinimumLiquidity T));
       lift (initial_liquidity ideal_base_amount ideal_quote_amount)
     else
       l0 ← lift (share_of ideal_base_amount total_supply (base_amount pool));
       l1 ← lift (share_of ideal_quote_amount total_supply (quote_amount pool));
       mret (Z.min l0 l1));
  new_base ← lift (ok_or (checked_add (base_amount pool) ideal_base_amount)
                     (Arithmetic Overflow));
  new_quote ← lift (ok_or (checked_add (quote_amount pool) ideal_quote_amount)
                      (Arithmetic Overflow));
  let pool := set_amounts new_base new_quote pool in
  _ ← on_assets (mint_into (lp_token_id pool) who liquidity);
  _ ← on_assets (transfer base_asset who (account_id T) ideal_base_amount
                   (base_asset =? GetNativeCurrencyId T));
  _ ← on_assets (transfer quote_asset who (account_id T) ideal_quote_amount
                   (quote_asset =? GetNativeCurrencyId T));
  fee_on ← gets protocol_fee_on;
  mret (if fee_on : bool then set_last (base_amount pool) (quote_amount pool) pool else pool).

Definition calculate_reserves_to_remove (s : St) (pool : Pool) (liquidity : Balance)
    : Res (Balance * Balance) :=
  let total_supply := total_issuance (assets s) (lp_token_id pool) in
  b_amount ← share_of liquidity (base_amount pool) total_supply;
  q_amount ← share_of liquidity (quote_amount pool) total_supply;
  Ok (b_amount, q_amount).

Definition do_remove_liquidity (who : AccountId) (pool : Pool) (liquidity : Balance)
    (pair : CurrencyId * CurrencyId) : Run (Balance * Balance * Pool) :=
  let '(base_asset, quote_asset) := pair in
  '(b_amount, q_amount) ← reads (fun s => calculate_reserves_to_remove s pool liquidity);
  new_base ← lift (ok_or (checked_sub (base_amount pool) b_amount)
                     (Amm InsufficientLiquidity));
  new_quote ← lift (ok_or (checked_sub (quote_amount pool) q_amount)
                      (Amm InsufficientLiquidity));
  let pool := set_amounts new_base new_quote pool in
  _ ← on_assets (burn_from (lp_token_id pool) who liquidity);
  _ ← on_assets (transfer base_asset (account_id T) who b_amount
                   (base_asset =? GetNativeCurrencyId T));
  _ ← on_assets (transfer quote_asset (account_id T) who q_amount
                   (quote_asset =? GetNativeCurrencyId T));
  fee_on ← gets protocol_fee_on;
  mret (b_amount, q_amount,
        if fee_on : bool then set_last (base_amount pool) (quote_amount pool) pool else pool).

Definition do_mint_protocol_fee (pool : Pool) : Run (Balance * Pool) :=
  k_last ← lift (ok_or (big_checked_mul (get_big_uint (base_amount_last pool))
                          (get_big_uint (quote_amount_last pool))) (Arithmetic Overflow));
  s ← get;
  if negb (protocol_fee_on s) then
    mret (0, if negb (k_last =? 0) then set_last 0 0 pool else pool)
  else
  root_k ← lift (ok_or (r ← big_checked_mul (get_big_uint (base_amount pool))
                              (get_big_uint (quote_amount pool)); Some (big_sqrt r))
                   (Arithmetic Overflow));
  let root_k_last := big_sqrt k_last in
  if root_k <=? root_k_last then mret (0, pool) else
  let total_supply := get_big_uint (total_issuance (assets s) (lp_token_id pool)) in
  numerator ← lift (ok_or (r ← big_checked_sub root_k root_k_last;
                           big_checked_mul r total_supply) (Amm ConversionToU128Failed));
  proportion ← lift (get_protocol_fee_reciprocal_proportion s);
  scalar ← lift (ok_or (checked_sub proportion 1) (Arithmetic Underflow));
  let scalar := get_big_uint scalar in
  denominator ← lift (ok_or (r ← big_checked_mul root_k scalar;
                             big_checked_add r root_k_last) (Amm ConversionToU128Failed));
  protocol_fees ← lift (ok_or (big_checked_div numerator denominator) (Arithmetic Underflow));
  protocol_fees ← lift (ok_or (big_to_u128 protocol_fees) (Arithmetic Overflow));
  receiver ← lift (protolcol_fee_receiver s);
  _ ← on_assets (mint_into (lp_token_id pool) receiver protocol_fees);
  mret (protocol_fees, pool).

Definition do_swap (who : AccountId) (pair : CurrencyId * CurrencyId) (amount_in : Balance)
    : Run Balance :=
  let '(asset_in, asset_out) := pair in
  '(is_inverted, base_asset, quote_asset) ← lift (sort_assets (asset_in, asset_out));
  s ← get;
  pool ← lift (ok_or (Pools s !! (base_asset, quote_asset)) (Amm PoolDoesNotExist));
  let '(supply_in, supply_out) :=
    if is_inverted : bool then (quote_amount pool, base_amount pool)
    else (base_amount pool, quote_amount pool) in
  _ ← lift (ensure (amount_in >=? permill_saturating_reciprocal_mul_ceil (LpFee T) 1)
              (Amm InsufficientAmountIn));
  _ ← lift (ensure (negb (supply_out =? 0)) (Amm InsufficientAmountOut));
  amount_out ← lift (get_amount_out amount_in supply_in supply_out);
  new_supply_in ← lift (ok_or (checked_add supply_in amount_in) (Arithmetic Overflow));
  new_supply_out ← lift (ok_or (checked_sub supply_out amount_out) (Arithmetic Underflow));
  let pool := if is_inverted then set_amounts new_supply_out new_supply_in pool
              else set_amounts new_supply_in new_supply_out pool in
  pool ← lift (do_update_oracle (block_number s) pool);
  _ ← on_assets (transfer asset_in who (account_id T) amount_in
                   (asset_in =? GetNativeCurrencyId T));
  _ ← on_assets (transfer asset_out (account_id T) who amount_out
                   (asset_out =? GetNativeCurrencyId T));
  _ ← deposit_event (Traded who asset_in asset_out amount_in amount_out (lp_token_id pool)
                       (quote_amount pool) (base_amount pool));
  _ ← modify (insert_pool (base_asset, quote_asset) pool);
  mret amount_out.

(** ** Extrinsics *)

Definition add_liquidity (origin : RuntimeOrigin) (pair : CurrencyId * CurrencyId)
    (desired_amounts minimum_amounts : Balance * Balance) : Run unit :=
  who ← lift (ensure_signed origin);
  '(is_inverted, base_asset, quote_asset) ← lift (sort_assets pair);
  let '(b_amount, q_amount) :=
    if is_inverted : bool then (desired_amounts.2, desired_amounts.1) else desired_amounts in
  let '(minimum_base_amount, minimum_quote_amount) :=
    if is_inverted then (minimum_amounts.2, minimum_amounts.1) else minimum_amounts in
  s ← get;
  pool ← lift (ok_or (Pools s !! (base_asset, quote_asset)) (Amm PoolDoesNotExist));
  '(ideal_base_amount, ideal_quote_amount) ← lift (get_ideal_amounts pool (b_amount, q_amount));
  _ ← lift (ensure ((ideal_base_amount <=? b_amount) && (ideal_quote_amount <=? q_amount))
              (Amm InsufficientAmountIn));
  _ ← lift (ensure ((ideal_base_amount >=? minimum_base_amount) &&
                    (ideal_quote_amount >=? minimum_quote_amount)) (Amm NotAnIdealPrice));
  '(_, pool) ← do_mint_protocol_fee pool;
  pool ← do_add_liquidity who pool (ideal_base_amount, ideal_quote_amount)
           (base_asset, quote_asset);
  _ ← deposit_event (LiquidityAdded who base_asset quote_asset ideal_base_amount
        ideal_quote_amount (lp_token_id pool) (base_amount pool) (quote_amount pool));
  modify (insert_pool (base_asset, quote_asset) pool).

Definition remove_liquidity (origin : RuntimeOrigin) (pair : CurrencyId * CurrencyId)
    (liquidity : Balance) : Run unit :=
  who ← lift (ensure_signed origin);
  '(_, base_asset, quote_asset) ← lift (sort_assets pair);
  s ← get;
  pool ← lift (ok_or (Pools s !! (base_asset, quote_asset)) (Amm PoolDoesNotExist));
  '(_, pool) ← do_mint_protocol_fee pool;
  '(base_amount_removed, quote_amount_removed, pool) ←
    do_remove_liquidity who pool liquidity (base_asset, quote_asset);
  _ ← deposit_event (LiquidityRemoved who base_asset quote_asset liquidity
        base_amount_removed quote_amount_removed (lp_token_id pool) (base_amount pool)
        (quote_amount pool));
  modify (insert_pool (base_asset, quote_asset) pool).

Definition create_pool (origin : RuntimeOrigin) (pair : CurrencyId * CurrencyId)
    (liquidity_amounts : Balance * Balance) (lptoken_receiver : AccountId)
    (lp_token : CurrencyId) : Run unit :=
  _ ← lift (ensure_origin (CreatePoolOrigin T) origin);
  '(is_inverted, base_asset, quote_asset) ← lift (sort_assets pair);
  s ← get;
  _ ← lift (ensure (bool_decide (Pools s !! (base_asset, quote_asset) = None))
              (Amm PoolAlreadyExists));
  let '(b_amount, q_amount) :=
    if is_inverted : bool then (liquidity_amounts.2, liquidity_amounts.1)
    else liquidity_amounts in
  _ ← lift (ensure (total_issuance (assets s) lp_token =? 0) (Amm LpTokenAlreadyExists));
  let pool := Pool_new lp_token in
  _ ← deposit_event (PoolCreated lptoken_receiver base_asset quote_asset lp_token);
  pool ← do_add_liquidity lptoken_receiver pool (b_amount, q_amount) (base_asset, quote_asset);
  _ ← modify (insert_pool (base_asset, quote_asset) pool);
  deposit_event (LiquidityAdded lptoken_receiver base_asset quote_asset b_amount q_amount
    (lp_token_id pool) (base_amount pool) (quote_amount pool)).

Definition update_protocol_fee (origin : RuntimeOrigin) (protocol_fee : Ratio) : Run unit :=
  _ ← lift (ensure_origin (ProtocolFeeUpdateOrigin T) origin);
  _ ← modify (set_fee protocol_fee);
  deposit_event (ProtocolFeeUpdated protocol_fee).

Definition update_protocol_fee_receiver (origin : RuntimeOrigin) (receiver : AccountId)
    : Run unit :=
  _ ← lift (ensure_origin (ProtocolFeeUpdateOrigin T) origin);
  _ ← modify (set_receiver (Some receiver));
  deposit_event (ProtocolFeeReceiverUpdated receiver).

(** ** The [pallet_traits::AMM] interface the router uses *)

Definition swap (who : AccountId) (pair : CurrencyId * CurrencyId) (amount_in : Balance)
    : Run unit :=
  _ ← do_swap who pair amount_in; mret tt.

Definition get_pools (iter : gmap (CurrencyId * CurrencyId) Pool ->
    list (CurrencyId * CurrencyId * Pool)) (s : St) : Res (list (CurrencyId * CurrencyId)) :=
  Ok (map fst (iter (Pools s))).

Definition get_pool_by_lp_asset (iter : gmap (CurrencyId * CurrencyId) Pool ->
    list (CurrencyId * CurrencyId * Pool)) (s : St) (asset_id : CurrencyId)
    : option (CurrencyId * CurrencyId * Pool) :=
  find (fun '(_, pool) => lp_token_id pool =? asset_id) (iter (Pools s)).

Definition get_pool_by_asset_pair (s : St) (pair : CurrencyId * CurrencyId) : option Pool :=
  match sort_assets pair with
  | Ok (_, base_asset, quote_asset) => Pools s !! (base_asset, quote_asset)
  | _ => None
  end.

(** A transaction of the pallet, and the states it can lead to. *)
Inductive Call :=
| CallAddLiquidity (pair : CurrencyId * CurrencyId) (desired minimum : Balance * Balance)
| CallRemoveLiquidity (pair : CurrencyId * CurrencyId) (liquidity : Balance)
| CallCreatePool (pair : CurrencyId * CurrencyId) (amounts : Balance * Balance)
    (receiver : AccountId) (lp : CurrencyId)
| CallUpdateProtocolFee (fee : Ratio)
| CallUpdateProtocolFeeReceiver (receiver : AccountId)
| CallSwap (pair : CurrencyId * CurrencyId) (amount_in : Balance).

(** The pallet's dispatch: [Swap] is reached through the router with a signed origin. *)
Definition dispatch (origin : RuntimeOrigin) (c : Call) : Run unit :=
  match c with
  | CallAddLiquidity pr desired minimum => add_liquidity origin pr desired minimum
  | CallRemoveLiquidity pr liquidity => remove_liquidity origin pr liquidity
  | CallCreatePool pr amounts receiver lp => create_pool origin pr amounts receiver lp
  | CallUpdateProtocolFee fee => update_protocol_fee origin fee
  | CallUpdateProtocolFeeReceiver receiver => update_protocol_fee_receiver origin receiver
  | CallSwap pr amount_in => who ← lift (ensure_signed origin); swap who pr amount_in
  end.

End pallet.

#[global] Arguments sort_assets : simpl never.
#[global] Arguments get_ideal_amounts : simpl never.
#[global] Arguments do_add_liquidity : simpl never.
#[global] Arguments do_remove_liquidity : simpl never.
#[global] Arguments do_mint_protocol_fee : simpl never.
#[global] Arguments do_swap : simpl never.
End Amm.
