(* ===== verification/AmmProps.v ===== *)
(** * Properties of the automatic market maker

    The constant-product law of the quotes, what a swap does, the price a quote for an exact
    output guarantees, the path quotes against a recursive reference, liquidity shares, and
    the solvency of the pallet's account under every call. *)

From S2P Require Import Prelude Arith Frame Ledger Amm.
Import Amm.

(** ** Specification vocabulary *)

(** What an input of [amount] is worth after the liquidity providers' fee. *)
Definition after_fee (T : Config) (amount : Balance) : Balance :=
  amount - div_ceil (LpFee T * amount) PERMILL_ONE.

(** A path quote as a recursion along the path: every hop quotes the amount of the previous
    one at the reserves of its pool. *)
Fixpoint path_quote {SA : SpArithmetic} {NB : NumBigint} {L : Type} (T : Config) (s : State L)
    (amount : Balance) (path : list CurrencyId) : Res (list Balance) :=
  match path with
  | a :: (b :: _) as rest =>
      '(reserve_in, reserve_out) ← get_reserves s a b;
      out ← get_amount_out T amount reserve_in reserve_out;
      amounts ← path_quote T s out rest;
      Ok (amount :: amounts)
  | [_] => Ok [amount]
  | [] => Panic
  end.

(** The reserves of a pool as a trade in the given direction sees them. *)
Definition sides (inverted : bool) (p : Pool) : Balance * Balance :=
  if inverted then (quote_amount p, base_amount p) else (base_amount p, quote_amount p).
Definition set_sides (inverted : bool) (sin sout : Balance) (p : Pool) : Pool :=
  if inverted then set_amounts sout sin p else set_amounts sin sout p.

(** The part of a pool's reserves that is held in asset [a], and their sum over the pools. *)
Definition reserve_of (a : CurrencyId) (k : CurrencyId * CurrencyId) (p : Pool) : Z :=
  if decide (a = k.1) then base_amount p else if decide (a = k.2) then quote_amount p else 0.
Definition total_reserves (a : CurrencyId) (m : gmap (CurrencyId * CurrencyId) Pool) : Z :=
  map_sum (reserve_of a) m.

(** Pools are stored under their sorted pair and hold [u128] reserves. *)
Definition wf_pool (k : CurrencyId * CurrencyId) (p : Pool) : Prop :=
  k.2 < k.1 /\ is_u128 (base_amount p) /\ is_u128 (quote_amount p) /\
  is_u128 (base_amount_last p) /\ is_u128 (quote_amount_last p).
Definition wf_pools (m : gmap (CurrencyId * CurrencyId) Pool) : Prop :=
  map_Forall wf_pool m.

(** The reserves remembered for the protocol fee are the old ones or the current ones. *)
Definition last_kept_or_set (p p' : Pool) : Prop :=
  (base_amount_last p' = base_amount_last p /\ quote_amount_last p' = quote_amount_last p) \/
  (base_amount_last p' = base_amount p' /\ quote_amount_last p' = quote_amount p').

(** The pallet's account holds at least the reserves the pools record. *)
Definition solvent {L : Type} {FU : Fungibles L} (T : Config) (s : State L) : Prop :=
  forall a, total_reserves a (Pools s) <= balance (assets s) a (account_id T).

Definition amm_inv {L : Type} {FU : Fungibles L} (T : Config) (s : State L) : Prop :=
  wf_pools (Pools s) /\ solvent T s.

(** The arguments of a call are [u128]s and none of its accounts is the pallet's own: the pallet's
    account does not sign, and governance does not name it as the one that funds a new pool, which
    the code does not check (see [self_funded_pool]). *)
Definition call_ok (T : Config) (origin : RuntimeOrigin) (c : Call) : Prop :=
  origin <> Signed (account_id T) /\
  match c with
  | CallAddLiquidity _ desired _ => is_u128 desired.1 /\ is_u128 desired.2
  | CallRemoveLiquidity _ liquidity => is_u128 liquidity
  | CallCreatePool _ amounts receiver _ =>
      is_u128 amounts.1 /\ is_u128 amounts.2 /\ receiver <> account_id T
  | CallSwap _ amount_in => is_u128 amount_in
  | _ => True
  end.

(** The states of the pallet from [s0] on: successful calls, and in between whatever the rest of
    the chain does, as long as nobody else takes money out of the pallet's account. *)
Inductive reachable {SA : SpArithmetic} {NB : NumBigint} {L : Type} {FU : Fungibles L}
    (T : Config) (s0 : State L) : State L -> Prop :=
| reach_refl : reachable T s0 s0
| reach_step s origin c s' :
    reachable T s0 s -> call_ok T origin c ->
    dispatch T origin c s = Ok (tt, s') -> reachable T s0 s'
| reach_env s l n :
    reachable T s0 s -> block_number s <= n ->
    (forall a, balance (assets s) a (account_id T) <= balance l a (account_id T)) ->
    reachable T s0 (set_block_number n (set_assets l s)).

(** A concrete pallet: 0.3 percent fee, native asset 0; account 1 owns assets 10 and 20. *)
Definition demo_config : Config :=
  mkConfig 1000 1001 (fun _ => true) (fun _ => true) 3000 1000 0.
Definition demo_ledger : ledger :=
  Ledger {[ (10, 1) := 10 ^ 12; (20, 1) := 10 ^ 12 ]} {[ 10 := 10 ^ 12; 20 := 10 ^ 12 ]}.
Definition demo_empty : State ledger := mkState ∅ 0 None demo_ledger 7 [].
Definition demo_run (origin : RuntimeOrigin) (c : Call) (s : State ledger) : State ledger :=
  match dispatch (SA := sp_reference) (NB := big_reference) (FU := ledger_ops) demo_config
          origin c s with
  | Ok (_, s') => s' | _ => s
  end.
Definition demo_create : Call := CallCreatePool (10, 20) (10 ^ 6, 4 * 10 ^ 6) 1 500.
Definition demo_swap : Call := CallSwap (10, 20) 50000.
Definition demo_pooled : State ledger := demo_run Root demo_create demo_empty.
Definition demo_swapped : State ledger := demo_run (Signed 1) demo_swap demo_pooled.
Definition demo_pool : Pool := default (Pool_new 0) (Pools demo_pooled !! (20, 10)).
(** the same with a protocol fee of one sixth *)
Definition demo_fee_state : State ledger :=
  mkState (Pools demo_swapped) 166666 (Some 77) (assets demo_swapped) 8 [].
Definition demo_fee_pool : Pool :=
  set_last (10 ^ 6) (10 ^ 6) (default (Pool_new 0) (Pools demo_swapped !! (20, 10))).

Section quotes.
Context {SA : SpArithmetic} {NB : NumBigint} {SL : SpArithmeticLaws SA} {NL : NumBigintLaws NB}.
Context (T : Config) (Hfee : is_permill (LpFee T)).

Lemma after_fee_range x : is_u128 x -> 0 <= after_fee T x <= x.
Proof.
  intros [Hx Hx']. unfold after_fee. split; [| unfold is_permill in Hfee].
  - pose proof (permill_share_le _ _ Hfee Hx). lia.
  - assert (0 <= div_ceil (LpFee T * x) PERMILL_ONE); [| lia].
    apply div_ceil_nonneg; [nia | done].
Qed.

Lemma after_fee_mono x y : 0 <= x <= y -> after_fee T x <= after_fee T y.
Proof.
  intros Hxy. unfold after_fee, is_permill, PERMILL_ONE in *.
  pose proof (div_ceil_bounds (LpFee T * x) (10 ^ 6) ltac:(lia)).
  pose proof (div_ceil_bounds (LpFee T * y) (10 ^ 6) ltac:(lia)). nia.
Qed.

(** The quote in closed form: it fails only on an empty input side. *)
Lemma get_amount_out_eq amount rin rout :
  is_u128 amount -> is_u128 rin -> is_u128 rout ->
  get_amount_out T amount rin rout =
    let e := after_fee T amount in
    if rin + e =? 0 then Err (Arithmetic Underflow) else Ok (e * rout / (rin + e)).
Proof.
  intros Ha Hi Ho. pose proof (after_fee_range amount Ha) as He.
  unfold get_amount_out, get_big_uint. rewrite permill_mul_ceil_eq by done.
  rewrite checked_sub_ok by (unfold after_fee in He; lia). fold (after_fee T amount).
  unfold is_u128 in *. simpl.
  rewrite big_checked_mul_eq by lia. simpl.
  rewrite big_checked_add_eq by lia. simpl.
  rewrite big_checked_div_eq by nia.
  destruct (Z.eqb_spec (rin + after_fee T amount) 0) as [Hz|Hz].
  { rewrite Hz. by rewrite checked_div_zero. }
  rewrite checked_div_ok by done. simpl.
  assert (0 < rin + after_fee T amount) by lia.
  pose proof (div_floor_bounds (after_fee T amount * rout) (rin + after_fee T amount) ltac:(done)).
  assert (0 <= after_fee T amount * rout / (rin + after_fee T amount)) by (apply Z.div_pos; nia).
  assert (after_fee T amount * rout / (rin + after_fee T amount) <= rout) by nia.
  rewrite big_to_u128_eq by done.
  by rewrite fit_u128_ok by lia.
Qed.

Lemma get_amount_out_Ok amount rin rout out :
  is_u128 amount -> is_u128 rin -> is_u128 rout ->
  get_amount_out T amount rin rout = Ok out ->
  0 < rin + after_fee T amount /\ out = after_fee T amount * rout / (rin + after_fee T amount).
Proof.
  intros Ha Hi Ho. rewrite get_amount_out_eq by done.
  pose proof (after_fee_range amount Ha). unfold is_u128 in *. cbv zeta.
  destruct (Z.eqb_spec (rin + after_fee T amount) 0); intros H'; minv. split; [lia | done].
Qed.

Lemma get_amount_out_bounds amount rin rout out :
  is_u128 amount -> is_u128 rin -> is_u128 rout ->
  get_amount_out T amount rin rout = Ok out ->
  0 <= out <= rout /\ out * (rin + after_fee T amount) <= after_fee T amount * rout.
Proof.
  intros Ha Hi Ho H. apply get_amount_out_Ok in H as [Hp ->]; [|done..].
  pose proof (after_fee_range amount Ha). unfold is_u128 in *.
  pose proof (div_floor_bounds (after_fee T amount * rout) (rin + after_fee T amount) Hp).
  assert (0 <= after_fee T amount * rout / (rin + after_fee T amount)) by (apply Z.div_pos; nia).
  nia.
Qed.

Lemma constant_product_step amount rin rout out :
  is_u128 amount -> is_u128 rin -> is_u128 rout ->
  get_amount_out T amount rin rout = Ok out ->
  0 <= out <= rout /\ rin * rout <= (rin + amount) * (rout - out).
Proof.
  intros Ha Hi Ho H. pose proof (after_fee_range amount Ha).
  destruct (get_amount_out_bounds amount rin rout out Ha Hi Ho H) as [Hr Hk].
  unfold is_u128 in *. split; [done | nia].
Qed.

(** A quote never lets the product of the reserves fall: after the input is added and the
    output removed, their product is at least what it was, and the output never exceeds the
    reserve it is paid from (and is below it when both reserves are positive). *)
Theorem get_amount_out_constant_product amount rin rout out :
  is_u128 amount -> is_u128 rin -> is_u128 rout ->
  get_amount_out T amount rin rout = Ok out ->
  0 <= out <= rout /\ (0 < rin -> 0 < rout -> out < rout) /\
  rin * rout <= (rin + amount) * (rout - out).
Proof.
  intros Ha Hi Ho H. destruct (constant_product_step _ _ _ _ Ha Hi Ho H) as [Hr Hk].
  pose proof (after_fee_range amount Ha).
  destruct (get_amount_out_bounds _ _ _ _ Ha Hi Ho H) as [_ Hb].
  unfold is_u128 in *. split; [done |]. split; [nia | done].
Qed.

Lemma get_amount_in_Ok out rin rout amount :
  is_u128 out -> is_u128 rin -> is_u128 rout -> LpFee T < PERMILL_ONE ->
  get_amount_in T out rin rout = Ok amount ->
  out < rout /\
  let need := rin * out / (rout - out) in
  is_u128 need /\
  amount = div_ceil (need * PERMILL_ONE) (PERMILL_ONE - LpFee T) + 1 /\ amount <= u128_max.
Proof.
  intros Ha Hi Ho Hf H. unfold get_amount_in, get_big_uint in H. minv. zbool.
  unfold is_u128, is_permill in *.
  rewrite big_checked_mul_eq in * by lia. rewrite big_checked_sub_eq in * by lia. minv.
  rewrite big_checked_div_eq in * by nia. minv.
  rewrite big_to_u128_eq in * by (apply Z.div_pos; nia).
  match goal with H : fit_u128 _ = Some _ |- _ => apply fit_u128_Some in H as [-> ?] end.
  match goal with H : permill_checked_sub _ _ = Some _ |- _ =>
    rewrite permill_checked_sub_eq in H by (unfold is_permill, PERMILL_ONE in *; lia) end.
  minv.
  assert (0 <= rin * out / (rout - out)) by (apply Z.div_pos; nia).
  rewrite permill_saturating_reciprocal_mul_ceil_eq in *
    by (unfold is_permill, is_u128 in *; lia).
  unfold clamp_u128 in *. split; [done |]. split; [done |].
  cbv zeta. set (c := div_ceil _ _) in *. lia.
Qed.

Lemma after_fee_reaches x need :
  0 <= need -> 0 <= x ->
  need * PERMILL_ONE <= x * (PERMILL_ONE - LpFee T) -> need <= after_fee T x.
Proof.
  intros Hn Hx Hk. unfold after_fee, is_permill, PERMILL_ONE in *.
  pose proof (div_ceil_bounds (LpFee T * x) (10 ^ 6) ltac:(lia)). nia.
Qed.

(** An input whose value after the fee is at least [rin * out / (rout - out)] buys [out]. *)
Lemma get_amount_out_enough amount rin rout out :
  is_u128 amount -> is_u128 rin -> is_u128 rout -> 0 <= out < rout ->
  0 < rin + after_fee T amount -> rin * out <= after_fee T amount * (rout - out) ->
  exists out', get_amount_out T amount rin rout = Ok out' /\ out <= out'.
Proof.
  intros Ha Hi Ho Hout Hp Hk. rewrite get_amount_out_eq by done. cbv zeta.
  destruct (Z.eqb_spec (rin + after_fee T amount) 0) as [?|_]; [lia |].
  eexists. split; [done |]. apply Z.div_le_lower_bound; nia.
Qed.

(** The input quoted for an exact output buys at least that output when the division in
    the quote is exact, and one more unit of input always does (for a fee of at most half). *)
Theorem get_amount_in_sufficient out rin rout amount :
  is_u128 out -> is_u128 rin -> is_u128 rout -> 0 < rin -> 2 * LpFee T <= PERMILL_ONE ->
  get_amount_in T out rin rout = Ok amount ->
  ((rin * out) mod (rout - out) = 0 ->
     exists out', get_amount_out T amount rin rout = Ok out' /\ out <= out') /\
  (amount < u128_max ->
     exists out', get_amount_out T (amount + 1) rin rout = Ok out' /\ out <= out').
Proof.
  intros Ha Hi Ho Hpos Hf H.
  assert (LpFee T < PERMILL_ONE) as Hf' by (unfold PERMILL_ONE in *; lia).
  destruct (get_amount_in_Ok out rin rout amount Ha Hi Ho Hf' H) as (Hlt & Hneed & Ham & Hmax).
  cbv zeta in *. set (need := rin * out / (rout - out)) in *.
  pose proof (div_ceil_bounds (need * PERMILL_ONE) (PERMILL_ONE - LpFee T) ltac:(lia)) as Hc.
  set (c := div_ceil _ _) in *. unfold is_u128 in *.
  assert (0 <= c) by (unfold PERMILL_ONE in *; nia).
  pose proof (Z.div_mod (rin * out) (rout - out) ltac:(lia)) as Hdm. fold need in Hdm.
  pose proof (Z.mod_pos_bound (rin * out) (rout - out) ltac:(lia)) as Hmb.
  split.
  - intros Hz. assert (need <= after_fee T amount).
    { apply after_fee_reaches; [lia | lia |]. subst amount. unfold PERMILL_ONE in *. nia. }
    apply get_amount_out_enough; unfold is_u128; try lia. nia.
  - intros Hlt'. assert (need + 1 <= after_fee T (amount + 1)).
    { apply after_fee_reaches; [lia | lia |]. subst amount. unfold PERMILL_ONE in *. nia. }
    apply get_amount_out_enough; unfold is_u128; try lia. nia.
Qed.

(** The quote itself does not always suffice, although the source's note says it is
    rounded up to make sure of it: with a fee of 0.3 percent and reserves 1995 and 3, the input
    quoted for one unit is 1001, and 1001 buys nothing. *)
Theorem get_amount_in_short :
  LpFee T = 3000 ->
  get_amount_in T 1 1995 3 = Ok 1001 /\ get_amount_out T 1001 1995 3 = Ok 0.
Proof.
  intros HL. split.
  - unfold get_amount_in, get_big_uint. simpl.
    rewrite big_checked_mul_eq by lia. simpl.
    rewrite big_checked_sub_eq by lia. rewrite checked_sub_ok by lia. simpl.
    rewrite big_checked_div_eq by lia. rewrite checked_div_ok by lia. simpl.
    rewrite big_to_u128_eq by (apply Z.div_pos; lia). simpl.
    rewrite permill_checked_sub_eq, HL by (unfold is_permill, PERMILL_ONE in *; lia).
    rewrite checked_sub_ok by done. simpl.
    rewrite permill_saturating_reciprocal_mul_ceil_eq by (unfold is_permill, is_u128; vm_compute; split; congruence).
    reflexivity.
  - rewrite get_amount_out_eq by (split; vm_compute; congruence).
    unfold after_fee. rewrite HL. reflexivity.
Qed.
End quotes.

Section paths.
Context {SA : SpArithmetic} {NB : NumBigint} {L : Type}.
Context (T : Config) (s : State L).

(** One turn of the loop of [get_amounts_out]. *)
Let out_step (path : list CurrencyId) (amounts_out : list Balance) (i : nat)
    : Res (list Balance) :=
  path_i ← vec_get path i;
  path_i1 ← vec_get path (i + 1);
  '(reserve_in, reserve_out) ← get_reserves s path_i path_i1;
  amount ← vec_get amounts_out i;
  amount_out ← get_amount_out T amount reserve_in reserve_out;
  vec_set amounts_out (i + 1) amount_out.

Lemma vec_get_middle (pre : list Z) x post i :
  i = length pre -> vec_get (pre ++ x :: post) i = Ok x.
Proof. intros ->. unfold vec_get. by rewrite list_lookup_middle. Qed.

Lemma vec_set_middle (pre : list Z) x y post i :
  i = length pre -> vec_set (pre ++ x :: post) i y = Ok (pre ++ y :: post).
Proof.
  intros ->. unfold vec_set. rewrite decide_True by (rewrite length_app; simpl; lia).
  by rewrite insert_app_r_alt, Nat.sub_diag by lia.
Qed.

Lemma out_step_middle ppre a b rest pre amount z i :
  i = length pre -> length ppre = length pre ->
  out_step (ppre ++ a :: b :: rest) (pre ++ amount :: 0 :: z) i =
  ('(reserve_in, reserve_out) ← get_reserves s a b;
   out ← get_amount_out T amount reserve_in reserve_out;
   Ok (pre ++ amount :: out :: z)).
Proof.
  intros -> Hlen. unfold out_step. rewrite (vec_get_middle ppre a _ (length pre)) by done. simpl.
  replace (ppre ++ a :: b :: rest) with ((ppre ++ [a]) ++ b :: rest) by by rewrite <- app_assoc.
  rewrite (vec_get_middle (ppre ++ [a]) b) by (rewrite length_app; simpl; lia). simpl.
  destruct (get_reserves s a b) as [[rin rout]| |]; [simpl | done | done].
  rewrite (vec_get_middle pre amount) by done. simpl.
  destruct (get_amount_out T amount rin rout) as [out| |]; [simpl | done | done].
  replace (pre ++ amount :: 0 :: z) with ((pre ++ [amount]) ++ 0 :: z) by by rewrite <- app_assoc.
  rewrite vec_set_middle by (rewrite length_app; simpl; lia). by rewrite <- app_assoc.
Qed.

(** The loop from index [length pre] on a vector whose first entries are filled is the
    recursion on the rest of the path. *)
Lemma out_loop suffix : forall ppre pre amount,
  suffix <> [] -> length ppre = length pre ->
  fold_res (out_step (ppre ++ suffix)) (seq (length pre) (length suffix - 1))
    (pre ++ amount :: replicate (length suffix - 1) 0) =
  (amounts ← path_quote T s amount suffix; Ok (pre ++ amounts)).
Proof.
  induction suffix as [|a [|b rest] IH]; intros ppre pre amount Hne Hlen; [done | done |].
  replace (length (a :: b :: rest) - 1)%nat with (S (length rest)) by (simpl; lia).
  replace (length (b :: rest) - 1)%nat with (length rest) in IH by (simpl; lia).
  cbn [fold_res seq replicate path_quote]. rewrite out_step_middle by done.
  destruct (get_reserves s a b) as [[rin rout]| |]; [simpl | done | done].
  destruct (get_amount_out T amount rin rout) as [out| |]; [simpl | done | done].
  specialize (IH (ppre ++ [a]) (pre ++ [amount]) out ltac:(done)).
  rewrite <- !app_assoc in IH. simpl in IH.
  replace (S (length pre)) with (length (pre ++ [amount])) by (rewrite length_app; simpl; lia).
  rewrite IH by (rewrite !length_app; simpl; lia).
  change (match rest with [] => Ok [out] | _ => _ end) with (path_quote T s out (b :: rest)).
  destruct (path_quote T s out (b :: rest)); simpl; by rewrite <- ?app_assoc.
Qed.

(** The loop that quotes a path by index computes the recursion along the path: it starts
    with the input, quotes every hop at the reserves of its pool with the amount of the hop
    before, stops with the first error, and panics exactly on the empty path. *)
Theorem get_amounts_out_path_quote amount_in path :
  get_amounts_out T s amount_in path = path_quote T s amount_in path.
Proof.
  destruct path as [|a rest]; [done |].
  unfold get_amounts_out. cbn [length replicate].
  replace (vec_set (0 :: replicate (length rest) 0) 0 amount_in)
    with (Ok (E := DispatchError) (amount_in :: replicate (length rest) 0)) by done.
  pose proof (out_loop (a :: rest) [] [] amount_in ltac:(done) eq_refl) as H.
  replace (length (a :: rest) - 1)%nat with (length rest) in H by (simpl; lia).
  replace (S (length rest) - 1)%nat with (length rest) by lia.
  cbn [app length] in H. change (Ok ?x ≫= ?f) with (f x). cbv beta.
  etransitivity; [exact H |]. by destruct (path_quote T s amount_in (a :: rest)).
Qed.

#[local] Arguments path_quote : simpl never.

(** A successful path quote has one amount per asset of the path, the first of them the input. *)
Lemma path_quote_shape amount path amounts :
  path_quote T s amount path = Ok amounts ->
  length amounts = length path /\ head amounts = Some amount.
Proof.
  revert amount amounts. induction path as [|a [|b rest] IH]; intros amount amounts H; [done | |].
  - cbv [path_quote] in H. minv. done.
  - change (path_quote T s amount (a :: b :: rest)) with
      ('(reserve_in, reserve_out) ← get_reserves s a b;
       out ← get_amount_out T amount reserve_in reserve_out;
       amounts ← path_quote T s out (b :: rest); Ok (E := DispatchError) (amount :: amounts)) in H.
    minv. match goal with H : path_quote _ _ _ _ = Ok _ |- _ => apply IH in H as [Hl _] end.
    simpl in *. split; [lia | done].
Qed.
End paths.

Section swaps.
Context {SA : SpArithmetic} {NB : NumBigint} {SL : SpArithmeticLaws SA} {NL : NumBigintLaws NB}.
Context {L : Type} {FU : Fungibles L} {FL : FungiblesLaws L}.
Context (T : Config).

Lemma amm_assets_Ok f (s : State L) u s' :
  on_assets f s = Ok (u, s') -> exists l, f (assets s) = Ok l /\ s' = set_assets l s.
Proof. unfold on_assets. destruct (f (assets s)); naive_solver. Qed.

Lemma sort_assets_Ok a b inv x y :
  sort_assets (a, b) = Ok (inv, x, y) ->
  y < x /\ ((inv = false /\ x = a /\ y = b) \/ (inv = true /\ x = b /\ y = a)).
Proof.
  unfold sort_assets. rewrite Z.gtb_ltb.
  destruct (Z.ltb_spec b a), (Z.ltb_spec a b); intros H'; minv; auto with lia.
Qed.

(** The order in which a pair is given does not matter: both orders find the same sorted
    key, with the direction flag flipped, and only a pair of identical assets is refused. *)
Theorem sort_assets_symmetric a b :
  (a = b -> sort_assets (a, b) = Err (Amm IdenticalAssets)) /\
  (a <> b -> exists inv x y, y < x /\
     sort_assets (a, b) = Ok (inv, x, y) /\ sort_assets (b, a) = Ok (negb inv, x, y)).
Proof.
  unfold sort_assets. rewrite !Z.gtb_ltb. split.
  - intros ->. by rewrite Z.ltb_irrefl.
  - intros Hne. destruct (Z.ltb_spec b a), (Z.ltb_spec a b); try lia;
      do 3 eexists; split; [| eauto | | eauto]; lia.
Qed.

Lemma do_update_oracle_amounts now p p' :
  do_update_oracle now p = Ok p' ->
  base_amount p' = base_amount p /\ quote_amount p' = quote_amount p /\
  lp_token_id p' = lp_token_id p /\
  base_amount_last p' = base_amount_last p /\ quote_amount_last p' = quote_amount_last p.
Proof. unfold do_update_oracle. destruct (_ =? _); intros H; minv; done. Qed.

Lemma do_swap_Ok who asset_in asset_out amount_in (s s' : State L) out :
  do_swap T who (asset_in, asset_out) amount_in s = Ok (out, s') ->
  exists inv x y p p' l1 l2,
    sort_assets (asset_in, asset_out) = Ok (inv, x, y) /\
    Pools s !! (x, y) = Some p /\
    (sides inv p).2 <> 0 /\
    get_amount_out T amount_in (sides inv p).1 (sides inv p).2 = Ok out /\
    (sides inv p).1 + amount_in <= u128_max /\ out <= (sides inv p).2 /\
    do_update_oracle (block_number s)
      (set_sides inv ((sides inv p).1 + amount_in) ((sides inv p).2 - out) p) = Ok p' /\
    transfer asset_in who (account_id T) amount_in
      (asset_in =? GetNativeCurrencyId T) (assets s) = Ok l1 /\
    transfer asset_out (account_id T) who out (asset_out =? GetNativeCurrencyId T) l1 = Ok l2 /\
    s' = insert_pool (x, y) p' (push_event
           (Traded who asset_in asset_out amount_in out (lp_token_id p')
              (quote_amount p') (base_amount p')) (set_assets l2 s)).
Proof.
  unfold do_swap. intros H. minv. rename z into y, z0 into x, b into inv.
  destruct inv; minv; zbool;
    repeat match goal with H : on_assets _ _ = Ok _ |- _ => apply amm_assets_Ok in H as (? & ? & ->) end;
    unfold deposit_event in *; minv;
    do 7 eexists; repeat (split; [eassumption |]); repeat split; try eassumption; try done.
Qed.

Lemma do_swap_facts who asset_in asset_out amount_in (s s' : State L) out :
  is_permill (LpFee T) -> is_u128 amount_in -> wf_pools (Pools s) ->
  do_swap T who (asset_in, asset_out) amount_in s = Ok (out, s') ->
  exists inv x y p p',
    sort_assets (asset_in, asset_out) = Ok (inv, x, y) /\
    Pools s !! (x, y) = Some p /\ Pools s' = <[(x, y) := p']> (Pools s) /\
    sides inv p' = ((sides inv p).1 + amount_in, (sides inv p).2 - out) /\
    base_amount p * quote_amount p <= base_amount p' * quote_amount p' /\ wf_pool (x, y) p'.
Proof.
  intros Hfee Ha Hwf H. apply do_swap_Ok in H as
    (inv & x & y & p & p' & l1 & l2 & Hsort & Hp & _ & Hout & Hin & Hle & Hor & _ & _ & ->).
  exists inv, x, y, p, p'. apply do_update_oracle_amounts in Hor as (Hb & Hq & _ & Hbl & Hql).
  assert (wf_pool (x, y) p) as (Hxy & Hpb & Hpq & Hpbl & Hpql)
    by (by eapply map_Forall_lookup_1).
  assert (is_u128 (sides inv p).1 /\ is_u128 (sides inv p).2) as [H1 H2] by (by destruct inv).
  destruct (constant_product_step T Hfee _ _ _ _ Ha H1 H2 Hout) as [Hr Hk].
  split; [done |]. split; [done |]. split; [done |].
  unfold is_u128 in *.
  split; [destruct inv; simpl in *; congruence |].
  split; [destruct inv; simpl in *; rewrite Hb, Hq; nia |].
  unfold wf_pool, is_u128. simpl in *.
  rewrite Hb, Hq, Hbl, Hql. destruct inv; simpl in *; lia.
Qed.

(** A swap changes one pool only, by exactly the amounts it reports (the input is added to
    one reserve, the output removed from the other, both as [u128]s); the product of that
    pool's reserves does not fall, and the pools stay well formed. *)
Theorem do_swap_pool who asset_in asset_out amount_in (s s' : State L) out :
  is_permill (LpFee T) -> is_u128 amount_in -> wf_pools (Pools s) ->
  do_swap T who (asset_in, asset_out) amount_in s = Ok (out, s') ->
  exists inv x y p p',
    sort_assets (asset_in, asset_out) = Ok (inv, x, y) /\
    Pools s !! (x, y) = Some p /\ Pools s' = <[(x, y) := p']> (Pools s) /\
    sides inv p' = ((sides inv p).1 + amount_in, (sides inv p).2 - out) /\
    base_amount p * quote_amount p <= base_amount p' * quote_amount p' /\
    wf_pools (Pools s').
Proof.
  intros Hfee Ha Hwf H.
  destruct (do_swap_facts _ _ _ _ _ _ _ Hfee Ha Hwf H)
    as (inv & x & y & p & p' & ? & ? & HP & ? & ? & Hwf').
  exists inv, x, y, p, p'. rewrite HP. repeat (split; [done |]). by apply map_Forall_insert_2.
Qed.

End swaps.

Section liquidity.
Context {SA : SpArithmetic} {NB : NumBigint} {SL : SpArithmeticLaws SA} {NL : NumBigintLaws NB}.
Context {L : Type} {FU : Fungibles L} {FL : FungiblesLaws L}.
Context (T : Config).

Lemma share_of_Ok x supply reserve r :
  is_u128 x -> is_u128 supply -> is_u128 reserve -> share_of x supply reserve = Ok r ->
  0 < reserve /\ r = x * supply / reserve /\ is_u128 r.
Proof.
  unfold is_u128, share_of, get_big_uint. intros Hx Hs Hr H. minv.
  rewrite big_checked_mul_eq in * by lia. minv.
  rewrite big_checked_div_eq in * by nia. minv.
  assert (0 <= x * supply / reserve) by (apply Z.div_pos; nia).
  rewrite big_to_u128_eq in * by done.
  match goal with H : fit_u128 _ = Some _ |- _ => apply fit_u128_Some in H as [-> ?] end.
  lia.
Qed.

(** A share rounded down is at most the exact one. *)
Lemma share_of_le x supply reserve r :
  is_u128 x -> is_u128 supply -> is_u128 reserve -> share_of x supply reserve = Ok r ->
  0 <= r /\ r * reserve <= x * supply.
Proof.
  intros Hx Hs Hr H. apply share_of_Ok in H as (Hp & -> & ?); [|done..].
  pose proof (div_floor_bounds (x * supply) reserve Hp). unfold is_u128 in *. lia.
Qed.

Lemma initial_liquidity_nonneg b q r :
  is_u128 b -> is_u128 q -> is_u128 (MinimumLiquidity T) ->
  initial_liquidity T b q = Ok r -> 0 <= r /\ r + MinimumLiquidity T = Z.sqrt (b * q).
Proof.
  unfold is_u128, initial_liquidity, get_big_uint. intros Hb Hq Hm H. minv.
  rewrite big_checked_mul_eq in * by lia. minv.
  rewrite big_sqrt_eq in * by nia.
  rewrite big_checked_sub_eq in * by (try apply Z.sqrt_nonneg; lia). minv.
  rewrite big_to_u128_eq in * by lia.
  match goal with H : fit_u128 _ = Some _ |- _ => apply fit_u128_Some in H as [-> ?] end.
  lia.
Qed.

Lemma do_add_liquidity_Ok who p b q base_asset quote_asset (s s' : State L) p' :
  do_add_liquidity T who p (b, q) (base_asset, quote_asset) s = Ok (p', s') ->
  exists liquidity l0 l1 l2 l3,
    (if total_issuance (assets s) (lp_token_id p) =? 0 then
       mint_into (lp_token_id p) (LockAccountId T) (MinimumLiquidity T) (assets s) = Ok l0 /\
       initial_liquidity T b q = Ok liquidity
     else l0 = assets s /\
       exists r0 r1, liquidity = Z.min r0 r1 /\
       share_of b (total_issuance (assets s) (lp_token_id p)) (base_amount p) = Ok r0 /\
       share_of q (total_issuance (assets s) (lp_token_id p)) (quote_amount p) = Ok r1) /\
    base_amount p + b <= u128_max /\ quote_amount p + q <= u128_max /\
    mint_into (lp_token_id p) who liquidity l0 = Ok l1 /\
    transfer base_asset who (account_id T) b (base_asset =? GetNativeCurrencyId T) l1 = Ok l2 /\
    transfer quote_asset who (account_id T) q (quote_asset =? GetNativeCurrencyId T) l2 = Ok l3 /\
    s' = set_assets l3 s /\
    base_amount p' = base_amount p + b /\ quote_amount p' = quote_amount p + q /\
    lp_token_id p' = lp_token_id p /\ last_kept_or_set p p'.
Proof.
  unfold do_add_liquidity. intros H. minv.
  repeat match goal with H : on_assets _ _ = Ok _ |- _ => apply amm_assets_Ok in H as (? & ? & ->) end.
  destruct (total_issuance (assets s) (lp_token_id p) =? 0); minv;
  repeat match goal with H : on_assets _ _ = Ok _ |- _ => apply amm_assets_Ok in H as (? & ? & ->) end;
  minv; do 5 eexists; (split; [eauto 10 |]); repeat (split; [eassumption |]);
  (split; [done |]); unfold last_kept_or_set; case_match; repeat split; auto.
Qed.

Lemma do_remove_liquidity_Ok who p liquidity base_asset quote_asset (s s' : State L) b q p' :
  do_remove_liquidity T who p liquidity (base_asset, quote_asset) s = Ok (b, q, p', s') ->
  exists l1 l2 l3,
    let supply := total_issuance (assets s) (lp_token_id p) in
    share_of liquidity (base_amount p) supply = Ok b /\
    share_of liquidity (quote_amount p) supply = Ok q /\
    b <= base_amount p /\ q <= quote_amount p /\
    burn_from (lp_token_id p) who liquidity (assets s) = Ok l1 /\
    transfer base_asset (account_id T) who b (base_asset =? GetNativeCurrencyId T) l1 = Ok l2 /\
    transfer quote_asset (account_id T) who q (quote_asset =? GetNativeCurrencyId T) l2 = Ok l3 /\
    s' = set_assets l3 s /\
    base_amount p' = base_amount p - b /\ quote_amount p' = quote_amount p - q /\
    lp_token_id p' = lp_token_id p /\ last_kept_or_set p p'.
Proof.
  unfold do_remove_liquidity, calculate_reserves_to_remove. intros H. minv.
  repeat match goal with H : on_assets _ _ = Ok _ |- _ => apply amm_assets_Ok in H as (? & ? & ->) end.
  do 3 eexists. repeat (split; [eassumption |]). (split; [done |]); unfold last_kept_or_set; case_match; repeat split; auto.
Qed.

Lemma do_mint_protocol_fee_Ok k p (s s' : State L) fees p' :
  wf_pool k p -> do_mint_protocol_fee p s = Ok (fees, p', s') ->
  wf_pool k p' /\ base_amount p' = base_amount p /\ quote_amount p' = quote_amount p /\
  lp_token_id p' = lp_token_id p /\
  ((fees = 0 /\ s' = s) \/
   exists receiver l scalar,
     ProtocolFeeReceiver s = Some receiver /\
     mint_into (lp_token_id p) receiver fees (assets s) = Ok l /\ s' = set_assets l s /\
     0 <= fees /\
     let root_k := Z.sqrt (base_amount p * quote_amount p) in
     let root_k_last := Z.sqrt (base_amount_last p * quote_amount_last p) in
     root_k_last < root_k /\ scalar = permill_saturating_reciprocal_mul_floor (ProtocolFee s) 1 - 1
     /\ 0 <= scalar /\
     fees * (root_k * scalar + root_k_last) <=
       (root_k - root_k_last) * total_issuance (assets s) (lp_token_id p)).
Proof.
  intros Hwf. pose proof Hwf as (_ & Hb & Hq & Hbl & Hql).
  pose proof (total_issuance_range (assets s) (lp_token_id p)) as Hti.
  unfold is_u128, do_mint_protocol_fee, get_big_uint in *. intros H. minv.
  rewrite big_checked_mul_eq in * by lia. minv.
  destruct (protocol_fee_on s); simpl in *; minv; cycle 1.
  { split; [case_match; unfold wf_pool, is_u128 in *; simpl in *; lia |].
    repeat split; try by case_match. by left. }
  rewrite !big_sqrt_eq in * by nia.
  set (root_k := Z.sqrt (base_amount p * quote_amount p)) in *.
  set (root_k_last := Z.sqrt (base_amount_last p * quote_amount_last p)) in *.
  assert (0 <= root_k) by apply Z.sqrt_nonneg. assert (0 <= root_k_last) by apply Z.sqrt_nonneg.
  destruct (Z.leb_spec root_k root_k_last); minv;
    [repeat (split; [done |]); by left |].
  unfold get_protocol_fee_reciprocal_proportion, protolcol_fee_receiver in *. minv.
  match goal with H : on_assets _ _ = Ok _ |- _ => apply amm_assets_Ok in H as (? & ? & ->) end.
  rewrite big_checked_sub_eq in * by lia. minv.
  rewrite !big_checked_mul_eq in * by lia. minv.
  rewrite big_checked_add_eq in * by nia. minv.
  rewrite big_checked_div_eq in * by nia. minv.
  match goal with H : big_to_u128 (?n / ?d) = Some _ |- _ =>
    assert (0 <= n / d) by (apply Z.div_pos; nia);
    pose proof (div_floor_bounds n d ltac:(nia)); rewrite big_to_u128_eq in H by done;
    apply fit_u128_Some in H as [-> ?] end.
  repeat (split; [done |]). right. do 3 eexists. repeat (split; [first [eassumption | done] |]).
  lia.
Qed.

(** The protocol fee is at most its share of the growth: with [1 / N] the configured
    fraction, the tokens minted for the receiver make up at most [1 / N] of the growth of the
    root of the reserves' product since the last liquidity event (as a fraction of the new
    supply), nothing is minted when the product has not grown, and the reserves are kept. *)
Theorem do_mint_protocol_fee_bound k p (s s' : State L) fees p' :
  wf_pool k p -> do_mint_protocol_fee p s = Ok (fees, p', s') ->
  let root_k := Z.sqrt (base_amount p * quote_amount p) in
  let root_k_last := Z.sqrt (base_amount_last p * quote_amount_last p) in
  let N := permill_saturating_reciprocal_mul_floor (ProtocolFee s) 1 in
  let supply := total_issuance (assets s) (lp_token_id p) in
  base_amount p' = base_amount p /\ quote_amount p' = quote_amount p /\
  total_issuance (assets s') (lp_token_id p) = supply + fees /\
  (root_k <= root_k_last -> fees = 0) /\
  (0 < fees -> N * fees * root_k <= (supply + fees) * (root_k - root_k_last)).
Proof.
  intros Hwf H. apply (do_mint_protocol_fee_Ok k) in H as
    (_ & Hb & Hq & _ & [[-> ->] | (r & l & scalar & _ & Hm & -> & Hf & Hlt & Hs & Hs0 & Hle)]);
    [| | done]; cbv zeta in *.
  - repeat split; try done; lia.
  - repeat split; [done | done | by apply mint_into_issuance in Hm | lia |].
    intros _. subst scalar. nia.
Qed.

(** The tokens [do_add_liquidity] mints for an existing pool, and the supply after it. *)
Lemma do_add_liquidity_minted who p b q x y (s s' : State L) p' :
  is_u128 b -> is_u128 q -> is_u128 (base_amount p) -> is_u128 (quote_amount p) ->
  0 < total_issuance (assets s) (lp_token_id p) -> lp_token_id p <> x -> lp_token_id p <> y ->
  do_add_liquidity T who p (b, q) (x, y) s = Ok (p', s') ->
  exists l, is_u128 l /\
    total_issuance (assets s') (lp_token_id p) = total_issuance (assets s) (lp_token_id p) + l /\
    l * base_amount p <= b * total_issuance (assets s) (lp_token_id p) /\
    l * quote_amount p <= q * total_issuance (assets s) (lp_token_id p).
Proof.
  intros Hb Hq Hpb Hpq Hpos Hx Hy H.
  pose proof (total_issuance_range (assets s) (lp_token_id p)) as Hti.
  apply do_add_liquidity_Ok in H as (l & l0 & l1 & l2 & l3 & Hl & _ & _ & Hm & Ht1 & Ht2 & -> & _).
  destruct (Z.eqb_spec (total_issuance (assets s) (lp_token_id p)) 0) as [?|_]; [lia |].
  destruct Hl as (-> & r0 & r1 & -> & H0 & H1).
  pose proof (share_of_le _ _ _ _ Hb Hti Hpb H0). pose proof (share_of_le _ _ _ _ Hq Hti Hpq H1).
  apply share_of_Ok in H0 as (_ & _ & ?); [|done..]. unfold is_u128 in *.
  exists (Z.min r0 r1). split; [lia |]. split.
  - simpl. rewrite (transfer_issuance_frame _ _ _ _ _ _ _ _ Ht2) by done.
    rewrite (transfer_issuance_frame _ _ _ _ _ _ _ _ Ht1) by done.
    by rewrite (mint_into_issuance _ _ _ _ _ Hm).
  - split; nia.
Qed.

(** Liquidity cannot be cycled for profit: adding liquidity to an existing pool and then
    removing the tokens just minted returns at most what was added, in both assets. *)
Theorem add_remove_no_profit who who' p b q x y (s s1 s2 : State L) p1 b' q' p2 :
  is_u128 b -> is_u128 q -> is_u128 (base_amount p) -> is_u128 (quote_amount p) ->
  0 < total_issuance (assets s) (lp_token_id p) -> lp_token_id p <> x -> lp_token_id p <> y ->
  do_add_liquidity T who p (b, q) (x, y) s = Ok (p1, s1) ->
  do_remove_liquidity T who' p1
    (total_issuance (assets s1) (lp_token_id p) - total_issuance (assets s) (lp_token_id p))
    (x, y) s1 = Ok (b', q', p2, s2) ->
  b' <= b /\ q' <= q.
Proof.
  intros Hb Hq Hpb Hpq Hpos Hx Hy Hadd Hrem.
  pose proof (do_add_liquidity_minted _ _ _ _ _ _ _ _ _ Hb Hq Hpb Hpq Hpos Hx Hy Hadd)
    as (l & Hl & Hsup & Hlb & Hlq).
  rewrite Hsup in Hrem. replace (_ + l - _) with l in Hrem by lia.
  apply do_add_liquidity_Ok in Hadd as
    (? & ? & ? & ? & ? & _ & Hob & Hoq & _ & _ & _ & _ & Hnb & Hnq & Hlp & _).
  apply do_remove_liquidity_Ok in Hrem as (? & ? & ? & Hsb & Hsq & _).
  cbv zeta in *. rewrite Hlp, Hsup, Hnb in Hsb. rewrite Hlp, Hsup, Hnq in Hsq.
  pose proof (total_issuance_range (assets s1) (lp_token_id p)) as Hti1. rewrite Hsup in Hti1.
  unfold is_u128 in *.
  apply share_of_Ok in Hsb as (_ & -> & _); [| unfold is_u128; lia..].
  apply share_of_Ok in Hsq as (_ & -> & _); [| unfold is_u128; lia..].
  split; apply Z.div_le_upper_bound; nia.
Qed.

(** Removing liquidity never takes more than its share: each amount paid out is at most
    the burnt fraction of its reserve, so the reserves behind every remaining token do not
    shrink. *)
Theorem do_remove_liquidity_fair who p liquidity x y (s s' : State L) b q p' :
  is_u128 liquidity -> is_u128 (base_amount p) -> is_u128 (quote_amount p) ->
  do_remove_liquidity T who p liquidity (x, y) s = Ok (b, q, p', s') ->
  let supply := total_issuance (assets s) (lp_token_id p) in
  base_amount p' = base_amount p - b /\ quote_amount p' = quote_amount p - q /\
  b * supply <= liquidity * base_amount p /\ q * supply <= liquidity * quote_amount p /\
  base_amount p * (supply - liquidity) <= base_amount p' * supply /\
  quote_amount p * (supply - liquidity) <= quote_amount p' * supply.
Proof.
  intros Hl Hpb Hpq H. cbv zeta.
  pose proof (total_issuance_range (assets s) (lp_token_id p)) as Hti.
  apply do_remove_liquidity_Ok in H as
    (? & ? & ? & Hb & Hq & _ & _ & _ & _ & _ & _ & -> & -> & _).
  pose proof (share_of_le _ _ _ _ Hl Hpb Hti Hb). pose proof (share_of_le _ _ _ _ Hl Hpq Hti Hq).
  repeat split; try lia.
Qed.

End liquidity.

Section solvency.
Context {SA : SpArithmetic} {NB : NumBigint} {SL : SpArithmeticLaws SA} {NL : NumBigintLaws NB}.
Context {L : Type} {FU : Fungibles L} {FL : FungiblesLaws L}.
Context (T : Config) (Hfee : is_permill (LpFee T)) (Hml : is_u128 (MinimumLiquidity T)).
Context (Hmin : forall a, a <> GetNativeCurrencyId T -> minimum_balance a <= 1).

Lemma total_reserves_insert a m k p :
  total_reserves a (<[k := p]> m) =
    total_reserves a m + reserve_of a k p - from_option (reserve_of a k) 0 (m !! k).
Proof. apply map_sum_insert. Qed.

(** What the pallet pays out leaves its account exactly: a native payment keeps the account
    alive, and other assets have a minimum balance of one. *)
Lemma pallet_pays a who amt l l' :
  transfer a (account_id T) who amt (a =? GetNativeCurrencyId T) l = Ok l' ->
  who <> account_id T -> forall b, balance l' b (account_id T) =
    balance l b (account_id T) - (if decide (b = a) then amt else 0).
Proof.
  intros Ht Hne. eapply pay_out; [done | done |].
  destruct (Z.eqb_spec a (GetNativeCurrencyId T)); [by left | right; auto].
Qed.

(** An update of one pool keeps the invariant when the pallet's balances follow it. *)
Lemma amm_inv_update k p' (s s' : State L) :
  amm_inv T s -> wf_pool k p' -> Pools s' = <[k := p']> (Pools s) ->
  (forall a, balance (assets s) a (account_id T) + reserve_of a k p'
             - from_option (reserve_of a k) 0 (Pools s !! k)
             <= balance (assets s') a (account_id T)) ->
  amm_inv T s'.
Proof.
  intros [Hwf Hsol] Hp HP Hbal. split.
  - rewrite HP. by apply map_Forall_insert_2.
  - intros a. rewrite HP, total_reserves_insert. specialize (Hsol a). specialize (Hbal a). lia.
Qed.

(** The same when only the ledger changes, and only grows for the pallet. *)
Lemma amm_inv_grow (s s' : State L) :
  amm_inv T s -> Pools s' = Pools s ->
  (forall a, balance (assets s) a (account_id T) <= balance (assets s') a (account_id T)) ->
  amm_inv T s'.
Proof.
  intros [Hwf Hsol] HP Hbal. split; [by rewrite HP |].
  intros a. rewrite HP. specialize (Hsol a). specialize (Hbal a). lia.
Qed.

Lemma do_swap_inv who pr amount_in (s s' : State L) out :
  amm_inv T s -> who <> account_id T -> is_u128 amount_in ->
  do_swap T who pr amount_in s = Ok (out, s') -> amm_inv T s'.
Proof.
  destruct pr as [ain aout]. intros Hinv Hwho Ha H.
  destruct (do_swap_facts T _ _ _ _ _ _ _ Hfee Ha (proj1 Hinv) H)
    as (inv & x & y & p & p' & Hsort & Hp & HP & Hs & _ & Hwf').
  apply do_swap_Ok in H as
    (inv2 & x2 & y2 & p2 & p2' & l1 & l2 & Hsort2 & _ & _ & _ & _ & _ & _ & Ht1 & Ht2 & ->).
  rewrite Hsort in Hsort2. minv.
  apply (amm_inv_update (x, y) p' s); [done | done | done |].
  - intros a. rewrite Hp. simpl.
    pose proof (pay_in _ _ _ _ _ _ _ Ht1 Hwho a). pose proof (pallet_pays _ _ _ _ _ Ht2 Hwho a).
    apply sort_assets_Ok in Hsort as [Hxy Hdir]. unfold reserve_of; simpl.
    destruct Hdir as [(-> & -> & ->) | (-> & -> & ->)]; unfold sides in Hs; minv;
      repeat case_decide; subst; lia.
Qed.

Lemma wf_pool_update k p p' :
  wf_pool k p -> is_u128 (base_amount p') -> is_u128 (quote_amount p') ->
  last_kept_or_set p p' -> wf_pool k p'.
Proof.
  intros (Hk & _ & _ & Hbl & Hql) Hb Hq Hlast. unfold wf_pool.
  destruct Hlast as [[-> ->] | [-> ->]]; auto.
Qed.

Lemma do_add_liquidity_inv k who p b q (s s1 s' : State L) p' :
  amm_inv T s -> who <> account_id T -> is_u128 b -> is_u128 q -> wf_pool k p ->
  (forall a, reserve_of a k p = from_option (reserve_of a k) 0 (Pools s !! k)) ->
  do_add_liquidity T who p (b, q) k s = Ok (p', s1) ->
  Pools s' = <[k := p']> (Pools s) -> assets s' = assets s1 -> amm_inv T s'.
Proof.
  destruct k as [x y]. intros Hinv Hwho Hb Hq Hwf Hold H HP HA.
  pose proof Hwf as (Hxy & Hpb & Hpq & _).
  pose proof (total_issuance_range (assets s) (lp_token_id p)) as Hti.
  apply do_add_liquidity_Ok in H as
    (l & l0 & l1 & l2 & l3 & Hl & Hob & Hoq & Hm & Ht1 & Ht2 & -> & Hnb & Hnq & _ & Hlast).
  assert (0 <= l /\ forall a, balance (assets s) a (account_id T) <= balance l0 a (account_id T))
    as [Hl0 Hgrow].
  { case_match.
    - destruct Hl as [Hm0 Hl]. apply initial_liquidity_nonneg in Hl as [? _]; [|done..].
      unfold is_u128 in Hml. split; [done |]. intros a. apply (mint_into_grows _ _ _ _ _ Hm0). lia.
    - destruct Hl as (-> & r0 & r1 & -> & Hr0 & Hr1).
      apply share_of_le in Hr0 as [? _], Hr1 as [? _]; [|done..]. split; [lia | done]. }
  apply (amm_inv_update (x, y) p' s); [done | | done |].
  - apply (wf_pool_update _ p); [done | | | done]; unfold is_u128 in *; lia.
  - intros a. rewrite <- Hold, HA. simpl. specialize (Hgrow a).
    pose proof (mint_into_grows _ _ _ _ _ Hm Hl0 a (account_id T)).
    pose proof (pay_in _ _ _ _ _ _ _ Ht1 Hwho a). pose proof (pay_in _ _ _ _ _ _ _ Ht2 Hwho a).
    unfold reserve_of; simpl in *. rewrite Hnb, Hnq. repeat case_decide; subst; lia.
Qed.

Lemma do_remove_liquidity_inv k who p liquidity (s s1 s' : State L) b q p' :
  amm_inv T s -> who <> account_id T -> is_u128 liquidity -> wf_pool k p ->
  (forall a, reserve_of a k p = from_option (reserve_of a k) 0 (Pools s !! k)) ->
  do_remove_liquidity T who p liquidity k s = Ok (b, q, p', s1) ->
  Pools s' = <[k := p']> (Pools s) -> assets s' = assets s1 -> amm_inv T s'.
Proof.
  destruct k as [x y]. intros Hinv Hwho Hl Hwf Hold H HP HA.
  pose proof Hwf as (Hxy & Hpb & Hpq & _).
  pose proof (total_issuance_range (assets s) (lp_token_id p)) as Hti.
  apply do_remove_liquidity_Ok in H as
    (l1 & l2 & l3 & Hb & Hq & Hlb & Hlq & Hbu & Ht1 & Ht2 & -> & Hnb & Hnq & _ & Hlast).
  apply share_of_le in Hb as [Hb _], Hq as [Hq _]; [|done..].
  apply (amm_inv_update (x, y) p' s); [done | | done |].
  - apply (wf_pool_update _ p); [done | | | done]; unfold is_u128 in *; lia.
  - intros a. rewrite <- Hold, HA. simpl.
    pose proof (burn_from_other _ _ _ _ _ Hbu a (account_id T) ltac:(congruence)).
    pose proof (pallet_pays _ _ _ _ _ Ht1 Hwho a). pose proof (pallet_pays _ _ _ _ _ Ht2 Hwho a).
    unfold reserve_of; simpl in *. rewrite Hnb, Hnq. repeat case_decide; subst; lia.
Qed.

(** Minting the protocol fee touches neither the pools nor the pallet's holdings. *)
Lemma do_mint_protocol_fee_inv k p (s s' : State L) fees p' :
  amm_inv T s -> wf_pool k p -> do_mint_protocol_fee p s = Ok (fees, p', s') ->
  amm_inv T s' /\ Pools s' = Pools s /\ wf_pool k p' /\
  (forall a, reserve_of a k p' = reserve_of a k p).
Proof.
  intros Hinv Hwf H. apply (do_mint_protocol_fee_Ok k) in H as (Hwf' & Hb & Hq & _ & Hs); [| done].
  assert (forall a, reserve_of a k p' = reserve_of a k p) as Hr.
  { intros a. unfold reserve_of. by rewrite Hb, Hq. }
  destruct Hs as [[_ ->] | (r & l & sc & _ & Hm & -> & Hf & _)]; [done |].
  split; [| done]. apply (amm_inv_grow s); [done | done |].
  intros a. apply (mint_into_grows _ _ _ _ _ Hm Hf).
Qed.

Lemma get_ideal_amounts_range p b q ib iq :
  is_u128 b -> is_u128 q -> is_u128 (base_amount p) -> is_u128 (quote_amount p) ->
  get_ideal_amounts p (b, q) = Ok (ib, iq) -> 0 <= ib /\ 0 <= iq.
Proof.
  assert (forall x y z r, is_u128 x -> is_u128 y -> is_u128 z -> quote x y z = Ok r -> 0 <= r)
    as Hquote.
  { unfold is_u128, quote, get_big_uint. intros x y z r Hx Hy Hz H. minv.
    rewrite big_checked_mul_eq in * by lia. minv.
    rewrite big_checked_div_eq in * by nia. minv.
    assert (0 <= x * z / y) by (apply Z.div_pos; nia).
    rewrite big_to_u128_eq in * by done.
    match goal with H : fit_u128 _ = Some _ |- _ => apply fit_u128_Some in H as [-> ?] end. done. }
  intros Hb Hq Hpb Hpq. unfold get_ideal_amounts.
  destruct (is_empty p); intros H; minv; [unfold is_u128 in *; lia |].
  case_match; minv; (split; [|]);
    first [unfold is_u128 in *; lia | by eapply Hquote; [| | | eassumption]].
Qed.

Lemma wf_pools_lookup (s : State L) k p : amm_inv T s -> Pools s !! k = Some p -> wf_pool k p.
Proof. intros [Hwf _] Hp. exact (map_Forall_lookup_1 _ _ _ _ Hwf Hp). Qed.

Lemma add_liquidity_inv origin pr desired minimum (s s' : State L) :
  amm_inv T s -> call_ok T origin (CallAddLiquidity pr desired minimum) ->
  add_liquidity T origin pr desired minimum s = Ok (tt, s') -> amm_inv T s'.
Proof.
  intros Hinv [Horig [Hd1 Hd2]] H. unfold add_liquidity in H.
  destruct origin as [|who|]; simpl in *; minv.
  assert (who <> account_id T) as Hwho by congruence.
  match goal with H : (let (_, _) := if ?i then _ else _ in _) _ = _ |- _ =>
    rename i into inv; set (d := if inv then _ else _) in H;
    assert (is_u128 d.1 /\ is_u128 d.2) as [Hb Hq] by (unfold d; destruct inv; simpl in *; auto);
    destruct d as [b q]; destruct (if inv then _ else _) as [mb mq] in H end.
  minv. unfold deposit_event in *. minv. zbool.
  match goal with Hp : Pools s !! ?k = Some ?p |- _ =>
    pose proof (wf_pools_lookup _ _ _ Hinv Hp) as Hwf;
    pose proof Hwf as (_ & Hpb & Hpq & _) end.
  match goal with H : get_ideal_amounts _ _ = Ok _ |- _ =>
    apply get_ideal_amounts_range in H as [? ?]; [|done..] end.
  match goal with H : do_mint_protocol_fee _ _ = Ok _ |- _ =>
    apply (do_mint_protocol_fee_inv _ _ _ _ _ _ Hinv Hwf) in H as (Hinv1 & HP1 & Hwf1 & Hr1) end.
  unfold is_u128 in *.
  eapply do_add_liquidity_inv; [exact Hinv1 | exact Hwho | | | exact Hwf1 | | eassumption | | done];
    unfold is_u128; [lia | lia | |].
  - intros a. rewrite Hr1, HP1.
    match goal with Hp : Pools s !! _ = Some _ |- _ => by rewrite Hp end.
  - simpl. match goal with H : do_add_liquidity _ _ _ _ _ _ = Ok _ |- _ =>
      apply do_add_liquidity_Ok in H as (? & ? & ? & ? & ? & _ & _ & _ & _ & _ & _ & -> & _) end. done.
Qed.

Lemma remove_liquidity_inv origin pr liquidity (s s' : State L) :
  amm_inv T s -> call_ok T origin (CallRemoveLiquidity pr liquidity) ->
  remove_liquidity T origin pr liquidity s = Ok (tt, s') -> amm_inv T s'.
Proof.
  intros Hinv [Horig Hl] H. unfold remove_liquidity, deposit_event in H.
  destruct origin as [|who|]; simpl in *; minv.
  assert (who <> account_id T) as Hwho by congruence.
  match goal with Hp : Pools s !! ?k = Some ?p |- _ =>
    pose proof (wf_pools_lookup _ _ _ Hinv Hp) as Hwf end.
  match goal with H : do_mint_protocol_fee _ _ = Ok _ |- _ =>
    apply (do_mint_protocol_fee_inv _ _ _ _ _ _ Hinv Hwf) in H as (Hinv1 & HP1 & Hwf1 & Hr1) end.
  eapply do_remove_liquidity_inv; [exact Hinv1 | exact Hwho | exact Hl | exact Hwf1 | | eassumption | | done].
  - intros a. rewrite Hr1, HP1.
    match goal with Hp : Pools s !! _ = Some _ |- _ => by rewrite Hp end.
  - simpl. match goal with H : do_remove_liquidity _ _ _ _ _ _ = Ok _ |- _ =>
      apply do_remove_liquidity_Ok in H as (? & ? & ? & _ & _ & _ & _ & _ & _ & _ & -> & _) end. done.
Qed.

Lemma create_pool_inv origin pr amounts receiver lp (s s' : State L) :
  amm_inv T s -> call_ok T origin (CallCreatePool pr amounts receiver lp) ->
  create_pool T origin pr amounts receiver lp s = Ok (tt, s') -> amm_inv T s'.
Proof.
  intros Hinv (_ & Hd1 & Hd2 & Hrec) H. unfold create_pool, deposit_event in H. minv.
  match goal with H : (let (_, _) := if ?i then _ else _ in _) _ = _ |- _ =>
    rename i into inv; set (d := if inv then _ else _) in H;
    assert (is_u128 d.1 /\ is_u128 d.2) as [Hb Hq] by (unfold d; destruct inv; simpl in *; auto);
    destruct d as [b q] end.
  minv. match goal with H : bool_decide _ = true |- _ => apply bool_decide_eq_true in H as Hnone end.
  match goal with H : sort_assets _ = Ok _ |- _ => apply sort_assets_Ok in H as [Hlt _] end.
  match goal with H : do_add_liquidity _ _ _ _ _ ?s1 = Ok (?p', ?s2) |- _ =>
    pose proof (do_add_liquidity_Ok _ _ _ _ _ _ _ _ _ _ H)
      as (? & ? & ? & ? & ? & _ & _ & _ & _ & _ & _ & -> & _);
    eapply (do_add_liquidity_inv _ _ _ _ _ s1); [| exact Hrec | exact Hb | exact Hq | | | exact H | done | done]
  end.
  - apply (amm_inv_grow s); done.
  - unfold wf_pool, is_u128, Pool_new, u128_max; simpl. lia.
  - intros a. simpl. rewrite Hnone. unfold reserve_of; simpl. by repeat case_decide.
Qed.

Lemma dispatch_inv origin c (s s' : State L) :
  amm_inv T s -> call_ok T origin c -> dispatch T origin c s = Ok (tt, s') -> amm_inv T s'.
Proof.
  intros Hinv Hc H. destruct c as [pr d m|pr l|pr am r lp|fee|r|pr a]; cbn [dispatch] in H.
  - exact (add_liquidity_inv _ _ _ _ _ _ Hinv Hc H).
  - exact (remove_liquidity_inv _ _ _ _ _ Hinv Hc H).
  - exact (create_pool_inv _ _ _ _ _ _ _ Hinv Hc H).
  - unfold update_protocol_fee, deposit_event in H. minv. by apply (amm_inv_grow s).
  - unfold update_protocol_fee_receiver, deposit_event in H. minv. by apply (amm_inv_grow s).
  - destruct Hc as [Horig Ha]. unfold swap in H. destruct origin as [|who|]; simpl in *; minv.
    eapply (do_swap_inv who); [exact Hinv | congruence | exact Ha | eassumption].
Qed.

(** C2: the pallet stays solvent: in every state that a sequence of calls (adding or removing
    liquidity, creating pools, swaps, updates of the protocol fee) reaches from an empty
    pallet, with anything happening in between that takes nothing out of its account, the pools
    are stored under sorted pairs with [u128] reserves and the pallet's account holds at least the
    recorded reserves of every asset.  Assets other than the native currency have a minimum balance
    of at most one.  Left out are calls signed by the pallet's own account and pools that governance
    creates with that account as the receiver of the liquidity, who funds them: such a pool is
    recorded without money. *)
Theorem reachable_solvent (s0 s : State L) :
  Pools s0 = ∅ -> reachable T s0 s -> amm_inv T s.
Proof.
  intros Hempty. induction 1 as [|s origin c s' _ IH Hc H | s l n _ [Hw Hs] _ Hl].
  - split; [rewrite Hempty; apply map_Forall_empty |].
    intros a. rewrite Hempty. unfold total_reserves. rewrite map_sum_empty.
    apply (balance_range (assets s0) a).
  - by eapply dispatch_inv.
  - split; [done |]. intros a. etransitivity; [apply Hs | apply Hl].
Qed.
End solvency.

(** A pool that is created with the pallet's own account as the receiver of the liquidity is paid
    for by that account to itself: 10^7 units of asset 20 stand behind two pools at once. *)
Definition demo_donated : State ledger :=
  mkState ∅ 0 None (Ledger {[ (10, 1000) := 10 ^ 7; (20, 1000) := 10 ^ 7; (30, 1000) := 10 ^ 7 ]}
    {[ 10 := 10 ^ 7; 20 := 10 ^ 7; 30 := 10 ^ 7 ]}) 7 [].
Definition demo_self_funded : State ledger :=
  demo_run Root (CallCreatePool (20, 30) (10 ^ 7, 10 ^ 7) 1000 501)
    (demo_run Root (CallCreatePool (10, 20) (10 ^ 7, 10 ^ 7) 1000 500) demo_donated).
Example self_funded_pool :
  total_reserves 20 (Pools demo_self_funded) = 2 * 10 ^ 7 /\
  ledger_balance (assets demo_self_funded) 20 1000 = 10 ^ 7.
Proof. vm_compute. repeat split. Qed.

(** ** The theorems at concrete inputs *)

Section instances.
#[local] Existing Instances sp_reference big_reference ledger_ops.
#[local] Existing Instances sp_reference_laws big_reference_laws ledger_ops_laws.

Lemma get_amount_out_constant_product_witness :
  get_amount_out demo_config 1000 1000000 1000000 = Ok 996 /\
  1000000 * 1000000 <= (1000000 + 1000) * (1000000 - 996).
Proof.
  split; [by_eval |].
  apply (get_amount_out_constant_product demo_config ltac:(by_range) 1000 1000000 1000000 996);
    by_eval.
Defined.

Lemma get_amount_in_sufficient_witness :
  exists out', get_amount_out demo_config 1002 1995 3 = Ok out' /\ 1 <= out'.
Proof.
  apply (get_amount_in_sufficient demo_config ltac:(by_range) 1 1995 3 1001); by_eval.
Defined.

Lemma get_amount_in_short_witness :
  get_amount_in demo_config 1 1995 3 = Ok 1001 /\ get_amount_out demo_config 1001 1995 3 = Ok 0.
Proof. apply (get_amount_in_short demo_config ltac:(by_range)); by_eval. Defined.

Lemma sort_assets_symmetric_witness :
  exists inv x y, y < x /\
    sort_assets (10, 20) = Ok (inv, x, y) /\ sort_assets (20, 10) = Ok (negb inv, x, y).
Proof. apply (proj2 (sort_assets_symmetric 10 20)); by_eval. Defined.

Lemma demo_wf : wf_pools (Pools demo_pooled).
Proof.
  apply (map_Forall_insert_2 _ ∅ (20, 10) demo_pool); [by_range | apply map_Forall_empty].
Qed.

Lemma do_swap_pool_witness : exists inv x y p p',
  sort_assets (10, 20) = Ok (inv, x, y) /\
  Pools demo_pooled !! (x, y) = Some p /\
  Pools demo_swapped = <[(x, y) := p']> (Pools demo_pooled) /\
  sides inv p' = ((sides inv p).1 + 50000, (sides inv p).2 - 189931) /\
  base_amount p * quote_amount p <= base_amount p' * quote_amount p' /\
  wf_pools (Pools demo_swapped).
Proof.
  apply (do_swap_pool demo_config 1 10 20 50000 demo_pooled demo_swapped 189931);
    [by_range | by_range | exact demo_wf | by_eval].
Defined.

Lemma do_mint_protocol_fee_bound_witness :
  exists fees p' s', do_mint_protocol_fee demo_fee_pool demo_fee_state = Ok (fees, p', s') /\
    0 < fees /\
    total_issuance (assets s') (lp_token_id demo_fee_pool) =
      total_issuance (assets demo_fee_state) (lp_token_id demo_fee_pool) + fees.
Proof.
  do 3 eexists. split; [by_eval |]. split; [by_eval |].
  eapply (do_mint_protocol_fee_bound (20, 10) demo_fee_pool demo_fee_state); by_eval.
Defined.

(** Account 1 adds 300000 and 1200000 to the pool, then removes the 600000 tokens it got. *)
Lemma add_remove_no_profit_witness :
  exists p1 s1 b' q' p2 s2,
    do_add_liquidity demo_config 1 demo_pool (1200000, 300000) (20, 10) demo_pooled = Ok (p1, s1) /\
    do_remove_liquidity demo_config 1 p1 600000 (20, 10) s1 = Ok (b', q', p2, s2) /\
    b' <= 1200000 /\ q' <= 300000.
Proof.
  do 6 eexists. split; [by_eval |]. split; [by_eval |].
  eapply (add_remove_no_profit demo_config 1 1 demo_pool 1200000 300000 20 10 demo_pooled);
    by_eval.
Defined.

Lemma do_remove_liquidity_fair_witness :
  exists b q p' s',
    do_remove_liquidity demo_config 1 demo_pool 100000 (20, 10) demo_pooled = Ok (b, q, p', s') /\
    let supply := total_issuance (assets demo_pooled) (lp_token_id demo_pool) in
    base_amount p' = base_amount demo_pool - b /\ quote_amount p' = quote_amount demo_pool - q /\
    b * supply <= 100000 * base_amount demo_pool /\
    q * supply <= 100000 * quote_amount demo_pool /\
    base_amount demo_pool * (supply - 100000) <= base_amount p' * supply /\
    quote_amount demo_pool * (supply - 100000) <= quote_amount p' * supply.
Proof.
  assert (is_ok (do_remove_liquidity demo_config 1 demo_pool 100000 (20, 10) demo_pooled) = true)
    as Hok by by_eval.
  destruct (do_remove_liquidity demo_config 1 demo_pool 100000 (20, 10) demo_pooled)
    as [[[[b q] p'] s']| |] eqn:H; [| discriminate Hok | discriminate Hok].
  exists b, q, p', s'. split; [reflexivity |].
  exact (do_remove_liquidity_fair demo_config 1 demo_pool 100000 20 10 demo_pooled s' b q p'
           ltac:(by_range) ltac:(by_range) ltac:(by_range) H).
Defined.

(** A pool created by the governance origin and a swap by account 1. *)
Lemma reachable_solvent_witness :
  size (Pools demo_swapped) = 1%nat /\ amm_inv demo_config demo_swapped.
Proof.
  split; [by_eval |].
  apply (reachable_solvent demo_config ltac:(by_range) ltac:(by_range)
           ltac:(intros; simpl; lia) demo_empty demo_swapped); [reflexivity |].
  apply (reach_step _ _ demo_pooled (Signed 1) demo_swap);
    [| split; [vm_compute; congruence | by_range] | by_eval].
  apply (reach_step _ _ demo_empty Root demo_create);
    [apply reach_refl | | by_eval].
  split; [vm_compute; congruence |]. split; [by_range |]. split; [by_range |]. simpl. lia.
Defined.
End instances.
