(* ===== verification/Streaming.v ===== *)
(** * Payment streams (src/pallets/streaming/src/lib.rs and types.rs)

    A stream locks a deposit in the pallet's account and releases it to the recipient at a
    constant rate.  [State] is the pallet's storage with the ledger, the Unix time in seconds
    and the deposited events. *)

From stdpp Require Import sorting.
From S2P Require Import Prelude Arith Frame.

Module Streaming.

Inductive StreamStatus :=
| Ongoing (as_collateral : bool)
| Completed (cancelled : bool).

Inductive StreamKind := Send | Receive | Finish.

#[global] Instance StreamKind_eq_dec : EqDecision StreamKind.
Proof. solve_decision. Defined.
#[global] Instance StreamKind_countable : Countable StreamKind.
Proof.
  apply (inj_countable' (fun k => match k with Send => 0%nat | Receive => 1%nat | Finish => 2%nat end)
    (fun n => match n with 0%nat => Send | 1%nat => Receive | _ => Finish end)).
  by intros [].
Defined.

Record Stream := mkStream {
  remaining_balance : Balance;
  deposit : Balance;
  asset_id : CurrencyId;
  rate_per_sec : Balance;
  sender : AccountId;
  recipient : AccountId;
  start_time : Timestamp;
  end_time : Timestamp;
  status : StreamStatus;
  cancellable : bool;
}.

Definition Stream_new (deposit : Balance) (asset_id : CurrencyId) (rate_per_sec : Balance)
    (sender recipient : AccountId) (start_time end_time : Timestamp) (cancellable : bool)
    : Stream :=
  mkStream deposit deposit asset_id rate_per_sec sender recipient start_time end_time
    (Ongoing false) cancellable.

Definition set_remaining (r : Balance) (st : Stream) : Stream :=
  mkStream r (deposit st) (asset_id st) (rate_per_sec st) (sender st) (recipient st)
    (start_time st) (end_time st) (status st) (cancellable st).
Definition set_status (x : StreamStatus) (st : Stream) : Stream :=
  mkStream (remaining_balance st) (deposit st) (asset_id st) (rate_per_sec st) (sender st)
    (recipient st) (start_time st) (end_time st) x (cancellable st).
Definition set_cancellable (c : bool) (st : Stream) : Stream :=
  mkStream (remaining_balance st) (deposit st) (asset_id st) (rate_per_sec st) (sender st)
    (recipient st) (start_time st) (end_time st) (status st) c.

(** ** types.rs: [impl Stream] *)

Definition is_sender (st : Stream) (account : AccountId) : bool := account =? sender st.
Definition is_recipient (st : Stream) (account : AccountId) : bool := account =? recipient st.

Definition has_finished (st : Stream) : bool :=
  match status st with Ongoing _ => false | Completed _ => true end.

Definition delta_of (now : Timestamp) (st : Stream) : Res Timestamp :=
  if now <=? start_time st then Ok 0
  else if now <? end_time st then
    ok_or (checked_sub now (start_time st)) (Arithmetic Underflow)
  else ok_or (checked_sub (end_time st) (start_time st)) (Arithmetic Underflow).

Definition has_started (now : Timestamp) (st : Stream) : Res bool :=
  delta ← delta_of now st; Ok (negb (delta =? 0)).

Definition has_withdrawn (st : Stream) : bool := deposit st >? remaining_balance st.

Definition claimed_balance (st : Stream) : Res Balance :=
  ok_or (checked_sub (deposit st) (remaining_balance st)) (Arithmetic Underflow).

Definition duration (st : Stream) : Res Timestamp :=
  ok_or (checked_sub (end_time st) (start_time st)) (Arithmetic Underflow).

Definition try_deduct (amount : Balance) (st : Stream) : Res Stream :=
  r ← ok_or (checked_sub (remaining_balance st) amount) (Arithmetic Underflow);
  Ok (set_remaining r st).

Definition try_complete (st : Stream) : Res Stream :=
  if remaining_balance st =? 0 then Ok (set_status (Completed false) st) else Ok st.

Definition try_cancel (remaining : Balance) (st : Stream) : Res Stream :=
  Ok (set_status (Completed true) (set_remaining remaining st)).

Definition as_collateral (st : Stream) : Res Stream :=
  Ok (set_cancellable false (set_status (Ongoing true) st)).

Definition balance_of (now : Timestamp) (st : Stream) (who : AccountId) : Res Balance :=
  delta ← delta_of now st;
  dur ← duration st;
  recipient_balance ←
    (if delta =? dur then Ok (remaining_balance st)
     else if has_withdrawn st then
       available_balance ← ok_or (checked_mul delta (rate_per_sec st)) (Arithmetic Overflow);
       claimed ← claimed_balance st;
       ok_or (checked_sub available_balance claimed) (Arithmetic Underflow)
     else ok_or (checked_mul delta (rate_per_sec st)) (Arithmetic Overflow));
  if is_recipient st who then
    (dur ← duration st;
     if delta =? dur then Ok (remaining_balance st) else Ok recipient_balance)
  else if is_sender st who then
    ok_or (checked_sub (remaining_balance st) recipient_balance) (Arithmetic Underflow)
  else Ok 0.

Definition sender_balance (now : Timestamp) (st : Stream) : Res Balance :=
  balance_of now st (sender st).
Definition recipient_balance (now : Timestamp) (st : Stream) : Res Balance :=
  balance_of now st (recipient st).

(** ** lib.rs *)

Record Config := mkConfig {
  account_id : AccountId;           (* PalletId::get().into_account_truncating() *)
  MaxStreamsCount : Z;
  MaxFinishedStreamsCount : Z;
  NativeCurrencyId : CurrencyId;
  NativeExistentialDeposit : Balance;
  UpdateOrigin : RuntimeOrigin -> bool;
}.

Inductive Event :=
| StreamCreated (stream_id : Z) (sender recipient : AccountId) (deposit : Balance)
    (asset_id : CurrencyId) (start_time end_time : Timestamp) (cancellable : bool)
| StreamWithdrawn (stream_id : Z) (recipient : AccountId) (asset_id : CurrencyId)
    (amount : Balance)
| StreamCancelled (stream_id : Z) (sender recipient : AccountId) (asset_id : CurrencyId)
    (sender_balance recipient_balance : Balance)
| MinimumDepositSet (asset_id : CurrencyId) (minimum_deposit : Balance).

Record State (L : Type) := mkState {
  NextStreamId : Z;
  Streams : gmap Z Stream;
  StreamLibrary : gmap (AccountId * StreamKind) (list Z);
  MinimumDeposits : gmap CurrencyId Balance;
  assets : L;
  unix_time : Timestamp;
  events : list Event;
}.
Arguments mkState {L}.
Arguments NextStreamId {L}.
Arguments Streams {L}.
Arguments StreamLibrary {L}.
Arguments MinimumDeposits {L}.
Arguments assets {L}.
Arguments unix_time {L}.
Arguments events {L}.

Section pallet.
Context {L : Type} {FU : Fungibles L}.
Variable T : Config.

Abbreviation St := (State L).
Abbreviation Run := (M St DispatchError).

Definition set_next (n : Z) (s : St) : St :=
  mkState n (Streams s) (StreamLibrary s) (MinimumDeposits s) (assets s) (unix_time s) (events s).
Definition set_streams (m : gmap Z Stream) (s : St) : St :=
  mkState (NextStreamId s) m (StreamLibrary s) (MinimumDeposits s) (assets s) (unix_time s)
    (events s).
Definition set_library (m : gmap (AccountId * StreamKind) (list Z)) (s : St) : St :=
  mkState (NextStreamId s) (Streams s) m (MinimumDeposits s) (assets s) (unix_time s) (events s).
Definition set_minimum (m : gmap CurrencyId Balance) (s : St) : St :=
  mkState (NextStreamId s) (Streams s) (StreamLibrary s) m (assets s) (unix_time s) (events s).
Definition set_assets (l : L) (s : St) : St :=
  mkState (NextStreamId s) (Streams s) (StreamLibrary s) (MinimumDeposits s) l (unix_time s)
    (events s).
Definition set_time (t : Timestamp) (s : St) : St :=
  mkState (NextStreamId s) (Streams s) (StreamLibrary s) (MinimumDeposits s) (assets s) t
    (events s).
Definition push_event (e : Event) (s : St) : St :=
  mkState (NextStreamId s) (Streams s) (StreamLibrary s) (MinimumDeposits s) (assets s)
    (unix_time s) (events s ++ [e]).

Definition deposit_event (e : Event) : Run unit := modify (push_event e).
Definition on_assets (f : L -> Res L) : Run unit := fun s =>
  match f (assets s) with
  | Ok l => Ok (tt, set_assets l s) | Err e => Err e | Panic => Panic
  end.
Definition insert_stream (stream_id : Z) (st : Stream) : Run unit :=
  modify (fun s => set_streams (<[stream_id := st]> (Streams s)) s).
Definition insert_library (k : AccountId * StreamKind) (r : list Z) : Run unit :=
  modify (fun s => set_library (<[k := r]> (StreamLibrary s)) s).

(** [sort_unstable_by(|a, b| b.cmp(a))]: newest first *)
Definition sort_desc (r : list Z) : list Z := merge_sort (flip Z.le) r.

Definition ensure_valid_duration (start_time end_time : Timestamp) (s : St) : Res unit :=
  _ ← ensure (start_time >=? unix_time s) (Streaming StartTimeBeforeCurrentTime);
  ensure (end_time >? start_time) (Streaming EndTimeBeforeStartTime).

Definition try_push_stream_library (account : AccountId) (stream_id : Z) (kind : StreamKind)
    : Run unit :=
  s ← get;
  let r := default [] (StreamLibrary s !! (account, kind)) in
  r ← lift (if existsb (fun x => x =? stream_id) r then Ok r
            else _ ← ensure (Z.of_nat (length r) <? MaxStreamsCount T)
                       (Streaming ExcessMaxStreamsCount);
                 Ok (r ++ [stream_id]));
  insert_library (account, kind) (sort_desc r).

(** removes the first occurrence *)
Fixpoint remove_first (stream_id : Z) (r : list Z) : list Z :=
  match r with
  | [] => []
  | x :: r' => if x =? stream_id then r' else x :: remove_first stream_id r'
  end.

Definition checked_remove (account : AccountId) (stream_id : Z) (kind : StreamKind) : Run unit :=
  s ← get;
  let r := default [] (StreamLibrary s !! (account, kind)) in
  insert_library (account, kind) (sort_desc (remove_first stream_id r)).

Definition try_remove_stream_library (account : AccountId) (stream_id : Z)
    (kind : option StreamKind) : Run unit :=
  match kind with
  | Some k => checked_remove account stream_id k
  | None =>
      _ ← checked_remove account stream_id Send;
      _ ← checked_remove account stream_id Receive;
      checked_remove account stream_id Finish
  end.

(** The closure [checked_pop] of [update_finished_stream_library]: it works on its own copy of
    the account's list, which [try_mutate] writes back after the nested removals. *)
Definition checked_pop (account : AccountId) : Run unit :=
  s ← get;
  let r := default [] (StreamLibrary s !! (account, Finish)) in
  if Z.of_nat (length r) <=? MaxFinishedStreamsCount T then insert_library (account, Finish) r
  else
    _ ← (match r !! (length r - 1)%nat with
         | None => mret tt
         | Some stream_id =>
             stream ← lift (ok_or (Streams s !! stream_id) (Streaming InvalidStreamId));
             _ ← try_remove_stream_library (sender stream) stream_id None;
             _ ← try_remove_stream_library (recipient stream) stream_id None;
             modify (fun s => set_streams (delete stream_id (Streams s)) s)
         end);
    insert_library (account, Finish) (take (length r - 1) r).

Definition update_finished_stream_library (sender recipient : AccountId) : Run unit :=
  _ ← checked_pop sender; checked_pop recipient.

Definition do_create (sender recipient : AccountId) (deposit : Balance) (asset : CurrencyId)
    (start_time end_time : Timestamp) (cancellable : bool) : Run Z :=
  _ ← lift (ensure (negb (sender =? recipient)) (Streaming RecipientIsAlsoSender));
  duration ← lift (ok_or (checked_sub end_time start_time) (Streaming InvalidDuration));
  rate_per_sec ← lift (ok_or (checked_div deposit duration) (Streaming InvalidRatePerSecond));
  _ ← lift (ensure (negb (rate_per_sec =? 0)) (Streaming InvalidRatePerSecond));
  _ ← on_assets (transfer asset sender (account_id T) deposit false);
  let stream := Stream_new deposit asset rate_per_sec sender recipient start_time end_time
                  cancellable in
  s ← get;
  let stream_id := NextStreamId s in
  next ← lift (ok_or (checked_add stream_id 1) (Arithmetic Overflow));
  _ ← modify (set_next next);
  _ ← insert_stream stream_id stream;
  _ ← update_finished_stream_library sender recipient;
  _ ← deposit_event (StreamCreated stream_id sender recipient deposit asset start_time end_time
                       true);
  mret stream_id.

(** ** Extrinsics *)

Definition create (origin : RuntimeOrigin) (recipient : AccountId) (deposit : Balance)
    (asset : CurrencyId) (start_time end_time : Timestamp) (cancellable : bool) : Run unit :=
  sender ← lift (ensure_signed origin);
  s ← get;
  minimum_deposit ← lift (ok_or (MinimumDeposits s !! asset) (Streaming InvalidAssetId));
  _ ← lift (ensure (deposit >=? minimum_deposit) (Streaming DepositLowerThanMinimum));
  _ ← reads (ensure_valid_duration start_time end_time);
  stream_id ← do_create sender recipient deposit asset start_time end_time cancellable;
  _ ← try_push_stream_library sender stream_id Send;
  try_push_stream_library recipient stream_id Receive.

Definition cancel (origin : RuntimeOrigin) (stream_id : Z) : Run unit :=
  who ← lift (ensure_signed origin);
  s ← get;
  stream ← lift (ok_or (Streams s !! stream_id) (Streaming InvalidStreamId));
  _ ← lift (ensure (is_sender stream who) (Streaming NotTheSender));
  _ ← lift (ensure (negb (has_finished stream)) (Streaming HasFinished));
  _ ← lift (ensure (cancellable stream) (Streaming CannotBeCancelled));
  sender_amount ← lift (sender_balance (unix_time s) stream);
  recipient_amount ← lift (recipient_balance (unix_time s) stream);
  _ ← on_assets (transfer (asset_id stream) (account_id T) who sender_amount false);
  _ ← on_assets (transfer (asset_id stream) (account_id T) (recipient stream)
                   recipient_amount false);
  stream ← lift (try_cancel sender_amount stream);
  _ ← insert_stream stream_id stream;
  _ ← try_push_stream_library (sender stream) stream_id Finish;
  _ ← try_push_stream_library (recipient stream) stream_id Finish;
  _ ← update_finished_stream_library (sender stream) (recipient stream);
  deposit_event (StreamCancelled stream_id who (recipient stream) (asset_id stream)
                   sender_amount recipient_amount).

Definition withdraw (origin : RuntimeOrigin) (stream_id : Z) (amount : Balance) : Run unit :=
  who ← lift (ensure_signed origin);
  s ← get;
  stream ← lift (ok_or (Streams s !! stream_id) (Streaming InvalidStreamId));
  _ ← lift (ensure (is_recipient stream who) (Streaming NotTheRecipient));
  _ ← lift (ensure (negb (has_finished stream)) (Streaming HasFinished));
  started ← lift (has_started (unix_time s) stream);
  _ ← lift (ensure started (Streaming NotStarted));
  recipient_amount ← lift (recipient_balance (unix_time s) stream);
  _ ← lift (ensure (recipient_amount >=? amount) (Streaming InsufficientStreamBalance));
  let amount :=
    if (asset_id stream =? NativeCurrencyId T) &&
       (saturating_add amount (NativeExistentialDeposit T) >=? remaining_balance stream)
    then remaining_balance stream else amount in
  stream ← lift (try_deduct amount stream);
  stream ← lift (try_complete stream);
  _ ← insert_stream stream_id stream;
  _ ← (if has_finished stream then
         _ ← try_push_stream_library (sender stream) stream_id Finish;
         _ ← try_push_stream_library who stream_id Finish;
         update_finished_stream_library (sender stream) who
       else mret tt);
  _ ← on_assets (transfer (asset_id stream) (account_id T) who amount false);
  deposit_event (StreamWithdrawn stream_id (recipient stream) (asset_id stream) amount).

Definition set_minimum_deposit (origin : RuntimeOrigin) (asset : CurrencyId)
    (minimum_deposit : Balance) : Run unit :=
  _ ← lift (ensure_origin (UpdateOrigin T) origin);
  _ ← modify (fun s => set_minimum (<[asset := minimum_deposit]> (MinimumDeposits s)) s);
  deposit_event (MinimumDepositSet asset minimum_deposit).

(** [impl pallet_traits::Streaming]: streams created by other pallets *)
Definition StreamingTrait_create (sender recipient : AccountId) (deposit : Balance)
    (asset : CurrencyId) (start_time end_time : Timestamp) (cancellable : bool) : Run unit :=
  s ← get;
  _ ← lift (ensure (bool_decide (is_Some (MinimumDeposits s !! asset)))
              (Streaming InvalidAssetId));
  stream_id ← do_create sender recipient deposit asset start_time end_time cancellable;
  try_push_stream_library recipient stream_id Receive.

(** The calls of the pallet, and the steps of the chain as it sees them: a call, or the time
    moving on. *)
Inductive Call :=
| CallCreate (recipient : AccountId) (deposit : Balance) (asset : CurrencyId)
    (start_time end_time : Timestamp) (cancellable : bool)
| CallCancel (stream_id : Z)
| CallWithdraw (stream_id : Z) (amount : Balance)
| CallSetMinimumDeposit (asset : CurrencyId) (minimum_deposit : Balance).

Definition dispatch (origin : RuntimeOrigin) (c : Call) : Run unit :=
  match c with
  | CallCreate recipient deposit asset start_time end_time cancellable =>
      create origin recipient deposit asset start_time end_time cancellable
  | CallCancel stream_id => cancel origin stream_id
  | CallWithdraw stream_id amount => withdraw origin stream_id amount
  | CallSetMinimumDeposit asset minimum_deposit =>
      set_minimum_deposit origin asset minimum_deposit
  end.

End pallet.

#[global] Arguments balance_of : simpl never.
#[global] Arguments try_push_stream_library : simpl never.
#[global] Arguments try_remove_stream_library : simpl never.
#[global] Arguments checked_pop : simpl never.
#[global] Arguments checked_remove : simpl never.
#[global] Arguments update_finished_stream_library : simpl never.
#[global] Arguments do_create : simpl never.
End Streaming.
