(* ===== verification/StreamingProps.v ===== *)
(** * Properties of payment streams

    What the two parties of a stream own at any time, what [withdraw] and [cancel] pay, and
    the invariant of the pallet: every recorded stream is funded, finished streams are frozen
    and the lists of finished streams point to finished streams only. *)

From stdpp Require Import sorting.
From S2P Require Import Prelude Arith Frame Ledger Streaming.
Import Streaming.

(** ** Specification vocabulary *)

(** The seconds of the stream that have passed at [now]. *)
Definition elapsed (now : Timestamp) (st : Stream) : Z :=
  Z.max 0 (Z.min (now - start_time st) (end_time st - start_time st)).
(** What has been streamed to the recipient by [now]: the rate for every second, and the whole
    deposit at the end (so nothing is lost to the rounding of the rate). *)
Definition streamed (now : Timestamp) (st : Stream) : Z :=
  if elapsed now st =? end_time st - start_time st then deposit st
  else elapsed now st * rate_per_sec st.
Definition claimed (st : Stream) : Z := deposit st - remaining_balance st.

Definition wf_stream (st : Stream) : Prop :=
  is_u128 (deposit st) /\ 0 <= remaining_balance st <= deposit st /\
  0 <= start_time st < end_time st /\
  rate_per_sec st = deposit st / (end_time st - start_time st) /\ 0 < rate_per_sec st /\
  sender st <> recipient st.

(** A running stream has paid at most what has been streamed. *)
Definition on_schedule (now : Timestamp) (st : Stream) : Prop :=
  has_finished st = false -> claimed st <= streamed now st.

(** The list of finished streams of an account. *)
Definition fin (lib : gmap (AccountId * StreamKind) (list Z)) (a : AccountId) : list Z :=
  default [] (lib !! (a, Finish)).
(** It names each stream once, and only finished streams the account is a party of. *)
Definition finish_ok (lib : gmap (AccountId * StreamKind) (list Z)) (m : gmap Z Stream) : Prop :=
  forall a, NoDup (fin lib a) /\ forall id, id ∈ fin lib a -> exists st,
    m !! id = Some st /\ has_finished st = true /\ (a = sender st \/ a = recipient st).

(** What the running streams in asset [a] still hold. *)
Definition owed_by (a : CurrencyId) (_ : Z) (st : Stream) : Z :=
  if decide (asset_id st = a /\ has_finished st = false) then remaining_balance st else 0.
Definition owed (a : CurrencyId) (m : gmap Z Stream) : Z := map_sum (owed_by a) m.

(** A running stream holds enough to keep the pallet's account alive on its own. *)
Definition backed {L} {FU : Fungibles L} (T : Config) (st : Stream) : Prop :=
  sender st <> account_id T /\
  (has_finished st = false ->
     0 < remaining_balance st /\ minimum_balance (asset_id st) <= remaining_balance st).

Record core_inv {L} {FU : Fungibles L} (T : Config) (s : State L) : Prop := {
  core_next : forall id st, Streams s !! id = Some st -> id < NextStreamId s;
  core_streams : forall id st, Streams s !! id = Some st ->
    wf_stream st /\ on_schedule (unix_time s) st /\ backed T st;
  core_finish : finish_ok (StreamLibrary s) (Streams s);
  core_minimum : forall a d, MinimumDeposits s !! a = Some d -> minimum_balance a <= Z.max 1 d;
}.

Definition streams_solvent {L} {FU : Fungibles L} (T : Config) (s : State L) : Prop :=
  forall a, owed a (Streams s) <= balance (assets s) a (account_id T).

Definition streaming_inv {L} {FU : Fungibles L} (T : Config) (s : State L) : Prop :=
  core_inv T s /\ streams_solvent T s.

(** The arguments of a call are in range and the origin is not the pallet's own account, which has
    no key.  One assumption is about governance: the minimum deposit it sets for the native currency
    covers the existential deposit, which the code does not check. *)
Definition call_ok (T : Config) (origin : RuntimeOrigin) (c : Call) : Prop :=
  origin <> Signed (account_id T) /\
  match c with
  | CallCreate _ deposit _ start_time _ _ =>
      is_u128 deposit /\ 0 <= start_time
  | CallWithdraw _ amount => is_u128 amount
  | CallSetMinimumDeposit a d => a = NativeCurrencyId T -> NativeExistentialDeposit T <= Z.max 1 d
  | _ => True
  end.

(** A step of the chain: a successful call, a stream created by another pallet, the time moving
    on, or payments elsewhere that take nothing out of the pallet's account.  The other pallet pays
    from an account of its own, and a deposit of native currency is not below the existential
    deposit, which the trait does not check. *)
Inductive step {L} {FU : Fungibles L} (T : Config) : State L -> State L -> Prop :=
| step_call s origin c s' :
    call_ok T origin c -> dispatch T origin c s = Ok (tt, s') -> step T s s'
| step_trait s who to amount a t0 t1 c s' :
    is_u128 amount -> 0 <= t0 -> who <> account_id T ->
    (a = NativeCurrencyId T -> NativeExistentialDeposit T <= amount) ->
    StreamingTrait_create T who to amount a t0 t1 c s = Ok (tt, s') -> step T s s'
| step_time s t : unix_time s <= t -> step T s (set_time t s)
| step_ledger s l :
    (forall a, balance (assets s) a (account_id T) <= balance l a (account_id T)) ->
    step T s (set_assets l s).

(** Before the first call the storage is empty. *)
Definition genesis {L} (s : State L) : Prop :=
  Streams s = ∅ /\ StreamLibrary s = ∅ /\ MinimumDeposits s = ∅.

(** A run of the pallet: account 1 streams 1000 units of asset 7 to account 2 over 100
    seconds; account 2 withdraws 300 after half the time and account 1 cancels then. *)
Definition stream_config : Config := mkConfig 99 128 10 0 1 (fun _ => true).
Definition stream_ledger : ledger := Ledger {[ (7, 1) := 5000 ]} {[ 7 := 5000 ]}.
Definition stream_empty : State ledger := mkState 0 ∅ ∅ ∅ stream_ledger 10 [].
Definition stream_run (origin : RuntimeOrigin) (c : Call) (s : State ledger) : State ledger :=
  match dispatch (FU := ledger_ops) stream_config origin c s with
  | Ok (_, s') => s' | _ => s
  end.
Definition stream_minimum : State ledger :=
  stream_run Root (CallSetMinimumDeposit 7 100) stream_empty.
Definition stream_created : State ledger :=
  stream_run (Signed 1) (CallCreate 2 1000 7 10 110 true) stream_minimum.
Definition stream_later : State ledger := set_time 60 stream_created.
Definition stream_paid : State ledger := stream_run (Signed 2) (CallWithdraw 0 300) stream_later.
Definition stream_cancelled : State ledger := stream_run (Signed 1) (CallCancel 0) stream_paid.
Definition stream_demo : Stream := Stream_new 1000 7 10 1 2 10 110 true.

Section time.
Implicit Types (st : Stream) (now : Timestamp).

Lemma elapsed_range now st : wf_stream st -> 0 <= elapsed now st <= end_time st - start_time st.
Proof. unfold wf_stream, elapsed. lia. Qed.

Lemma rate_le_deposit st :
  wf_stream st -> (end_time st - start_time st) * rate_per_sec st <= deposit st.
Proof.
  intros (_ & _ & ? & -> & _). apply Z.mul_div_le. lia.
Qed.

Lemma streamed_range now st : wf_stream st -> 0 <= streamed now st <= deposit st.
Proof.
  intros Hwf. pose proof (elapsed_range now st Hwf). pose proof (rate_le_deposit st Hwf).
  destruct Hwf as ([? ?] & ? & ? & ? & ? & ?). unfold streamed.
  destruct (Z.eqb_spec (elapsed now st) (end_time st - start_time st)); nia.
Qed.

Lemma streamed_mono now now' st :
  wf_stream st -> now <= now' -> streamed now st <= streamed now' st.
Proof.
  intros Hwf Hle. pose proof (rate_le_deposit st Hwf).
  pose proof (elapsed_range now st Hwf). pose proof (elapsed_range now' st Hwf).
  assert (elapsed now st <= elapsed now' st) by (unfold elapsed; lia).
  destruct Hwf as ([? ?] & ? & ? & ? & ? & ?). unfold streamed.
  destruct (Z.eqb_spec (elapsed now st) (end_time st - start_time st)),
    (Z.eqb_spec (elapsed now' st) (end_time st - start_time st)); try nia.
Qed.

Lemma on_schedule_later now now' st :
  wf_stream st -> now <= now' -> on_schedule now st -> on_schedule now' st.
Proof.
  intros Hwf Hle Hs Hf. specialize (Hs Hf). pose proof (streamed_mono now now' st Hwf Hle). lia.
Qed.

Lemma delta_of_eq now st : wf_stream st -> delta_of now st = Ok (elapsed now st).
Proof.
  intros (_ & _ & Ht & _). unfold delta_of, elapsed.
  destruct (Z.leb_spec now (start_time st)); [f_equal; lia |].
  destruct (Z.ltb_spec now (end_time st)); rewrite checked_sub_ok by lia; simpl; f_equal; lia.
Qed.

(** Both balances in closed form, for a running stream on schedule. *)
Lemma balance_of_eq now st who :
  wf_stream st -> has_finished st = false -> on_schedule now st ->
  balance_of now st who =
    Ok (if who =? recipient st then streamed now st - claimed st
        else if who =? sender st then deposit st - streamed now st else 0).
Proof.
  intros Hwf Hf Hs. specialize (Hs Hf).
  pose proof (streamed_range now st Hwf) as Hstr. pose proof (elapsed_range now st Hwf).
  pose proof (rate_le_deposit st Hwf).
  unfold balance_of, duration. rewrite delta_of_eq by done. simpl.
  destruct Hwf as ([? ?] & ? & ? & ? & ? & ?).
  rewrite checked_sub_ok by lia. simpl. unfold is_recipient, is_sender.
  unfold streamed, claimed in *.
  destruct (Z.eqb_spec (elapsed now st) (end_time st - start_time st)) as [He|He]; simpl.
  - destruct (who =? recipient st); [f_equal; lia |].
    destruct (who =? sender st); [| done]. rewrite checked_sub_ok by lia. simpl. f_equal. lia.
  - rewrite checked_mul_ok by nia. simpl.
    unfold has_withdrawn, claimed_balance. rewrite Z.gtb_ltb, checked_sub_ok by lia. simpl.
    destruct (Z.ltb_spec (remaining_balance st) (deposit st)); simpl.
    + rewrite checked_sub_ok by lia. simpl.
      destruct (who =? recipient st); [done |]. destruct (who =? sender st); [| done].
      rewrite checked_sub_ok by lia. simpl. f_equal. lia.
    + destruct (who =? recipient st); [f_equal; lia |]. destruct (who =? sender st); [| done].
      rewrite checked_sub_ok by lia. simpl. f_equal. lia.
Qed.

(** At any time, the balances of the two parties of a running stream are defined (no
    arithmetic error), non-negative, add up to what the stream still holds, the recipient's is
    what has been streamed less what was paid out, and it is the whole rest once the stream
    has ended. *)
Theorem stream_balances_split now st :
  wf_stream st -> has_finished st = false -> on_schedule now st ->
  exists to_sender to_recipient,
    sender_balance now st = Ok to_sender /\ recipient_balance now st = Ok to_recipient /\
    0 <= to_sender /\ 0 <= to_recipient /\
    to_sender + to_recipient = remaining_balance st /\
    to_recipient = streamed now st - claimed st /\
    (end_time st <= now -> to_recipient = remaining_balance st).
Proof.
  intros Hwf Hf Hs. pose proof (streamed_range now st Hwf) as Hstr.
  exists (deposit st - streamed now st), (streamed now st - claimed st).
  unfold sender_balance, recipient_balance. rewrite !balance_of_eq by done.
  rewrite !Z.eqb_refl. destruct (Z.eqb_spec (sender st) (recipient st)) as [Heq|_].
  { destruct Hwf as (_ & _ & _ & _ & _ & Hne). contradiction. }
  specialize (Hs Hf). repeat split; try (unfold claimed in *; lia).
  intros Hend. unfold streamed, elapsed, claimed.
  destruct Hwf as (_ & _ & Ht & _). rewrite (proj2 (Z.eqb_eq _ _)); lia.
Qed.

(** The recipient's claim on a running stream never shrinks as time passes. *)
Theorem recipient_balance_mono now now' st b b' :
  wf_stream st -> has_finished st = false -> on_schedule now st -> now <= now' ->
  recipient_balance now st = Ok b -> recipient_balance now' st = Ok b' -> b <= b'.
Proof.
  intros Hwf Hf Hs Hle Hb Hb'. pose proof (on_schedule_later _ _ _ Hwf Hle Hs) as Hs'.
  unfold recipient_balance in *. rewrite balance_of_eq in Hb, Hb' by done.
  rewrite Z.eqb_refl in *. minv. pose proof (streamed_mono now now' st Hwf Hle). lia.
Qed.
End time.

Section library.
Context {L : Type} {FU : Fungibles L}.
Context (T : Config).
Implicit Types (s : State L) (lib : gmap (AccountId * StreamKind) (list Z)).

Lemma sort_desc_perm r : sort_desc r ≡ₚ r.
Proof. apply merge_sort_Permutation. Qed.

Lemma remove_first_spec id r x : NoDup r -> x ∈ remove_first id r <-> x ∈ r /\ x <> id.
Proof.
  induction r as [|y r IH]; intros Hnd; simpl; [set_solver |].
  apply list.NoDup_cons in Hnd as [Hy Hnd].
  destruct (Z.eqb_spec y id) as [->|Hne]; [set_solver |].
  rewrite !elem_of_cons, IH by done. set_solver.
Qed.

Lemma remove_first_NoDup id r : NoDup r -> NoDup (remove_first id r).
Proof.
  induction r as [|y r IH]; intros Hnd; simpl; [done |].
  apply list.NoDup_cons in Hnd as [Hy Hnd]. destruct (y =? id); [done |].
  apply list.NoDup_cons. split; [| auto]. by rewrite remove_first_spec by done; intros [? _].
Qed.

Lemma fin_insert lib a k r a' :
  fin (<[(a, k) := r]> lib) a' = if decide (a' = a /\ k = Finish) then r else fin lib a'.
Proof.
  unfold fin. case_decide as Hd.
  - destruct Hd as [-> ->]. by rewrite lookup_insert_eq.
  - rewrite lookup_insert_ne; [done | naive_solver].
Qed.

Lemma checked_remove_Ok a id k s u s' :
  checked_remove a id k s = Ok (u, s') ->
  exists lib, s' = set_library lib s /\
    forall a', fin lib a' =
      if decide (a' = a /\ k = Finish) then sort_desc (remove_first id (fin (StreamLibrary s) a))
      else fin (StreamLibrary s) a'.
Proof.
  unfold checked_remove, insert_library. intros H. minv. eexists. split; [done |].
  intros a'. rewrite fin_insert. case_decide as Hd; [| done]. by destruct Hd as [-> ->].
Qed.

Lemma try_remove_Ok a id s u s' :
  try_remove_stream_library a id None s = Ok (u, s') ->
  exists lib, s' = set_library lib s /\
    forall a', fin lib a' =
      if decide (a' = a) then sort_desc (remove_first id (fin (StreamLibrary s) a))
      else fin (StreamLibrary s) a'.
Proof.
  unfold try_remove_stream_library. intros H. minv.
  repeat match goal with H : checked_remove _ _ _ _ = Ok _ |- _ =>
    apply checked_remove_Ok in H as (? & ? & ?); subst end.
  eexists. split; [done |]. intros a'. simpl in *.
  repeat match goal with H : forall a', fin ?l a' = _ |- context [fin ?l _] => rewrite H end.
  repeat case_decide; naive_solver.
Qed.

Lemma try_push_Ok a id k s u s' :
  try_push_stream_library T a id k s = Ok (u, s') ->
  exists lib, s' = set_library lib s /\
    forall a', (a' <> a \/ k <> Finish -> fin lib a' = fin (StreamLibrary s) a') /\
      (NoDup (fin (StreamLibrary s) a') -> NoDup (fin lib a')) /\
      (forall x, x ∈ fin lib a' -> x ∈ fin (StreamLibrary s) a' \/ (x = id /\ a' = a /\ k = Finish)).
Proof.
  unfold try_push_stream_library, insert_library. intros H. minv. eexists. split; [done |].
  intros a'. rewrite fin_insert. case_decide as Hd; [| naive_solver].
  destruct Hd as [-> ->]. fold (fin (StreamLibrary s) a) in *.
  split; [naive_solver |]. rewrite sort_desc_perm. setoid_rewrite sort_desc_perm.
  case_match eqn:He; minv; [naive_solver |].
  assert (id ∉ fin (StreamLibrary s) a) as Hni.
  { intros Hin%list_elem_of_In. apply not_true_iff_false in He. apply He.
    apply existsb_exists. exists id. by rewrite Z.eqb_refl. }
  split; [| set_solver]. intros Hnd. apply list.NoDup_app.
  split; [done |]. split; [set_solver | apply NoDup_singleton].
Qed.

(** The lists of finished streams of [lib'] are those of [lib], less some entries. *)
Definition shrinks lib lib' : Prop := forall a, NoDup (fin lib a) ->
  NoDup (fin lib' a) /\ forall x, x ∈ fin lib' a -> x ∈ fin lib a.

#[local] Instance shrinks_preorder : PreOrder shrinks.
Proof.
  split; [by intros lib a |]. intros l1 l2 l3 H12 H23 a Hnd.
  destruct (H12 a Hnd) as [Hnd2 Hs12]. destruct (H23 a Hnd2) as [Hnd3 Hs23]. eauto.
Qed.

Lemma try_remove_shrinks a id s u s' :
  try_remove_stream_library a id None s = Ok (u, s') ->
  exists lib, s' = set_library lib s /\ shrinks (StreamLibrary s) lib /\
    (NoDup (fin (StreamLibrary s) a) -> id ∉ fin lib a).
Proof.
  intros (lib & -> & Hlib)%try_remove_Ok. exists lib. split; [done |]. split.
  - intros a' Hnd. rewrite Hlib. case_decide as Hd; [subst a' | done].
    rewrite sort_desc_perm. setoid_rewrite sort_desc_perm. split; [by apply remove_first_NoDup |].
    intros x. rewrite remove_first_spec by done. tauto.
  - intros Hnd. rewrite Hlib, decide_True, sort_desc_perm, remove_first_spec by done. tauto.
Qed.

Lemma shrinks_insert lib lib' a r :
  shrinks lib lib' -> r `sublist_of` fin lib a -> shrinks lib (<[(a, Finish) := r]> lib').
Proof.
  intros Hsh Hr a' Hnd. rewrite fin_insert. case_decide as Hd; [destruct Hd as [-> _] | auto].
  split; [by eapply sublist_NoDup | intros x Hx; by eapply elem_of_sublist].
Qed.

(** Shrinking the lists keeps them right, also when the one stream they no longer name goes. *)
Lemma finish_ok_shrink lib lib' m : finish_ok lib m -> shrinks lib lib' -> finish_ok lib' m.
Proof.
  intros Hok Hsh a. destruct (Hok a) as [Hnd Hin]. destruct (Hsh a Hnd). split; eauto.
Qed.

Lemma finish_ok_delete lib lib' m id st :
  finish_ok lib m -> m !! id = Some st -> shrinks lib lib' ->
  id ∉ fin lib' (sender st) -> id ∉ fin lib' (recipient st) -> finish_ok lib' (delete id m).
Proof.
  intros Hok Hst Hsh Hs Hr a. destruct (Hok a) as [Hnd Ha]. destruct (Hsh a Hnd) as [Hnd' Hsub].
  split; [done |]. intros x Hx. destruct (Ha x (Hsub _ Hx)) as (st' & Hst' & Hf & Hp).
  exists st'. split; [| done]. rewrite lookup_delete_ne; [done |].
  intros <-. rewrite Hst in Hst'. minv. destruct Hp as [-> | ->]; contradiction.
Qed.

Lemma owed_delete b m id st :
  m !! id = Some st -> has_finished st = true -> owed b (delete id m) = owed b m.
Proof.
  intros Hst Hf. unfold owed. rewrite (map_sum_delete _ m id st Hst).
  assert (owed_by b id st = 0) as -> by (unfold owed_by; rewrite decide_False; [done | intros [_ ?]; congruence]). lia.
Qed.

Lemma last_not_in_init (r : list Z) id :
  NoDup r -> r !! (length r - 1)%nat = Some id -> id ∉ take (length r - 1) r.
Proof.
  intros Hnd Hid Hin. rewrite <- (take_drop (length r - 1) r) in Hnd.
  apply list.NoDup_app in Hnd as (_ & Hdisj & _). apply (Hdisj id Hin).
  apply list_elem_of_lookup. exists 0%nat. by rewrite lookup_drop, Nat.add_0_r.
Qed.

(** Writing the streams [m1] into the storage may also drop records of finished streams. *)
Definition leads_to (m1 : gmap Z Stream) s s' : Prop :=
  exists lib m, s' = set_streams m (set_library lib s) /\ finish_ok lib m /\
    (forall id st, m !! id = Some st -> m1 !! id = Some st) /\
    (forall id st, m1 !! id = Some st -> has_finished st = false -> m !! id = Some st) /\
    forall b, owed b m = owed b m1.
Definition pruned s s' : Prop := leads_to (Streams s) s s'.

Lemma leads_to_insert id st s :
  finish_ok (StreamLibrary s) (<[id := st]> (Streams s)) ->
  leads_to (<[id := st]> (Streams s)) s (set_streams (<[id := st]> (Streams s)) s).
Proof.
  intros. exists (StreamLibrary s), (<[id := st]> (Streams s)). split; [by destruct s | auto].
Qed.

Lemma leads_to_pruned m1 s1 s2 s3 : leads_to m1 s1 s2 -> pruned s2 s3 -> leads_to m1 s1 s3.
Proof.
  intros (l1 & m & -> & _ & Hold1 & Hrun1 & Howed1) (l2 & m2 & -> & Hfin & Hold2 & Hrun2 & Howed2).
  exists l2, m2. simpl in *. do 2 (split; [done |]). split; [auto |]. split; [auto |].
  intros b. by rewrite Howed2.
Qed.

Lemma pruned_library s lib :
  finish_ok (StreamLibrary s) (Streams s) -> shrinks (StreamLibrary s) lib ->
  pruned s (set_library lib s).
Proof.
  intros Hfin Hsh. exists lib, (Streams s). split; [by destruct s |].
  split; [by eapply finish_ok_shrink | auto].
Qed.

Lemma pruned_delete s lib id st :
  finish_ok (StreamLibrary s) (Streams s) -> shrinks (StreamLibrary s) lib ->
  Streams s !! id = Some st -> has_finished st = true ->
  id ∉ fin lib (sender st) -> id ∉ fin lib (recipient st) ->
  pruned s (set_streams (delete id (Streams s)) (set_library lib s)).
Proof.
  intros Hfin Hsh Hst Hf Hs Hr. exists lib, (delete id (Streams s)). split; [done |].
  split; [by eapply finish_ok_delete |]. split; [by intros x y [_ ?]%lookup_delete_Some |].
  split; [| intros b; by eapply owed_delete].
  intros x y Hx Hrun. rewrite lookup_delete_ne; [done |]. intros <-. congruence.
Qed.

Lemma checked_pop_pruned a s u s' :
  finish_ok (StreamLibrary s) (Streams s) -> checked_pop T a s = Ok (u, s') -> pruned s s'.
Proof.
  intros Hfin H. unfold checked_pop, insert_library in H. minv.
  fold (fin (StreamLibrary s) a) in *. set (r := fin (StreamLibrary s) a) in *.
  destruct (Z.leb_spec (Z.of_nat (length r)) (MaxFinishedStreamsCount T)); minv.
  { apply pruned_library, shrinks_insert; done. }
  assert (take (length r - 1) r `sublist_of` r) as Hsub by apply sublist_take.
  destruct (r !! (length r - 1)%nat) as [id|] eqn:Hid; minv; cycle 1.
  { apply pruned_library, shrinks_insert; done. }
  match goal with H : Streams s !! id = Some ?st |- _ => rename st into stream, H into Hst end.
  destruct (Hfin a) as [Hnd Hpar].
  destruct (Hpar id ltac:(by eapply list_elem_of_lookup_2)) as (st' & Hst' & Hf & _).
  rewrite Hst in Hst'. minv.
  repeat match goal with H : try_remove_stream_library _ _ _ _ = Ok _ |- _ =>
    apply try_remove_shrinks in H as (? & ? & ? & ?); subst end.
  cbn [StreamLibrary set_library] in *.
  match goal with
  | H1 : shrinks (StreamLibrary s) ?l1, H2 : shrinks ?l1 ?l2 |- _ =>
      set (lib1 := l1) in *; set (lib2 := l2) in *; rename H1 into Hsh1, H2 into Hsh2
  end.
  assert (id ∉ take (length r - 1) r) as Hlast by by apply last_not_in_init.
  change (pruned s (set_streams (delete id (Streams s))
    (set_library (<[(a, Finish) := take (length r - 1) r]> lib2) s))).
  apply (pruned_delete s _ id st' Hfin).
  - apply shrinks_insert; [by etrans | done].
  - done.
  - done.
  - rewrite fin_insert. case_decide; [done |]. intros Hin.
    destruct (Hsh1 (sender st') (proj1 (Hfin _))) as [Hnd1 _].
    destruct (Hsh2 _ Hnd1) as [_ Hsub2]. apply Hsub2 in Hin.
    revert Hin. match goal with H : _ -> id ∉ fin lib1 _ |- _ => apply H, Hfin end.
  - rewrite fin_insert. case_decide; [done |].
    destruct (Hsh1 (recipient st') (proj1 (Hfin _))) as [Hnd1 _]. auto.
Qed.

Lemma try_push_finish_ok a id k s u s' :
  finish_ok (StreamLibrary s) (Streams s) -> try_push_stream_library T a id k s = Ok (u, s') ->
  (k = Finish -> exists st, Streams s !! id = Some st /\ has_finished st = true /\
     (a = sender st \/ a = recipient st)) ->
  exists lib, s' = set_library lib s /\ finish_ok lib (Streams s).
Proof.
  intros Hfin (lib & -> & Hlib)%try_push_Ok Hk. exists lib. split; [done |]. intros a'.
  destruct (Hlib a') as (_ & Hnd & Hin), (Hfin a') as [Hnd' Hin']. split; [auto |].
  intros x [Hx | (-> & -> & ->)]%Hin; auto.
Qed.

(** No list names a running stream, so its record may change. *)
Lemma finish_ok_insert lib m id st :
  finish_ok lib m -> (forall st0, m !! id = Some st0 -> has_finished st0 = false) ->
  finish_ok lib (<[id := st]> m).
Proof.
  intros Hfin Hrun a. destruct (Hfin a) as [Hnd Hin]. split; [done |]. intros x Hx.
  destruct (Hin x Hx) as (st' & Hst' & Hf & Hp). exists st'. split; [| done].
  rewrite lookup_insert_ne; [done |]. intros <-. apply Hrun in Hst'. congruence.
Qed.

Lemma update_finished_pruned a b s u s' :
  finish_ok (StreamLibrary s) (Streams s) ->
  update_finished_stream_library T a b s = Ok (u, s') -> pruned s s'.
Proof.
  unfold update_finished_stream_library. intros Hfin H. minv.
  match goal with H1 : checked_pop T a s = Ok _ |- _ =>
    pose proof (checked_pop_pruned _ _ _ _ Hfin H1) as Hp end.
  eapply leads_to_pruned; [done |]. destruct Hp as (lib & m & -> & Hfin1 & _).
  by eapply checked_pop_pruned.
Qed.
End library.

Section operations.
Context {L : Type} {FU : Fungibles L}.
Context (T : Config).
Implicit Types (s : State L).

Lemma streaming_assets_Ok (f : L -> Res L) s u s' :
  on_assets f s = Ok (u, s') -> exists l, f (assets s) = Ok l /\ s' = set_assets l s.
Proof. unfold on_assets. destruct (f (assets s)); intros; minv; eauto. Qed.

Lemma finish_stream_leads id st0 st a b s s2 s3 s4 u2 u3 u4 :
  finish_ok (StreamLibrary s) (Streams s) ->
  Streams s !! id = Some st0 -> has_finished st0 = false -> has_finished st = true ->
  try_push_stream_library T (sender st) id Finish
    (set_streams (<[id := st]> (Streams s)) s) = Ok (u2, s2) ->
  try_push_stream_library T (recipient st) id Finish s2 = Ok (u3, s3) ->
  update_finished_stream_library T a b s3 = Ok (u4, s4) ->
  leads_to (<[id := st]> (Streams s)) s s4.
Proof.
  intros Hfin Hst0 Hrun Hf H2 H3 H4.
  apply (try_push_finish_ok T) in H2 as (lib2 & -> & Hfin2); simpl in *.
  2: { apply finish_ok_insert; [done |]. congruence. }
  2: { intros _. exists st. rewrite lookup_insert_eq. auto. }
  apply (try_push_finish_ok T) in H3 as (lib3 & -> & Hfin3); simpl in *; [| done |].
  2: { intros _. exists st. rewrite lookup_insert_eq. auto. }
  apply update_finished_pruned in H4; [| done].
  exact (leads_to_pruned _ s (set_streams (<[id := st]> (Streams s)) (set_library lib3 s)) _
    (ex_intro _ lib3 (ex_intro _ _ (conj eq_refl (conj Hfin3 (conj (fun _ _ H => H)
      (conj (fun _ _ H _ => H) (fun _ => eq_refl))))))) H4).
Qed.

(** What [withdraw] takes out of the stream: the amount asked for or, for the native currency,
    the whole rest when what would stay behind is no more than the existential deposit. *)
Definition withdrawn (amount : Balance) (st : Stream) : Balance :=
  if (asset_id st =? NativeCurrencyId T) &&
     (saturating_add amount (NativeExistentialDeposit T) >=? remaining_balance st)
  then remaining_balance st else amount.
(** The stream after a payment of [paid]. *)
Definition after_payment (paid : Balance) (st : Stream) : Stream :=
  if remaining_balance st - paid =? 0
  then set_status (Completed false) (set_remaining 0 st)
  else set_remaining (remaining_balance st - paid) st.

Lemma try_complete_after paid st st' :
  try_complete (set_remaining (remaining_balance st - paid) st) = Ok st' ->
  st' = after_payment paid st.
Proof.
  unfold try_complete, after_payment. simpl.
  destruct (Z.eqb_spec (remaining_balance st - paid) 0) as [He|]; intros; minv; [by rewrite He | done].
Qed.

Lemma after_payment_same paid st :
  sender (after_payment paid st) = sender st /\ recipient (after_payment paid st) = recipient st /\
  asset_id (after_payment paid st) = asset_id st.
Proof. unfold after_payment. by destruct (_ =? _). Qed.

Lemma after_payment_finished paid st :
  has_finished st = false ->
  has_finished (after_payment paid st) = (remaining_balance st - paid =? 0).
Proof. unfold after_payment. by destruct (_ =? _). Qed.

Lemma withdraw_run origin id amount s u s' :
  core_inv T s -> withdraw T origin id amount s = Ok (u, s') ->
  exists st l s1,
    let paid := withdrawn amount st in
    origin = Signed (recipient st) /\ Streams s !! id = Some st /\ has_finished st = false /\
    start_time st < unix_time s /\ amount <= streamed (unix_time s) st - claimed st /\
    paid <= remaining_balance st /\
    leads_to (<[id := after_payment paid st]> (Streams s)) s s1 /\
    transfer (asset_id st) (account_id T) (recipient st) paid false (assets s) = Ok l /\
    s' = push_event (StreamWithdrawn id (recipient st) (asset_id st) paid) (set_assets l s1).
Proof.
  intros Hinv H. unfold withdraw, insert_stream, try_deduct in H. minv.
  unfold ensure_signed in *. destruct origin; minv.
  match goal with H : Streams s !! id = Some ?x |- _ => rename x into st, H into Hst end.
  destruct (core_streams T s Hinv id st Hst) as (Hwf & Hsch & Hback).
  unfold is_recipient in *. zbool. subst who.
  unfold has_started, recipient_balance in *.
  rewrite balance_of_eq in * by done. rewrite delta_of_eq in * by done. rewrite Z.eqb_refl in *. minv.
  zbool.
  fold (withdrawn amount st) in *.
  match goal with H : try_complete _ = Ok _ |- _ => apply try_complete_after in H; subst end.
  destruct (after_payment_same (withdrawn amount st) st) as (Es & Er & Ea).
  rewrite Es, Er, Ea in *. set (st' := after_payment (withdrawn amount st) st) in *.
  match goal with H : on_assets _ ?x = Ok _ |- _ =>
    rename x into s1; apply streaming_assets_Ok in H as (l & Hl & ->) end.
  assert (leads_to (<[id := st']> (Streams s)) s s1) as Hlead.
  { destruct (has_finished st') eqn:Hf; minv.
    - rewrite <- Es, <- Er in *. eapply finish_stream_leads; eauto. apply Hinv.
    - apply leads_to_insert, finish_ok_insert; [apply Hinv | congruence]. }
  exists st, l, s1. unfold deposit_event in *. minv.
  assert (assets s1 = assets s) as Hs1 by by destruct Hlead as (? & ? & -> & _).
  rewrite Hs1 in Hl.
  unfold elapsed in *. destruct Hwf as (_ & _ & ? & _).
  repeat match goal with H : true = negb _ |- _ => symmetry in H; minv; zbool end.
  repeat (split; [first [done | lia] |]). done.
Qed.

Lemma cancel_run origin id s u s' :
  core_inv T s -> cancel T origin id s = Ok (u, s') ->
  exists st l1 l2 s1,
    let to_recipient := streamed (unix_time s) st - claimed st in
    let to_sender := deposit st - streamed (unix_time s) st in
    origin = Signed (sender st) /\ Streams s !! id = Some st /\ has_finished st = false /\
    cancellable st = true /\
    leads_to (<[id := set_status (Completed true) (set_remaining to_sender st)]> (Streams s))
      (set_assets l2 s) s1 /\
    transfer (asset_id st) (account_id T) (sender st) to_sender false (assets s) = Ok l1 /\
    transfer (asset_id st) (account_id T) (recipient st) to_recipient false l1 = Ok l2 /\
    s' = push_event (StreamCancelled id (sender st) (recipient st) (asset_id st) to_sender
           to_recipient) s1.
Proof.
  intros Hinv H. unfold cancel, insert_stream, try_cancel in H. minv.
  unfold ensure_signed in *. destruct origin; minv.
  match goal with H : Streams s !! id = Some ?x |- _ => rename x into st, H into Hst end.
  destruct (core_streams T s Hinv id st Hst) as (Hwf & Hsch & Hback).
  unfold is_sender in *. zbool. subst who.
  unfold sender_balance, recipient_balance in *.
  rewrite !balance_of_eq in * by done. rewrite !Z.eqb_refl in *.
  destruct (Z.eqb_spec (sender st) (recipient st)) as [Heq|_].
  { destruct Hwf as (_ & _ & _ & _ & _ & Hne). contradiction. }
  minv. unfold deposit_event in *. minv.
  repeat match goal with H : on_assets _ _ = Ok _ |- _ =>
    apply streaming_assets_Ok in H as (? & ? & ->) end. simpl in *.
  match goal with
  | H1 : transfer _ _ _ _ _ (assets s) = Ok ?x1, H2 : transfer _ _ _ _ _ ?x1 = Ok ?x2,
    Hu : update_finished_stream_library _ _ _ _ = Ok (_, ?x3) |- _ =>
      exists st, x1, x2, x3; rename x2 into l2
  end.
  repeat (split; [done |]). split; [| done].
  eapply (finish_stream_leads id st _ _ _ (set_assets l2 s)); eauto. apply Hinv.
Qed.

Lemma leads_to_library m1 s s1 lib :
  leads_to m1 s s1 -> finish_ok lib (Streams s1) -> leads_to m1 s (set_library lib s1).
Proof. intros (lib1 & m & -> & _ & Hm) Hfin. by exists lib, m. Qed.

Lemma do_create_run who to amount asset t0 t1 c s id s' :
  core_inv T s -> do_create T who to amount asset t0 t1 c s = Ok (id, s') ->
  exists l s1,
    let st := Stream_new amount asset (amount / (t1 - t0)) who to t0 t1 c in
    id = NextStreamId s /\ who <> to /\ t0 < t1 /\ amount / (t1 - t0) <> 0 /\
    transfer asset who (account_id T) amount false (assets s) = Ok l /\
    leads_to (<[id := st]> (Streams s)) (set_next (id + 1) (set_assets l s)) s1 /\
    s' = push_event (StreamCreated id who to amount asset t0 t1 true) s1.
Proof.
  intros Hinv H. unfold do_create, insert_stream, deposit_event in H. minv. zbool.
  match goal with H : on_assets _ _ = Ok _ |- _ => apply streaming_assets_Ok in H as (l & Hl & ->) end.
  match goal with H : update_finished_stream_library _ _ _ ?s0 = Ok (_, ?x3) |- _ =>
    exists l, x3; apply update_finished_pruned in H; [rename H into Hp |] end; simpl.
  2: { apply finish_ok_insert; [apply Hinv |]. intros st0 Hst0.
       pose proof (core_next T s Hinv _ _ Hst0). lia. }
  assert (t1 - t0 <> 0) by done. repeat (split; [first [done | lia] |]). done.
Qed.
End operations.

Section invariant.
Context {L : Type} {FU : Fungibles L} {FL : FungiblesLaws L}.
Context (T : Config).
Context (Hnative : minimum_balance (NativeCurrencyId T) = NativeExistentialDeposit T).
Context (Hdeposit : 0 <= NativeExistentialDeposit T).
Context (Hother : forall a, a <> NativeCurrencyId T -> minimum_balance a <= 1).
Implicit Types (s : State L).

Lemma map_sum_zero_or {V} (f : Z -> V -> Z) (m : gmap Z V) c :
  (forall k v, m !! k = Some v -> 0 <= f k v /\ (f k v = 0 \/ c <= f k v)) ->
  0 <= map_sum f m /\ (map_sum f m = 0 \/ c <= map_sum f m).
Proof.
  induction m as [|k v m Hk IH] using map_ind; intros Hf.
  - rewrite map_sum_empty. lia.
  - rewrite map_sum_insert_new by done.
    destruct (Hf k v (lookup_insert_eq _ _ _)).
    assert (0 <= map_sum f m /\ (map_sum f m = 0 \/ c <= map_sum f m)); [| lia].
    apply IH. intros k' v' Hk'. apply Hf. rewrite lookup_insert_ne; [done | congruence].
Qed.

(** What is owed in an asset is nothing, or enough to keep the account alive. *)
Lemma owed_alive a (m : gmap Z Stream) :
  (forall id st, m !! id = Some st -> wf_stream st /\ backed T st) ->
  0 <= owed a m /\ (owed a m = 0 \/ minimum_balance a <= owed a m).
Proof.
  intros Hm. apply map_sum_zero_or. intros id st Hst. unfold owed_by.
  destruct (Hm id st Hst) as [Hwf (_ & Hb)].
  case_decide as Hd; [| lia]. destruct Hd as [<- Hf]. destruct (Hb Hf). lia.
Qed.

(** The account paying itself *)
Lemma pay_self a acc amt k l l' b :
  transfer a acc acc amt k l = Ok l' -> balance l' b acc = balance l b acc.
Proof.
  intros Ht. destruct (decide (b = a)) as [->|Hb]; [by eapply transfer_self |].
  apply (transfer_frame _ _ _ _ _ _ _ b acc Ht). by left.
Qed.

(** A payment out of the account leaves what is owed afterwards. *)
Lemma pay_keeps_owed a who amt l l' (n : CurrencyId -> Z) :
  transfer a (account_id T) who amt false l = Ok l' -> who <> account_id T ->
  n a = 0 \/ minimum_balance a <= n a ->
  (forall b, n b <> 0 ->
     n b + (if decide (b = a) then amt else 0) <= balance l b (account_id T)) ->
  forall b, n b <= balance l' b (account_id T).
Proof.
  intros Ht Hne Halive Hn b. destruct (decide (n b = 0)) as [->|Hb0]; [apply balance_range |].
  specialize (Hn b Hb0). case_decide as Hb.
  - subst b. destruct Halive as [? | Hmin]; [done |].
    rewrite (transfer_source _ _ _ _ _ _ _ Ht) by (auto; unfold dust_free; lia). lia.
  - rewrite (transfer_frame _ _ _ _ _ _ _ b (account_id T) Ht) by auto. lia.
Qed.

Lemma owed_insert a (m : gmap Z Stream) id st :
  owed a (<[id := st]> m) =
    owed a m + owed_by a id st - from_option (owed_by a id) 0 (m !! id).
Proof. apply map_sum_insert. Qed.

Lemma core_inv_leads m1 s0 s1 s' :
  core_inv T s0 -> leads_to m1 s1 s' -> unix_time s1 = unix_time s0 ->
  MinimumDeposits s1 = MinimumDeposits s0 ->
  (forall id st, m1 !! id = Some st -> id < NextStreamId s1 /\
     wf_stream st /\ on_schedule (unix_time s0) st /\ backed T st) -> core_inv T s'.
Proof.
  intros Hinv (lib & m & -> & Hfin & Hold & _ & _) Et Em Hm. constructor; simpl.
  - intros id st Hst. by apply (Hm id st), Hold.
  - intros id st Hst. rewrite Et. by apply (Hm id st), Hold.
  - done.
  - rewrite Em. apply Hinv.
Qed.

(** The record of a stream is replaced. *)
Lemma core_inv_put id st s0 s1 s' :
  core_inv T s0 -> leads_to (<[id := st]> (Streams s0)) s1 s' -> unix_time s1 = unix_time s0 ->
  MinimumDeposits s1 = MinimumDeposits s0 -> NextStreamId s0 <= NextStreamId s1 ->
  id < NextStreamId s1 -> wf_stream st -> on_schedule (unix_time s0) st -> backed T st ->
  core_inv T s'.
Proof.
  intros Hinv Hl Et Em Hn Hid Hwf Hs Hb. eapply core_inv_leads; [done .. |].
  intros x y [[-> ->]|[_ Hxy]]%lookup_insert_Some; [done |].
  pose proof (core_next T s0 Hinv x y Hxy). pose proof (core_streams T s0 Hinv x y Hxy) as ?.
  split; [lia | done].
Qed.

Lemma withdrawn_cases amount st :
  wf_stream st -> withdrawn T amount st <> remaining_balance st ->
  withdrawn T amount st = amount /\
  (asset_id st = NativeCurrencyId T -> amount + NativeExistentialDeposit T < remaining_balance st).
Proof.
  intros ([_ ?] & ? & _). unfold withdrawn, saturating_add.
  destruct (Z.eqb_spec (asset_id st) (NativeCurrencyId T)) as [He|He]; simpl.
  - destruct (Z.geb_spec (Z.min u128_max (amount + NativeExistentialDeposit T))
      (remaining_balance st)); [done |]. intros _. split; [done | lia].
  - done.
Qed.

Lemma after_payment_ok now amount st :
  wf_stream st -> on_schedule now st -> backed T st -> has_finished st = false ->
  0 <= amount <= streamed now st - claimed st -> withdrawn T amount st <= remaining_balance st ->
  let st' := after_payment (withdrawn T amount st) st in
  wf_stream st' /\ on_schedule now st' /\ backed T st'.
Proof.
  intros Hwf Hs (Hne1 & Hb) Hf Ha Hle. simpl.
  pose proof (after_payment_finished (withdrawn T amount st) st Hf) as Hfin.
  destruct (Z.eqb_spec (remaining_balance st - withdrawn T amount st) 0) as [He|He].
  - assert (after_payment (withdrawn T amount st) st =
      set_status (Completed false) (set_remaining 0 st)) as ->.
    { unfold after_payment. by rewrite He. }
    destruct Hwf as ([? ?] & ? & ? & ? & ? & ?).
    split; [repeat split; simpl; try done; lia |]. by repeat split.
  - assert (after_payment (withdrawn T amount st) st =
      set_remaining (remaining_balance st - withdrawn T amount st) st) as ->.
    { unfold after_payment. by rewrite (proj2 (Z.eqb_neq _ _) He). }
    destruct (withdrawn_cases amount st Hwf) as [Ew Hrest]; [lia |]. rewrite Ew in *.
    destruct Hwf as ([? ?] & ? & ? & ? & ? & ?). split; [repeat split; simpl; try done; lia |].
    split; [unfold on_schedule, streamed, elapsed, claimed in *; simpl in *; lia |].
    repeat split; simpl; try done; [lia |].
    destruct (decide (asset_id st = NativeCurrencyId T)) as [En|En].
    + rewrite En, Hnative. specialize (Hrest En). lia.
    + specialize (Hother _ En). lia.
Qed.

Lemma owed_by_after_payment b id paid st :
  has_finished st = false ->
  owed_by b id (after_payment paid st) =
    owed_by b id st - (if decide (b = asset_id st) then paid else 0).
Proof.
  intros Hf. unfold owed_by. rewrite after_payment_finished by done.
  destruct (after_payment_same paid st) as (_ & _ & ->).
  unfold after_payment. destruct (Z.eqb_spec (remaining_balance st - paid) 0); simpl;
    repeat case_decide; naive_solver lia.
Qed.

Lemma withdraw_inv origin id amount s u s' :
  streaming_inv T s -> origin <> Signed (account_id T) -> is_u128 amount ->
  withdraw T origin id amount s = Ok (u, s') -> streaming_inv T s'.
Proof.
  intros [Hinv Hsol] Ho [Ha _] H.
  apply (withdraw_run T) in H as (st & l & s1 & -> & Hst & Hf & Hst0 & Hle & Hpaid & Hl & Htr & ->);
    [| done].
  destruct (core_streams T s Hinv id st Hst) as (Hwf & Hs & Hb).
  destruct (after_payment_ok (unix_time s) amount st) as (Hwf' & Hs' & Hb'); [done .. |].
  assert (core_inv T s1) as Hinv1.
  { eapply core_inv_put; eauto; [done |]. by apply (core_next T s Hinv id st). }
  destruct Hl as (lib & m & -> & _ & _ & _ & Howed). split; [by destruct Hinv1; constructor |].
  intros b. simpl. revert b. eapply pay_keeps_owed; [done | congruence | |].
  - apply owed_alive. intros x y Hxy. by destruct (core_streams T _ Hinv1 x y Hxy) as (? & _ & ?).
  - intros b _. rewrite Howed, owed_insert, Hst. simpl. rewrite owed_by_after_payment by done.
    specialize (Hsol b). case_decide; lia.
Qed.

Lemma cancel_inv origin id s u s' :
  streaming_inv T s -> cancel T origin id s = Ok (u, s') -> streaming_inv T s'.
Proof.
  intros [Hinv Hsol] H.
  apply (cancel_run T) in H as (st & l1 & l2 & s1 & _ & Hst & Hf & _ & Hl & Ht1 & Ht2 & ->);
    [| done].
  destruct (core_streams T s Hinv id st Hst) as (Hwf & Hs & Hb).
  pose proof (streamed_range (unix_time s) st Hwf) as Hstr. specialize (Hs Hf).
  assert (core_inv T s1) as Hinv1.
  { eapply (core_inv_put id); eauto; [done | by apply (core_next T s Hinv id st) | | done |].
    - destruct Hwf as ([? ?] & ? & ? & ? & ? & ?). repeat split; simpl; try done; lia.
    - destruct Hb as (? & _). by repeat split. }
  destruct Hl as (lib & m & -> & _ & _ & _ & Howed). split; [by destruct Hinv1; constructor |].
  assert (forall b, 0 <= owed b m /\ (owed b m = 0 \/ minimum_balance b <= owed b m)) as Halive.
  { intros b. apply owed_alive. intros x y Hxy.
    by destruct (core_streams T _ Hinv1 x y Hxy) as (? & _ & ?). }
  assert (forall b, owed b m = owed b (Streams s) -
    (if decide (b = asset_id st) then remaining_balance st else 0)) as Hm.
  { intros b. rewrite Howed, owed_insert, Hst. simpl. unfold owed_by. simpl.
    repeat case_decide; naive_solver lia. }
  set (to_recipient := streamed (unix_time s) st - claimed st) in *.
  set (n1 := fun b => if decide (owed b m = 0) then 0
    else owed b m + (if decide (b = asset_id st) then to_recipient else 0)).
  assert (forall b, n1 b <= balance l1 b (account_id T)) as Hn1.
  { eapply pay_keeps_owed; [exact Ht1 | apply Hb | |].
    - unfold n1. specialize (Halive (asset_id st)). repeat case_decide; lia.
    - intros b. specialize (Hm b). specialize (Hsol b). unfold n1, claimed in *.
      repeat case_decide; lia. }
  intros b. simpl. destruct (decide (recipient st = account_id T)) as [Er|Er].
  { rewrite Er in Ht2. pose proof (pay_self _ _ _ _ _ _ b Ht2) as ->. specialize (Hn1 b). specialize (Halive b).
    unfold n1 in Hn1. repeat case_decide; lia. }
  revert b. eapply pay_keeps_owed; [exact Ht2 | done | apply Halive |].
  intros b Hb0. specialize (Hn1 b). unfold n1 in Hn1. by rewrite decide_False in Hn1.
Qed.

Lemma do_create_inv who to amount asset t0 t1 c s id s' :
  streaming_inv T s -> is_u128 amount -> 0 <= t0 -> who <> account_id T ->
  minimum_balance asset <= Z.max 1 amount ->
  do_create T who to amount asset t0 t1 c s = Ok (id, s') -> streaming_inv T s'.
Proof.
  intros [Hinv Hsol] [Hlo Hhi] Ht0 Hw Hmin H.
  apply (do_create_run T) in H as (l & s1 & -> & Hne & Ht & Hr & Htr & Hl & ->); [| done].
  set (st := Stream_new _ _ _ _ _ _ _ _) in *.
  assert (0 < amount / (t1 - t0)) as Hrate.
  { assert (0 <= amount / (t1 - t0)) by (apply Z.div_pos; lia). lia. }
  assert (0 < amount) as Hpos.
  { destruct (Z.eq_dec amount 0) as [->|]; [| lia]. rewrite Zdiv_0_l in Hrate. lia. }
  assert (core_inv T s1) as Hinv1.
  { eapply (core_inv_put (NextStreamId s) st); eauto; simpl; try done; try lia.
    - intros _. unfold streamed, elapsed, claimed, st. simpl. case_match; nia.
    - repeat split; unfold st; simpl; try done; lia. }
  destruct Hl as (lib & m & -> & _ & _ & _ & Howed). split; [by destruct Hinv1; constructor |].
  intros b. simpl. rewrite Howed, owed_insert.
  destruct (Streams s !! NextStreamId s) as [st0|] eqn:Hst0.
  { pose proof (core_next T s Hinv _ _ Hst0). lia. }
  pose proof (pay_in _ _ _ _ _ _ _ Htr Hw b) as Hin. specialize (Hsol b).
  simpl. unfold owed_by. simpl. repeat case_decide; naive_solver lia.
Qed.

Lemma push_inv who id k s u s' :
  streaming_inv T s -> k <> Finish -> try_push_stream_library T who id k s = Ok (u, s') ->
  streaming_inv T s'.
Proof.
  intros [Hinv Hsol] Hk H.
  apply (try_push_finish_ok T) in H as (lib & -> & Hfin); [| apply Hinv | done].
  split; [| done]. by destruct Hinv; constructor.
Qed.

Lemma step_inv s s' : streaming_inv T s -> step T s s' -> streaming_inv T s'.
Proof.
  intros Hs Hstep. revert Hs.
  destruct Hstep as [s0 origin call s1 [Ho Hc] H | s0 who to amount a t0 t1 c s1 ???? H | s0 t Ht | s0 l Hl];
    intros Hs.
  - destruct call; simpl in *.
    + destruct Hc as (? & ?). unfold create, ensure_valid_duration in H. minv. zbool.
      unfold ensure_signed in *. destruct origin; minv.
      do 2 (eapply push_inv; [| | done]; [| done]).
      match goal with H : do_create _ _ _ _ _ _ _ _ _ = Ok _ |- _ =>
        refine (do_create_inv _ _ _ _ _ _ _ _ _ _ Hs _ _ _ _ H) end; try done; [congruence |].
      match goal with H : MinimumDeposits s0 !! _ = Some _ |- _ =>
        apply (core_minimum T s0 (proj1 Hs)) in H end. lia.
    + by eapply cancel_inv.
    + by eapply withdraw_inv.
    + unfold set_minimum_deposit, deposit_event in H. minv. destruct Hs as [Hinv Hsol].
      split; [| done]. destruct Hinv. constructor; simpl; try done.
      intros b d [[-> ->]|[_ ?]]%lookup_insert_Some; [| eauto].
      destruct (decide (b = NativeCurrencyId T)) as [->|Hn]; [rewrite Hnative; auto | specialize (Hother _ Hn); lia].
  - unfold StreamingTrait_create in H. minv.
    eapply push_inv; [| | done]; [| done].
    match goal with H : do_create _ _ _ _ _ _ _ _ _ = Ok _ |- _ =>
      refine (do_create_inv _ _ _ _ _ _ _ _ _ _ Hs _ _ _ _ H) end; try done.
    destruct (decide (a = NativeCurrencyId T)) as [->|Hn]; [rewrite Hnative | specialize (Hother _ Hn)]; lia.
  - destruct Hs as [Hinv Hsol]. split; [| done]. destruct Hinv. constructor; simpl; try done.
    intros id st Hst. destruct (core_streams0 id st Hst) as (? & ? & ?).
    split; [done |]. split; [by eapply on_schedule_later | done].
  - destruct Hs as [Hinv Hsol]. split; [by destruct Hinv; constructor |].
    intros a. etransitivity; [apply Hsol | apply Hl].
Qed.

Lemma genesis_inv s : genesis s -> streaming_inv T s.
Proof.
  intros (Es & El & Em). split.
  - constructor; rewrite ?Es, ?El, ?Em; try (intros ??; rewrite lookup_empty; discriminate).
    intros a. unfold fin. rewrite lookup_empty. simpl. split; [apply NoDup_nil_2 | set_solver].
  - intros a. rewrite Es. unfold owed. rewrite map_sum_empty. apply balance_range.
Qed.


(** In a currency without dust a payment arrives exactly. *)
Lemma paid_exactly a f t amt k l l' :
  transfer a f t amt k l = Ok l' -> f <> t -> minimum_balance a <= 1 ->
  balance l' a t = balance l a t + amt.
Proof.
  intros Ht Hne Hm. apply (transfer_dest_exact _ _ _ _ _ _ _ Ht Hne).
  apply dust_free_min_one; [done | by eapply transfer_enough].
Qed.

(** The calls that may touch the record [st] of the running stream [id]. *)
Definition may_touch (origin : RuntimeOrigin) (c : Call) (id : Z) (st : Stream) : Prop :=
  (exists amount, c = CallWithdraw id amount /\ origin = Signed (recipient st)) \/
  (c = CallCancel id /\ origin = Signed (sender st) /\ cancellable st = true).

Lemma leads_to_other m1 s s' id st :
  leads_to m1 s s' -> m1 !! id = Some st ->
  Streams s' !! id = Some st \/ (has_finished st = true /\ Streams s' !! id = None).
Proof.
  intros (lib & m & -> & _ & Hold & Hrun & _) Hst. simpl.
  destruct (m !! id) as [st'|] eqn:Hm; [left; apply Hold in Hm; congruence |].
  right. destruct (has_finished st) eqn:Hf; [done |]. apply Hrun in Hst; congruence.
Qed.

Lemma leads_to_put k st1 s s1 s' id st :
  leads_to (<[k := st1]> (Streams s)) s1 s' -> Streams s !! id = Some st -> id <> k ->
  Streams s' !! id = Some st \/ (has_finished st = true /\ Streams s' !! id = None).
Proof. intros Hl Hst Hne. eapply leads_to_other; [done |]. by rewrite lookup_insert_ne. Qed.

Lemma try_push_streams who id k s u s' :
  try_push_stream_library T who id k s = Ok (u, s') -> Streams s' = Streams s.
Proof. by intros (lib & -> & _)%try_push_Ok. Qed.

(** A call leaves the record of a stream alone, unless it is a withdrawal by the
    stream's recipient or a cancellation by its sender, which must be allowed; a finished
    stream is never changed, only its record may be dropped. *)
Theorem stream_changes_authorised origin c s s' id st :
  core_inv T s -> dispatch T origin c s = Ok (tt, s') -> Streams s !! id = Some st ->
  Streams s' !! id = Some st \/
  (has_finished st = true /\ Streams s' !! id = None) \/
  (has_finished st = false /\ may_touch origin c id st).
Proof.
  intros Hinv H Hst. destruct c as [to amount a t0 t1 c|k|k amount|a d]; simpl in H.
  - unfold create in H. minv. repeat match goal with
      H : try_push_stream_library _ _ _ _ _ = Ok _ |- _ => apply try_push_streams in H end.
    match goal with H : do_create _ _ _ _ _ _ _ _ _ = Ok _ |- _ =>
      apply (do_create_run T) in H as (l & s1 & -> & _ & _ & _ & _ & Hl & ->); [| done] end.
    pose proof (core_next T s Hinv id st Hst). simpl in *.
    destruct (leads_to_put _ _ s _ _ id st Hl Hst) as [?|?]; [lia | left; congruence |].
    right; left. intuition congruence.
  - apply (cancel_run T) in H as (st1 & l1 & l2 & s1 & -> & Hk & Hf & Hc & Hl & _ & _ & ->); [| done].
    destruct (decide (id = k)) as [->|Hne].
    + rewrite Hst in Hk. minv. right; right. split; [done |]. right. auto.
    + destruct (leads_to_put _ _ s _ _ id st Hl Hst Hne); auto.
  - apply (withdraw_run T) in H as (st1 & l & s1 & -> & Hk & Hf & _ & _ & _ & Hl & _ & ->); [| done].
    destruct (decide (id = k)) as [->|Hne].
    + rewrite Hst in Hk. minv. right; right. split; [done |]. left. eauto.
    + destruct (leads_to_put _ _ s _ _ id st Hl Hst Hne); auto.
  - unfold set_minimum_deposit, deposit_event in H. minv. auto.
Qed.

(** A successful withdrawal pays the recipient at least the amount asked for, which was
    due, and no more than the existential deposit on top of it (nothing on top in a currency
    other than the native one); the stream is reduced by the payment and completed when
    nothing is left. *)
Theorem withdraw_pays origin id amount s u s' :
  streaming_inv T s -> origin <> Signed (account_id T) -> is_u128 amount ->
  withdraw T origin id amount s = Ok (u, s') -> exists st paid,
    Streams s !! id = Some st /\ origin = Signed (recipient st) /\
    amount <= streamed (unix_time s) st - claimed st /\
    amount <= paid <= amount + (if asset_id st =? NativeCurrencyId T
                                then NativeExistentialDeposit T else 0) /\
    balance (assets s) (asset_id st) (recipient st) + paid
      <= balance (assets s') (asset_id st) (recipient st) /\
    (Streams s' !! id = Some (after_payment paid st) \/
     (paid = remaining_balance st /\ Streams s' !! id = None)).
Proof.
  intros [Hinv _] Ho [Ha _] H.
  apply (withdraw_run T) in H as (st & l & s1 & -> & Hst & Hf & _ & Hle & Hpaid & Hl & Htr & ->); [| done].
  destruct (core_streams T s Hinv id st Hst) as (Hwf & Hs & Hb).
  pose proof (streamed_range (unix_time s) st Hwf) as Hstr.
  exists st, (withdrawn T amount st). do 3 (split; [done |]). split; [| split].
  - unfold withdrawn, saturating_add in *. destruct (_ =? _) eqn:?; simpl in *; [| lia].
    destruct (Z.geb_spec (Z.min u128_max (amount + NativeExistentialDeposit T))
      (remaining_balance st)); unfold claimed in *; lia.
  - simpl. eapply transfer_dest; [done |]. congruence.
  - destruct (leads_to_other _ _ _ id _ Hl (lookup_insert_eq _ _ _)) as [?|[Hfin ?]]; [by left |].
    right. rewrite after_payment_finished in Hfin by done. zbool. split; [lia | done].
Qed.

(** C23: in a state that satisfies the invariant of all runs ([streaming_inv]), a successful cancellation is
    by the sender of a cancellable stream that is still running, and the stream is finished afterwards (or its record dropped), so that it is not cancelled twice.
    What the stream held is split exactly: the recipient's part is what was streamed and not yet
    paid out, the sender's the rest.  The ledger changes by these two payments from the pallet's
    account and nothing else: in a currency with a minimum balance of at most one each party gets
    exactly its part, in the native currency at least that (the last payment may carry dust along).
    If the recipient is the pallet's own account, its part stays there. *)
Theorem cancel_settles origin id s u s' :
  streaming_inv T s -> cancel T origin id s = Ok (u, s') ->
  exists st to_sender to_recipient l,
    let a := asset_id st in
    Streams s !! id = Some st /\ origin = Signed (sender st) /\ cancellable st = true /\
    has_finished st = false /\ (forall st', Streams s' !! id = Some st' -> has_finished st' = true) /\
    to_recipient = streamed (unix_time s) st - claimed st /\
    to_sender + to_recipient = remaining_balance st /\ 0 <= to_sender /\ 0 <= to_recipient /\
    transfer a (account_id T) (sender st) to_sender false (assets s) = Ok l /\
    transfer a (account_id T) (recipient st) to_recipient false l = Ok (assets s') /\
    balance (assets s) a (sender st) + to_sender <= balance (assets s') a (sender st) /\
    (recipient st <> account_id T ->
     balance (assets s) a (recipient st) + to_recipient <= balance (assets s') a (recipient st)) /\
    (minimum_balance a <= 1 ->
     balance (assets s') a (sender st) = balance (assets s) a (sender st) + to_sender /\
     (recipient st <> account_id T ->
      balance (assets s') a (recipient st) = balance (assets s) a (recipient st) + to_recipient)).
Proof.
  intros [Hinv _] H.
  apply (cancel_run T) in H as (st & l1 & l2 & s1 & -> & Hst & Hf & Hc & Hl & Ht1 & Ht2 & ->); [| done].
  destruct (core_streams T s Hinv id st Hst) as (Hwf & Hs & Hn & _).
  pose proof (streamed_range (unix_time s) st Hwf) as Hstr. specialize (Hs Hf).
  exists st, (deposit st - streamed (unix_time s) st), (streamed (unix_time s) st - claimed st), l1.
  cbv zeta. do 4 (split; [done |]). split.
  { intros st' Hst'. destruct Hl as (lib & m & -> & _ & Hold & _). simpl in Hst'.
    apply Hold in Hst'. rewrite lookup_insert_eq in Hst'. by minv. }
  split; [done |]. split; [unfold claimed; lia |]. do 2 (split; [lia |]). simpl.
  assert (assets s1 = l2) as -> by by destruct Hl as (? & ? & -> & _).
  assert (sender st <> recipient st) as Hne by by destruct Hwf as (_ & _ & _ & _ & _ & ?).
  do 2 (split; [done |]).
  rewrite (transfer_frame _ _ _ _ _ _ _ (asset_id st) (sender st) Ht2) by (right; split; congruence).
  assert (balance l1 (asset_id st) (recipient st) = balance (assets s) (asset_id st) (recipient st) \/
          recipient st = account_id T) as Hrec.
  { destruct (decide (recipient st = account_id T)) as [|Hr]; [by right | left].
    apply (transfer_frame _ _ _ _ _ _ _ (asset_id st) (recipient st) Ht1). right; split; congruence. }
  split; [eapply transfer_dest; [done | congruence] |]. split.
  { intros Hr. destruct Hrec as [<-|]; [| done]. eapply transfer_dest; [done | congruence]. }
  intros Hm. split; [eapply paid_exactly; [done | congruence | done] |].
  intros Hr. destruct Hrec as [<-|]; [| done]. eapply paid_exactly; [done | congruence | done].
Qed.

(** The event that announces a new stream says that it can be cancelled, whatever the
    sender asked for and the record says. *)
Theorem created_event_always_cancellable origin to amount a t0 t1 c s u s' :
  core_inv T s -> create T origin to amount a t0 t1 c s = Ok (u, s') ->
  exists who st,
    Streams s' !! NextStreamId s = Some st /\ cancellable st = c /\
    events s' = events s ++ [StreamCreated (NextStreamId s) who to amount a t0 t1 true].
Proof.
  intros Hinv H. unfold create in H. minv.
  repeat match goal with H : try_push_stream_library _ _ _ _ _ = Ok _ |- _ =>
    apply try_push_Ok in H as (? & -> & _) end.
  match goal with H : do_create _ ?who _ _ _ _ _ _ _ = Ok _ |- _ => exists who;
    apply (do_create_run T) in H as (l & s1 & -> & _ & _ & _ & _ & Hl & ->); [| done] end.
  eexists. simpl. split.
  - destruct Hl as (lib & m & -> & _ & _ & Hrun & _). simpl. apply Hrun; [apply lookup_insert_eq | done].
  - split; [done |]. by destruct Hl as (lib & m & -> & _).
Qed.
End invariant.

(** ** The theorems at concrete inputs *)

Section instances.
#[local] Existing Instances ledger_ops ledger_ops_laws.

Lemma stream_balances_split_witness :
  exists to_sender to_recipient,
    sender_balance 60 stream_demo = Ok to_sender /\
    recipient_balance 60 stream_demo = Ok to_recipient /\
    0 <= to_sender /\ 0 <= to_recipient /\
    to_sender + to_recipient = remaining_balance stream_demo /\
    to_recipient = streamed 60 stream_demo - claimed stream_demo /\
    (end_time stream_demo <= 60 -> to_recipient = remaining_balance stream_demo).
Proof.
  apply (stream_balances_split 60 stream_demo); [by_range | reflexivity | intros _; by_range].
Defined.

Lemma recipient_balance_mono_witness : 200 <= 500.
Proof.
  apply (recipient_balance_mono 30 60 stream_demo);
    [by_range | reflexivity | intros _; by_range | lia | by_eval | by_eval].
Defined.

Lemma stream_steps_paid : rtc (step stream_config) stream_empty stream_paid.
Proof.
  apply (rtc_l _ _ stream_minimum).
  { apply (step_call _ _ Root (CallSetMinimumDeposit 7 100)); [split; [done | simpl; lia] | by_eval]. }
  apply (rtc_l _ _ stream_created).
  { apply (step_call _ _ (Signed 1) (CallCreate 2 1000 7 10 110 true)); [| by_eval].
    split; [vm_compute; congruence | by_range]. }
  apply (rtc_l _ _ stream_later); [apply (step_time _ stream_created 60); by_range |].
  apply rtc_once, (step_call _ _ (Signed 2) (CallWithdraw 0 300)); [| by_eval].
  split; [vm_compute; congruence | by_range].
Qed.

Lemma stream_paid_inv : streaming_inv stream_config stream_paid.
Proof.
  assert (streaming_inv stream_config stream_empty) as Hinv by by apply genesis_inv.
  generalize stream_steps_paid. generalize stream_paid. intros s Hs. revert Hinv.
  induction Hs; [done |]. intros Hinv. apply IHHs.
  eapply step_inv; [.. | done | done]; simpl; done || lia.
Qed.


Lemma stream_changes_authorised_witness :
  Streams stream_cancelled !! 0 = Some (default stream_demo (Streams stream_paid !! 0)) \/
  (has_finished (default stream_demo (Streams stream_paid !! 0)) = true /\
   Streams stream_cancelled !! 0 = None) \/
  (has_finished (default stream_demo (Streams stream_paid !! 0)) = false /\
   may_touch (Signed 1) (CallCancel 0) 0 (default stream_demo (Streams stream_paid !! 0))).
Proof.
  apply (stream_changes_authorised stream_config _ _ stream_paid);
    [apply stream_paid_inv | by_eval | by_eval].
Defined.

Lemma withdraw_pays_witness :
  exists st paid,
    Streams stream_paid !! 0 = Some st /\ Signed 2 = Signed (recipient st) /\
    200 <= streamed (unix_time stream_paid) st - claimed st /\
    200 <= paid <= 200 + (if asset_id st =? NativeCurrencyId stream_config
                          then NativeExistentialDeposit stream_config else 0) /\
    balance (assets stream_paid) (asset_id st) (recipient st) + paid
      <= balance (assets (stream_run (Signed 2) (CallWithdraw 0 200) stream_paid))
           (asset_id st) (recipient st) /\
    (Streams (stream_run (Signed 2) (CallWithdraw 0 200) stream_paid) !! 0
       = Some (after_payment paid st) \/
     (paid = remaining_balance st /\
      Streams (stream_run (Signed 2) (CallWithdraw 0 200) stream_paid) !! 0 = None)).
Proof.
  apply (withdraw_pays stream_config ltac:(simpl; lia) _ _ _ stream_paid tt);
    [apply stream_paid_inv | vm_compute; congruence | by_range | by_eval].
Defined.

Lemma cancel_settles_witness :
  exists st to_sender to_recipient,
    Streams stream_paid !! 0 = Some st /\ to_sender = 500 /\ to_recipient = 200 /\
    (forall st', Streams stream_cancelled !! 0 = Some st' -> has_finished st' = true) /\
    balance (assets stream_cancelled) 7 1 = balance (assets stream_paid) 7 1 + to_sender /\
    balance (assets stream_cancelled) 7 2 = balance (assets stream_paid) 7 2 + to_recipient.
Proof.
  destruct (cancel_settles stream_config (Signed 1) 0 stream_paid tt stream_cancelled)
    as (st & to_sender & to_recipient & l & Hst & _ & _ & _ & Hfin & Er & Es & _ & _ & _ & _ & _ & _ & Hx);
    [apply stream_paid_inv | by_eval |].
  assert (st = default stream_demo (Streams stream_paid !! 0)) as -> by (by rewrite Hst).
  destruct Hx as [H1 H2]; [simpl; lia |].
  assert (to_recipient = 200) as -> by (rewrite Er; by_eval).
  assert (to_sender + 200 = 700) as Es' by (rewrite Es; by_eval). assert (to_sender = 500) as -> by lia.
  eexists _, _, _. split; [exact Hst |]. do 2 (split; [done |]). split; [exact Hfin |].
  split; [exact H1 | apply H2; vm_compute; congruence].
Defined.

Lemma created_event_always_cancellable_witness :
  exists who st,
    Streams (stream_run (Signed 1) (CallCreate 2 1000 7 60 160 false) stream_paid) !! 1 = Some st /\
    cancellable st = false /\
    events (stream_run (Signed 1) (CallCreate 2 1000 7 60 160 false) stream_paid) =
      events stream_paid ++ [StreamCreated 1 who 2 1000 7 60 160 true].
Proof.
  apply (created_event_always_cancellable stream_config (Signed 1) 2 1000 7 60 160 false
           stream_paid tt); [apply stream_paid_inv | by_eval].
Defined.
End instances.
