(* ===== verification/RateModel.v ===== *)
(** * Interest rate models of the lending markets (src/pallets/loans/src/rate_model.rs)

    The jump model interpolates between a base rate, the rate at the kink and the full rate;
    the curve model is the ninth power of the utilization over a base rate.  Rates are inner
    [FixedU128] values, utilizations are [Permill] parts.  The theorems show that an accepted
    model gives every utilization a rate, between its base rate and its maximum, growing with
    the utilization, but for a kink at zero, which has no rate at utilization zero, and that
    suppliers never earn more than borrowers pay. *)

From S2P Require Import Prelude Arith Frame.

Module RateModel.

(** ** The jump model *)

Record JumpModel := mkJumpModel {
  base_rate : Rate;
  jump_rate : Rate;
  full_rate : Rate;
  jump_utilization : Ratio;
}.

Definition JUMP_MAX_BASE_RATE : Rate := 100000000000000000.
Definition JUMP_MAX_JUMP_RATE : Rate := 300000000000000000.
Definition JUMP_MAX_FULL_RATE : Rate := 500000000000000000.

Definition JumpModel_new_model (base_rate jump_rate full_rate : Rate) (jump_utilization : Ratio)
    : JumpModel :=
  mkJumpModel base_rate jump_rate full_rate jump_utilization.

Definition JumpModel_check_model (m : JumpModel) : bool :=
  if (base_rate m >? JUMP_MAX_BASE_RATE) || (jump_rate m >? JUMP_MAX_JUMP_RATE)
     || (full_rate m >? JUMP_MAX_FULL_RATE) then false
  else if (base_rate m >? jump_rate m) || (jump_rate m >? full_rate m) then false
  else true.

(** ** The curve model *)

Record CurveModel := mkCurveModel { curve_base_rate : Rate }.

Definition CURVE_MAX_BASE_RATE : Rate := FIXED_DIV / 100 * 10.

Definition CurveModel_new_model (base_rate : Rate) : CurveModel := mkCurveModel base_rate.

Definition CurveModel_check_model (m : CurveModel) : bool :=
  curve_base_rate m <=? CURVE_MAX_BASE_RATE.

(** ** The model of a market *)

Inductive InterestRateModel :=
| Jump (jump : JumpModel)
| Curve (curve : CurveModel).

Definition new_jump_model (base_rate jump_rate full_rate : Rate) (jump_utilization : Ratio)
    : InterestRateModel :=
  Jump (JumpModel_new_model base_rate jump_rate full_rate jump_utilization).
Definition new_curve_model (base_rate : Rate) : InterestRateModel :=
  Curve (CurveModel_new_model base_rate).

Definition check_model (m : InterestRateModel) : bool :=
  match m with
  | Jump jump => JumpModel_check_model jump
  | Curve curve => CurveModel_check_model curve
  end.

Section rates.
Context {SA : SpArithmetic}.

Definition JumpModel_get_borrow_rate (m : JumpModel) (utilization : Ratio) : option Rate :=
  if utilization <=? jump_utilization m then
    d ← fixed_checked_sub (jump_rate m) (base_rate m);
    q ← fixed_checked_div (fixed_saturating_mul d (permill_into_fixed utilization))
          (permill_into_fixed (jump_utilization m));
    fixed_checked_add q (base_rate m)
  else
    let excess_util := permill_saturating_sub utilization (jump_utilization m) in
    d ← fixed_checked_sub (full_rate m) (jump_rate m);
    q ← fixed_checked_div (fixed_saturating_mul d (permill_into_fixed excess_util))
          (permill_into_fixed (permill_saturating_sub PERMILL_ONE (jump_utilization m)));
    fixed_checked_add q (jump_rate m).

Definition CurveModel_get_borrow_rate (m : CurveModel) (utilization : Ratio) : option Rate :=
  let utilization_rate := permill_into_fixed utilization in
  fixed_checked_add (fixed_saturating_pow utilization_rate 9) (curve_base_rate m).

Definition get_borrow_rate (m : InterestRateModel) (utilization : Ratio) : option Rate :=
  match m with
  | Jump jump => JumpModel_get_borrow_rate jump utilization
  | Curve curve => CurveModel_get_borrow_rate curve utilization
  end.

Definition get_supply_rate (borrow_rate : Rate) (util reserve_factor : Ratio) : Rate :=
  let one_minus_reserve_factor := permill_saturating_sub PERMILL_ONE reserve_factor in
  let rate_to_pool :=
    fixed_saturating_mul borrow_rate (permill_into_fixed one_minus_reserve_factor) in
  fixed_saturating_mul rate_to_pool (permill_into_fixed util).

End rates.
End RateModel.

Import RateModel.

(** ** Specification vocabulary *)

(** The types of the fields: rates are unsigned, the kink is a proportion. *)
Definition wf_model (m : InterestRateModel) : Prop :=
  match m with
  | Jump j => 0 <= base_rate j /\ 0 <= jump_rate j /\ 0 <= full_rate j /\
              is_permill (jump_utilization j)
  | Curve c => 0 <= curve_base_rate c
  end.
(** The one case without a rate: a kink at zero, which [check_model] lets through, and nothing
    lent. *)
Definition rate_undefined (m : InterestRateModel) (u : Ratio) : Prop :=
  match m with Jump j => jump_utilization j = 0 /\ u = 0 | Curve _ => False end.
Definition min_rate (m : InterestRateModel) : Rate :=
  match m with Jump j => base_rate j | Curve c => curve_base_rate c end.
Definition max_rate (m : InterestRateModel) : Rate :=
  match m with Jump j => full_rate j | Curve c => FIXED_DIV + curve_base_rate c end.

(** One leg of the interpolation: [lo] plus the part [u]/[w] of [hi - lo], the way the code
    rounds it. *)
Definition leg (lo hi u w : Z) : Z :=
  (hi - lo) * (u * 10 ^ 12) / FIXED_DIV * FIXED_DIV / (w * 10 ^ 12) + lo.

Lemma leg_range lo hi u w : lo <= hi -> 0 <= u <= w -> 0 < w -> lo <= leg lo hi u w <= hi.
Proof.
  intros Hlh Hu Hw. unfold leg, FIXED_DIV.
  set (q := (hi - lo) * (u * 10 ^ 12) / 10 ^ 18).
  assert (0 <= q) by (apply Z.div_pos; nia).
  assert (q * 10 ^ 18 <= (hi - lo) * (u * 10 ^ 12)).
  { rewrite Z.mul_comm. apply Z.mul_div_le. lia. }
  assert (0 <= q * 10 ^ 18 / (w * 10 ^ 12)) by (apply Z.div_pos; nia).
  assert (q * 10 ^ 18 / (w * 10 ^ 12) <= hi - lo); [| lia].
  apply Z.div_le_upper_bound; nia.
Qed.

Lemma leg_mono lo hi u v w : lo <= hi -> 0 <= u <= v -> 0 < w -> leg lo hi u w <= leg lo hi v w.
Proof.
  intros Hlh Hu Hw. unfold leg, FIXED_DIV.
  assert ((hi - lo) * (u * 10 ^ 12) / 10 ^ 18 <= (hi - lo) * (v * 10 ^ 12) / 10 ^ 18)
    by (apply Z.div_le_mono; nia).
  assert (forall a b, a <= b -> a * 10 ^ 18 / (w * 10 ^ 12) <= b * 10 ^ 18 / (w * 10 ^ 12))
    as Hm by (intros; apply Z.div_le_mono; nia).
  specialize (Hm _ _ H). lia.
Qed.

Section rates.
Context {SA : SpArithmetic} {SL : SpArithmeticLaws SA}.
Implicit Types (m : InterestRateModel) (j : JumpModel) (u v : Ratio).

Lemma permill_into_fixed_mul u :
  is_permill u -> permill_into_fixed u = u * 10 ^ 12 /\ is_u128 (u * 10 ^ 12).
Proof.
  intros Hu. rewrite permill_into_fixed_eq by done. split; [done |].
  unfold is_permill, PERMILL_ONE, is_u128, u128_max in *. lia.
Qed.

(** The arithmetic of one leg, free of overflow. *)
Lemma leg_run lo hi u w :
  0 <= lo <= hi -> hi <= FIXED_DIV -> 0 <= u <= w -> 0 < w <= PERMILL_ONE ->
  (d ← fixed_checked_sub hi lo;
   q ← fixed_checked_div (fixed_saturating_mul d (permill_into_fixed u)) (permill_into_fixed w);
   fixed_checked_add q lo) = Some (leg lo hi u w).
Proof.
  intros Hlo Hhi Hu Hw. pose proof (leg_range lo hi u w ltac:(lia) Hu ltac:(lia)) as Hr.
  destruct (permill_into_fixed_mul u) as [-> Hu128]; [unfold is_permill; lia |].
  destruct (permill_into_fixed_mul w) as [-> Hw128]; [unfold is_permill; lia |].
  assert (FIXED_DIV <= u128_max) by (vm_compute; congruence).
  assert (forall x, 0 <= x <= FIXED_DIV -> is_u128 x) as Hfix by (unfold is_u128; lia).
  rewrite fixed_checked_sub_eq, checked_sub_ok by (first [apply Hfix | idtac]; lia). simpl.
  rewrite fixed_saturating_mul_eq by (first [apply Hfix; lia | done]).
  set (q := (hi - lo) * (u * 10 ^ 12) / FIXED_DIV).
  assert (0 <= q) by (apply Z.div_pos; unfold FIXED_DIV; nia).
  assert (q <= FIXED_DIV).
  { apply Z.div_le_upper_bound; unfold FIXED_DIV, PERMILL_ONE in *; nia. }
  assert (clamp_u128 q = q) as -> by (unfold clamp_u128; lia).
  rewrite fixed_checked_div_eq by (first [apply Hfix; lia | done]).
  destruct (Z.eqb_spec (w * 10 ^ 12) 0); [lia |].
  assert (q * FIXED_DIV / (w * 10 ^ 12) = leg lo hi u w - lo) as -> by (unfold leg; fold q; lia).
  rewrite fit_u128_ok by lia. simpl. rewrite fixed_checked_add_eq by (apply Hfix; lia).
  rewrite fit_u128_ok by lia. f_equal. lia.
Qed.

Lemma check_jump j :
  JumpModel_check_model j = true ->
  base_rate j <= jump_rate j /\ jump_rate j <= full_rate j /\
  full_rate j <= JUMP_MAX_FULL_RATE /\ full_rate j <= FIXED_DIV.
Proof.
  unfold JumpModel_check_model. rewrite !Z.gtb_ltb.
  destruct (JUMP_MAX_BASE_RATE <? base_rate j), (JUMP_MAX_JUMP_RATE <? jump_rate j); simpl; try done.
  destruct (Z.ltb_spec JUMP_MAX_FULL_RATE (full_rate j)); simpl; [done |].
  destruct (Z.ltb_spec (jump_rate j) (base_rate j)); simpl; [done |].
  destruct (Z.ltb_spec (full_rate j) (jump_rate j)); simpl; [done |].
  unfold JUMP_MAX_FULL_RATE, FIXED_DIV in *. lia.
Qed.

(** The jump model in closed form. *)
Lemma jump_rate_eq j u :
  wf_model (Jump j) -> JumpModel_check_model j = true -> is_permill u ->
  ~ rate_undefined (Jump j) u ->
  JumpModel_get_borrow_rate j u =
    Some (if u <=? jump_utilization j then leg (base_rate j) (jump_rate j) u (jump_utilization j)
          else leg (jump_rate j) (full_rate j) (u - jump_utilization j)
                 (PERMILL_ONE - jump_utilization j)).
Proof.
  intros (Hb & Hj & Hf & Hk) (H1 & H2 & H3 & H4)%check_jump Hu Hd. unfold is_permill in Hu, Hk.
  simpl in Hd. unfold JumpModel_get_borrow_rate.
  destruct (Z.leb_spec u (jump_utilization j)).
  - apply leg_run; lia.
  - rewrite !permill_saturating_sub_eq by (unfold is_permill; lia).
    unfold saturating_sub. rewrite !Z.max_r by lia. apply leg_run; lia.
Qed.

Lemma curve_rate_eq c u :
  wf_model (Curve c) -> CurveModel_check_model c = true -> is_permill u ->
  exists p, CurveModel_get_borrow_rate c u = Some (p + curve_base_rate c) /\
    p = fixed_saturating_pow (u * 10 ^ 12) 9 /\ 0 <= p <= FIXED_DIV.
Proof.
  intros Hb Hc Hu. unfold CurveModel_get_borrow_rate, CurveModel_check_model in *. zbool.
  destruct (permill_into_fixed_mul u Hu) as [-> Hu128].
  exists (fixed_saturating_pow (u * 10 ^ 12) 9). simpl in Hb.
  destruct (fixed_saturating_pow_range _ 9 Hu128) as [? ?].
  assert (fixed_saturating_pow (u * 10 ^ 12) 9 <= FIXED_DIV).
  { apply fixed_saturating_pow_unit. unfold is_permill, PERMILL_ONE, FIXED_DIV in *. lia. }
  change CURVE_MAX_BASE_RATE with (10 ^ 17) in *.
  rewrite fixed_checked_add_eq, fit_u128_ok; [done | ..];
    unfold is_u128, u128_max, FIXED_DIV in *; lia.
Qed.

(** A kink at zero: the interpolation divides by it. *)
Lemma zero_kink_None j u :
  wf_model (Jump j) -> JumpModel_check_model j = true -> rate_undefined (Jump j) u ->
  JumpModel_get_borrow_rate j u = None.
Proof.
  intros (Hb & Hj & _ & _) (H1 & H2 & _ & H4)%check_jump [Hk ->].
  unfold JumpModel_get_borrow_rate. rewrite Hk. simpl.
  assert (FIXED_DIV <= u128_max) by (vm_compute; congruence).
  assert (forall x, 0 <= x <= FIXED_DIV -> is_u128 x) as Hfix by (unfold is_u128; lia).
  rewrite fixed_checked_sub_eq, checked_sub_ok by (first [apply Hfix | idtac]; lia). simpl.
  destruct (permill_into_fixed_mul 0) as [-> Hz]; [by_range |].
  rewrite fixed_saturating_mul_eq by (first [apply Hfix; lia | done]).
  rewrite Z.mul_0_r. by rewrite fixed_checked_div_eq.
Qed.

(** C34: a market's rate model that passed [check_model] gives every utilization between 0 and
    100% a borrow rate (no overflow, no division by zero) that lies between the base rate and
    the model's maximum, which is 50% a year for the jump model and 110% for the curve; with one
    exception, which [check_model] does not rule out: a jump model whose kink is at zero has no
    rate at utilization zero. *)
Theorem borrow_rate_bounded m u :
  wf_model m -> check_model m = true -> is_permill u ->
  (rate_undefined m u -> get_borrow_rate m u = None) /\
  (~ rate_undefined m u -> exists r, get_borrow_rate m u = Some r /\ min_rate m <= r <= max_rate m /\
    max_rate m <= match m with Jump _ => JUMP_MAX_FULL_RATE
                          | Curve _ => FIXED_DIV + CURVE_MAX_BASE_RATE end).
Proof.
  intros Hwf Hc Hu. destruct m as [j|c]; (split; [intros Hd | intros Hd]).
  - by apply zero_kink_None.
  - simpl. rewrite jump_rate_eq by done. eexists. split; [done |]. simpl in Hd.
    destruct Hwf as (? & ? & ? & Hk), (check_jump j Hc) as (? & ? & ? & _). unfold is_permill in Hu, Hk.
    destruct (Z.leb_spec u (jump_utilization j)).
    + pose proof (leg_range (base_rate j) (jump_rate j) u (jump_utilization j)
        ltac:(lia) ltac:(lia) ltac:(lia)). lia.
    + pose proof (leg_range (jump_rate j) (full_rate j) (u - jump_utilization j)
        (PERMILL_ONE - jump_utilization j) ltac:(lia) ltac:(lia) ltac:(lia)). lia.
  - done.
  - simpl. destruct (curve_rate_eq c u Hwf Hc Hu) as (p & -> & _ & ?).
    simpl in Hc. unfold CurveModel_check_model in Hc. zbool. eexists. split; [done |]. lia.
Qed.

(** The borrow rate of an accepted model never falls when the utilization rises, also
    across the kink of the jump model. *)
Theorem borrow_rate_mono m u v ru rv :
  wf_model m -> check_model m = true -> is_permill u -> is_permill v -> u <= v ->
  get_borrow_rate m u = Some ru -> get_borrow_rate m v = Some rv -> ru <= rv.
Proof.
  intros Hwf Hc Hu Hv Huv Hru Hrv. destruct m as [j|c]; simpl in *.
  - assert (forall x r, JumpModel_get_borrow_rate j x = Some r -> ~ rate_undefined (Jump j) x) as Hdef
      by (intros x r Hx Hd; rewrite zero_kink_None in Hx; done).
    pose proof (Hdef _ _ Hru) as Hdu. pose proof (Hdef _ _ Hrv) as Hdv.
    rewrite jump_rate_eq in Hru, Hrv by done. minv. simpl in *.
    destruct Hwf as (? & ? & ? & ?), (check_jump j Hc) as (? & ? & ? & _). unfold is_permill in *.
    destruct (Z.leb_spec u (jump_utilization j)), (Z.leb_spec v (jump_utilization j)); try lia.
    + apply leg_mono; lia.
    + pose proof (leg_range (base_rate j) (jump_rate j) u (jump_utilization j)
        ltac:(lia) ltac:(lia) ltac:(lia)).
      pose proof (leg_range (jump_rate j) (full_rate j) (v - jump_utilization j)
        (PERMILL_ONE - jump_utilization j) ltac:(lia) ltac:(lia) ltac:(lia)). lia.
    + apply leg_mono; lia.
  - destruct (curve_rate_eq c u Hwf Hc Hu) as (p & Ep & -> & _). rewrite Ep in Hru.
    destruct (curve_rate_eq c v Hwf Hc Hv) as (q & Eq & -> & _). rewrite Eq in Hrv. minv.
    apply Z.add_le_mono_r, fixed_saturating_pow_mono.
    + by apply permill_into_fixed_mul.
    + unfold is_permill in *. lia.
Qed.

Lemma saturating_mul_share r p :
  is_u128 r -> is_permill p ->
  0 <= fixed_saturating_mul r (permill_into_fixed p) <= r /\
  fixed_saturating_mul r (permill_into_fixed p) * PERMILL_ONE <= r * p.
Proof.
  intros [Hr Hr'] Hp. destruct (permill_into_fixed_mul p Hp) as [-> Hp128].
  rewrite fixed_saturating_mul_eq by done. unfold is_permill, PERMILL_ONE, FIXED_DIV in *.
  pose proof (Z.mul_div_le (r * (p * 10 ^ 12)) (10 ^ 18) ltac:(lia)).
  assert (0 <= r * (p * 10 ^ 12) / 10 ^ 18) by (apply Z.div_pos; nia).
  assert (r * (p * 10 ^ 12) / 10 ^ 18 * 10 ^ 6 <= r * p) by nia.
  assert (r * (p * 10 ^ 12) / 10 ^ 18 <= r) by nia.
  unfold clamp_u128. lia.
Qed.

(** Suppliers earn at most the borrow rate scaled down by the utilization and by the part
    that does not go to the reserves; in particular never more than borrowers pay. *)
Theorem supply_rate_within_borrow_rate r util reserve_factor :
  is_u128 r -> is_permill util -> is_permill reserve_factor ->
  0 <= get_supply_rate r util reserve_factor <= r /\
  get_supply_rate r util reserve_factor * (PERMILL_ONE * PERMILL_ONE)
    <= r * (PERMILL_ONE - reserve_factor) * util.
Proof.
  intros Hr Hu Hf. unfold get_supply_rate.
  rewrite permill_saturating_sub_eq by (unfold is_permill, PERMILL_ONE in *; lia).
  assert (saturating_sub PERMILL_ONE reserve_factor = PERMILL_ONE - reserve_factor) as ->.
  { unfold saturating_sub, is_permill in *. lia. }
  destruct (saturating_mul_share r (PERMILL_ONE - reserve_factor) Hr) as [Hp1 Hp2].
  { unfold is_permill, PERMILL_ONE in *. lia. }
  set (p := fixed_saturating_mul r _) in *.
  destruct (saturating_mul_share p util) as [Hs1 Hs2]; [unfold is_u128 in *; lia | done |].
  set (q := fixed_saturating_mul p _) in *. unfold is_permill, PERMILL_ONE in *. nia.
Qed.

(** [check_model] accepts a jump model whose kink is at utilization zero, and such a model
    has no borrow rate at utilization zero: the interpolation divides by the kink. *)
Theorem zero_kink_has_no_rate base jump full :
  0 <= base <= jump -> jump <= full -> base <= JUMP_MAX_BASE_RATE ->
  jump <= JUMP_MAX_JUMP_RATE -> full <= JUMP_MAX_FULL_RATE ->
  check_model (new_jump_model base jump full 0) = true /\
  get_borrow_rate (new_jump_model base jump full 0) 0 = None.
Proof.
  intros. assert (check_model (new_jump_model base jump full 0) = true) as Hc.
  { simpl. unfold JumpModel_check_model. simpl. rewrite !Z.gtb_ltb.
    by rewrite !(proj2 (Z.ltb_ge _ _)) by lia. }
  split; [done |]. apply zero_kink_None; [| done | done]. unfold wf_model, is_permill, PERMILL_ONE; simpl. lia.
Qed.
End rates.

Section instances.
#[local] Existing Instances sp_reference sp_reference_laws.

(** The default model of the pallet: 2%, 10% at 80% utilization, 32% at full utilization. *)
Definition demo_model : InterestRateModel :=
  new_jump_model (2 * 10 ^ 16) (10 ^ 17) (32 * 10 ^ 16) 800000.

Lemma borrow_rate_bounded_witness :
  exists r, get_borrow_rate demo_model 900000 = Some r /\ 2 * 10 ^ 16 <= r <= 32 * 10 ^ 16 /\
    32 * 10 ^ 16 <= JUMP_MAX_FULL_RATE.
Proof. apply (borrow_rate_bounded demo_model 900000); [by_range | reflexivity | by_range | simpl; lia]. Defined.

Lemma borrow_rate_mono_witness : 100000000000000000 <= 210000000000000000.
Proof.
  apply (borrow_rate_mono demo_model 800000 900000);
    [by_range | reflexivity | by_range | by_range | lia | by_eval | by_eval].
Defined.

Lemma supply_rate_within_borrow_rate_witness :
  0 <= get_supply_rate (10 ^ 17) 800000 150000 <= 10 ^ 17 /\
  get_supply_rate (10 ^ 17) 800000 150000 * (PERMILL_ONE * PERMILL_ONE)
    <= 10 ^ 17 * (PERMILL_ONE - 150000) * 800000.
Proof. apply (supply_rate_within_borrow_rate (10 ^ 17) 800000 150000); by_range. Defined.

Lemma zero_kink_has_no_rate_witness :
  check_model (new_jump_model (2 * 10 ^ 16) (10 ^ 17) (32 * 10 ^ 16) 0) = true /\
  get_borrow_rate (new_jump_model (2 * 10 ^ 16) (10 ^ 17) (32 * 10 ^ 16) 0) 0 = None.
Proof.
  apply (zero_kink_has_no_rate (2 * 10 ^ 16) (10 ^ 17) (32 * 10 ^ 16)); by_range.
Defined.
End instances.
