(* ===== verification/Loans.v ===== *)
(** * The lending pallet (src/pallets/loans/src: lib.rs, interest.rs, farming.rs, ptoken.rs,
      types.rs)

    Suppliers deposit an asset for vouchers (pTokens), borrowers borrow against deposits marked
    as collateral, liquidators repay the debts of accounts whose collateral has become too
    small.  [State] is the pallet's storage with the ledger behind [T::Assets], the answers of
    the price oracle, the Unix time, the block number and the deposited events.  The accounts
    the pallet derives by hashing and the account lookup are fields of [Config]. *)

From S2P Require Import Prelude Arith Frame RateModel.
Import RateModel.

Module Loans.

(** ** types.rs *)

Record BorrowSnapshot := mkBorrowSnapshot { principal : Balance; snapshot_index : Rate }.
Record EarnedSnapshot := mkEarnedSnapshot {
  total_earned_prior : Balance; exchange_rate_prior : Rate }.
Record Deposits := mkDeposits { voucher_balance : Balance; is_collateral : bool }.
Record RewardMarketState := mkRewardMarketState { index : Balance; block : BlockNumber }.

Inductive MarketState := Active | Pending | Supervision.

Record Market := mkMarket {
  collateral_factor : Ratio;
  liquidation_threshold : Ratio;
  reserve_factor : Ratio;
  close_factor : Ratio;
  liquidate_incentive : Rate;
  liquidate_incentive_reserved_factor : Ratio;
  rate_model : InterestRateModel;
  state : MarketState;
  supply_cap : Balance;
  borrow_cap : Balance;
  ptoken_id : CurrencyId;
}.

Definition default_borrow : BorrowSnapshot := mkBorrowSnapshot 0 0.
Definition default_earned : EarnedSnapshot := mkEarnedSnapshot 0 0.
Definition default_deposits : Deposits := mkDeposits 0 false.
Definition default_reward : RewardMarketState := mkRewardMarketState 0 0.

#[global] Instance MarketState_eq_dec : EqDecision MarketState.
Proof. solve_decision. Defined.

(** ** lib.rs: constants, configuration, events and storage *)

Definition MAX_EXCHANGE_RATE : Rate := 1000000000000000000.
Definition MIN_EXCHANGE_RATE : Rate := 20000000000000000.
(** src/primitives/src/lib.rs *)
Definition SECONDS_PER_YEAR : Timestamp := 365 * 24 * 60 * 60.
(** src/primitives/src/tokens.rs *)
Definition is_auxiliary_token (asset_id : CurrencyId) : bool := asset_id >=? u32_max - 10000.

Record Config := mkConfig {
  account_id : AccountId;                         (* PalletId::get().into_account_truncating() *)
  reward_account_id : Res AccountId;              (* a hash of it *)
  incentive_reward_account_id : Res AccountId;    (* another *)
  ReserveOrigin : RuntimeOrigin -> bool;
  UpdateOrigin : RuntimeOrigin -> bool;
  lookup : Z -> Res AccountId;                    (* T::Lookup *)
  RewardAssetId : CurrencyId;
  LiquidationFreeAssetId : CurrencyId;
}.

Inductive Event :=
| CollateralAssetAdded (who : AccountId) (asset_id : CurrencyId)
| CollateralAssetRemoved (who : AccountId) (asset_id : CurrencyId)
| Deposited (who : AccountId) (asset_id : CurrencyId) (amount : Balance)
| Redeemed (who : AccountId) (asset_id : CurrencyId) (amount : Balance)
| Borrowed (who : AccountId) (asset_id : CurrencyId) (amount : Balance)
| RepaidBorrow (who : AccountId) (asset_id : CurrencyId) (amount : Balance)
| LiquidatedBorrow (liquidator borrower : AccountId) (liquidation collateral : CurrencyId)
    (repay_amount collateral_amount : Balance)
| ReservesReduced (who : AccountId) (asset_id : CurrencyId) (amount total_reserves : Balance)
| ReservesAdded (who : AccountId) (asset_id : CurrencyId) (amount total_reserves : Balance)
| NewMarket (asset_id : CurrencyId) (market : Market)
| ActivatedMarket (asset_id : CurrencyId)
| UpdatedMarket (asset_id : CurrencyId) (market : Market)
| RewardAdded (who : AccountId) (amount : Balance)
| RewardWithdrawn (who : AccountId) (amount : Balance)
| MarketRewardSpeedUpdated (asset_id : CurrencyId) (supply_speed borrow_speed : Balance)
| DistributedSupplierReward (asset_id : CurrencyId) (who : AccountId) (reward index : Balance)
| DistributedBorrowerReward (asset_id : CurrencyId) (who : AccountId) (reward index : Balance)
| RewardPaid (who : AccountId) (amount : Balance)
| IncentiveReservesReduced (who : AccountId) (asset_id : CurrencyId) (amount : Balance)
| LiquidationFreeCollateralsUpdated (collaterals : list CurrencyId).

Record State (L : Type) := mkState {
  LastAccruedInterestTime : gmap CurrencyId Timestamp;
  LiquidationFreeCollaterals : list CurrencyId;
  TotalSupply : gmap CurrencyId Balance;
  TotalBorrows : gmap CurrencyId Balance;
  TotalReserves : gmap CurrencyId Balance;
  AccountBorrows : gmap (CurrencyId * AccountId) BorrowSnapshot;
  AccountDeposits : gmap (CurrencyId * AccountId) Deposits;
  AccountEarned : gmap (CurrencyId * AccountId) EarnedSnapshot;
  BorrowIndex : gmap CurrencyId Rate;
  ExchangeRate : gmap CurrencyId Rate;
  BorrowRate : gmap CurrencyId Rate;
  SupplyRate : gmap CurrencyId Rate;
  UtilizationRatio : gmap CurrencyId Ratio;
  Markets : gmap CurrencyId Market;
  UnderlyingAssetId : gmap CurrencyId CurrencyId;
  RewardSupplySpeed : gmap CurrencyId Balance;
  RewardBorrowSpeed : gmap CurrencyId Balance;
  RewardSupplyState : gmap CurrencyId RewardMarketState;
  RewardBorrowState : gmap CurrencyId RewardMarketState;
  RewardSupplierIndex : gmap (CurrencyId * AccountId) Balance;
  RewardBorrowerIndex : gmap (CurrencyId * AccountId) Balance;
  RewardAccrued : gmap AccountId Balance;
  assets : L;
  price_feed : CurrencyId -> option (FixedU128 * Timestamp);  (* T::PriceFeeder::get_price *)
  unix_time : Timestamp;                                       (* T::UnixTime, in seconds *)
  block_number : BlockNumber;
  events : list Event;
}.
Arguments mkState {L}.
Arguments LastAccruedInterestTime {L}.
Arguments LiquidationFreeCollaterals {L}.
Arguments TotalSupply {L}.
Arguments TotalBorrows {L}.
Arguments TotalReserves {L}.
Arguments AccountBorrows {L}.
Arguments AccountDeposits {L}.
Arguments AccountEarned {L}.
Arguments BorrowIndex {L}.
Arguments ExchangeRate {L}.
Arguments BorrowRate {L}.
Arguments SupplyRate {L}.
Arguments UtilizationRatio {L}.
Arguments Markets {L}.
Arguments UnderlyingAssetId {L}.
Arguments RewardSupplySpeed {L}.
Arguments RewardBorrowSpeed {L}.
Arguments RewardSupplyState {L}.
Arguments RewardBorrowState {L}.
Arguments RewardSupplierIndex {L}.
Arguments RewardBorrowerIndex {L}.
Arguments RewardAccrued {L}.
Arguments assets {L}.
Arguments price_feed {L}.
Arguments unix_time {L}.
Arguments block_number {L}.
Arguments events {L}.

Definition state_eta {L} (s : State L) : State L :=
  mkState (LastAccruedInterestTime s) (LiquidationFreeCollaterals s) (TotalSupply s)
    (TotalBorrows s) (TotalReserves s) (AccountBorrows s) (AccountDeposits s) (AccountEarned s)
    (BorrowIndex s) (ExchangeRate s) (BorrowRate s) (SupplyRate s) (UtilizationRatio s)
    (Markets s) (UnderlyingAssetId s) (RewardSupplySpeed s) (RewardBorrowSpeed s)
    (RewardSupplyState s) (RewardBorrowState s) (RewardSupplierIndex s) (RewardBorrowerIndex s)
    (RewardAccrued s) (assets s) (price_feed s) (unix_time s) (block_number s) (events s).

Section setters.
Context {L : Type}.
Implicit Types s : State L.

Definition set_LastAccruedInterestTime v s : State L :=
  ltac:(update_field (@state_eta L) s (LastAccruedInterestTime s) v).
Definition set_LiquidationFreeCollaterals v s : State L :=
  ltac:(update_field (@state_eta L) s (LiquidationFreeCollaterals s) v).
Definition set_TotalSupply v s : State L :=
  ltac:(update_field (@state_eta L) s (TotalSupply s) v).
Definition set_TotalBorrows v s : State L :=
  ltac:(update_field (@state_eta L) s (TotalBorrows s) v).
Definition set_TotalReserves v s : State L :=
  ltac:(update_field (@state_eta L) s (TotalReserves s) v).
Definition set_AccountBorrows v s : State L :=
  ltac:(update_field (@state_eta L) s (AccountBorrows s) v).
Definition set_AccountDeposits v s : State L :=
  ltac:(update_field (@state_eta L) s (AccountDeposits s) v).
Definition set_AccountEarned v s : State L :=
  ltac:(update_field (@state_eta L) s (AccountEarned s) v).
Definition set_BorrowIndex v s : State L :=
  ltac:(update_field (@state_eta L) s (BorrowIndex s) v).
Definition set_ExchangeRate v s : State L :=
  ltac:(update_field (@state_eta L) s (ExchangeRate s) v).
Definition set_BorrowRate v s : State L :=
  ltac:(update_field (@state_eta L) s (BorrowRate s) v).
Definition set_SupplyRate v s : State L :=
  ltac:(update_field (@state_eta L) s (SupplyRate s) v).
Definition set_UtilizationRatio v s : State L :=
  ltac:(update_field (@state_eta L) s (UtilizationRatio s) v).
Definition set_Markets v s : State L :=
  ltac:(update_field (@state_eta L) s (Markets s) v).
Definition set_UnderlyingAssetId v s : State L :=
  ltac:(update_field (@state_eta L) s (UnderlyingAssetId s) v).
Definition set_RewardSupplySpeed v s : State L :=
  ltac:(update_field (@state_eta L) s (RewardSupplySpeed s) v).
Definition set_RewardBorrowSpeed v s : State L :=
  ltac:(update_field (@state_eta L) s (RewardBorrowSpeed s) v).
Definition set_RewardSupplyState v s : State L :=
  ltac:(update_field (@state_eta L) s (RewardSupplyState s) v).
Definition set_RewardBorrowState v s : State L :=
  ltac:(update_field (@state_eta L) s (RewardBorrowState s) v).
Definition set_RewardSupplierIndex v s : State L :=
  ltac:(update_field (@state_eta L) s (RewardSupplierIndex s) v).
Definition set_RewardBorrowerIndex v s : State L :=
  ltac:(update_field (@state_eta L) s (RewardBorrowerIndex s) v).
Definition set_RewardAccrued v s : State L :=
  ltac:(update_field (@state_eta L) s (RewardAccrued s) v).
Definition set_assets v s : State L := ltac:(update_field (@state_eta L) s (assets s) v).
Definition set_price_feed v s : State L := ltac:(update_field (@state_eta L) s (price_feed s) v).
Definition set_unix_time v s : State L := ltac:(update_field (@state_eta L) s (unix_time s) v).
Definition set_block_number v s : State L :=
  ltac:(update_field (@state_eta L) s (block_number s) v).
Definition push_event (e : Event) s : State L :=
  ltac:(update_field (@state_eta L) s (events s) (events s ++ [e])).
End setters.

(** Reading a [ValueQuery] map of numbers *)
Definition at0 {K} `{Countable K} (m : gmap K Z) (k : K) : Z := default 0 (m !! k).

Section pallet.
Context {SA : SpArithmetic} {NB : NumBigint} {SI : StorageIter}.
Context {L : Type} {FU : Fungibles L}.
Variable T : Config.

Abbreviation St := (State L).
Abbreviation Run := (M St DispatchError).

Definition deposit_event (e : Event) : Run unit := modify (push_event e).
Definition on_assets (f : L -> Res L) : Run unit := fun s =>
  match f (assets s) with
  | Ok l => Ok (tt, set_assets l s) | Err e => Err e | Panic => Panic
  end.

Definition account_deposits (s : St) (asset_id : CurrencyId) (who : AccountId) : Deposits :=
  default default_deposits (AccountDeposits s !! (asset_id, who)).
Definition account_borrows (s : St) (asset_id : CurrencyId) (who : AccountId) : BorrowSnapshot :=
  default default_borrow (AccountBorrows s !! (asset_id, who)).
Definition put_deposits (asset_id : CurrencyId) (who : AccountId) (d : Deposits) : Run unit :=
  modify (fun s => set_AccountDeposits (<[(asset_id, who) := d]> (AccountDeposits s)) s).
Definition put_borrows (asset_id : CurrencyId) (who : AccountId) (b : BorrowSnapshot)
    : Run unit :=
  modify (fun s => set_AccountBorrows (<[(asset_id, who) := b]> (AccountBorrows s)) s).
Definition put_total_borrows (asset_id : CurrencyId) (n : Balance) : Run unit :=
  modify (fun s => set_TotalBorrows (<[asset_id := n]> (TotalBorrows s)) s).
Definition put_total_supply (asset_id : CurrencyId) (n : Balance) : Run unit :=
  modify (fun s => set_TotalSupply (<[asset_id := n]> (TotalSupply s)) s).
Definition put_total_reserves (asset_id : CurrencyId) (n : Balance) : Run unit :=
  modify (fun s => set_TotalReserves (<[asset_id := n]> (TotalReserves s)) s).

(** ** lib.rs: markets and ids *)

Definition market (s : St) (asset_id : CurrencyId) : Res Market :=
  ok_or (Markets s !! asset_id) (Loans MarketDoesNotExist).

Definition mutate_market (asset_id : CurrencyId) (cb : Market -> Market) : Run Market :=
  s ← get;
  m ← lift (ok_or (Markets s !! asset_id) (Loans MarketDoesNotExist));
  _ ← modify (set_Markets (<[asset_id := cb m]> (Markets s)));
  mret (cb m).

Definition is_active (m : Market) : bool := bool_decide (state m = Active).
Definition active_markets (s : St) : list (CurrencyId * Market) :=
  List.filter (fun p => is_active p.2) (storage_iter (Markets s)).

Definition ensure_active_market (s : St) (asset_id : CurrencyId) : Res Market :=
  ok_or (snd <$> List.find (fun p => p.1 =? asset_id) (active_markets s))
    (Loans MarketNotActivated).

Definition underlying_id (s : St) (ptoken : CurrencyId) : Res CurrencyId :=
  ok_or (UnderlyingAssetId s !! ptoken) (Loans InvalidPtokenId).

Definition get_ptoken_id (s : St) (asset_id : CurrencyId) : Res CurrencyId :=
  match market s asset_id with
  | Ok m => Ok (ptoken_id m)
  | _ => Err (Loans MarketDoesNotExist)
  end.

Definition ensure_ptoken (s : St) (ptoken : CurrencyId) : Res unit :=
  _ ← ensure (bool_decide (UnderlyingAssetId s !! ptoken = None)) (Loans InvalidPtokenId);
  ensure (bool_decide (Markets s !! ptoken = None)) (Loans InvalidPtokenId).

Definition liquidation_free (s : St) (asset_id : CurrencyId) : bool :=
  existsb (fun x => x =? asset_id) (LiquidationFreeCollaterals s).

(** ** lib.rs: prices, cash and vouchers *)

Definition get_total_cash (s : St) (asset_id : CurrencyId) : Balance :=
  reducible_balance (assets s) asset_id (account_id T) false.

Definition get_price (s : St) (asset_id : CurrencyId) : Res FixedU128 :=
  '(price, _) ← ok_or (price_feed s asset_id) (Loans PriceOracleNotReady);
  _ ← ensure (negb (price =? 0)) (Loans PriceIsZero);
  Ok price.

Definition get_asset_value (s : St) (asset_id : CurrencyId) (amount : Balance) : Res FixedU128 :=
  price ← get_price s asset_id;
  ok_or (fixed_checked_mul price amount) (Arithmetic Overflow).

Definition calc_underlying_amount (voucher_amount : Balance) (exchange_rate : Rate) : Res Balance :=
  ok_or (fixed_checked_mul_int exchange_rate voucher_amount) (Arithmetic Overflow).

Definition calc_collateral_amount (underlying_amount : Balance) (exchange_rate : Rate)
    : Res Balance :=
  ok_or (fixed_checked_div underlying_amount exchange_rate) (Arithmetic Underflow).

(** ** interest.rs *)

Definition calc_utilization_ratio (cash borrows reserves : Balance) : Res Ratio :=
  if borrows =? 0 then Ok 0
  else
    total ← ok_or (t ← checked_add cash borrows; checked_sub t reserves) (Arithmetic Overflow);
    Ok (permill_from_rational borrows total).

Definition ensure_valid_exchange_rate (exchange_rate : Rate) : Res unit :=
  ensure ((exchange_rate >=? MIN_EXCHANGE_RATE) && (exchange_rate <? MAX_EXCHANGE_RATE))
    (Loans InvalidExchangeRate).

Definition calculate_exchange_rate (total_supply total_cash total_borrows total_reserves : Balance)
    : Res Rate :=
  if total_supply =? 0 then Ok MIN_EXCHANGE_RATE
  else
    cash_plus_borrows_minus_reserves ←
      ok_or (t ← checked_add total_cash total_borrows; checked_sub t total_reserves)
        (Arithmetic Overflow);
    exchange_rate ←
      ok_or (fixed_checked_from_rational cash_plus_borrows_minus_reserves total_supply)
        (Arithmetic Underflow);
    _ ← ensure_valid_exchange_rate exchange_rate;
    Ok exchange_rate.

Definition exchange_rate_stored (s : St) (asset_id : CurrencyId) : Res Rate :=
  calculate_exchange_rate (at0 (TotalSupply s) asset_id) (get_total_cash s asset_id)
    (at0 (TotalBorrows s) asset_id) (at0 (TotalReserves s) asset_id).

Definition accrued_interest (borrow_rate : Rate) (amount : Balance) (delta_time : Timestamp)
    : option Balance :=
  a ← fixed_checked_mul_int borrow_rate amount;
  b ← checked_mul a delta_time;
  checked_div b SECONDS_PER_YEAR.

Definition increment_index (borrow_rate : Rate) (index : Rate) (delta_time : Timestamp)
    : option Rate :=
  a ← fixed_checked_mul borrow_rate index;
  b ← fixed_checked_mul a (fixed_saturating_from_integer delta_time);
  fixed_checked_div b (fixed_saturating_from_integer SECONDS_PER_YEAR).

Record MarketStatus := mkMarketStatus {
  st_borrow_rate : Rate;
  st_supply_rate : Rate;
  st_exchange_rate : Rate;
  st_utilization : Ratio;
  st_total_borrows : Balance;
  st_total_reserves : Balance;
  st_borrow_index : FixedU128;
}.

Definition get_market_status (s : St) (asset_id : CurrencyId) : Res MarketStatus :=
  m ← market s asset_id;
  let total_supply := at0 (TotalSupply s) asset_id in
  let total_cash := get_total_cash s asset_id in
  let total_borrows := at0 (TotalBorrows s) asset_id in
  let total_reserves := at0 (TotalReserves s) asset_id in
  let borrow_index := at0 (BorrowIndex s) asset_id in
  util ← calc_utilization_ratio total_cash total_borrows total_reserves;
  borrow_rate ← ok_or (get_borrow_rate (rate_model m) util) (Arithmetic Overflow);
  let supply_rate := get_supply_rate borrow_rate util (reserve_factor m) in
  let now := unix_time s in
  let last_accrued_interest_time := at0 (LastAccruedInterestTime s) asset_id in
  '(total_borrows, total_reserves, borrow_index) ←
    (if now >? last_accrued_interest_time then
       delta_time ← or_panic (checked_sub now last_accrued_interest_time);
       interest_accumulated ←
         ok_or (accrued_interest borrow_rate total_borrows delta_time) (Arithmetic Overflow);
       total_borrows ←
         ok_or (checked_add interest_accumulated total_borrows) (Arithmetic Overflow);
       total_reserves ←
         ok_or (checked_add (permill_mul_floor (reserve_factor m) interest_accumulated)
                  total_reserves) (Arithmetic Overflow);
       borrow_index ←
         ok_or (r ← increment_index borrow_rate borrow_index delta_time;
                fixed_checked_add r borrow_index) (Arithmetic Overflow);
       Ok (total_borrows, total_reserves, borrow_index)
     else Ok (total_borrows, total_reserves, borrow_index));
  exchange_rate ← calculate_exchange_rate total_supply total_cash total_borrows total_reserves;
  Ok (mkMarketStatus borrow_rate supply_rate exchange_rate util total_borrows total_reserves
        borrow_index).

Definition update_last_accrued_interest_time (asset_id : CurrencyId) (time : Timestamp)
    : Run unit :=
  modify (fun s => set_LastAccruedInterestTime (<[asset_id := time]> (LastAccruedInterestTime s)) s).

Definition accrue_interest (asset_id : CurrencyId) : Run unit :=
  s ← get;
  let now := unix_time s in
  let last_accrued_interest_time := at0 (LastAccruedInterestTime s) asset_id in
  if last_accrued_interest_time =? 0 then update_last_accrued_interest_time asset_id now
  else if now <=? last_accrued_interest_time then mret tt
  else
    st ← reads (fun s => get_market_status s asset_id);
    _ ← update_last_accrued_interest_time asset_id now;
    _ ← put_total_borrows asset_id (st_total_borrows st);
    _ ← put_total_reserves asset_id (st_total_reserves st);
    _ ← modify (fun s => set_BorrowIndex (<[asset_id := st_borrow_index st]> (BorrowIndex s)) s);
    _ ← modify (fun s =>
          set_UtilizationRatio (<[asset_id := st_utilization st]> (UtilizationRatio s)) s);
    _ ← modify (fun s => set_BorrowRate (<[asset_id := st_borrow_rate st]> (BorrowRate s)) s);
    _ ← modify (fun s => set_SupplyRate (<[asset_id := st_supply_rate st]> (SupplyRate s)) s);
    modify (fun s => set_ExchangeRate (<[asset_id := st_exchange_rate st]> (ExchangeRate s)) s).

(** ** lib.rs: positions and liquidity *)

Definition current_borrow_balance (s : St) (who : AccountId) (asset_id : CurrencyId) : Res Balance :=
  let snapshot := account_borrows s asset_id who in
  if (principal snapshot =? 0) || (snapshot_index snapshot =? 0) then Ok 0
  else ok_or (r ← fixed_checked_div (at0 (BorrowIndex s) asset_id) (snapshot_index snapshot);
              fixed_checked_mul_int r (principal snapshot)) (Arithmetic Overflow).

Definition current_collateral_balance (s : St) (supplier : AccountId) (asset_id : CurrencyId)
    : Res Balance :=
  if bool_decide (AccountDeposits s !! (asset_id, supplier) = None) then Ok 0
  else
    let deposits := account_deposits s asset_id supplier in
    if negb (is_collateral deposits) then Ok 0
    else if voucher_balance deposits =? 0 then Ok 0
    else
      exchange_rate ← exchange_rate_stored s asset_id;
      underlying_amount ← calc_underlying_amount (voucher_balance deposits) exchange_rate;
      m ← market s asset_id;
      Ok (permill_mul_ceil (collateral_factor m) underlying_amount).

Definition collateral_asset_value (s : St) (supplier : AccountId) (asset_id : CurrencyId)
    : Res FixedU128 :=
  effects_amount ← current_collateral_balance s supplier asset_id;
  get_asset_value s asset_id effects_amount.

Definition liquidation_threshold_asset_value (s : St) (borrower : AccountId)
    (asset_id : CurrencyId) : Res FixedU128 :=
  if bool_decide (AccountDeposits s !! (asset_id, borrower) = None) then Ok 0
  else
    let deposits := account_deposits s asset_id borrower in
    if negb (is_collateral deposits) then Ok 0
    else if voucher_balance deposits =? 0 then Ok 0
    else
      exchange_rate ← exchange_rate_stored s asset_id;
      underlying_amount ← calc_underlying_amount (voucher_balance deposits) exchange_rate;
      m ← market s asset_id;
      let effects_amount := permill_mul_ceil (liquidation_threshold m) underlying_amount in
      get_asset_value s asset_id effects_amount.

(** The [for (asset_id, _) in markets] loops that add up values. *)
Definition sum_values (f : CurrencyId -> Res FixedU128) (markets : list (CurrencyId * Market))
    : Res FixedU128 :=
  fold_res (fun total p =>
    v ← f p.1;
    ok_or (fixed_checked_add total v) (Arithmetic Overflow)) markets 0.

Definition total_collateral_value (s : St) (supplier : AccountId) : Res FixedU128 :=
  sum_values (collateral_asset_value s supplier) (active_markets s).

Definition total_liquidation_threshold_value (s : St) (borrower : AccountId) : Res FixedU128 :=
  sum_values (liquidation_threshold_asset_value s borrower) (active_markets s).

Definition total_borrowed_value (s : St) (borrower : AccountId) : Res FixedU128 :=
  fold_res (fun total_borrow_value p =>
    currency_borrow_amount ← current_borrow_balance s borrower p.1;
    if currency_borrow_amount =? 0 then Ok total_borrow_value
    else
      v ← get_asset_value s p.1 currency_borrow_amount;
      ok_or (fixed_checked_add v total_borrow_value) (Arithmetic Overflow)) (active_markets s) 0.

Definition get_lf_borrowed_value (s : St) (account : AccountId) : Res FixedU128 :=
  lf_borrowed_amount ← current_borrow_balance s account (LiquidationFreeAssetId T);
  get_asset_value s (LiquidationFreeAssetId T) lf_borrowed_amount.

Definition lf_markets (s : St) : list (CurrencyId * Market) :=
  List.filter (fun p => liquidation_free s p.1) (active_markets s).

Definition get_lf_base_position (s : St) (account : AccountId) : Res FixedU128 :=
  sum_values (collateral_asset_value s account) (lf_markets s).

Definition get_lf_liquidation_base_position (s : St) (account : AccountId) : Res FixedU128 :=
  sum_values (liquidation_threshold_asset_value s account) (lf_markets s).

(** The four-armed [match] at the end of both liquidity functions *)
Definition liquidity_of (total_collateral_value total_borrow_value lf_base_position
    lf_borrowed_value : FixedU128) : Res (FixedU128 * FixedU128 * FixedU128 * FixedU128) :=
  match total_collateral_value >? total_borrow_value, lf_base_position >? lf_borrowed_value with
  | true, true =>
      a ← or_panic (fixed_sub total_collateral_value total_borrow_value);
      b ← or_panic (fixed_sub lf_base_position lf_borrowed_value);
      Ok (a, 0, b, 0)
  | true, false =>
      a ← or_panic (fixed_sub total_collateral_value total_borrow_value);
      b ← or_panic (fixed_sub lf_borrowed_value lf_base_position);
      Ok (a, 0, 0, b)
  | false, true =>
      a ← or_panic (fixed_sub total_borrow_value total_collateral_value);
      b ← or_panic (fixed_sub lf_base_position lf_borrowed_value);
      Ok (0, a, b, 0)
  | false, false =>
      a ← or_panic (fixed_sub total_borrow_value total_collateral_value);
      b ← or_panic (fixed_sub lf_borrowed_value lf_base_position);
      Ok (0, a, 0, b)
  end.

Definition get_account_liquidity (s : St) (account : AccountId)
    : Res (FixedU128 * FixedU128 * FixedU128 * FixedU128) :=
  total_borrow_value ← total_borrowed_value s account;
  total_collateral_value ← total_collateral_value s account;
  lf_borrowed_value ← get_lf_borrowed_value s account;
  lf_base_position ← get_lf_base_position s account;
  liquidity_of total_collateral_value total_borrow_value lf_base_position lf_borrowed_value.

Definition get_account_liquidation_threshold_liquidity (s : St) (account : AccountId)
    : Res (FixedU128 * FixedU128 * FixedU128 * FixedU128) :=
  total_borrow_value ← total_borrowed_value s account;
  total_collateral_value ← total_liquidation_threshold_value s account;
  lf_borrowed_value ← get_lf_borrowed_value s account;
  lf_base_position ← get_lf_liquidation_base_position s account;
  liquidity_of total_collateral_value total_borrow_value lf_base_position lf_borrowed_value.

Definition ensure_liquidity (s : St) (account : AccountId) (reduce_amount : FixedU128)
    (lf_enable : bool) : Res unit :=
  '(total_liquidity, _, lf_liquidity, _) ← get_account_liquidity s account;
  if lf_enable && (Z.max total_liquidity lf_liquidity >=? reduce_amount) then Ok tt
  else if negb lf_enable then
    needed ← or_panic (fixed_add lf_liquidity reduce_amount);
    if total_liquidity >=? needed then Ok tt else Err (Loans LoansInsufficientLiquidity)
  else Err (Loans LoansInsufficientLiquidity).

Definition ensure_under_supply_cap (s : St) (asset_id : CurrencyId) (amount : Balance) : Res unit :=
  m ← market s asset_id;
  let current_cash := balance (assets s) asset_id (account_id T) in
  total_cash ← ok_or (checked_add current_cash amount) (Arithmetic Overflow);
  ensure (total_cash <=? supply_cap m) (Loans SupplyCapacityExceeded).

Definition ensure_under_borrow_cap (s : St) (asset_id : CurrencyId) (amount : Balance) : Res unit :=
  m ← market s asset_id;
  let total_borrows := at0 (TotalBorrows s) asset_id in
  new_total_borrows ← ok_or (checked_add total_borrows amount) (Arithmetic Overflow);
  ensure (new_total_borrows <=? borrow_cap m) (Loans BorrowCapacityExceeded).

Definition ensure_enough_cash (s : St) (asset_id : CurrencyId) (amount : Balance) : Res unit :=
  reducible_cash ← ok_or (checked_sub (get_total_cash s asset_id) (at0 (TotalReserves s) asset_id))
                     (Arithmetic Underflow);
  ensure (negb (reducible_cash <? amount)) (Loans InsufficientCash).

(** ** farming.rs: rewards *)

Definition reward_scale : Balance := 10 ^ 12.

Definition calculate_reward_delta_index (delta_block : BlockNumber)
    (reward_speed total_share : Balance) : Res Balance :=
  if total_share =? 0 then Ok 0
  else ok_or (a ← big_checked_mul delta_block reward_speed;
              b ← big_checked_mul a reward_scale;
              c ← big_checked_div b total_share;
              big_to_u128 c) (Arithmetic Overflow).

Definition calculate_reward_delta (share reward_delta_index : Balance) : Res Balance :=
  ok_or (a ← big_checked_mul share reward_delta_index;
         b ← big_checked_div a reward_scale;
         big_to_u128 b) (Arithmetic Overflow).

Definition update_reward_supply_index (asset_id : CurrencyId) : Run unit :=
  s ← get;
  let supply_state := default default_reward (RewardSupplyState s !! asset_id) in
  let delta_block := saturating_sub (block_number s) (block supply_state) in
  if delta_block =? 0 then
    modify (set_RewardSupplyState (<[asset_id := supply_state]> (RewardSupplyState s)))
  else
    let supply_speed := at0 (RewardSupplySpeed s) asset_id in
    index' ← lift (if supply_speed =? 0 then Ok (index supply_state)
                   else
                     delta_index ← calculate_reward_delta_index delta_block supply_speed
                                     (at0 (TotalSupply s) asset_id);
                     ok_or (checked_add (index supply_state) delta_index) (Arithmetic Overflow));
    modify (set_RewardSupplyState
      (<[asset_id := mkRewardMarketState index' (block_number s)]> (RewardSupplyState s))).

(** the borrowers' shares: borrowed amounts before interest *)
Definition base_borrow_amount (current_borrow_index : Rate) (current_borrow_amount : Balance)
    : Res Balance :=
  ok_or (r ← fixed_reciprocal current_borrow_index;
         fixed_checked_mul_int r current_borrow_amount) (Arithmetic Overflow).

Definition update_reward_borrow_index (asset_id : CurrencyId) : Run unit :=
  s ← get;
  let borrow_state := default default_reward (RewardBorrowState s !! asset_id) in
  let delta_block := saturating_sub (block_number s) (block borrow_state) in
  if delta_block =? 0 then
    modify (set_RewardBorrowState (<[asset_id := borrow_state]> (RewardBorrowState s)))
  else
    let borrow_speed := at0 (RewardBorrowSpeed s) asset_id in
    index' ← lift (if borrow_speed =? 0 then Ok (index borrow_state)
                   else
                     base ← base_borrow_amount (at0 (BorrowIndex s) asset_id)
                              (at0 (TotalBorrows s) asset_id);
                     delta_index ← calculate_reward_delta_index delta_block borrow_speed base;
                     ok_or (checked_add (index borrow_state) delta_index) (Arithmetic Overflow));
    modify (set_RewardBorrowState
      (<[asset_id := mkRewardMarketState index' (block_number s)]> (RewardBorrowState s))).

Definition distribute_supplier_reward (asset_id : CurrencyId) (supplier : AccountId) : Run unit :=
  s ← get;
  let supplier_index := at0 (RewardSupplierIndex s) (asset_id, supplier) in
  let supply_state := default default_reward (RewardSupplyState s !! asset_id) in
  delta_index ← lift (ok_or (checked_sub (index supply_state) supplier_index)
                        (Arithmetic Underflow));
  let total_reward := at0 (RewardAccrued s) supplier in
  let supplier_amount := voucher_balance (account_deposits s asset_id supplier) in
  reward_delta ← lift (calculate_reward_delta supplier_amount delta_index);
  total_reward ← lift (ok_or (checked_add total_reward reward_delta) (Arithmetic Overflow));
  _ ← deposit_event (DistributedSupplierReward asset_id supplier reward_delta (index supply_state));
  _ ← modify (set_RewardAccrued (<[supplier := total_reward]> (RewardAccrued s)));
  modify (set_RewardSupplierIndex
    (<[(asset_id, supplier) := index supply_state]> (RewardSupplierIndex s))).

Definition distribute_borrower_reward (asset_id : CurrencyId) (borrower : AccountId) : Run unit :=
  s ← get;
  let borrower_index := at0 (RewardBorrowerIndex s) (asset_id, borrower) in
  let borrow_state := default default_reward (RewardBorrowState s !! asset_id) in
  delta_index ← lift (ok_or (checked_sub (index borrow_state) borrower_index)
                        (Arithmetic Underflow));
  let total_reward := at0 (RewardAccrued s) borrower in
  current_borrow_amount ← reads (fun s => current_borrow_balance s borrower asset_id);
  base ← lift (base_borrow_amount (at0 (BorrowIndex s) asset_id) current_borrow_amount);
  reward_delta ← lift (calculate_reward_delta base delta_index);
  total_reward ← lift (ok_or (checked_add total_reward reward_delta) (Arithmetic Overflow));
  _ ← deposit_event (DistributedBorrowerReward asset_id borrower reward_delta (index borrow_state));
  _ ← modify (set_RewardAccrued (<[borrower := total_reward]> (RewardAccrued s)));
  modify (set_RewardBorrowerIndex
    (<[(asset_id, borrower) := index borrow_state]> (RewardBorrowerIndex s))).

Definition collect_market_reward (asset_id : CurrencyId) (user : AccountId) : Run unit :=
  _ ← update_reward_supply_index asset_id;
  _ ← distribute_supplier_reward asset_id user;
  _ ← update_reward_borrow_index asset_id;
  distribute_borrower_reward asset_id user.

Definition pay_reward (user : AccountId) : Run unit :=
  pool_account ← lift (reward_account_id T);
  s ← get;
  let total_reward := at0 (RewardAccrued s) user in
  _ ← (if total_reward >? 0 then
         _ ← on_assets (transfer (RewardAssetId T) pool_account user total_reward true);
         modify (fun s => set_RewardAccrued (delete user (RewardAccrued s)) s)
       else mret tt);
  deposit_event (RewardPaid user total_reward).

(** ** lib.rs: supplying and redeeming *)

(** [update_earned_stored]: the interest a supplier has earned so far *)
Definition update_earned_stored (who : AccountId) (asset_id : CurrencyId) (exchange_rate : Rate)
    : Run unit :=
  s ← get;
  let deposits := account_deposits s asset_id who in
  let account_earned := default default_earned (AccountEarned s !! (asset_id, who)) in
  total_earned_prior_new ←
    lift (ok_or (r ← fixed_checked_sub exchange_rate (exchange_rate_prior account_earned);
                 r ← fixed_checked_mul_int r (voucher_balance deposits);
                 checked_add r (total_earned_prior account_earned)) (Arithmetic Overflow));
  modify (set_AccountEarned
    (<[(asset_id, who) := mkEarnedSnapshot total_earned_prior_new exchange_rate]> (AccountEarned s))).

(** Voucher balances: [try_mutate] that adds, [try_mutate] that subtracts, and
    [try_mutate_exists] that subtracts and removes an empty entry *)
Definition add_vouchers (asset_id : CurrencyId) (who : AccountId) (amount : Balance) : Run unit :=
  s ← get;
  let d := account_deposits s asset_id who in
  v ← lift (ok_or (checked_add (voucher_balance d) amount) (Arithmetic Overflow));
  put_deposits asset_id who (mkDeposits v (is_collateral d)).
Definition sub_vouchers (asset_id : CurrencyId) (who : AccountId) (amount : Balance) : Run unit :=
  s ← get;
  let d := account_deposits s asset_id who in
  v ← lift (ok_or (checked_sub (voucher_balance d) amount) (Arithmetic Underflow));
  put_deposits asset_id who (mkDeposits v (is_collateral d)).
Definition take_vouchers (asset_id : CurrencyId) (who : AccountId) (amount : Balance) : Run unit :=
  s ← get;
  let d := account_deposits s asset_id who in
  v ← lift (ok_or (checked_sub (voucher_balance d) amount) (Arithmetic Underflow));
  if v =? 0 then modify (fun s => set_AccountDeposits (delete (asset_id, who) (AccountDeposits s)) s)
  else put_deposits asset_id who (mkDeposits v (is_collateral d)).

Definition do_mint (supplier : AccountId) (asset_id : CurrencyId) (amount : Balance) : Run unit :=
  _ ← lift (ensure (negb (amount =? 0)) (Loans InvalidAmount));
  _ ← reads (fun s => ensure_active_market s asset_id);
  _ ← reads (fun s => ensure_under_supply_cap s asset_id amount);
  _ ← accrue_interest asset_id;
  _ ← update_reward_supply_index asset_id;
  _ ← distribute_supplier_reward asset_id supplier;
  exchange_rate ← reads (fun s => exchange_rate_stored s asset_id);
  _ ← update_earned_stored supplier asset_id exchange_rate;
  voucher_amount ← lift (calc_collateral_amount amount exchange_rate);
  _ ← lift (ensure (negb (voucher_amount =? 0)) (Loans InvalidExchangeRate));
  _ ← on_assets (transfer asset_id supplier (account_id T) amount false);
  _ ← add_vouchers asset_id supplier voucher_amount;
  s ← get;
  new_balance ← lift (ok_or (checked_add (at0 (TotalSupply s) asset_id) voucher_amount)
                        (Arithmetic Overflow));
  _ ← put_total_supply asset_id new_balance;
  deposit_event (Deposited supplier asset_id amount).

Definition redeem_allowed (s : St) (asset_id : CurrencyId) (redeemer : AccountId)
    (voucher_amount : Balance) : Res unit :=
  let deposit := account_deposits s asset_id redeemer in
  _ ← ensure (negb (voucher_balance deposit <? voucher_amount)) (Loans InsufficientDeposit);
  exchange_rate ← exchange_rate_stored s asset_id;
  redeem_amount ← calc_underlying_amount voucher_amount exchange_rate;
  _ ← ensure_enough_cash s asset_id redeem_amount;
  if negb (is_collateral deposit) then Ok tt
  else
    m ← market s asset_id;
    let effects_amount := permill_mul_ceil (collateral_factor m) redeem_amount in
    redeem_effects_value ← get_asset_value s asset_id effects_amount;
    ensure_liquidity s redeemer redeem_effects_value (liquidation_free s asset_id).

Definition do_redeem_voucher (who : AccountId) (asset_id : CurrencyId) (voucher_amount : Balance)
    : Run Balance :=
  _ ← reads (fun s => redeem_allowed s asset_id who voucher_amount);
  _ ← update_reward_supply_index asset_id;
  _ ← distribute_supplier_reward asset_id who;
  exchange_rate ← reads (fun s => exchange_rate_stored s asset_id);
  redeem_amount ← lift (calc_underlying_amount voucher_amount exchange_rate);
  _ ← take_vouchers asset_id who voucher_amount;
  s ← get;
  new_balance ← lift (ok_or (checked_sub (at0 (TotalSupply s) asset_id) voucher_amount)
                        (Arithmetic Underflow));
  _ ← put_total_supply asset_id new_balance;
  _ ← on_assets (fun l => map_err (transfer asset_id (account_id T) who redeem_amount false l)
                            (Loans InsufficientCash));
  mret redeem_amount.

Definition do_redeem (supplier : AccountId) (asset_id : CurrencyId) (amount : Balance) : Run unit :=
  _ ← reads (fun s => ensure_active_market s asset_id);
  _ ← accrue_interest asset_id;
  exchange_rate ← reads (fun s => exchange_rate_stored s asset_id);
  _ ← update_earned_stored supplier asset_id exchange_rate;
  voucher_amount ← lift (calc_collateral_amount amount exchange_rate);
  redeem_amount ← do_redeem_voucher supplier asset_id voucher_amount;
  deposit_event (Redeemed supplier asset_id redeem_amount).

(** ** lib.rs: borrowing and repaying *)

Definition borrow_allowed (s : St) (asset_id : CurrencyId) (borrower : AccountId)
    (borrow_amount : Balance) : Res unit :=
  _ ← ensure_under_borrow_cap s asset_id borrow_amount;
  _ ← ensure_enough_cash s asset_id borrow_amount;
  borrow_value ← get_asset_value s asset_id borrow_amount;
  ensure_liquidity s borrower borrow_value (asset_id =? LiquidationFreeAssetId T).

Definition do_borrow (borrower : AccountId) (asset_id : CurrencyId) (amount : Balance) : Run unit :=
  _ ← reads (fun s => ensure_active_market s asset_id);
  _ ← accrue_interest asset_id;
  _ ← reads (fun s => borrow_allowed s asset_id borrower amount);
  _ ← update_reward_borrow_index asset_id;
  _ ← distribute_borrower_reward asset_id borrower;
  account_borrows ← reads (fun s => current_borrow_balance s borrower asset_id);
  account_borrows_new ← lift (ok_or (checked_add account_borrows amount) (Arithmetic Overflow));
  s ← get;
  total_borrows_new ← lift (ok_or (checked_add (at0 (TotalBorrows s) asset_id) amount)
                              (Arithmetic Overflow));
  _ ← put_borrows asset_id borrower
        (mkBorrowSnapshot account_borrows_new (at0 (BorrowIndex s) asset_id));
  _ ← put_total_borrows asset_id total_borrows_new;
  _ ← on_assets (transfer asset_id (account_id T) borrower amount false);
  deposit_event (Borrowed borrower asset_id amount).

Definition do_repay_borrow_with_amount (borrower : AccountId) (asset_id : CurrencyId)
    (account_borrows repay_amount : Balance) : Run unit :=
  _ ← lift (ensure (negb (account_borrows <? repay_amount)) (Loans TooMuchRepay));
  _ ← update_reward_borrow_index asset_id;
  _ ← distribute_borrower_reward asset_id borrower;
  _ ← on_assets (transfer asset_id borrower (account_id T) repay_amount false);
  account_borrows_new ← lift (ok_or (checked_sub account_borrows repay_amount)
                                (Arithmetic Underflow));
  s ← get;
  let total_borrows_new := saturating_sub (at0 (TotalBorrows s) asset_id) repay_amount in
  _ ← put_borrows asset_id borrower
        (mkBorrowSnapshot account_borrows_new (at0 (BorrowIndex s) asset_id));
  put_total_borrows asset_id total_borrows_new.

Definition do_repay_borrow (borrower : AccountId) (asset_id : CurrencyId) (amount : Balance)
    : Run unit :=
  _ ← reads (fun s => ensure_active_market s asset_id);
  _ ← accrue_interest asset_id;
  account_borrows ← reads (fun s => current_borrow_balance s borrower asset_id);
  _ ← do_repay_borrow_with_amount borrower asset_id account_borrows amount;
  deposit_event (RepaidBorrow borrower asset_id amount).

(** ** lib.rs: collateral and liquidation *)

Definition do_collateral_asset (supplier : AccountId) (asset_id : CurrencyId) (enable : bool)
    : Run unit :=
  _ ← reads (fun s => ensure_active_market s asset_id);
  s ← get;
  _ ← lift (ensure (negb (bool_decide (AccountDeposits s !! (asset_id, supplier) = None)))
              (Loans NoDeposit));
  let deposits := account_deposits s asset_id supplier in
  if enable then
    _ ← put_deposits asset_id supplier (mkDeposits (voucher_balance deposits) true);
    deposit_event (CollateralAssetAdded supplier asset_id)
  else
    total_collateral_value ← lift (total_collateral_value s supplier);
    collateral_asset_value ← lift (collateral_asset_value s supplier asset_id);
    total_borrowed_value ← lift (total_borrowed_value s supplier);
    needed ← lift (ok_or (fixed_checked_add total_borrowed_value collateral_asset_value)
                     (Arithmetic Overflow));
    _ ← lift (ensure (negb (total_collateral_value <? needed)) (Loans LoansInsufficientLiquidity));
    _ ← put_deposits asset_id supplier (mkDeposits (voucher_balance deposits) false);
    deposit_event (CollateralAssetRemoved supplier asset_id).

Definition liquidate_borrow_allowed (s : St) (borrower : AccountId)
    (liquidation_asset_id : CurrencyId) (repay_amount : Balance) (m : Market) : Res unit :=
  '(liquidity, shortfall, lf_liquidity, _) ←
    get_account_liquidation_threshold_liquidity s borrower;
  _ ← ensure (negb ((shortfall =? 0) && (liquidity >=? lf_liquidity)))
        (Loans InsufficientShortfall);
  account_borrows ← current_borrow_balance s borrower liquidation_asset_id;
  account_borrows_value ← get_asset_value s liquidation_asset_id account_borrows;
  repay_value ← get_asset_value s liquidation_asset_id repay_amount;
  effects_borrows_value ←
    (if liquidation_asset_id =? LiquidationFreeAssetId T then
       base_position ← get_lf_base_position s borrower;
       if account_borrows_value >? base_position
       then or_panic (fixed_sub account_borrows_value base_position) else Ok 0
     else Ok account_borrows_value);
  ensure (negb (permill_mul_ceil (close_factor m) effects_borrows_value <? repay_value))
    (Loans TooMuchRepay).

Definition liquidated_transfer (liquidator borrower : AccountId)
    (liquidation_asset_id collateral_asset_id : CurrencyId)
    (repay_amount collateral_underlying_amount : Balance) (m : Market) : Run unit :=
  _ ← update_reward_borrow_index liquidation_asset_id;
  _ ← distribute_borrower_reward liquidation_asset_id liquidator;
  _ ← on_assets (transfer liquidation_asset_id liquidator (account_id T) repay_amount false);
  account_borrows ← reads (fun s => current_borrow_balance s borrower liquidation_asset_id);
  account_borrows_new ← lift (ok_or (checked_sub account_borrows repay_amount)
                                (Arithmetic Underflow));
  s ← get;
  total_borrows_new ← lift (ok_or (checked_sub (at0 (TotalBorrows s) liquidation_asset_id)
                                     repay_amount) (Arithmetic Underflow));
  _ ← put_borrows liquidation_asset_id borrower
        (mkBorrowSnapshot account_borrows_new (at0 (BorrowIndex s) liquidation_asset_id));
  _ ← put_total_borrows liquidation_asset_id total_borrows_new;
  _ ← update_reward_supply_index collateral_asset_id;
  _ ← distribute_supplier_reward collateral_asset_id liquidator;
  _ ← distribute_supplier_reward collateral_asset_id borrower;
  incentive_account ← lift (incentive_reward_account_id T);
  _ ← distribute_supplier_reward collateral_asset_id incentive_account;
  exchange_rate ← reads (fun s => exchange_rate_stored s collateral_asset_id);
  collateral_amount ← lift (calc_collateral_amount collateral_underlying_amount exchange_rate);
  _ ← sub_vouchers collateral_asset_id borrower collateral_amount;
  share ← lift (ok_or (fixed_checked_div collateral_amount (liquidate_incentive m))
                  (Arithmetic Underflow));
  let incentive_reserved_amount :=
    permill_mul_floor (liquidate_incentive_reserved_factor m) share in
  to_liquidator ← lift (or_panic (checked_sub collateral_amount incentive_reserved_amount));
  _ ← add_vouchers collateral_asset_id liquidator to_liquidator;
  _ ← add_vouchers collateral_asset_id incentive_account incentive_reserved_amount;
  deposit_event (LiquidatedBorrow liquidator borrower liquidation_asset_id collateral_asset_id
                   repay_amount collateral_underlying_amount).

Definition do_liquidate_borrow (liquidator borrower : AccountId) (liquidation_asset_id : CurrencyId)
    (repay_amount : Balance) (collateral_asset_id : CurrencyId) : Run unit :=
  _ ← reads (fun s => ensure_active_market s liquidation_asset_id);
  _ ← reads (fun s => ensure_active_market s collateral_asset_id);
  s ← get;
  m ← lift (market s liquidation_asset_id);
  _ ← lift (ensure (negb (borrower =? liquidator)) (Loans LiquidatorIsBorrower));
  _ ← lift (liquidate_borrow_allowed s borrower liquidation_asset_id repay_amount m);
  let deposits := account_deposits s collateral_asset_id borrower in
  _ ← lift (ensure (is_collateral deposits) (Loans DepositsAreNotCollateral));
  exchange_rate ← lift (exchange_rate_stored s collateral_asset_id);
  borrower_deposit_amount ← lift (ok_or (fixed_checked_mul_int exchange_rate
                                           (voucher_balance deposits)) (Arithmetic Overflow));
  collateral_value ← lift (get_asset_value s collateral_asset_id borrower_deposit_amount);
  repay_value ← lift (get_asset_value s liquidation_asset_id repay_amount);
  liquidate_value ← lift (ok_or (fixed_checked_mul repay_value (liquidate_incentive m))
                            (Arithmetic Overflow));
  _ ← lift (ensure (negb (collateral_value <? liquidate_value)) (Loans InsufficientCollateral));
  collateral_token_price ← lift (get_price s collateral_asset_id);
  real_collateral_underlying_amount ←
    lift (ok_or (fixed_checked_div liquidate_value collateral_token_price) (Arithmetic Underflow));
  liquidated_transfer liquidator borrower liquidation_asset_id collateral_asset_id repay_amount
    real_collateral_underlying_amount m.

(** ** ptoken.rs: the vouchers as a fungible token *)

Definition ptoken_total_issuance (s : St) (ptoken : CurrencyId) : Balance :=
  match underlying_id s ptoken with Ok u => at0 (TotalSupply s) u | _ => 0 end.

Definition ptoken_minimum_balance (_ : CurrencyId) : Balance := 0.

Definition ptoken_balance (s : St) (ptoken : CurrencyId) (who : AccountId) : Balance :=
  match underlying_id s ptoken with
  | Ok u => voucher_balance (account_deposits s u who) | _ => 0
  end.

Definition ptoken_asset_exists (s : St) (ptoken : CurrencyId) : bool :=
  is_ok (underlying_id s ptoken).

Definition reducible_asset (s : St) (ptoken : CurrencyId) (who : AccountId) : Res Balance :=
  underlying ← underlying_id s ptoken;
  let d := account_deposits s underlying who in
  if negb (is_collateral d) then Ok (voucher_balance d)
  else
    m ← ensure_active_market s underlying;
    collateral_value ← collateral_asset_value s who underlying;
    '(liquidity, _, _, _) ← get_account_liquidity s who;
    if liquidity >=? collateral_value then Ok (voucher_balance d)
    else
      price ← get_price s underlying;
      reducible_supply_value ←
        ok_or (fixed_checked_div liquidity (permill_into_fixed (collateral_factor m)))
          (Arithmetic Overflow);
      reducible_underlying_amount ←
        ok_or (fixed_checked_div reducible_supply_value price) (Arithmetic Underflow);
      let exchange_rate := at0 (ExchangeRate s) underlying in
      calc_collateral_amount reducible_underlying_amount exchange_rate.

(** [unwrap_or_default] *)
Definition ptoken_reducible_balance (s : St) (ptoken : CurrencyId) (who : AccountId) : Res Balance :=
  match reducible_asset s ptoken who with Ok b => Ok b | Err _ => Ok 0 | Panic => Panic end.


Definition ptoken_can_deposit (s : St) (ptoken : CurrencyId) (who : AccountId) (amount : Balance)
    : Res DepositConsequence :=
  match underlying_id s ptoken with
  | Ok u =>
      if negb (is_ok (ensure_active_market s u)) then Ok DepUnknownAsset
      else if bool_decide (checked_add (at0 (TotalSupply s) u) amount = None) then Ok DepOverflow
      else
        b ← or_panic (checked_add (ptoken_balance s ptoken who) amount);
        if b <? ptoken_minimum_balance ptoken then Ok DepBelowMinimum else Ok DepSuccess
  | _ => Ok DepUnknownAsset
  end.

Definition ptoken_can_withdraw (s : St) (ptoken : CurrencyId) (who : AccountId) (amount : Balance)
    : WithdrawConsequence :=
  match underlying_id s ptoken with
  | Ok u =>
      if negb (is_ok (ensure_active_market s u)) then WdUnknownAsset
      else match checked_sub (ptoken_balance s ptoken who) amount with
           | None => WdNoFunds
           | Some rest =>
               if rest <? ptoken_minimum_balance ptoken then WdReducedToZero rest else WdSuccess
           end
  | _ => WdUnknownAsset
  end.

Definition do_transfer_ptokens (ptoken : CurrencyId) (source dest : AccountId) (amount : Balance)
    : Run unit :=
  _ ← update_reward_supply_index ptoken;
  _ ← distribute_supplier_reward ptoken source;
  _ ← distribute_supplier_reward ptoken dest;
  underlying ← reads (fun s => underlying_id s ptoken);
  _ ← take_vouchers underlying source amount;
  add_vouchers underlying dest amount.

Definition ptoken_transfer (ptoken : CurrencyId) (source dest : AccountId) (amount : Balance)
    (keep_alive : bool) : Run Balance :=
  reducible ← reads (fun s => ptoken_reducible_balance s ptoken source);
  _ ← lift (ensure (amount <=? reducible) (Loans InsufficientCollateral));
  _ ← do_transfer_ptokens ptoken source dest amount;
  mret amount.

(** ** lib.rs: extrinsics of the administrators *)

Definition add_market (origin : RuntimeOrigin) (asset_id : CurrencyId) (m : Market) : Run unit :=
  _ ← lift (ensure_origin (UpdateOrigin T) origin);
  s ← get;
  _ ← lift (ensure (bool_decide (Markets s !! asset_id = None)) (Loans MarketAlreadyExists));
  _ ← lift (ensure (bool_decide (state m = Pending)) (Loans NewMarketMustHavePendingState));
  _ ← lift (ensure (check_model (rate_model m)) (Loans InvalidRateModelParam));
  _ ← lift (ensure ((collateral_factor m >=? 0) && (collateral_factor m <? PERMILL_ONE))
              (Loans InvalidFactor));
  _ ← lift (ensure ((liquidation_threshold m <? PERMILL_ONE) &&
                    (liquidation_threshold m >=? collateral_factor m)) (Loans InvalidFactor));
  _ ← lift (ensure ((reserve_factor m >? 0) && (reserve_factor m <? PERMILL_ONE))
              (Loans InvalidFactor));
  _ ← lift (ensure ((liquidate_incentive_reserved_factor m >? 0) &&
                    (liquidate_incentive_reserved_factor m <? PERMILL_ONE)) (Loans InvalidFactor));
  _ ← lift (ensure (supply_cap m >? 0) (Loans InvalidSupplyCap));
  _ ← lift (ensure_ptoken s (ptoken_id m));
  _ ← modify (fun s => set_Markets (<[asset_id := m]> (Markets s)) s);
  _ ← modify (fun s => set_UnderlyingAssetId (<[ptoken_id m := asset_id]> (UnderlyingAssetId s)) s);
  _ ← modify (fun s => set_ExchangeRate (<[asset_id := MIN_EXCHANGE_RATE]> (ExchangeRate s)) s);
  _ ← modify (fun s => set_BorrowIndex (<[asset_id := FIXED_DIV]> (BorrowIndex s)) s);
  deposit_event (NewMarket asset_id m).

Definition with_state (x : MarketState) (m : Market) : Market :=
  mkMarket (collateral_factor m) (liquidation_threshold m) (reserve_factor m) (close_factor m)
    (liquidate_incentive m) (liquidate_incentive_reserved_factor m) (rate_model m) x
    (supply_cap m) (borrow_cap m) (ptoken_id m).
Definition with_rate_model (r : InterestRateModel) (m : Market) : Market :=
  mkMarket (collateral_factor m) (liquidation_threshold m) (reserve_factor m) (close_factor m)
    (liquidate_incentive m) (liquidate_incentive_reserved_factor m) r (state m)
    (supply_cap m) (borrow_cap m) (ptoken_id m).

Definition activate_market (origin : RuntimeOrigin) (asset_id : CurrencyId) : Run unit :=
  _ ← lift (ensure_origin (UpdateOrigin T) origin);
  _ ← mutate_market asset_id (fun m => if is_active m then m else with_state Active m);
  deposit_event (ActivatedMarket asset_id).

Definition update_rate_model (origin : RuntimeOrigin) (asset_id : CurrencyId)
    (model : InterestRateModel) : Run unit :=
  _ ← lift (ensure_origin (UpdateOrigin T) origin);
  _ ← lift (ensure (check_model model) (Loans InvalidRateModelParam));
  m ← mutate_market asset_id (with_rate_model model);
  deposit_event (UpdatedMarket asset_id m).

Definition update_market (origin : RuntimeOrigin) (asset_id : CurrencyId)
    (collateral_factor' liquidation_threshold' reserve_factor' close_factor'
     liquidate_incentive_reserved_factor' : option Ratio) (liquidate_incentive' : option Rate)
    (supply_cap' borrow_cap' : option Balance) : Run unit :=
  _ ← lift (ensure_origin (UpdateOrigin T) origin);
  m ← reads (fun s => market s asset_id);
  let cf := default (collateral_factor m) collateral_factor' in
  let lt := default (liquidation_threshold m) liquidation_threshold' in
  let rf := default (reserve_factor m) reserve_factor' in
  let clf := default (close_factor m) close_factor' in
  let lirf := default (liquidate_incentive_reserved_factor m)
                liquidate_incentive_reserved_factor' in
  let li := default (liquidate_incentive m) liquidate_incentive' in
  let sc := default (supply_cap m) supply_cap' in
  let bc := default (borrow_cap m) borrow_cap' in
  _ ← lift (ensure ((cf >=? 0) && (cf <? PERMILL_ONE)) (Loans InvalidFactor));
  _ ← lift (ensure ((lt >=? cf) && (lt <? PERMILL_ONE)) (Loans InvalidFactor));
  _ ← lift (ensure ((rf >? 0) && (rf <? PERMILL_ONE)) (Loans InvalidFactor));
  _ ← lift (ensure (sc >? 0) (Loans InvalidSupplyCap));
  m ← mutate_market asset_id (fun stored_market =>
        mkMarket cf lt rf clf li lirf (rate_model stored_market) (state stored_market) sc bc
          (ptoken_id stored_market));
  deposit_event (UpdatedMarket asset_id m).

Definition force_update_market (origin : RuntimeOrigin) (asset_id : CurrencyId) (m : Market)
    : Run unit :=
  _ ← lift (ensure_origin (UpdateOrigin T) origin);
  _ ← lift (ensure (check_model (rate_model m)) (Loans InvalidRateModelParam));
  s ← get;
  _ ← (if bool_decide (UnderlyingAssetId s !! ptoken_id m = None) then mret tt
       else
         u ← lift (underlying_id s (ptoken_id m));
         lift (ensure (u =? asset_id) (Loans InvalidPtokenId)));
  _ ← modify (fun s => set_UnderlyingAssetId (<[ptoken_id m := asset_id]> (UnderlyingAssetId s)) s);
  updated_market ← mutate_market asset_id (fun _ => m);
  deposit_event (UpdatedMarket asset_id updated_market).

Definition add_reward (origin : RuntimeOrigin) (amount : Balance) : Run unit :=
  who ← lift (ensure_signed origin);
  _ ← lift (ensure (negb (amount =? 0)) (Loans InvalidAmount));
  pool_account ← lift (reward_account_id T);
  _ ← on_assets (transfer (RewardAssetId T) who pool_account amount true);
  deposit_event (RewardAdded who amount).

Definition withdraw_missing_reward (origin : RuntimeOrigin) (target_account : Z) (amount : Balance)
    : Run unit :=
  _ ← lift (ensure_origin (UpdateOrigin T) origin);
  _ ← lift (ensure (negb (amount =? 0)) (Loans InvalidAmount));
  pool_account ← lift (reward_account_id T);
  target ← lift (lookup T target_account);
  _ ← on_assets (transfer (RewardAssetId T) pool_account target amount true);
  deposit_event (RewardWithdrawn target amount).

Definition update_market_reward_speed (origin : RuntimeOrigin) (asset_id : CurrencyId)
    (supply_reward_per_block borrow_reward_per_block : option Balance) : Run unit :=
  _ ← lift (ensure_origin (UpdateOrigin T) origin);
  _ ← reads (fun s => ensure_active_market s asset_id);
  s ← get;
  let current_supply_speed := at0 (RewardSupplySpeed s) asset_id in
  let current_borrow_speed := at0 (RewardBorrowSpeed s) asset_id in
  let supply_speed := default current_supply_speed supply_reward_per_block in
  let borrow_speed := default current_borrow_speed borrow_reward_per_block in
  _ ← (if negb (supply_speed =? current_supply_speed) then
         _ ← update_reward_supply_index asset_id;
         modify (fun s => set_RewardSupplySpeed (<[asset_id := supply_speed]> (RewardSupplySpeed s)) s)
       else mret tt);
  _ ← (if negb (borrow_speed =? current_borrow_speed) then
         _ ← update_reward_borrow_index asset_id;
         modify (fun s => set_RewardBorrowSpeed (<[asset_id := borrow_speed]> (RewardBorrowSpeed s)) s)
       else mret tt);
  deposit_event (MarketRewardSpeedUpdated asset_id supply_speed borrow_speed).

Definition add_reserves (origin : RuntimeOrigin) (payer : Z) (asset_id : CurrencyId)
    (add_amount : Balance) : Run unit :=
  _ ← lift (ensure_origin (ReserveOrigin T) origin);
  payer ← lift (lookup T payer);
  _ ← reads (fun s => ensure_active_market s asset_id);
  _ ← on_assets (transfer asset_id payer (account_id T) add_amount false);
  s ← get;
  total_reserves_new ← lift (ok_or (checked_add (at0 (TotalReserves s) asset_id) add_amount)
                               (Arithmetic Overflow));
  _ ← put_total_reserves asset_id total_reserves_new;
  deposit_event (ReservesAdded payer asset_id add_amount total_reserves_new).

Definition reduce_reserves (origin : RuntimeOrigin) (receiver : Z) (asset_id : CurrencyId)
    (reduce_amount : Balance) : Run unit :=
  _ ← lift (ensure_origin (ReserveOrigin T) origin);
  receiver ← lift (lookup T receiver);
  _ ← reads (fun s => ensure_active_market s asset_id);
  s ← get;
  let total_reserves := at0 (TotalReserves s) asset_id in
  _ ← lift (ensure (negb (reduce_amount >? total_reserves)) (Loans InsufficientReserves));
  total_reserves_new ← lift (ok_or (checked_sub total_reserves reduce_amount)
                               (Arithmetic Underflow));
  _ ← put_total_reserves asset_id total_reserves_new;
  _ ← on_assets (transfer asset_id (account_id T) receiver reduce_amount false);
  deposit_event (ReservesReduced receiver asset_id reduce_amount total_reserves_new).

Definition reduce_incentive_reserves (origin : RuntimeOrigin) (receiver : Z)
    (asset_id : CurrencyId) (redeem_amount : Balance) : Run unit :=
  _ ← lift (ensure_origin (ReserveOrigin T) origin);
  _ ← lift (ensure (negb (redeem_amount =? 0)) (Loans InvalidAmount));
  receiver ← lift (lookup T receiver);
  from ← lift (incentive_reward_account_id T);
  _ ← reads (fun s => ensure_active_market s asset_id);
  exchange_rate ← reads (fun s => exchange_rate_stored s asset_id);
  voucher_amount ← lift (calc_collateral_amount redeem_amount exchange_rate);
  redeem_amount ← do_redeem_voucher from asset_id voucher_amount;
  _ ← on_assets (transfer asset_id from receiver redeem_amount false);
  deposit_event (IncentiveReservesReduced receiver asset_id redeem_amount).

Definition update_liquidation_free_collateral (origin : RuntimeOrigin)
    (collaterals : list CurrencyId) : Run unit :=
  _ ← lift (ensure_origin (UpdateOrigin T) origin);
  _ ← modify (set_LiquidationFreeCollaterals collaterals);
  deposit_event (LiquidationFreeCollateralsUpdated collaterals).

(** ** lib.rs: extrinsics of the users *)

Definition claim_reward (origin : RuntimeOrigin) : Run unit :=
  who ← lift (ensure_signed origin);
  s ← get;
  _ ← for_each (fun p => collect_market_reward p.1 who) (storage_iter (Markets s));
  pay_reward who.

Definition claim_reward_for_market (origin : RuntimeOrigin) (asset_id : CurrencyId) : Run unit :=
  who ← lift (ensure_signed origin);
  _ ← collect_market_reward asset_id who;
  pay_reward who.

Definition mint (origin : RuntimeOrigin) (asset_id : CurrencyId) (mint_amount : Balance) : Run unit :=
  who ← lift (ensure_signed origin);
  do_mint who asset_id mint_amount.

Definition redeem (origin : RuntimeOrigin) (asset_id : CurrencyId) (redeem_amount : Balance)
    : Run unit :=
  who ← lift (ensure_signed origin);
  _ ← lift (ensure (negb (redeem_amount =? 0)) (Loans InvalidAmount));
  do_redeem who asset_id redeem_amount.

Definition redeem_all (origin : RuntimeOrigin) (asset_id : CurrencyId) : Run unit :=
  who ← lift (ensure_signed origin);
  _ ← reads (fun s => ensure_active_market s asset_id);
  _ ← accrue_interest asset_id;
  exchange_rate ← reads (fun s => exchange_rate_stored s asset_id);
  _ ← update_earned_stored who asset_id exchange_rate;
  s ← get;
  redeem_amount ← do_redeem_voucher who asset_id (voucher_balance (account_deposits s asset_id who));
  deposit_event (Redeemed who asset_id redeem_amount).

Definition borrow (origin : RuntimeOrigin) (asset_id : CurrencyId) (borrow_amount : Balance)
    : Run unit :=
  who ← lift (ensure_signed origin);
  do_borrow who asset_id borrow_amount.

Definition repay_borrow (origin : RuntimeOrigin) (asset_id : CurrencyId) (repay_amount : Balance)
    : Run unit :=
  who ← lift (ensure_signed origin);
  do_repay_borrow who asset_id repay_amount.

Definition repay_borrow_all (origin : RuntimeOrigin) (asset_id : CurrencyId) : Run unit :=
  who ← lift (ensure_signed origin);
  _ ← reads (fun s => ensure_active_market s asset_id);
  _ ← accrue_interest asset_id;
  account_borrows ← reads (fun s => current_borrow_balance s who asset_id);
  do_repay_borrow who asset_id account_borrows.

Definition collateral_asset (origin : RuntimeOrigin) (asset_id : CurrencyId) (enable : bool)
    : Run unit :=
  who ← lift (ensure_signed origin);
  _ ← reads (fun s => ensure_active_market s asset_id);
  s ← get;
  _ ← lift (ensure (negb (bool_decide (AccountDeposits s !! (asset_id, who) = None)))
              (Loans NoDeposit));
  let deposits := account_deposits s asset_id who in
  _ ← lift (ensure (negb (Bool.eqb (is_collateral deposits) enable)) (Loans DuplicateOperation));
  do_collateral_asset who asset_id enable.

Definition liquidate_borrow (origin : RuntimeOrigin) (borrower : AccountId)
    (liquidation_asset_id : CurrencyId) (repay_amount : Balance)
    (collateral_asset_id : CurrencyId) : Run unit :=
  who ← lift (ensure_signed origin);
  s ← get;
  _ ← lift (ensure (negb (liquidation_free s collateral_asset_id) &&
                    negb (is_auxiliary_token collateral_asset_id)) (Loans CollateralReserved));
  _ ← accrue_interest liquidation_asset_id;
  _ ← accrue_interest collateral_asset_id;
  do_liquidate_borrow who borrower liquidation_asset_id repay_amount collateral_asset_id.

(** ** lib.rs: what the pallet tells other pallets *)

Definition get_full_interest_rate (s : St) (asset_id : CurrencyId) : option Rate :=
  match market s asset_id with
  | Ok m => match rate_model m with Jump jump => Some (full_rate jump) | Curve _ => None end
  | _ => None
  end.

Record MarketInfo := mkMarketInfo {
  info_collateral_factor : Ratio;
  info_liquidation_threshold : Ratio;
  info_reserve_factor : Ratio;
  info_close_factor : Ratio;
  info_full_rate : Rate;
}.

Definition get_market_info (s : St) (asset_id : CurrencyId) : Res MarketInfo :=
  m ← market s asset_id;
  full_rate ← ok_or (get_full_interest_rate s asset_id) (Loans InvalidRateModelParam);
  Ok (mkMarketInfo (collateral_factor m) (liquidation_threshold m) (reserve_factor m)
        (close_factor m) full_rate).

Definition get_current_borrow_balance (borrower : AccountId) (asset_id : CurrencyId) : Run Balance :=
  _ ← accrue_interest asset_id;
  reads (fun s => current_borrow_balance s borrower asset_id).

Definition get_current_collateral_balance (s : St) (supplier : AccountId) (asset_id : CurrencyId)
    : Res Balance :=
  current_collateral_balance s supplier asset_id.

(** ** The calls of the pallet *)

Inductive Call :=
| CallAddMarket (asset_id : CurrencyId) (m : Market)
| CallActivateMarket (asset_id : CurrencyId)
| CallUpdateRateModel (asset_id : CurrencyId) (model : InterestRateModel)
| CallUpdateMarket (asset_id : CurrencyId)
    (collateral_factor liquidation_threshold reserve_factor close_factor
     liquidate_incentive_reserved_factor : option Ratio) (liquidate_incentive : option Rate)
    (supply_cap borrow_cap : option Balance)
| CallForceUpdateMarket (asset_id : CurrencyId) (m : Market)
| CallAddReward (amount : Balance)
| CallWithdrawMissingReward (target : Z) (amount : Balance)
| CallUpdateMarketRewardSpeed (asset_id : CurrencyId) (supply borrow : option Balance)
| CallClaimReward
| CallClaimRewardForMarket (asset_id : CurrencyId)
| CallMint (asset_id : CurrencyId) (amount : Balance)
| CallRedeem (asset_id : CurrencyId) (amount : Balance)
| CallRedeemAll (asset_id : CurrencyId)
| CallBorrow (asset_id : CurrencyId) (amount : Balance)
| CallRepayBorrow (asset_id : CurrencyId) (amount : Balance)
| CallRepayBorrowAll (asset_id : CurrencyId)
| CallCollateralAsset (asset_id : CurrencyId) (enable : bool)
| CallLiquidateBorrow (borrower : AccountId) (liquidation : CurrencyId) (amount : Balance)
    (collateral : CurrencyId)
| CallAddReserves (payer : Z) (asset_id : CurrencyId) (amount : Balance)
| CallReduceReserves (receiver : Z) (asset_id : CurrencyId) (amount : Balance)
| CallReduceIncentiveReserves (receiver : Z) (asset_id : CurrencyId) (amount : Balance)
| CallUpdateLiquidationFreeCollateral (collaterals : list CurrencyId).

Definition dispatch (origin : RuntimeOrigin) (c : Call) : Run unit :=
  match c with
  | CallAddMarket a m => add_market origin a m
  | CallActivateMarket a => activate_market origin a
  | CallUpdateRateModel a model => update_rate_model origin a model
  | CallUpdateMarket a cf lt rf clf lirf li sc bc =>
      update_market origin a cf lt rf clf lirf li sc bc
  | CallForceUpdateMarket a m => force_update_market origin a m
  | CallAddReward n => add_reward origin n
  | CallWithdrawMissingReward t n => withdraw_missing_reward origin t n
  | CallUpdateMarketRewardSpeed a x y => update_market_reward_speed origin a x y
  | CallClaimReward => claim_reward origin
  | CallClaimRewardForMarket a => claim_reward_for_market origin a
  | CallMint a n => mint origin a n
  | CallRedeem a n => redeem origin a n
  | CallRedeemAll a => redeem_all origin a
  | CallBorrow a n => borrow origin a n
  | CallRepayBorrow a n => repay_borrow origin a n
  | CallRepayBorrowAll a => repay_borrow_all origin a
  | CallCollateralAsset a e => collateral_asset origin a e
  | CallLiquidateBorrow b l n c => liquidate_borrow origin b l n c
  | CallAddReserves p a n => add_reserves origin p a n
  | CallReduceReserves r a n => reduce_reserves origin r a n
  | CallReduceIncentiveReserves r a n => reduce_incentive_reserves origin r a n
  | CallUpdateLiquidationFreeCollateral l => update_liquidation_free_collateral origin l
  end.

End pallet.

#[global] Arguments accrue_interest : simpl never.
#[global] Arguments update_reward_supply_index : simpl never.
#[global] Arguments update_reward_borrow_index : simpl never.
#[global] Arguments distribute_supplier_reward : simpl never.
#[global] Arguments distribute_borrower_reward : simpl never.
#[global] Arguments collect_market_reward : simpl never.
#[global] Arguments pay_reward : simpl never.
#[global] Arguments update_earned_stored : simpl never.
#[global] Arguments add_vouchers : simpl never.
#[global] Arguments sub_vouchers : simpl never.
#[global] Arguments take_vouchers : simpl never.
#[global] Arguments do_redeem_voucher : simpl never.
#[global] Arguments liquidated_transfer : simpl never.
#[global] Arguments do_repay_borrow_with_amount : simpl never.
#[global] Arguments do_repay_borrow : simpl never.
#[global] Arguments on_assets : simpl never.
#[global] Arguments mutate_market : simpl never.
End Loans.
