(* ===== verification/LoansDemo.v ===== *)
(** * A run of the lending pallet

    Two markets, a supplier (account 1), a borrower (account 2) and a liquidator (account 3);
    the states of this run are the inputs at which the lending theorems are instantiated.
    Assets 1 and 2 have the pTokens 101 and 102; asset 5 is the liquidation-free one.  Every
    price is one until the price of asset 2 falls to a half. *)

From S2P Require Import Prelude Arith Frame Ledger RateModel Loans.
Import RateModel Loans.

Definition loans_config : Config :=
  mkConfig 900 (Ok 901) (Ok 902) (fun _ => true) (fun _ => true) (fun x => Ok x) 0 5.

Definition loans_market (ptoken : CurrencyId) : Market :=
  mkMarket 500000 550000 150000 500000 (11 * 10 ^ 17) 30000
    (new_jump_model (2 * 10 ^ 16) (10 ^ 17) (32 * 10 ^ 16) 800000) Pending (10 ^ 20) (10 ^ 20) ptoken.

Definition loans_ledger : ledger :=
  Ledger {[ (1, 1) := 10 ^ 12; (1, 2) := 10 ^ 12; (2, 2) := 10 ^ 12; (1, 3) := 10 ^ 12;
            (0, 901) := 10 ^ 12 ]}
         {[ 0 := 10 ^ 12; 1 := 3 * 10 ^ 12; 2 := 10 ^ 12 ]}.

Definition one_price : CurrencyId -> option (FixedU128 * Timestamp) := fun _ => Some (10 ^ 18, 0).
Definition half_price : CurrencyId -> option (FixedU128 * Timestamp) :=
  fun a => Some (if a =? 2 then 5 * 10 ^ 17 else 10 ^ 18, 0).

Definition loans_empty : State ledger :=
  mkState ∅ [] ∅ ∅ ∅ ∅ ∅ ∅ ∅ ∅ ∅ ∅ ∅ ∅ ∅ ∅ ∅ ∅ ∅ ∅ ∅ ∅ loans_ledger one_price 1000 10 [].

Definition loans_run (origin : RuntimeOrigin) (c : Call) (s : State ledger) : State ledger :=
  match dispatch (SA := sp_reference) (NB := big_reference) (SI := storage_iter_reference)
          (FU := ledger_ops) loans_config origin c s with
  | Ok (_, s') => s' | _ => s
  end.
Definition loans_wait (t b : Z) (f : CurrencyId -> option (FixedU128 * Timestamp))
    (s : State ledger) : State ledger :=
  set_price_feed f (set_unix_time t (set_block_number b s)).

(** Both markets added and activated. *)
Definition loans_added1 : State ledger :=
  loans_run Root (CallAddMarket 1 (loans_market 101)) loans_empty.
Definition loans_added : State ledger :=
  loans_run Root (CallAddMarket 2 (loans_market 102)) loans_added1.
Definition loans_open1 : State ledger := loans_run Root (CallActivateMarket 1) loans_added.
Definition loans_open : State ledger := loans_run Root (CallActivateMarket 2) loans_open1.
(** Account 1 supplies asset 1, account 2 asset 2, as collateral. *)
Definition loans_minted1 : State ledger := loans_run (Signed 1) (CallMint 1 (10 ^ 11)) loans_open.
Definition loans_minted : State ledger :=
  loans_run (Signed 2) (CallMint 2 (2 * 10 ^ 11)) loans_minted1.
Definition loans_supplied : State ledger :=
  loans_run (Signed 2) (CallCollateralAsset 2 true) loans_minted.
(** Account 2 borrows asset 1. *)
Definition loans_borrowed : State ledger :=
  loans_run (Signed 2) (CallBorrow 1 (8 * 10 ^ 10)) loans_supplied.
(** Half a year later. *)
Definition loans_later : State ledger := loans_wait (1000 + 15768000) 20 one_price loans_borrowed.
Definition loans_repaid : State ledger := loans_run (Signed 2) (CallRepayBorrowAll 1) loans_later.
Definition loans_redeemed : State ledger := loans_run (Signed 1) (CallRedeemAll 1) loans_repaid.
(** The price of the collateral falls instead. *)
Definition loans_crashed : State ledger := loans_wait (1000 + 15768000) 20 half_price loans_borrowed.
Definition loans_liquidated : State ledger :=
  loans_run (Signed 3) (CallLiquidateBorrow 2 1 (10 ^ 10) 2) loans_crashed.
