(* ===== verification/LoansProps.v ===== *)
(** * Properties of the lending pallet: frames and invariants

    Which operations leave which part of the storage alone, the steps of the chain, and the
    invariants over all of them: markets are bound one to one to their pTokens and change by
    the update origin only; the recorded supply is the sum of the vouchers. *)

From S2P Require Import Prelude Arith Frame Ledger RateModel Loans LoansDemo.
Import RateModel Loans.

Section frames.
Context {SA : SpArithmetic} {NB : NumBigint} {SI : StorageIter}.
Context {L : Type} {FU : Fungibles L}.
Context (T : Config).
Implicit Types (P : State L -> Prop).

Lemma on_assets_preserves P f :
  (forall l s, P s -> P (set_assets l s)) -> preserves P (on_assets f).
Proof. intros HP s a s' Hs H. unfold on_assets in H. destruct (f (assets s)); minv. auto. Qed.
End frames.

(** [untouched]: a predicate on part of the storage is kept by a computation that does not
    write there; every write is checked by computing the new state. *)
Ltac untouched_write :=
  first [apply preserves_modify | apply on_assets_preserves; intros ?];
  let s := fresh in let H := fresh in intros s H; exact H.
Ltac untouched :=
  unfold dispatch, mint, redeem, redeem_all, borrow, repay_borrow, repay_borrow_all,
    collateral_asset, liquidate_borrow, claim_reward, claim_reward_for_market, add_reward,
    withdraw_missing_reward, update_market_reward_speed, add_reserves, reduce_reserves,
    reduce_incentive_reserves, update_liquidation_free_collateral,
    do_mint, do_redeem, do_redeem_voucher, do_borrow, do_repay_borrow,
    do_repay_borrow_with_amount, do_collateral_asset, do_liquidate_borrow, liquidated_transfer,
    do_transfer_ptokens, ptoken_transfer, collect_market_reward, pay_reward,
    accrue_interest, update_last_accrued_interest_time, update_reward_supply_index,
    update_reward_borrow_index, distribute_supplier_reward, distribute_borrower_reward,
    update_earned_stored, add_vouchers, sub_vouchers, take_vouchers, put_deposits, put_borrows,
    put_total_borrows, put_total_supply, put_total_reserves, deposit_event, add_market,
    activate_market, update_rate_model, update_market, force_update_market, mutate_market;
  preserve ltac:(untouched_write).

(** A step of the chain as the pallet sees it: a successful call, a transfer of pTokens, or
    the time, the block number, the prices and the ledger moving on.  Calls of [LoansTrait] by
    another pallet on behalf of an account do what that account's own calls do. *)
Inductive step {SA : SpArithmetic} {NB : NumBigint} {SI : StorageIter} {L : Type}
    {FU : Fungibles L} (T : Config) : State L -> State L -> Prop :=
| step_call s origin c u s' : dispatch T origin c s = Ok (u, s') -> step T s s'
| step_ptoken s ptoken source dest amount keep r s' :
    ptoken_transfer T ptoken source dest amount keep s = Ok (r, s') -> step T s s'
| step_env s t b f l :
    unix_time s <= t -> block_number s <= b ->
    step T s (set_assets l (set_price_feed f (set_unix_time t (set_block_number b s)))).

Section markets.
Context {SA : SpArithmetic} {NB : NumBigint} {SI : StorageIter}.
Context {L : Type} {FU : Fungibles L}.
Context (T : Config).
Implicit Types (s : State L).

(** The calls that administer the markets. *)
Definition admin_call (c : Call) : bool :=
  match c with
  | CallAddMarket _ _ | CallActivateMarket _ | CallUpdateRateModel _ _
  | CallUpdateMarket _ _ _ _ _ _ _ _ _ | CallForceUpdateMarket _ _ => true
  | _ => false
  end.

Lemma user_calls_keep_markets origin c ms us :
  admin_call c = false ->
  preserves (fun s => Markets s = ms /\ UnderlyingAssetId s = us) (dispatch T origin c).
Proof. intros Hc. destruct c; try discriminate Hc; untouched. Qed.

(** Only a call with the update origin adds, activates or changes a market or binds a
    pToken; every other call, whoever makes it, leaves the markets as they are. *)
Theorem markets_change_by_update_origin origin c s u s' :
  dispatch T origin c s = Ok (u, s') ->
  UpdateOrigin T origin = true \/
  (Markets s' = Markets s /\ UnderlyingAssetId s' = UnderlyingAssetId s).
Proof.
  intros H. destruct (admin_call c) eqn:Hc.
  - left. destruct c; try discriminate Hc; simpl in H;
      unfold add_market, activate_market, update_rate_model, update_market, force_update_market,
        ensure_origin in H; minv; done.
  - right. by apply (user_calls_keep_markets origin c (Markets s) (UnderlyingAssetId s) Hc) in H.
Qed.

(** Every market's pToken is bound to it, and its rate model passed the check. *)
Definition markets_ok s : Prop :=
  forall a m, Markets s !! a = Some m ->
    UnderlyingAssetId s !! ptoken_id m = Some a /\ check_model (rate_model m) = true.

Lemma mutate_market_Ok a cb s m s' :
  mutate_market a cb s = Ok (m, s') ->
  exists m0, Markets s !! a = Some m0 /\ m = cb m0 /\
    s' = set_Markets (<[a := cb m0]> (Markets s)) s.
Proof. unfold mutate_market. intros H. minv. eauto. Qed.

Lemma markets_ok_mutate a m m' s :
  markets_ok s -> Markets s !! a = Some m -> ptoken_id m' = ptoken_id m ->
  check_model (rate_model m') = true -> markets_ok (set_Markets (<[a := m']> (Markets s)) s).
Proof.
  intros Hok Ha Hp Hc b n Hb. simpl in Hb.
  apply lookup_insert_Some in Hb as [[<- <-]|[_ Hb]]; [| by apply Hok].
  simpl. rewrite Hp. split; [by apply Hok | done].
Qed.

(** Binding the pToken of a market that is being written. *)
Lemma markets_ok_bind a m s :
  markets_ok s -> check_model (rate_model m) = true ->
  UnderlyingAssetId s !! ptoken_id m = None \/ UnderlyingAssetId s !! ptoken_id m = Some a ->
  forall b n, <[a := m]> (Markets s) !! b = Some n ->
    <[ptoken_id m := a]> (UnderlyingAssetId s) !! ptoken_id n = Some b /\
    check_model (rate_model n) = true.
Proof.
  intros Hok Hc Hu b n [[<- <-]|[Hne Hb]]%lookup_insert_Some; [by rewrite lookup_insert_eq |].
  destruct (Hok b n Hb) as [Hbn ?]. split; [| done].
  rewrite lookup_insert_ne; [done |]. intros Heq. rewrite Heq in Hu.
  destruct Hu as [Hu|Hu]; congruence.
Qed.

Lemma dispatch_markets_ok origin c s u s' :
  markets_ok s -> dispatch T origin c s = Ok (u, s') -> markets_ok s'.
Proof.
  intros Hok H. destruct (admin_call c) eqn:Hc; cycle 1.
  { destruct (user_calls_keep_markets origin c _ _ Hc s u s' (conj eq_refl eq_refl) H) as [Em Eu].
    unfold markets_ok. by rewrite Em, Eu. }
  destruct c; try discriminate Hc; simpl in H;
    unfold add_market, activate_market, update_rate_model, update_market, force_update_market,
      deposit_event, ensure_ptoken in H; minv;
    repeat match goal with H : mutate_market _ _ _ = Ok _ |- _ =>
      apply mutate_market_Ok in H as (? & ? & ? & ?) end; subst; simpl in *.
  - refine (markets_ok_bind asset_id m s Hok _ _); [done |]. left.
    by match goal with H : bool_decide (UnderlyingAssetId s !! _ = None) = true |- _ =>
      apply bool_decide_eq_true in H end.
  - match goal with H : Markets s !! _ = Some ?m |- _ => rename m into m0, H into Hm end.
    destruct (Hok asset_id m0 Hm) as [_ Hcheck].
    by refine (markets_ok_mutate asset_id m0 _ s Hok Hm _ _); destruct (is_active m0).
  - match goal with H : Markets s !! _ = Some ?m |- _ =>
      by refine (markets_ok_mutate asset_id m _ s Hok H _ _) end.
  - match goal with H : Markets ?s0 !! _ = Some ?m |- _ => rename s0 into s, m into m0, H into Hm end.
    destruct (Hok asset_id m0 Hm) as [_ Hcheck].
    by refine (markets_ok_mutate asset_id m0 _ s Hok Hm _ _).
  - case_bool_decide; unfold underlying_id in *; minv; zbool; subst;
      refine (markets_ok_bind _ m _ Hok _ _); auto.
Qed.

Lemma step_markets_ok s s' : markets_ok s -> step T s s' -> markets_ok s'.
Proof.
  intros Hok Hs. revert Hok. destruct Hs as [s o c u s' H | s p x y n k r s' H | s t b f l _ _];
    intros Hok; [by eapply dispatch_markets_ok | | done].
  assert (preserves (fun s0 => Markets s0 = Markets s /\ UnderlyingAssetId s0 = UnderlyingAssetId s)
    (ptoken_transfer T p x y n k)) as Hp by untouched.
  destruct (Hp s r s' (conj eq_refl eq_refl) H) as [Em Eu]. unfold markets_ok. by rewrite Em, Eu.
Qed.

(** From an empty pallet on, whatever happens, the pToken of every market is bound to
    that market, so two markets never share one, and the rate model of every market has
    passed [check_model]. *)
Theorem markets_registered s0 s :
  Markets s0 = ∅ -> rtc (step T) s0 s ->
  markets_ok s /\
  forall a b m n, Markets s !! a = Some m -> Markets s !! b = Some n ->
    ptoken_id m = ptoken_id n -> a = b.
Proof.
  intros H0 H. assert (markets_ok s) as Hok.
  { assert (markets_ok s0) as Hok0 by (intros a m Ha; rewrite H0, lookup_empty in Ha; done).
    clear H0. induction H as [|s0 s1 s2 H _ IH]; [done |]. by eapply IH, step_markets_ok. }
  split; [done |]. intros a b m n Ha Hb Hp.
  destruct (Hok a m Ha) as [Ea _], (Hok b n Hb) as [Eb _]. rewrite Hp in Ea. congruence.
Qed.
End markets.

(** [carry P] moves [P] forward along the steps of a run that do not write what it is about. *)
Ltac carry P :=
  repeat match goal with
  | Hs : P ?s, H : ?m ?s = Ok (_, ?s') |- _ =>
      lazymatch goal with _ : P s' |- _ => fail | _ => idtac end;
      let Hp := fresh in
      assert (P s') by (assert (preserves P m) as Hp by untouched; exact (Hp _ _ _ Hs H))
  end.

(** ** Vouchers *)

(** The vouchers of asset [a] in circulation. *)
Definition voucher_in (a : CurrencyId) (k : CurrencyId * AccountId) (d : Deposits) : Z :=
  if decide (k.1 = a) then voucher_balance d else 0.
Definition vouchers (a : CurrencyId) (m : gmap (CurrencyId * AccountId) Deposits) : Z :=
  map_sum (voucher_in a) m.
(** The recorded supply of every market is the sum of the balances. *)
Definition supply_ok {L} (s : State L) : Prop :=
  forall a, at0 (TotalSupply s) a = vouchers a (AccountDeposits s).

Section vouchers.
Context {SA : SpArithmetic} {NB : NumBigint} {SI : StorageIter}.
Context {L : Type} {FU : Fungibles L}.
Context (T : Config).
Implicit Types (s : State L) (m : gmap (CurrencyId * AccountId) Deposits).

Lemma vouchers_insert b m a w d :
  vouchers b (<[(a, w) := d]> m) = vouchers b m +
    (if decide (b = a) then voucher_balance d
       - voucher_balance (default default_deposits (m !! (a, w))) else 0).
Proof.
  unfold vouchers. rewrite map_sum_insert. unfold voucher_in. simpl.
  destruct (m !! (a, w)); simpl; repeat case_decide; subst; simpl; congruence || lia.
Qed.

Lemma vouchers_delete b m a w :
  vouchers b (delete (a, w) m) = vouchers b m -
    (if decide (b = a) then voucher_balance (default default_deposits (m !! (a, w))) else 0).
Proof.
  unfold vouchers. destruct (m !! (a, w)) as [d|] eqn:Hd; simpl.
  - rewrite (map_sum_delete _ m (a, w) d Hd). unfold voucher_in at 2. simpl.
    repeat case_decide; subst; congruence || lia.
  - rewrite delete_id by done. case_decide; lia.
Qed.

Lemma add_vouchers_Ok a w n s u s' :
  add_vouchers a w n s = Ok (u, s') ->
  exists m, s' = set_AccountDeposits m s /\
    forall b, vouchers b m = vouchers b (AccountDeposits s) + (if decide (b = a) then n else 0).
Proof.
  unfold add_vouchers, put_deposits, account_deposits. intros H. minv. eexists. split; [done |].
  intros b. rewrite vouchers_insert. simpl. case_decide; lia.
Qed.

Lemma sub_vouchers_Ok a w n s u s' :
  sub_vouchers a w n s = Ok (u, s') ->
  exists m, s' = set_AccountDeposits m s /\
    forall b, vouchers b m = vouchers b (AccountDeposits s) - (if decide (b = a) then n else 0).
Proof.
  unfold sub_vouchers, put_deposits, account_deposits. intros H. minv. eexists. split; [done |].
  intros b. rewrite vouchers_insert. simpl. case_decide; lia.
Qed.

Lemma take_vouchers_Ok a w n s u s' :
  take_vouchers a w n s = Ok (u, s') ->
  exists m, s' = set_AccountDeposits m s /\
    forall b, vouchers b m = vouchers b (AccountDeposits s) - (if decide (b = a) then n else 0).
Proof.
  unfold take_vouchers, put_deposits, account_deposits. intros H. minv.
  case_match; zbool; minv; eexists; (split; [done |]); intros b.
  - rewrite vouchers_delete. case_decide; lia.
  - rewrite vouchers_insert. simpl. case_decide; lia.
Qed.

Lemma at0_insert (m : gmap Z Z) (k v b : Z) :
  at0 (<[k := v]> m) b = if decide (b = k) then v else at0 m b.
Proof.
  unfold at0. case_decide; [subst; by rewrite lookup_insert_eq | by rewrite lookup_insert_ne].
Qed.

Lemma do_mint_supply w a n : preserves supply_ok (do_mint T w a n : M (State L) _ _).
Proof.
  intros s u s' Hs H. unfold do_mint in H. minv. carry (@supply_ok L).
  match goal with H : add_vouchers _ _ _ _ = Ok _ |- _ =>
    apply add_vouchers_Ok in H as (m & -> & Hm) end.
  unfold put_total_supply, deposit_event in *. minv. intros b. simpl.
  rewrite Hm, at0_insert.
  match goal with H : supply_ok ?s |- context [AccountDeposits ?s] => pose proof (H b) end.
  simpl in *. case_decide; subst; lia.
Qed.

Lemma do_redeem_voucher_supply w a n :
  preserves supply_ok (do_redeem_voucher T w a n : M (State L) _ _).
Proof.
  intros s u s' Hs H. unfold do_redeem_voucher in H. minv. carry (@supply_ok L).
  match goal with H : take_vouchers _ _ _ _ = Ok _ |- _ =>
    apply take_vouchers_Ok in H as (m & -> & Hm) end.
  match goal with H : on_assets _ ?s1 = Ok _ |- _ =>
    assert (supply_ok s1) as Hs1; [clear H |] end.
  - unfold put_total_supply in *. minv. intros b. simpl. rewrite Hm, at0_insert.
    match goal with H : supply_ok ?s |- context [AccountDeposits ?s] => pose proof (H b) end.
    simpl in *. case_decide; subst; lia.
  - by carry (@supply_ok L).
Qed.

Lemma liquidated_transfer_supply x w la ca n c mk :
  preserves supply_ok (liquidated_transfer T x w la ca n c mk : M (State L) _ _).
Proof.
  intros s u s' Hs H. unfold liquidated_transfer in H. minv. carry (@supply_ok L).
  repeat match goal with
  | H : add_vouchers _ _ _ _ = Ok _ |- _ => apply add_vouchers_Ok in H as (? & -> & ?)
  | H : sub_vouchers _ _ _ _ = Ok _ |- _ => apply sub_vouchers_Ok in H as (? & -> & ?)
  end.
  unfold deposit_event in *. minv. intros b. simpl in *.
  repeat match goal with H : forall b, vouchers b ?m = _ |- context [vouchers _ ?m] => rewrite H end.
  match goal with H : supply_ok ?s |- context [AccountDeposits ?s] => pose proof (H b) end.
  case_decide; lia.
Qed.

Lemma do_collateral_asset_supply w a e :
  preserves supply_ok (do_collateral_asset T w a e : M (State L) _ _).
Proof.
  intros s u s' Hs H. unfold do_collateral_asset, put_deposits, deposit_event in H. minv.
  destruct e; minv; intros b; simpl; rewrite vouchers_insert, (Hs b); simpl;
    unfold account_deposits; case_decide; lia.
Qed.

Lemma ptoken_transfer_supply p x y n k :
  preserves supply_ok (ptoken_transfer T p x y n k : M (State L) _ _).
Proof.
  intros s u s' Hs H. unfold ptoken_transfer, do_transfer_ptokens in H. minv. carry (@supply_ok L).
  match goal with H : add_vouchers _ _ _ _ = Ok _ |- _ =>
    apply add_vouchers_Ok in H as (? & -> & ?) end.
  match goal with H : take_vouchers _ _ _ _ = Ok _ |- _ =>
    apply take_vouchers_Ok in H as (? & -> & ?) end.
  intros b. simpl in *.
  repeat match goal with H : forall b, vouchers b ?m = _ |- context [vouchers _ ?m] => rewrite H end.
  match goal with H : supply_ok ?s |- context [AccountDeposits ?s] => pose proof (H b) end.
  case_decide; lia.
Qed.

Lemma dispatch_supply origin c : preserves supply_ok (dispatch T origin c : M (State L) _ _).
Proof.
  destruct c; simpl;
    unfold mint, redeem, redeem_all, do_redeem, reduce_incentive_reserves, collateral_asset,
      liquidate_borrow, do_liquidate_borrow;
    try solve [untouched];
    unfold add_market, activate_market, update_rate_model, update_market, force_update_market,
      mutate_market;
    preserve ltac:(first [apply do_mint_supply | apply do_redeem_voucher_supply
      | apply liquidated_transfer_supply | apply do_collateral_asset_supply
      | unfold accrue_interest, update_earned_stored, deposit_event, put_total_borrows,
          put_total_reserves; preserve ltac:(untouched_write)]).
Qed.

(** C3: whatever happens, if the recorded supply of every market is the sum of the accounts'
    voucher balances, it stays so: minting and redeeming change both alike, and liquidations,
    pToken transfers and collateral switches only move vouchers between accounts. *)
Theorem voucher_supply_invariant s s' :
  supply_ok s -> rtc (step T) s s' -> supply_ok s'.
Proof.
  intros Hs H. induction H as [|s s1 s2 H _ IH]; [done |]. apply IH. clear IH.
  destruct H as [s o c u s' H | s p x y n k r s' H | s t b f l _ _]; [| | done].
  - exact (dispatch_supply o c s u s' Hs H).
  - exact (ptoken_transfer_supply p x y n k s r s' Hs H).
Qed.
End vouchers.

(** ** The theorems at concrete inputs *)

Section instances.
#[local] Existing Instances sp_reference big_reference storage_iter_reference ledger_ops.
#[local] Existing Instances sp_reference_laws big_reference_laws storage_iter_reference_laws
  ledger_ops_laws.

Lemma loans_step s o c s' :
  rtc (step loans_config) loans_empty s -> dispatch loans_config o c s = Ok (tt, s') ->
  rtc (step loans_config) loans_empty s'.
Proof. intros Hs H. eapply rtc_r; [exact Hs |]. by eapply step_call. Qed.

Lemma loans_reach_borrowed : rtc (step loans_config) loans_empty loans_borrowed.
Proof.
  apply (loans_step loans_supplied (Signed 2) (CallBorrow 1 (8 * 10 ^ 10))); [| by_eval].
  apply (loans_step loans_minted (Signed 2) (CallCollateralAsset 2 true)); [| by_eval].
  apply (loans_step loans_minted1 (Signed 2) (CallMint 2 (2 * 10 ^ 11))); [| by_eval].
  apply (loans_step loans_open (Signed 1) (CallMint 1 (10 ^ 11))); [| by_eval].
  apply (loans_step loans_open1 Root (CallActivateMarket 2)); [| by_eval].
  apply (loans_step loans_added Root (CallActivateMarket 1)); [| by_eval].
  apply (loans_step loans_added1 Root (CallAddMarket 2 (loans_market 102))); [| by_eval].
  apply (loans_step loans_empty Root (CallAddMarket 1 (loans_market 101))); [| by_eval].
  apply rtc_refl.
Qed.

Lemma loans_wait_step s t b f :
  unix_time s <= t -> block_number s <= b -> step loans_config s (loans_wait t b f s).
Proof.
  intros Ht Hb. replace (loans_wait t b f s) with
    (set_assets (assets s) (set_price_feed f (set_unix_time t (set_block_number b s))))
    by (by destruct s). by apply step_env.
Qed.

Lemma loans_reach_liquidated : rtc (step loans_config) loans_empty loans_liquidated.
Proof.
  apply (loans_step loans_crashed (Signed 3) (CallLiquidateBorrow 2 1 (10 ^ 10) 2)); [| by_eval].
  apply (rtc_r _ loans_borrowed); [exact loans_reach_borrowed |].
  apply (loans_wait_step loans_borrowed); by_range.
Qed.

Lemma markets_change_by_update_origin_witness :
  UpdateOrigin loans_config (Signed 2) = true \/
  (Markets loans_borrowed = Markets loans_supplied /\
   UnderlyingAssetId loans_borrowed = UnderlyingAssetId loans_supplied).
Proof.
  apply (markets_change_by_update_origin loans_config (Signed 2) (CallBorrow 1 (8 * 10 ^ 10))
    loans_supplied tt loans_borrowed). by_eval.
Defined.

Lemma markets_registered_witness :
  markets_ok loans_liquidated /\
  forall a b m n, Markets loans_liquidated !! a = Some m -> Markets loans_liquidated !! b = Some n ->
    ptoken_id m = ptoken_id n -> a = b.
Proof.
  apply (markets_registered loans_config loans_empty loans_liquidated);
    [reflexivity | exact loans_reach_liquidated].
Defined.

Lemma loans_empty_supply : supply_ok loans_empty.
Proof. intros a. exact (eq_sym (map_sum_empty (voucher_in a))). Qed.

Lemma voucher_supply_invariant_witness : supply_ok loans_liquidated.
Proof.
  apply (voucher_supply_invariant loans_config loans_empty loans_liquidated);
    [exact loans_empty_supply | exact loans_reach_liquidated].
Defined.
End instances.
