(* ===== verification/LoansInterest.v ===== *)
(** * Properties of the lending pallet: interest, exchange rate and vouchers

    What accruing interest does to a market, how the exchange rate moves, and what minting and
    redeeming do to vouchers and balances. *)

From S2P Require Import Prelude Arith Frame Ledger RateModel Loans LoansDemo LoansProps.
Import RateModel Loans.

(** The stored numbers of a market have their types' ranges. *)
Record asset_ok {L} (s : State L) (a : CurrencyId) : Prop := {
  ao_supply : is_u128 (at0 (TotalSupply s) a);
  ao_borrows : is_u128 (at0 (TotalBorrows s) a);
  ao_reserves : is_u128 (at0 (TotalReserves s) a);
  ao_index : is_u128 (at0 (BorrowIndex s) a);
  ao_reserve_factor : forall m, Markets s !! a = Some m -> is_permill (reserve_factor m);
}.

Section interest.
Context {SA : SpArithmetic} {SL : SpArithmeticLaws SA} {NB : NumBigint} {SI : StorageIter}.
Context {L : Type} {FU : Fungibles L} {FL : FungiblesLaws L}.
Context (T : Config).
Implicit Types (s : State L) (a : CurrencyId).

(** The storage after a market's status [st] has been written. *)
Definition with_status s a (st : MarketStatus) : State L :=
  set_ExchangeRate (<[a := st_exchange_rate st]> (ExchangeRate s))
  (set_SupplyRate (<[a := st_supply_rate st]> (SupplyRate s))
  (set_BorrowRate (<[a := st_borrow_rate st]> (BorrowRate s))
  (set_UtilizationRatio (<[a := st_utilization st]> (UtilizationRatio s))
  (set_BorrowIndex (<[a := st_borrow_index st]> (BorrowIndex s))
  (set_TotalReserves (<[a := st_total_reserves st]> (TotalReserves s))
  (set_TotalBorrows (<[a := st_total_borrows st]> (TotalBorrows s))
  (set_LastAccruedInterestTime (<[a := unix_time s]> (LastAccruedInterestTime s)) s))))))).

Lemma accrue_interest_Ok a s u s' :
  accrue_interest T a s = Ok (u, s') ->
  let last := at0 (LastAccruedInterestTime s) a in
  (last = 0 /\ s' = set_LastAccruedInterestTime (<[a := unix_time s]> (LastAccruedInterestTime s)) s) \/
  (last <> 0 /\ unix_time s <= last /\ s' = s) \/
  (last <> 0 /\ last < unix_time s /\ exists st, get_market_status T s a = Ok st /\
     s' = with_status s a st).
Proof.
  unfold accrue_interest, update_last_accrued_interest_time, put_total_borrows, put_total_reserves.
  intros H. minv.
  destruct (Z.eqb_spec (at0 (LastAccruedInterestTime s) a) 0); minv; [by left |]. right.
  destruct (Z.leb_spec (unix_time s) (at0 (LastAccruedInterestTime s) a)); minv; [by left |]. right.
  do 2 (split; [done |]). eexists. split; [done |]. done.
Qed.

Lemma accrue_twice a s u s' :
  0 < unix_time s -> accrue_interest T a s = Ok (u, s') -> accrue_interest T a s' = Ok (tt, s').
Proof.
  intros Ht H.
  assert (unix_time s' = unix_time s /\ at0 (LastAccruedInterestTime s') a <> 0 /\
    unix_time s <= at0 (LastAccruedInterestTime s') a) as (Et & Hne & Hle).
  { apply accrue_interest_Ok in H as [[_ ->]|[(? & ? & ->)|(? & ? & st & _ & ->)]]; [| done |];
      simpl; rewrite at0_insert, decide_True by done; lia. }
  unfold accrue_interest. unfold mbind at 1, M_bind, get. rewrite Et.
  rewrite (proj2 (Z.eqb_neq _ _) Hne), (proj2 (Z.leb_le _ _) Hle). done.
Qed.

(** Accruing the interest of a market a second time in the same second changes nothing
    (and succeeds). *)
Theorem accrue_interest_idempotent a s u s' :
  0 < unix_time s -> accrue_interest T a s = Ok (u, s') -> accrue_interest T a s' = Ok (tt, s').
Proof. apply accrue_twice. Qed.

Lemma accrued_interest_nonneg r n dt i :
  0 <= dt -> accrued_interest r n dt = Some i -> 0 <= i.
Proof.
  unfold accrued_interest. intros Hdt H. minv.
  match goal with H : fixed_checked_mul_int _ _ = Some _ |- _ =>
    apply fixed_checked_mul_int_type in H as [? _] end.
  apply Z.div_pos; [nia | by_range].
Qed.

Lemma get_market_status_Ok s a st :
  asset_ok s a -> at0 (LastAccruedInterestTime s) a < unix_time s ->
  get_market_status T s a = Ok st ->
  exists m interest, Markets s !! a = Some m /\ 0 <= interest /\
    st_total_borrows st = at0 (TotalBorrows s) a + interest /\
    st_total_reserves st =
      at0 (TotalReserves s) a + permill_mul_floor (reserve_factor m) interest /\
    0 <= permill_mul_floor (reserve_factor m) interest <= interest /\
    at0 (BorrowIndex s) a <= st_borrow_index st /\ is_u128 (st_borrow_index st) /\
    calculate_exchange_rate (at0 (TotalSupply s) a) (get_total_cash T s a)
      (st_total_borrows st) (st_total_reserves st) = Ok (st_exchange_rate st).
Proof.
  intros [_ Hb Hr Hi Hf] Hlt H. unfold get_market_status, market in H. minv.
  rewrite Z.gtb_ltb, (proj2 (Z.ltb_lt _ _) Hlt) in *. minv.
  match goal with H : Markets s !! a = Some ?m |- _ => exists m; pose proof (Hf m H) as Hfm end.
  match goal with H : accrued_interest _ _ _ = Some ?i |- _ =>
    exists i; apply accrued_interest_nonneg in H as Hi0; [| lia] end.
  match goal with H : fixed_checked_add ?r ?i = Some ?j, H2 : increment_index _ _ _ = Some ?r |- _ =>
    assert (is_u128 j /\ i <= j) as [? ?]; [| clear H H2] end.
  { match goal with H : fixed_checked_add ?r ?i = Some ?j, H2 : increment_index _ _ _ = Some ?r |- _ =>
      assert (is_u128 r) as Hr128 by (unfold increment_index in H2; minv; by eapply fixed_checked_div_type);
      pose proof (fixed_checked_add_type _ _ _ H);
      rewrite fixed_checked_add_eq in H by done; apply fit_u128_Some in H as [-> ?] end.
    split; [done |]. destruct Hr128. lia. }
  split; [done |]. split; [done |]. split; [lia |]. split; [lia |].
  split; [| done]. destruct Hb.
  match goal with H : 0 <= ?i |- _ <= permill_mul_floor _ ?i <= _ =>
    assert (is_u128 i) as Hi128 by (unfold is_u128; lia) end.
  rewrite permill_mul_floor_eq by done. destruct Hi128. split; [| by apply share_le].
  apply div_nonneg; [| by_range]. unfold is_permill in Hfm. nia.
Qed.

(** What accruing interest does to the amounts of a market. *)
Lemma accrue_interest_amounts a s u s' :
  asset_ok s a -> accrue_interest T a s = Ok (u, s') ->
  exists interest reserved,
    0 <= reserved <= interest /\
    at0 (TotalBorrows s') a = at0 (TotalBorrows s) a + interest /\
    at0 (TotalReserves s') a = at0 (TotalReserves s) a + reserved /\
    at0 (BorrowIndex s) a <= at0 (BorrowIndex s') a /\ is_u128 (at0 (BorrowIndex s') a).
Proof.
  intros Hok H.
  apply accrue_interest_Ok in H as [[_ ->]|[(_ & _ & ->)|(_ & Hlt & st & Hst & ->)]].
  - exists 0, 0. simpl. pose proof (ao_index s a Hok). repeat split; lia || apply Hok.
  - exists 0, 0. pose proof (ao_index s a Hok). repeat split; lia || apply Hok.
  - apply get_market_status_Ok in Hst as (m & i & _ & ? & Eb & Er & ? & ? & ? & _); [| done ..].
    exists i, (permill_mul_floor (reserve_factor m) i). simpl.
    rewrite !at0_insert, !decide_True by done. repeat split; lia || apply H2.
Qed.

(** Accruing interest never lowers what is owed to a market, its reserves or its borrow
    index; the reserves take at most the interest that is added to the borrows; nothing
    happens to the other markets, to the vouchers or to the ledger. *)
Theorem accrue_interest_monotone a s u s' :
  asset_ok s a -> accrue_interest T a s = Ok (u, s') ->
  at0 (TotalBorrows s) a <= at0 (TotalBorrows s') a /\
  at0 (TotalReserves s) a <= at0 (TotalReserves s') a /\
  at0 (TotalReserves s') a - at0 (TotalReserves s) a
    <= at0 (TotalBorrows s') a - at0 (TotalBorrows s) a /\
  at0 (BorrowIndex s) a <= at0 (BorrowIndex s') a /\
  (forall b, b <> a -> at0 (TotalBorrows s') b = at0 (TotalBorrows s) b /\
     at0 (TotalReserves s') b = at0 (TotalReserves s) b /\
     at0 (BorrowIndex s') b = at0 (BorrowIndex s) b) /\
  TotalSupply s' = TotalSupply s /\ AccountDeposits s' = AccountDeposits s /\
  AccountBorrows s' = AccountBorrows s /\ assets s' = assets s.
Proof.
  intros Hok H. destruct (accrue_interest_amounts a s u s' Hok H) as (i & r & ? & Eb & Er & ? & _).
  do 4 (split; [lia |]). split.
  - intros b Hb.
    apply accrue_interest_Ok in H as [[_ ->]|[(_ & _ & ->)|(_ & _ & st & _ & ->)]]; [done | done |].
    simpl. by rewrite !at0_insert, !decide_False by done.
  - by apply accrue_interest_Ok in H as [[_ ->]|[(_ & _ & ->)|(_ & _ & st & _ & ->)]].
Qed.

Lemma calculate_exchange_rate_Ok supply cash borrows reserves r :
  0 <= supply -> is_u128 cash -> is_u128 borrows -> is_u128 reserves ->
  calculate_exchange_rate supply cash borrows reserves = Ok r ->
  MIN_EXCHANGE_RATE <= r < MAX_EXCHANGE_RATE /\
  (0 < supply -> is_u128 supply -> r = (cash + borrows - reserves) * FIXED_DIV / supply /\
     0 <= cash + borrows - reserves).
Proof.
  unfold calculate_exchange_rate, ensure_valid_exchange_rate. intros Hs [Hc Hc'] [Hb Hb'] [Hr Hr'] H.
  destruct (Z.eqb_spec supply 0); minv; zbool; [split; [by_range | lia] |].
  split; [lia |]. intros _ Hs128.
  match goal with H : fixed_checked_from_rational _ _ = Some _ |- _ =>
    rewrite fixed_checked_from_rational_eq in H by (done || (unfold is_u128; lia));
    rewrite (proj2 (Z.eqb_neq _ _)) in H by done; apply fit_u128_Some in H as [-> _] end.
  split; [done | lia].
Qed.

Lemma get_total_cash_range s a : is_u128 (get_total_cash T s a).
Proof.
  unfold get_total_cash.
  pose proof (reducible_balance_range (assets s) a (account_id T) false).
  pose proof (balance_range (assets s) a (account_id T)) as [? ?]. unfold is_u128. lia.
Qed.

Lemma exchange_rate_stored_range s a r :
  exchange_rate_stored T s a = Ok r -> MIN_EXCHANGE_RATE <= r < MAX_EXCHANGE_RATE.
Proof.
  intros H. unfold exchange_rate_stored, calculate_exchange_rate, ensure_valid_exchange_rate in H.
  case_match; minv; zbool; [by_range | lia].
Qed.

(** C22: the exchange rate between vouchers and the underlying asset stays between 0.02 and 1,
    and accruing interest never lowers it: suppliers do not lose by it. *)
Theorem accrual_never_lowers_exchange_rate a s u s' r r' :
  asset_ok s a -> asset_ok s' a -> 0 < at0 (TotalSupply s) a ->
  exchange_rate_stored T s a = Ok r -> accrue_interest T a s = Ok (u, s') ->
  exchange_rate_stored T s' a = Ok r' ->
  MIN_EXCHANGE_RATE <= r <= r' /\ r' < MAX_EXCHANGE_RATE.
Proof.
  intros Hok Hok' Hpos Hr H Hr'.
  destruct (accrue_interest_amounts a s u s' Hok H) as (i & v & ? & Eb & Er & _ & _).
  assert (TotalSupply s' = TotalSupply s /\ assets s' = assets s) as [Es El].
  { by apply accrue_interest_Ok in H as [[_ ->]|[(_ & _ & ->)|(_ & _ & st & _ & ->)]]. }
  pose proof (exchange_rate_stored_range s a r Hr).
  pose proof (exchange_rate_stored_range s' a r' Hr').
  unfold exchange_rate_stored in Hr, Hr'.
  destruct Hok as [Hs Hb Hre _ _], Hok' as [Hs' Hb' Hre' _ _].
  apply calculate_exchange_rate_Ok in Hr as [_ Er1]; [| apply Hs | apply get_total_cash_range | done | done].
  apply calculate_exchange_rate_Ok in Hr' as [_ Er2]; [| apply Hs' | apply get_total_cash_range | done | done].
  unfold get_total_cash in *. rewrite Es, El in *.
  destruct (Er1 Hpos Hs) as [-> ?], (Er2 Hpos Hs) as [-> ?].
  split; [split; [lia |] | lia]. apply Z.div_le_mono; [lia |]. unfold FIXED_DIV. lia.
Qed.

(** Changing an amount into vouchers and back at the same rate, as minting and redeeming
    do, never yields a profit and loses at most one unit; it never fails on the way back. *)
Theorem voucher_round_trip amount r v :
  is_u128 amount -> MIN_EXCHANGE_RATE <= r < MAX_EXCHANGE_RATE ->
  calc_collateral_amount amount r = Ok v ->
  exists back, calc_underlying_amount v r = Ok back /\ amount - 1 <= back <= amount.
Proof.
  intros [Ha Ha'] Hr H. unfold calc_collateral_amount, calc_underlying_amount in *.
  unfold MIN_EXCHANGE_RATE, MAX_EXCHANGE_RATE in Hr.
  assert (is_u128 r) as Hr128 by (unfold is_u128, u128_max; lia). minv.
  match goal with H : fixed_checked_div _ _ = Some _ |- _ =>
    pose proof (fixed_checked_div_type _ _ _ H) as Hv;
    rewrite fixed_checked_div_eq in H by done;
    rewrite (proj2 (Z.eqb_neq _ _)) in H by lia; apply fit_u128_Some in H as [-> _] end.
  rewrite fixed_checked_mul_int_eq by done.
  set (v := amount * FIXED_DIV / r) in *. unfold FIXED_DIV in *.
  pose proof (div_floor_bounds (amount * 10 ^ 18) r ltac:(lia)) as Hb. fold v in Hb.
  pose proof (div_floor_bounds (r * v) (10 ^ 18) ltac:(lia)) as Hb2.
  assert (r * v / 10 ^ 18 <= amount) by nia.
  assert (amount - 1 <= r * v / 10 ^ 18) by nia.
  rewrite fit_u128_ok by lia. simpl. eauto with lia.
Qed.
End interest.

(** ** The theorems at concrete inputs *)

Section instances.
#[local] Existing Instances sp_reference big_reference storage_iter_reference ledger_ops.
#[local] Existing Instances sp_reference_laws big_reference_laws storage_iter_reference_laws
  ledger_ops_laws.

(** The market of asset 1 half a year after the loan, before and after the accrual. *)
Definition loans_accrued : State ledger :=
  match accrue_interest loans_config 1 loans_later with Ok (_, s) => s | _ => loans_later end.

Lemma asset_ok_intro (s : State ledger) a m :
  is_u128 (at0 (TotalSupply s) a) -> is_u128 (at0 (TotalBorrows s) a) ->
  is_u128 (at0 (TotalReserves s) a) -> is_u128 (at0 (BorrowIndex s) a) ->
  Markets s !! a = Some m -> is_permill (reserve_factor m) -> asset_ok s a.
Proof. intros ????? Hm. split; try done. intros m' Hm'. congruence. Qed.

Lemma loans_later_ok : asset_ok loans_later 1.
Proof.
  apply (asset_ok_intro _ _ (with_state Active (loans_market 101)));
    [by_range | by_range | by_range | by_range | by_eval | by_range].
Qed.
Lemma loans_accrued_ok : asset_ok loans_accrued 1.
Proof.
  apply (asset_ok_intro _ _ (with_state Active (loans_market 101)));
    [by_range | by_range | by_range | by_range | by_eval | by_range].
Qed.

Lemma accrue_interest_idempotent_witness :
  accrue_interest loans_config 1 loans_accrued = Ok (tt, loans_accrued).
Proof.
  apply (accrue_interest_idempotent loans_config 1 loans_later tt loans_accrued); by_eval.
Defined.

Lemma accrue_interest_monotone_witness :
  at0 (TotalBorrows loans_later) 1 <= at0 (TotalBorrows loans_accrued) 1.
Proof.
  apply (accrue_interest_monotone loans_config 1 loans_later tt loans_accrued);
    [exact loans_later_ok | by_eval].
Defined.

Lemma accrual_never_lowers_exchange_rate_witness :
  MIN_EXCHANGE_RATE <= 20000000000000000 <= 20680000000000000 /\
  20680000000000000 < MAX_EXCHANGE_RATE.
Proof.
  apply (accrual_never_lowers_exchange_rate loans_config 1 loans_later tt loans_accrued);
    [exact loans_later_ok | exact loans_accrued_ok | by_eval | by_eval | by_eval | by_eval].
Defined.

Lemma voucher_round_trip_witness :
  exists back, calc_underlying_amount 48355899419 20680000000000000 = Ok back /\
    10 ^ 9 - 1 <= back <= 10 ^ 9.
Proof. apply (voucher_round_trip (10 ^ 9) 20680000000000000); [by_range | by_range | by_eval]. Defined.
End instances.
