(* ===== verification/LoansPositions.v ===== *)
(** * Properties of the lending pallet: positions

    What minting, redeeming, borrowing, repaying and liquidating do to the positions of an
    account, the conditions under which they are allowed, and who may change a position. *)

From S2P Require Import Prelude Arith Frame Ledger RateModel Loans LoansDemo LoansProps LoansInterest.
Import RateModel Loans.

Section positions.
Context {SA : SpArithmetic} {SL : SpArithmeticLaws SA} {NB : NumBigint} {NL : NumBigintLaws NB}.
Context {SI : StorageIter} {IL : StorageIterLaws SI}.
Context {L : Type} {FU : Fungibles L} {FL : FungiblesLaws L}.
Context (T : Config).
Implicit Types (s : State L) (a : CurrencyId) (w : AccountId).

(** ** Markets, amounts *)

Lemma active_markets_spec s a m :
  (a, m) ∈ active_markets s <-> Markets s !! a = Some m /\ state m = Active.
Proof.
  unfold active_markets. rewrite list_elem_of_In, filter_In, <- list_elem_of_In.
  rewrite (storage_iter_perm _ (Markets s)), elem_of_map_to_list. simpl.
  unfold is_active. by rewrite bool_decide_eq_true.
Qed.

Lemma ensure_active_market_Ok s a m :
  ensure_active_market s a = Ok m -> Markets s !! a = Some m /\ state m = Active.
Proof.
  unfold ensure_active_market. intros H. minv. destruct (find _ _) as [[b n]|] eqn:Hf; simplify_eq/=.
  apply find_some in Hf as [Hin Heq]. simpl in Heq. zbool. subst.
  by apply active_markets_spec, list_elem_of_In.
Qed.

Lemma calc_collateral_amount_Ok n r v :
  is_u128 n -> MIN_EXCHANGE_RATE <= r < MAX_EXCHANGE_RATE -> calc_collateral_amount n r = Ok v ->
  v = n * FIXED_DIV / r /\ is_u128 v.
Proof.
  unfold MIN_EXCHANGE_RATE, MAX_EXCHANGE_RATE, calc_collateral_amount. intros Hn Hr H. minv.
  pose proof (fixed_checked_div_type _ _ _ H) as Hv.
  rewrite fixed_checked_div_eq in H by (done || (unfold is_u128, u128_max; lia)).
  rewrite (proj2 (Z.eqb_neq _ _)) in H by lia. by apply fit_u128_Some in H as [-> _].
Qed.

Lemma calc_underlying_amount_Ok v r y :
  is_u128 v -> MIN_EXCHANGE_RATE <= r < MAX_EXCHANGE_RATE -> calc_underlying_amount v r = Ok y ->
  y = r * v / FIXED_DIV.
Proof.
  unfold MIN_EXCHANGE_RATE, MAX_EXCHANGE_RATE, calc_underlying_amount. intros Hn Hr H. minv.
  rewrite fixed_checked_mul_int_eq in H by (done || (unfold is_u128, u128_max; lia)).
  by apply fit_u128_Some in H as [-> _].
Qed.

Lemma loans_assets_Ok (f : L -> Res L) s u s' :
  on_assets f s = Ok (u, s') -> exists l, f (assets s) = Ok l /\ s' = set_assets l s.
Proof. unfold on_assets. destruct (f (assets s)); intros; minv; eauto. Qed.

(** ** Supplying and redeeming *)

Definition same_vouchers s0 s : Prop :=
  TotalSupply s = TotalSupply s0 /\ AccountDeposits s = AccountDeposits s0 /\
  assets s = assets s0 /\ Markets s = Markets s0.

(** A deposit goes into an active market, stays within its supply cap, and gives the
    supplier the amount divided by an exchange rate between 0.02 and 1, rounded down and
    never zero, in new vouchers; the pallet's account receives the deposit. *)
Theorem mint_issues_vouchers w a n s u s' :
  is_u128 n -> w <> account_id T -> do_mint T w a n s = Ok (u, s') ->
  exists m r v,
    Markets s !! a = Some m /\ state m = Active /\
    balance (assets s) a (account_id T) + n <= supply_cap m /\
    MIN_EXCHANGE_RATE <= r < MAX_EXCHANGE_RATE /\ v = n * FIXED_DIV / r /\ 0 < v /\
    at0 (TotalSupply s') a = at0 (TotalSupply s) a + v /\
    account_deposits s' a w = mkDeposits (voucher_balance (account_deposits s a w) + v)
                                (is_collateral (account_deposits s a w)) /\
    balance (assets s) a (account_id T) + n <= balance (assets s') a (account_id T).
Proof.
  intros Hn Hw H. unfold do_mint, ensure_under_supply_cap, market in H. minv. zbool.
  match goal with H : ensure_active_market s a = Ok ?m |- _ =>
    apply ensure_active_market_Ok in H as [Hm Hact] end.
  assert (same_vouchers s s) as Hs by done. carry (same_vouchers s).
  match goal with H : exchange_rate_stored T _ a = Ok ?r |- _ =>
    apply exchange_rate_stored_range in H as Hr end.
  match goal with H : calc_collateral_amount _ _ = Ok _ |- _ =>
    apply calc_collateral_amount_Ok in H as [-> Hv]; [| done ..] end.
  match goal with H : on_assets _ ?s1 = Ok _, Hs : same_vouchers s ?s1 |- _ =>
    apply loans_assets_Ok in H as (l & Hl & ->); destruct Hs as (Es & Ed & Ea & Em) end.
  unfold add_vouchers, put_deposits, put_total_supply, deposit_event in *. minv.
  match goal with H : at0 (TotalSupply ?s1) a + n * FIXED_DIV / ?r <= _ |- _ =>
    eexists _, r, (n * FIXED_DIV / r) end.
  split; [done |]. unfold account_deposits in *. simpl in *.
  rewrite Es, Ed, Ea, at0_insert, lookup_insert_eq, decide_True in * by done. simpl.
  rewrite Hm in *. minv. do 4 (split; [done |]). split; [destruct Hv; lia |].
  do 2 (split; [done |]). by eapply transfer_dest.
Qed.

(** What a position's liquidity is computed from: the parts of the storage that [same_pool]
    keeps. *)
Definition same_pool s0 s : Prop :=
  TotalSupply s = TotalSupply s0 /\ TotalBorrows s = TotalBorrows s0 /\
  TotalReserves s = TotalReserves s0 /\ BorrowIndex s = BorrowIndex s0 /\
  AccountBorrows s = AccountBorrows s0 /\ AccountDeposits s = AccountDeposits s0 /\
  assets s = assets s0 /\ Markets s = Markets s0.

Lemma same_pool_rate s0 s a : same_pool s0 s -> exchange_rate_stored T s a = exchange_rate_stored T s0 a.
Proof.
  intros (E1 & E2 & E3 & _ & _ & _ & E4 & _). unfold exchange_rate_stored, get_total_cash.
  by rewrite E1, E2, E3, E4.
Qed.

Lemma do_redeem_voucher_facts w a v s y s' :
  is_u128 v -> do_redeem_voucher T w a v s = Ok (y, s') ->
  exists r l,
    exchange_rate_stored T s a = Ok r /\ MIN_EXCHANGE_RATE <= r < MAX_EXCHANGE_RATE /\
    y = r * v / FIXED_DIV /\ redeem_allowed T s a w v = Ok tt /\
    at0 (TotalSupply s') a = at0 (TotalSupply s) a - v /\
    voucher_balance (account_deposits s' a w) = voucher_balance (account_deposits s a w) - v /\
    v <= voucher_balance (account_deposits s a w) /\
    transfer a (account_id T) w y false (assets s) = Ok l /\ assets s' = l.
Proof.
  intros Hv H. unfold do_redeem_voucher in H. minv.
  assert (same_pool s s) as Hs by done. carry (same_pool s).
  match goal with H : exchange_rate_stored T ?s1 a = Ok ?r, Hs : same_pool s ?s1 |- _ =>
    exists r; rewrite (same_pool_rate s s1 a Hs) in H; pose proof (exchange_rate_stored_range T s a r H) as Hr;
    destruct Hs as (E1 & E2 & E3 & E4 & E5 & E6 & E7 & E8); rename s1 into s1 end.
  match goal with H : calc_underlying_amount _ _ = Ok _ |- _ =>
    apply calc_underlying_amount_Ok in H; [subst | done ..] end.
  match goal with H : on_assets _ _ = Ok _ |- _ => apply loans_assets_Ok in H as (l & Hl & ->) end.
  exists l. minv. unfold take_vouchers, put_total_supply, put_deposits in *. minv.
  case_match; minv; zbool; unfold account_deposits in *; simpl in *;
    rewrite ?at0_insert, ?decide_True, ?lookup_insert_eq, ?lookup_delete_eq by done;
    rewrite E1, E6, E7 in *; simpl; repeat (split; [first [done | lia] |]); done.
Qed.

(** Redeeming an amount burns the vouchers it is worth, rounded down, out of the redeemer's own
    balance and out of the supply, and pays the redeemer what those vouchers are worth: at most the
    amount asked for, and at most one unit less. *)
Theorem redeem_pays w a n s u s' :
  is_u128 n -> w <> account_id T -> do_redeem T w a n s = Ok (u, s') ->
  exists r v paid,
    MIN_EXCHANGE_RATE <= r < MAX_EXCHANGE_RATE /\ v = n * FIXED_DIV / r /\
    paid = r * v / FIXED_DIV /\ n - 1 <= paid <= n /\
    v <= voucher_balance (account_deposits s a w) /\
    voucher_balance (account_deposits s' a w) = voucher_balance (account_deposits s a w) - v /\
    at0 (TotalSupply s') a = at0 (TotalSupply s) a - v /\
    balance (assets s) a w + paid <= balance (assets s') a w.
Proof.
  intros Hn Hw H. unfold do_redeem in H. minv.
  assert (same_vouchers s s) as Hs by done. carry (same_vouchers s).
  match goal with Ha : exchange_rate_stored T ?x a = Ok ?y, He : update_earned_stored _ _ _ ?x = Ok (_, ?z),
      Hd : do_redeem_voucher T _ _ _ ?z = Ok _, Hz : same_vouchers s ?z |- _ =>
    rename x into s1, y into r, z into s2, Ha into Hrate, Hd into Hredeem;
    destruct Hz as (Es & Ed & Ea & _);
    assert (same_pool s1 s1) as Hp by done; carry (same_pool s1) end.
  pose proof (exchange_rate_stored_range T s1 a r Hrate) as Hr.
  match goal with H : calc_collateral_amount _ _ = Ok _ |- _ =>
    apply calc_collateral_amount_Ok in H as [-> Hv]; [| done ..] end.
  apply do_redeem_voucher_facts in Hredeem as (r' & l & Hr' & _ & -> & _ & E1 & E2 & Hle & Htr & E3);
    [| done].
  rewrite (same_pool_rate s1 s2) in Hr' by done. rewrite Hrate in Hr'. minv.
  exists r, (n * FIXED_DIV / r), (r * (n * FIXED_DIV / r) / FIXED_DIV).
  unfold account_deposits, deposit_event in *. minv. rewrite Es, Ed, Ea in *.
  do 3 (split; [done |]). split; [| split; [done |]; split; [done |]; split; [done |]].
  - destruct Hn as [? ?]. unfold MIN_EXCHANGE_RATE, MAX_EXCHANGE_RATE, FIXED_DIV in *.
    pose proof (div_floor_bounds (n * 10 ^ 18) r ltac:(lia)).
    pose proof (div_floor_bounds (r * (n * 10 ^ 18 / r)) (10 ^ 18) ltac:(lia)). nia.
  - eapply transfer_dest; [done | congruence].
Qed.

(** ** Liquidity *)

Lemma get_asset_value_type s a n v : get_asset_value s a n = Ok v -> is_u128 v.
Proof. unfold get_asset_value. intros H. minv. by eapply fixed_checked_mul_type. Qed.

Lemma sum_values_type f ms v : sum_values f ms = Ok v -> is_u128 v.
Proof.
  unfold sum_values. apply fold_res_inv; [| by_range]. intros b x b' _ H. minv.
  by eapply fixed_checked_add_type.
Qed.

Lemma total_borrowed_value_type s w v : total_borrowed_value s w = Ok v -> is_u128 v.
Proof.
  unfold total_borrowed_value. apply fold_res_inv; [| by_range]. intros b x b' Hb H. minv.
  case_match; minv; [done |]. by eapply fixed_checked_add_type.
Qed.

Lemma liquidity_of_eq c b lp lb :
  is_u128 c -> is_u128 b -> is_u128 lp -> is_u128 lb ->
  liquidity_of c b lp lb =
    Ok (Z.max 0 (c - b), Z.max 0 (b - c), Z.max 0 (lp - lb), Z.max 0 (lb - lp)).
Proof.
  intros Hc Hb Hlp Hlb. unfold liquidity_of. rewrite !Z.gtb_ltb.
  destruct (Z.ltb_spec b c), (Z.ltb_spec lb lp);
    rewrite !fixed_sub_eq, !checked_sub_ok by (done || lia); simpl; do 4 f_equal; lia.
Qed.

(** The four values an account is judged by. *)
Definition account_values s w (c b lp lb : Z) : Prop :=
  total_collateral_value T s w = Ok c /\ total_borrowed_value s w = Ok b /\
  get_lf_base_position T s w = Ok lp /\ get_lf_borrowed_value T s w = Ok lb.

Lemma account_values_type s w c b lp lb :
  account_values s w c b lp lb -> is_u128 c /\ is_u128 b /\ is_u128 lp /\ is_u128 lb.
Proof.
  intros (Hc & Hb & Hlp & Hlb). unfold get_lf_borrowed_value in Hlb. minv.
  split; [by eapply sum_values_type |]. split; [by eapply total_borrowed_value_type |].
  split; [by eapply sum_values_type | by eapply get_asset_value_type].
Qed.

Lemma ensure_liquidity_Ok s w v lf u :
  is_u128 v -> ensure_liquidity T s w v lf = Ok u ->
  exists c b lp lb, account_values s w c b lp lb /\
    if lf then v <= Z.max (Z.max 0 (c - b)) (Z.max 0 (lp - lb))
    else v + Z.max 0 (lp - lb) <= Z.max 0 (c - b).
Proof.
  intros Hv H. unfold ensure_liquidity, get_account_liquidity in H. minv.
  match goal with H : liquidity_of ?c ?b ?lp ?lb = _ |- _ => exists c, b, lp, lb;
    assert (account_values s w c b lp lb) as Hav by done;
    destruct (account_values_type s w c b lp lb Hav) as (? & ? & ? & ?);
    rewrite liquidity_of_eq in H by done; minv end.
  split; [done |]. destruct lf; simpl in *.
  - case_match; minv. zbool. lia.
  - minv. match goal with H : fixed_add ?x ?y = Some _ |- _ =>
      rewrite fixed_add_eq in H by (done || (unfold is_u128 in *; lia));
      apply fit_u128_Some in H as [-> ?] end.
    case_match; minv. zbool. lia.
Qed.

(** ** Borrowing and repaying *)

Lemma current_borrow_balance_fresh s a w p i :
  is_u128 p -> is_u128 i -> 0 < i -> at0 (BorrowIndex s) a = i ->
  account_borrows s a w = mkBorrowSnapshot p i -> current_borrow_balance s w a = Ok p.
Proof.
  intros Hp Hi Hpos Ei Es. unfold current_borrow_balance. rewrite Es. simpl.
  destruct (Z.eqb_spec p 0) as [->|]; [done |]. destruct (Z.eqb_spec i 0); [lia |]. simpl.
  rewrite Ei, fixed_checked_div_eq by done. rewrite (proj2 (Z.eqb_neq _ _)) by lia.
  rewrite Z.mul_comm, Z.div_mul by lia. rewrite fit_u128_ok by by_range. simpl.
  rewrite fixed_checked_mul_int_eq by first [exact Hp | by_range].
  rewrite Z.mul_comm, Z.div_mul by by_range. rewrite fit_u128_ok by apply Hp. done.
Qed.

Lemma current_borrow_balance_type s w a b : current_borrow_balance s w a = Ok b -> is_u128 b.
Proof.
  unfold current_borrow_balance. intros H. case_match; minv; [by_range |].
  by eapply fixed_checked_mul_int_type.
Qed.

(** The debt of [w] in [a] as stored, with its index. *)
Definition debt_is s a w (b : Balance) : Prop :=
  account_borrows s a w = mkBorrowSnapshot b (at0 (BorrowIndex s) a).

Lemma do_borrow_facts w a n s u s' :
  is_u128 n -> do_borrow T w a n s = Ok (u, s') ->
  exists s1 m b l,
    accrue_interest T a s = Ok (tt, s1) /\ Markets s1 !! a = Some m /\
    borrow_allowed T s1 a w n = Ok tt /\ current_borrow_balance s1 w a = Ok b /\
    debt_is s' a w (b + n) /\ is_u128 (b + n) /\
    BorrowIndex s' = BorrowIndex s1 /\
    TotalBorrows s' = <[a := at0 (TotalBorrows s1) a + n]> (TotalBorrows s1) /\
    transfer a (account_id T) w n false (assets s1) = Ok l /\ assets s' = l.
Proof.
  intros Hn H. unfold do_borrow in H. minv.
  match goal with H : accrue_interest T a s = Ok (_, ?x), Hb : borrow_allowed T ?x _ _ _ = Ok _ |- _ =>
    rename x into s1; exists s1; assert (same_pool s1 s1) as Hp by done; carry (same_pool s1);
    pose proof Hb as Hb' end.
  unfold borrow_allowed, ensure_under_borrow_cap, market in Hb'. minv.
  match goal with H : Markets s1 !! a = Some ?m |- _ => exists m end.
  match goal with H : current_borrow_balance ?x w a = Ok ?b, Hx : same_pool s1 ?x |- _ =>
    exists b; assert (current_borrow_balance s1 w a = Ok b) as Hcur;
    destruct Hx as (E1 & E2 & E3 & E4 & E5 & E6 & E7 & E8); rename x into s2 end.
  { match goal with H : current_borrow_balance s2 w a = Ok _ |- _ => rewrite <- H end.
    unfold current_borrow_balance, account_borrows. by rewrite E4, E5. }
  pose proof (current_borrow_balance_type _ _ _ _ Hcur) as [? ?].
  match goal with H : on_assets _ _ = Ok _ |- _ => apply loans_assets_Ok in H as (l & Hl & ->) end.
  exists l. unfold put_borrows, put_total_borrows, deposit_event in *. minv.
  unfold debt_is, account_borrows in *. simpl. rewrite lookup_insert_eq. simpl.
  rewrite E2, E4, E7 in *. repeat (split; [done |]). split; [destruct Hn; unfold is_u128; lia |].
  done.
Qed.

(** C16: a loan in another currency than the liquidation-free one is granted only if, at the
    current prices and after the market's interest has been accrued, the collateral value of
    the account covers its debts, the new loan and whatever its liquidation-free position
    keeps aside; it stays within the market's borrow cap and leaves its reserves in cash.
    The one exception is a loan whose value is zero (an amount of zero, or one so small that its
    value is rounded down to zero): it is also granted to an account whose debts exceed its
    collateral, if the liquidation-free position keeps nothing aside. *)
Theorem borrow_is_collateralised w a n s u s' :
  is_u128 n -> a <> LiquidationFreeAssetId T -> do_borrow T w a n s = Ok (u, s') ->
  exists s1 m c b lp lb v,
    accrue_interest T a s = Ok (tt, s1) /\ account_values s1 w c b lp lb /\
    get_asset_value s1 a n = Ok v /\
    (b + v + Z.max 0 (lp - lb) <= c \/ v = 0 /\ c < b /\ lp <= lb) /\
    Markets s1 !! a = Some m /\ at0 (TotalBorrows s') a <= borrow_cap m /\
    at0 (TotalBorrows s') a = at0 (TotalBorrows s1) a + n /\
    n + at0 (TotalReserves s1) a <= get_total_cash T s1 a.
Proof.
  intros Hn Hlf H.
  apply do_borrow_facts in H as (s1 & m & b & l & Hacc & Hm & Hal & _ & _ & _ & _ & Etb & _); [| done].
  unfold borrow_allowed, ensure_under_borrow_cap, ensure_enough_cash, market in Hal. minv. zbool.
  rewrite Hm in *. minv. rewrite (proj2 (Z.eqb_neq _ _) Hlf) in *.
  match goal with H : get_asset_value s1 a n = Ok ?v |- _ =>
    pose proof (get_asset_value_type _ _ _ _ H) as Hv end.
  match goal with H : ensure_liquidity _ _ _ _ _ = Ok _ |- _ =>
    apply ensure_liquidity_Ok in H as (c & b' & lp & lb & Hav & Hle); [| done] end.
  eexists s1, _, c, b', lp, lb, _. split; [done |]. split; [done |]. split; [done |].
  split; [unfold is_u128 in Hv; lia |]. split; [done |]. rewrite Etb, at0_insert, decide_True by done.
  repeat split; lia.
Qed.

(** Borrowing adds exactly the loan to the borrower's debt, to the market's total and to
    the borrower's account. *)
Theorem borrow_adds_debt w a n s u s' :
  is_u128 n -> w <> account_id T -> asset_ok s a -> 0 < at0 (BorrowIndex s) a ->
  do_borrow T w a n s = Ok (u, s') ->
  exists s1 b,
    accrue_interest T a s = Ok (tt, s1) /\ current_borrow_balance s1 w a = Ok b /\
    current_borrow_balance s' w a = Ok (b + n) /\
    at0 (TotalBorrows s') a = at0 (TotalBorrows s1) a + n /\
    balance (assets s) a w + n <= balance (assets s') a w.
Proof.
  intros Hn Hw Hok Hpos H.
  apply do_borrow_facts in H as
    (s1 & m & b & l & Hacc & Hm & _ & Hb & Hd & Hbn & Ei & Etb & Htr & ->); [| done].
  exists s1, b. do 2 (split; [done |]).
  destruct (accrue_interest_amounts T a s tt s1 Hok Hacc) as (_ & _ & _ & _ & _ & Hi & Hi128).
  assert (assets s1 = assets s) as <-.
  { by apply accrue_interest_Ok in Hacc as [[_ ->]|[(_ & _ & ->)|(_ & _ & st & _ & ->)]]. }
  split; [| split].
  - rewrite <- Ei in *. eapply current_borrow_balance_fresh; [done | exact Hi128 | lia | done | exact Hd].
  - by rewrite Etb, at0_insert, decide_True.
  - eapply transfer_dest; [done | congruence].
Qed.

Lemma do_repay_borrow_facts w a n s u s' :
  do_repay_borrow T w a n s = Ok (u, s') ->
  exists s1 b l,
    accrue_interest T a s = Ok (tt, s1) /\ current_borrow_balance s1 w a = Ok b /\ n <= b /\
    debt_is s' a w (b - n) /\ BorrowIndex s' = BorrowIndex s1 /\
    TotalBorrows s' = <[a := Z.max 0 (at0 (TotalBorrows s1) a - n)]> (TotalBorrows s1) /\
    transfer a w (account_id T) n false (assets s1) = Ok l /\ assets s' = l.
Proof.
  intros H. unfold do_repay_borrow, do_repay_borrow_with_amount in H. minv. zbool.
  match goal with H : accrue_interest T a s = Ok (_, ?x) |- _ =>
    rename x into s1; exists s1; assert (same_pool s1 s1) as Hp by done; carry (same_pool s1) end.
  match goal with H : current_borrow_balance s1 w a = Ok ?x |- _ => exists x end.
  match goal with H : on_assets _ ?x = Ok _, Hx : same_pool s1 ?x |- _ =>
    apply loans_assets_Ok in H as (l & Hl & ->);
    destruct Hx as (E1 & E2 & E3 & E4 & E5 & E6 & E7 & E8) end.
  exists l. unfold put_borrows, put_total_borrows, deposit_event in *. minv.
  unfold debt_is, account_borrows in *. simpl. rewrite lookup_insert_eq. simpl.
  rewrite E2, E4, E7 in *. repeat (split; [first [done | lia] |]). done.
Qed.

Lemma accrue_keeps_assets a s u s' : accrue_interest T a s = Ok (u, s') -> assets s' = assets s.
Proof. by intros [[_ ->]|[(_ & _ & ->)|(_ & _ & st & _ & ->)]]%accrue_interest_Ok. Qed.

(** A repayment of at most the debt, interest included, lowers the debt by exactly what
    the pallet's account receives; the market's total falls by as much, but not below zero. *)
Theorem repay_reduces_debt w a n s u s' :
  is_u128 n -> w <> account_id T -> asset_ok s a -> 0 < at0 (BorrowIndex s) a ->
  do_repay_borrow T w a n s = Ok (u, s') ->
  exists s1 b,
    accrue_interest T a s = Ok (tt, s1) /\ current_borrow_balance s1 w a = Ok b /\ n <= b /\
    current_borrow_balance s' w a = Ok (b - n) /\
    at0 (TotalBorrows s') a = Z.max 0 (at0 (TotalBorrows s1) a - n) /\
    balance (assets s) a (account_id T) + n <= balance (assets s') a (account_id T).
Proof.
  intros [Hn _] Hw Hok Hpos H.
  apply do_repay_borrow_facts in H as (s1 & b & l & Hacc & Hb & Hle & Hd & Ei & Etb & Htr & ->).
  exists s1, b. do 3 (split; [done |]).
  destruct (accrue_interest_amounts T a s tt s1 Hok Hacc) as (_ & _ & _ & _ & _ & Hi & Hi128).
  rewrite (accrue_keeps_assets _ _ _ _ Hacc) in Htr.
  pose proof (current_borrow_balance_type _ _ _ _ Hb) as [? ?]. split; [| split].
  - rewrite <- Ei in *. eapply current_borrow_balance_fresh;
      [unfold is_u128; lia | exact Hi128 | lia | done | exact Hd].
  - by rewrite Etb, at0_insert, decide_True.
  - by eapply transfer_dest.
Qed.

(** Repaying everything clears the debt: nothing is left to accrue interest on. *)
Theorem repay_all_clears_debt w a s u s' :
  0 < unix_time s -> repay_borrow_all T (Signed w) a s = Ok (u, s') ->
  current_borrow_balance s' w a = Ok 0.
Proof.
  intros Ht H. unfold repay_borrow_all in H. simpl in H. minv.
  match goal with H : do_repay_borrow _ _ _ _ _ = Ok _ |- _ =>
    apply do_repay_borrow_facts in H as (s2 & b & l & Hacc & Hb & _ & Hd & _) end.
  match goal with H : accrue_interest T a s = Ok (_, ?x) |- _ =>
    pose proof (accrue_twice T a s tt x Ht H) as H2 end.
  rewrite Hacc in H2. minv.
  match goal with H : current_borrow_balance ?x w a = Ok ?y, H2 : current_borrow_balance ?x w a = Ok ?z |- _ =>
    rewrite H in H2; minv end.
  unfold current_borrow_balance. rewrite Hd. simpl. by rewrite Z.sub_diag.
Qed.

(** ** Liquidation *)

(** Worth of the collateral at the liquidation thresholds, and debts. *)
Definition threshold_values s w (c b lp lb : Z) : Prop :=
  total_liquidation_threshold_value T s w = Ok c /\ total_borrowed_value s w = Ok b /\
  get_lf_liquidation_base_position T s w = Ok lp /\ get_lf_borrowed_value T s w = Ok lb.

Lemma threshold_values_type s w c b lp lb :
  threshold_values s w c b lp lb -> is_u128 c /\ is_u128 b /\ is_u128 lp /\ is_u128 lb.
Proof.
  intros (Hc & Hb & Hlp & Hlb). unfold get_lf_borrowed_value in Hlb. minv.
  split; [by eapply sum_values_type |]. split; [by eapply total_borrowed_value_type |].
  split; [by eapply sum_values_type | by eapply get_asset_value_type].
Qed.

(** C21: an account can be liquidated, and only by somebody else, only while its debts exceed
    its collateral at the liquidation thresholds, or exceed what is left of that collateral
    when the surplus of its liquidation-free position is set aside. *)
Theorem liquidation_needs_shortfall x w la n ca s u s' :
  do_liquidate_borrow T x w la n ca s = Ok (u, s') ->
  x <> w /\ is_collateral (account_deposits s ca w) = true /\
  exists c b lp lb, threshold_values s w c b lp lb /\ c < b + Z.max 0 (lp - lb).
Proof.
  intros H. unfold do_liquidate_borrow, liquidate_borrow_allowed,
    get_account_liquidation_threshold_liquidity in H. minv. zbool.
  split; [congruence |]. split; [done |].
  match goal with H : liquidity_of ?c ?b ?lp ?lb = _ |- _ => exists c, b, lp, lb;
    assert (threshold_values s w c b lp lb) as Hav by done;
    destruct (threshold_values_type s w c b lp lb Hav) as (? & ? & ? & ?);
    rewrite liquidity_of_eq in H by done; minv end.
  split; [done |].
  match goal with H : _ && _ = false |- _ => apply andb_false_iff in H as [H|H] end; zbool; lia.
Qed.

Definition voucher s a w : Balance := voucher_balance (account_deposits s a w).

Lemma voucher_put s a w d b y :
  voucher (set_AccountDeposits (<[(a, w) := d]> (AccountDeposits s)) s) b y =
    if decide ((b, y) = (a, w)) then voucher_balance d else voucher s b y.
Proof.
  unfold voucher, account_deposits. simpl. case_decide as Hd.
  - rewrite Hd. by rewrite lookup_insert_eq.
  - by rewrite lookup_insert_ne.
Qed.

Lemma add_vouchers_voucher a w n s u s' :
  add_vouchers a w n s = Ok (u, s') ->
  (exists m, s' = set_AccountDeposits m s) /\
  forall b y, voucher s' b y = voucher s b y + (if decide ((b, y) = (a, w)) then n else 0).
Proof.
  unfold add_vouchers, put_deposits. intros H. minv. split; [eauto |]. intros b y.
  rewrite voucher_put. case_decide as Hd; [injection Hd as -> ->; simpl; unfold voucher |]; lia.
Qed.

Lemma sub_vouchers_voucher a w n s u s' :
  sub_vouchers a w n s = Ok (u, s') ->
  (exists m, s' = set_AccountDeposits m s) /\ n <= voucher s a w /\
  forall b y, voucher s' b y = voucher s b y - (if decide ((b, y) = (a, w)) then n else 0).
Proof.
  unfold sub_vouchers, put_deposits. intros H. minv. split; [eauto |]. split; [done |]. intros b y.
  rewrite voucher_put. case_decide as Hd; [injection Hd as -> ->; simpl; unfold voucher |]; lia.
Qed.

Lemma take_vouchers_voucher a w n s u s' :
  take_vouchers a w n s = Ok (u, s') ->
  (exists m, s' = set_AccountDeposits m s) /\ n <= voucher s a w /\
  forall b y, voucher s' b y = voucher s b y - (if decide ((b, y) = (a, w)) then n else 0).
Proof.
  unfold take_vouchers, put_deposits. intros H. minv. split; [case_match; minv; eauto |].
  split; [done |]. intros b y. case_match; minv; zbool.
  - unfold voucher, account_deposits in *. simpl. case_decide as Hd.
    + injection Hd as -> ->. rewrite lookup_delete_eq. simpl. lia.
    + rewrite lookup_delete_ne by done. lia.
  - rewrite voucher_put. case_decide as Hd; [injection Hd as -> ->; simpl; unfold voucher |]; lia.
Qed.

Lemma decide_pair (a y w n : Z) :
  (if decide ((a, y) = (a, w)) then n else 0) = (if decide (y = w) then n else 0).
Proof. repeat case_decide; congruence. Qed.

Lemma liquidated_transfer_facts x w la ca n cu mk s u s' :
  liquidated_transfer T x w la ca n cu mk s = Ok (u, s') ->
  exists d seized reserved inc l,
    current_borrow_balance s w la = Ok d /\ n <= d /\ n <= at0 (TotalBorrows s) la /\
    debt_is s' la w (d - n) /\ BorrowIndex s' = BorrowIndex s /\
    TotalBorrows s' = <[la := at0 (TotalBorrows s) la - n]> (TotalBorrows s) /\
    transfer la x (account_id T) n false (assets s) = Ok l /\ assets s' = l /\
    incentive_reward_account_id T = Ok inc /\ 0 <= reserved <= seized /\
    seized <= voucher s ca w /\
    forall y, voucher s' ca y = voucher s ca y - (if decide (y = w) then seized else 0)
      + (if decide (y = x) then seized - reserved else 0)
      + (if decide (y = inc) then reserved else 0).
Proof.
  intros H. unfold liquidated_transfer in H. minv.
  assert (same_pool s s) as Hp by done. carry (same_pool s).
  match goal with H : on_assets _ ?s1 = Ok _, Hx : same_pool s ?s1 |- _ =>
    apply loans_assets_Ok in H as (l & Hl & ->); rename s1 into s1;
    destruct Hx as (E1 & E2 & E3 & E4 & E5 & E6 & E7 & E8) end.
  match goal with H : put_total_borrows _ _ _ = Ok (_, ?y) |- _ => rename y into s2 end.
  clear Hp. assert (same_pool s2 s2) as Hp by done. carry (same_pool s2).
  match goal with H : sub_vouchers _ _ _ ?y = Ok _, Hx : same_pool s2 ?y |- _ =>
    rename y into s3; destruct Hx as (F1 & F2 & F3 & F4 & F5 & F6 & F7 & F8) end.
  unfold put_borrows, put_total_borrows in *. minv.
  repeat match goal with
  | H : add_vouchers _ _ _ _ = Ok _ |- _ => apply add_vouchers_voucher in H as ((? & ->) & ?)
  | H : sub_vouchers _ _ _ _ = Ok _ |- _ => apply sub_vouchers_voucher in H as ((? & ->) & ? & ?)
  end.
  match goal with H : current_borrow_balance _ w la = Ok ?d, Hd : deposit_event _ _ = Ok _,
      Hc : calc_collateral_amount _ _ = Ok ?v, Hi : incentive_reward_account_id T = Ok ?i,
      Hr : permill_mul_floor ?f ?sh <= _, Ht : transfer _ _ _ _ _ _ = Ok ?l0 |- _ =>
    exists d, v, (permill_mul_floor f sh), i, l0; unfold deposit_event in Hd; minv;
    assert (current_borrow_balance s w la = Ok d) as Hcur end.
  { match goal with H : current_borrow_balance _ w la = Ok ?d |- _ => rewrite <- H end.
    unfold current_borrow_balance, account_borrows. simpl. by rewrite E4, E5. }
  assert (forall b y, voucher s3 b y = voucher s b y) as Hv.
  { intros b y. unfold voucher, account_deposits. by rewrite F6, E6. }
  unfold debt_is, account_borrows. simpl in *.
  rewrite F2, F4, F5, E2, E4, E5, E7 in *. rewrite lookup_insert_eq.
  rewrite Hv in *. repeat (split; [done |]).
  split; [split; [apply permill_mul_floor_type | done] |]. split; [done |]. intros y.
  match goal with |- voucher (push_event _ ?st) _ _ = ?r => change (voucher st ca y = r) end.
  repeat match goal with H : forall b y, voucher ?st b y = _ |- context [voucher ?st _ _] =>
    rewrite H end.
  by rewrite !decide_pair.
Qed.

(** C17: a liquidation lowers the borrower's debt and the market's total by exactly the amount
    the liquidator pays into the pallet's account, and moves vouchers of the collateral from
    the borrower to the liquidator and to the incentive reserve without creating or
    destroying any; it never takes more than the borrower has. *)
Theorem liquidation_settles x w la n ca s u s' :
  x <> account_id T -> is_u128 n ->
  is_u128 (at0 (BorrowIndex s) la) -> 0 < at0 (BorrowIndex s) la ->
  do_liquidate_borrow T x w la n ca s = Ok (u, s') ->
  exists debt seized reserved inc,
    current_borrow_balance s w la = Ok debt /\ n <= debt /\
    current_borrow_balance s' w la = Ok (debt - n) /\
    at0 (TotalBorrows s') la = at0 (TotalBorrows s) la - n /\
    balance (assets s) la (account_id T) + n <= balance (assets s') la (account_id T) /\
    incentive_reward_account_id T = Ok inc /\ 0 <= reserved <= seized /\
    seized <= voucher s ca w /\
    forall y, voucher s' ca y = voucher s ca y - (if decide (y = w) then seized else 0)
      + (if decide (y = x) then seized - reserved else 0)
      + (if decide (y = inc) then reserved else 0).
Proof.
  intros Hx [Hn _] Hi Hpos H. unfold do_liquidate_borrow in H. minv.
  match goal with H : liquidated_transfer _ _ _ _ _ _ _ _ _ = Ok _ |- _ =>
    apply liquidated_transfer_facts in H as
      (d & v & r & inc & l & Hd & Hle & Hle' & Hdebt & Ei & Etb & Htr & El & Hinc & Hr & Hv & Hall) end.
  exists d, v, r, inc. pose proof (current_borrow_balance_type _ _ _ _ Hd) as [? ?].
  do 2 (split; [done |]). split; [| split; [by rewrite Etb, at0_insert, decide_True |]].
  - rewrite <- Ei in *. eapply current_borrow_balance_fresh;
      [unfold is_u128; lia | exact Hi | done | done | exact Hdebt].
  - split; [| done]. rewrite El. by eapply transfer_dest.
Qed.
End positions.

(** ** The theorems at concrete inputs *)

Section instances.
#[local] Existing Instances sp_reference big_reference storage_iter_reference ledger_ops.
#[local] Existing Instances sp_reference_laws big_reference_laws storage_iter_reference_laws
  ledger_ops_laws.

Lemma mint_issues_vouchers_witness :
  exists m r v,
    Markets loans_open !! 1 = Some m /\ state m = Active /\
    balance (assets loans_open) 1 900 + 10 ^ 11 <= supply_cap m /\
    MIN_EXCHANGE_RATE <= r < MAX_EXCHANGE_RATE /\ v = 10 ^ 11 * FIXED_DIV / r /\ 0 < v /\
    at0 (TotalSupply loans_minted1) 1 = at0 (TotalSupply loans_open) 1 + v /\
    account_deposits loans_minted1 1 1 =
      mkDeposits (voucher_balance (account_deposits loans_open 1 1) + v)
        (is_collateral (account_deposits loans_open 1 1)) /\
    balance (assets loans_open) 1 900 + 10 ^ 11 <= balance (assets loans_minted1) 1 900.
Proof.
  apply (mint_issues_vouchers loans_config 1 1 (10 ^ 11) loans_open tt loans_minted1);
    [by_range | by_range | by_eval].
Defined.

Definition loans_redeem_some : State ledger := loans_run (Signed 1) (CallRedeem 1 (10 ^ 9)) loans_repaid.

Lemma redeem_pays_witness :
  exists r v paid,
    MIN_EXCHANGE_RATE <= r < MAX_EXCHANGE_RATE /\ v = 10 ^ 9 * FIXED_DIV / r /\
    paid = r * v / FIXED_DIV /\ 10 ^ 9 - 1 <= paid <= 10 ^ 9 /\
    v <= voucher_balance (account_deposits loans_repaid 1 1) /\
    voucher_balance (account_deposits loans_redeem_some 1 1) =
      voucher_balance (account_deposits loans_repaid 1 1) - v /\
    at0 (TotalSupply loans_redeem_some) 1 = at0 (TotalSupply loans_repaid) 1 - v /\
    balance (assets loans_repaid) 1 1 + paid <= balance (assets loans_redeem_some) 1 1.
Proof.
  apply (redeem_pays loans_config 1 1 (10 ^ 9) loans_repaid tt loans_redeem_some);
    [by_range | by_range | by_eval].
Defined.

Lemma borrow_is_collateralised_witness :
  exists s1 m c b lp lb v,
    accrue_interest loans_config 1 loans_supplied = Ok (tt, s1) /\
    account_values loans_config s1 2 c b lp lb /\
    get_asset_value s1 1 (8 * 10 ^ 10) = Ok v /\
    (b + v + Z.max 0 (lp - lb) <= c \/ v = 0 /\ c < b /\ lp <= lb) /\
    Markets s1 !! 1 = Some m /\ at0 (TotalBorrows loans_borrowed) 1 <= borrow_cap m /\
    at0 (TotalBorrows loans_borrowed) 1 = at0 (TotalBorrows s1) 1 + 8 * 10 ^ 10 /\
    8 * 10 ^ 10 + at0 (TotalReserves s1) 1 <= get_total_cash loans_config s1 1.
Proof.
  apply (borrow_is_collateralised loans_config 2 1 (8 * 10 ^ 10) loans_supplied tt loans_borrowed);
    [by_range | by_range | by_eval].
Defined.

(** The price of asset 1 is a half and asset 2, the collateral, is worth next to nothing: account 2
    still gets a unit of asset 1, whose value is rounded down to zero. *)
Definition loans_dust : State ledger :=
  loans_wait 2000 20 (fun a => Some (if a =? 2 then 10 ^ 16 else 5 * 10 ^ 17, 0)) loans_borrowed.
Example dust_loan_under_water :
  (c ← total_collateral_value loans_config loans_dust 2; b ← total_borrowed_value loans_dust 2; Ok (c <? b)) = Ok true /\
  get_asset_value loans_dust 1 1 = Ok 0 /\
  is_ok (do_borrow loans_config 2 1 1 loans_dust) = true.
Proof. split; [by_eval |]. split; by_eval. Qed.

Lemma loans_supplied_ok : asset_ok loans_supplied 1.
Proof.
  apply (asset_ok_intro _ _ (with_state Active (loans_market 101)));
    [by_range | by_range | by_range | by_range | by_eval | by_range].
Qed.

Lemma borrow_adds_debt_witness :
  exists s1 b,
    accrue_interest loans_config 1 loans_supplied = Ok (tt, s1) /\
    current_borrow_balance s1 2 1 = Ok b /\
    current_borrow_balance loans_borrowed 2 1 = Ok (b + 8 * 10 ^ 10) /\
    at0 (TotalBorrows loans_borrowed) 1 = at0 (TotalBorrows s1) 1 + 8 * 10 ^ 10 /\
    balance (assets loans_supplied) 1 2 + 8 * 10 ^ 10 <= balance (assets loans_borrowed) 1 2.
Proof.
  apply (borrow_adds_debt loans_config 2 1 (8 * 10 ^ 10) loans_supplied tt loans_borrowed);
    [by_range | by_range | exact loans_supplied_ok | by_eval | by_eval].
Defined.

Definition loans_repay_some : State ledger :=
  loans_run (Signed 2) (CallRepayBorrow 1 (10 ^ 10)) loans_later.

Lemma repay_reduces_debt_witness :
  exists s1 b,
    accrue_interest loans_config 1 loans_later = Ok (tt, s1) /\
    current_borrow_balance s1 2 1 = Ok b /\ 10 ^ 10 <= b /\
    current_borrow_balance loans_repay_some 2 1 = Ok (b - 10 ^ 10) /\
    at0 (TotalBorrows loans_repay_some) 1 = Z.max 0 (at0 (TotalBorrows s1) 1 - 10 ^ 10) /\
    balance (assets loans_later) 1 900 + 10 ^ 10 <= balance (assets loans_repay_some) 1 900.
Proof.
  apply (repay_reduces_debt loans_config 2 1 (10 ^ 10) loans_later tt loans_repay_some);
    [by_range | by_range | exact loans_later_ok | by_eval | by_eval].
Defined.

Lemma repay_all_clears_debt_witness : current_borrow_balance loans_repaid 2 1 = Ok 0.
Proof.
  apply (repay_all_clears_debt loans_config 2 1 loans_later tt loans_repaid); by_eval.
Defined.

(** The state at the liquidation, the interest of both markets accrued. *)
Definition loans_due : State ledger :=
  match (_ ← accrue_interest loans_config 1; accrue_interest loans_config 2) loans_crashed with
  | Ok (_, s) => s | _ => loans_crashed
  end.

Lemma liquidation_needs_shortfall_witness :
  3 <> 2 /\ is_collateral (account_deposits loans_due 2 2) = true /\
  exists c b lp lb, threshold_values loans_config loans_due 2 c b lp lb /\ c < b + Z.max 0 (lp - lb).
Proof.
  apply (liquidation_needs_shortfall loans_config 3 2 1 (10 ^ 10) 2 loans_due tt loans_liquidated).
  by_eval.
Defined.

Lemma liquidation_settles_witness :
  exists debt seized reserved inc,
    current_borrow_balance loans_due 2 1 = Ok debt /\ 10 ^ 10 <= debt /\
    current_borrow_balance loans_liquidated 2 1 = Ok (debt - 10 ^ 10) /\
    at0 (TotalBorrows loans_liquidated) 1 = at0 (TotalBorrows loans_due) 1 - 10 ^ 10 /\
    balance (assets loans_due) 1 900 + 10 ^ 10 <= balance (assets loans_liquidated) 1 900 /\
    incentive_reward_account_id loans_config = Ok inc /\ 0 <= reserved <= seized /\
    seized <= voucher loans_due 2 2 /\
    forall y, voucher loans_liquidated 2 y =
      voucher loans_due 2 y - (if decide (y = 2) then seized else 0)
      + (if decide (y = 3) then seized - reserved else 0)
      + (if decide (y = inc) then reserved else 0).
Proof.
  apply (liquidation_settles loans_config 3 2 1 (10 ^ 10) 2 loans_due tt loans_liquidated);
    [by_range | by_range | by_range | by_eval | by_eval].
Defined.
End instances.
