(* ===== verification/LoansAccess.v ===== *)
(** * Properties of the lending pallet: who may change a position, rewards, vouchers as tokens

    The frames of the calls with respect to single positions, the reward indices, and three
    behaviours of the code that its comments do not announce. *)

From S2P Require Import Prelude Arith Frame Ledger RateModel Loans LoansDemo LoansProps LoansInterest LoansPositions.
Import RateModel Loans.

(** ** Debts *)

(** All debts but the one under [k] are those of [m]. *)
Definition borrows_except {L : Type} (k : CurrencyId * AccountId)
    (m : gmap (CurrencyId * AccountId) BorrowSnapshot) (s : State L) : Prop :=
  forall k', k' <> k -> AccountBorrows s !! k' = m !! k'.
Definition deposits_except {L : Type} (ok : CurrencyId * AccountId -> Prop)
    (m : gmap (CurrencyId * AccountId) Deposits) (s : State L) : Prop :=
  forall k', ~ ok k' -> AccountDeposits s !! k' = m !! k'.

Section access.
Context {SA : SpArithmetic} {NB : NumBigint} {SI : StorageIter}.
Context {L : Type} {FU : Fungibles L}.
Context (T : Config).
Implicit Types (s : State L) (a : CurrencyId) (w : AccountId).

Lemma put_borrows_except a w b m :
  preserves (borrows_except (a, w) m) (put_borrows a w b : M (State L) _ _).
Proof.
  apply preserves_modify. intros s Hs k Hk. simpl. rewrite lookup_insert_ne; [by apply Hs | done].
Qed.

Ltac borrows_write := first [apply put_borrows_except | untouched_write].

Lemma do_borrow_except w a n m :
  preserves (borrows_except (a, w) m) (do_borrow T w a n : M (State L) _ _).
Proof. unfold do_borrow. preserve borrows_write. Qed.

Lemma do_repay_borrow_except w a n m :
  preserves (borrows_except (a, w) m) (do_repay_borrow T w a n : M (State L) _ _).
Proof. unfold do_repay_borrow, do_repay_borrow_with_amount. preserve borrows_write. Qed.

Lemma do_liquidate_borrow_except x w la n ca m :
  preserves (borrows_except (la, w) m) (do_liquidate_borrow T x w la n ca : M (State L) _ _).
Proof. unfold do_liquidate_borrow, liquidated_transfer. preserve borrows_write. Qed.

Definition debt_call (c : Call) : bool :=
  match c with
  | CallBorrow _ _ | CallRepayBorrow _ _ | CallRepayBorrowAll _ | CallLiquidateBorrow _ _ _ _ => true
  | _ => false
  end.

Lemma other_calls_keep_borrows origin c m :
  debt_call c = false -> preserves (fun s => AccountBorrows s = m) (dispatch T origin c).
Proof. intros Hc. destruct c; try discriminate Hc; untouched. Qed.

(** The debt a call of [who] is about. *)
Definition debt_key (who : AccountId) (c : Call) : CurrencyId * AccountId :=
  match c with
  | CallBorrow a _ | CallRepayBorrow a _ | CallRepayBorrowAll a => (a, who)
  | CallLiquidateBorrow w a _ _ => (a, w)
  | _ => (0, 0)
  end.

Lemma debt_calls_except who c m :
  debt_call c = true -> preserves (borrows_except (debt_key who c) m) (dispatch T (Signed who) c).
Proof.
  intros Hc. destruct c; try discriminate Hc; simpl;
    unfold borrow, repay_borrow, repay_borrow_all, liquidate_borrow;
    apply preserves_bind_lift; intros ? [= <-];
    preserve ltac:(first [apply do_borrow_except | apply do_repay_borrow_except
      | apply do_liquidate_borrow_except | unfold accrue_interest; preserve borrows_write]).
Qed.

(** C40: a call changes the debt of an account only if the account itself borrows or repays in
    that market, or if the account is being liquidated there. *)
Theorem debts_change_authorised origin c s u s' a w :
  dispatch T origin c s = Ok (u, s') ->
  AccountBorrows s' !! (a, w) = AccountBorrows s !! (a, w) \/
  (origin = Signed w /\
     (c = CallRepayBorrowAll a \/ exists n, c = CallBorrow a n \/ c = CallRepayBorrow a n)) \/
  (exists n ca, c = CallLiquidateBorrow w a n ca).
Proof.
  intros H. destruct (debt_call c) eqn:Hc; cycle 1.
  { left. by rewrite (other_calls_keep_borrows origin c (AccountBorrows s) Hc s u s' eq_refl H). }
  assert (exists who, origin = Signed who) as [who ->].
  { destruct c; try discriminate Hc; simpl in H;
      unfold borrow, repay_borrow, repay_borrow_all, liquidate_borrow in H; minv;
      destruct origin; naive_solver. }
  destruct (decide ((a, w) = debt_key who c)) as [Hk|Hk].
  - right. destruct c; try discriminate Hc; simplify_eq/=; eauto 10.
  - left. by apply (debt_calls_except who c (AccountBorrows s) Hc s u s').
Qed.

(** ** Deposits *)

Lemma put_deposits_except (ok : CurrencyId * AccountId -> Prop) a w d m :
  ok (a, w) -> preserves (deposits_except ok m) (put_deposits a w d : M (State L) _ _).
Proof.
  intros Hok. apply preserves_modify. intros s Hs k Hk. simpl.
  rewrite lookup_insert_ne; [by apply Hs | congruence].
Qed.

Lemma drop_deposits_except (ok : CurrencyId * AccountId -> Prop) a w m :
  ok (a, w) -> preserves (deposits_except ok m)
    (modify (fun s => set_AccountDeposits (delete (a, w) (AccountDeposits s)) s)
      : M (State L) DispatchError _).
Proof.
  intros Hok. apply preserves_modify. intros s Hs k Hk. simpl.
  rewrite lookup_delete_ne; [by apply Hs | congruence].
Qed.

Ltac deposits_write :=
  first [ apply put_deposits_except; solve [auto] | apply drop_deposits_except; solve [auto]
        | untouched_write ].

(** The accounts whose deposits a call of [who] may touch: the caller's, those of an account
    being liquidated, and the incentive reserve's. *)
Definition deposit_parties (origin : RuntimeOrigin) (c : Call) (k : CurrencyId * AccountId) : Prop :=
  origin = Signed k.2 \/
  (exists la n, c = CallLiquidateBorrow k.2 la n k.1) \/
  incentive_reward_account_id T = Ok k.2.

Lemma deposit_parties_dec origin c k : Decision (deposit_parties origin c k).
Proof.
  unfold deposit_parties. apply or_dec; [| apply or_dec].
  - destruct origin as [|x|]; [by right | | by right].
    destruct (decide (x = k.2)); [left | right]; congruence.
  - destruct c as [| | | | | | | | | | | | | | | | |w' la' n' a'| | | |];
      try (right; intros (? & ? & ?); discriminate).
    destruct (decide (w' = k.2 /\ a' = k.1)) as [[-> ->]|Hn]; [left; eauto | right].
    intros (? & ? & [=]). naive_solver.
  - destruct (incentive_reward_account_id T) as [i| |]; [| by right | by right].
    destruct (decide (i = k.2)); [left | right]; congruence.
Qed.

Lemma dispatch_deposits_except origin c m :
  preserves (deposits_except (deposit_parties origin c) m) (dispatch T origin c : M (State L) _ _).
Proof.
  destruct c; try solve [untouched]; simpl;
    unfold mint, redeem, redeem_all, reduce_incentive_reserves, collateral_asset, liquidate_borrow,
      do_mint, do_redeem, do_redeem_voucher, do_collateral_asset, do_liquidate_borrow,
      liquidated_transfer, add_vouchers, sub_vouchers, take_vouchers;
    destruct origin as [|who|];
    preserve ltac:(try match goal with H : ensure_signed (Signed _) = Ok _ |- _ =>
                     injection H as <- end;
      first [ match goal with H : ensure_signed _ = Ok _ |- _ => discriminate H end
        | untouched_write
        | (first [apply put_deposits_except | apply drop_deposits_except]);
          unfold deposit_parties; simpl; eauto 10 ]).
Qed.

(** A call changes the deposit of an account only if the account itself makes the call,
    or is being liquidated and its collateral is taken, or is the account of the incentive
    reserve. *)
Theorem deposits_change_authorised origin c s u s' a w :
  dispatch T origin c s = Ok (u, s') ->
  AccountDeposits s' !! (a, w) = AccountDeposits s !! (a, w) \/
  origin = Signed w \/ (exists la n, c = CallLiquidateBorrow w la n a) \/
  incentive_reward_account_id T = Ok w.
Proof.
  intros H. destruct (deposit_parties_dec origin c (a, w)) as [Hp|Hp]; [by right |]. left.
  by apply (dispatch_deposits_except origin c (AccountDeposits s) s u s').
Qed.
End access.

(** ** Rewards *)

Definition supply_index {L : Type} (s : State L) (a : CurrencyId) : Balance :=
  index (default default_reward (RewardSupplyState s !! a)).
Definition borrow_reward_index {L : Type} (s : State L) (a : CurrencyId) : Balance :=
  index (default default_reward (RewardBorrowState s !! a)).
(** No account is ahead of its market. *)
Definition rewards_ok {L : Type} (s : State L) : Prop :=
  forall a w, at0 (RewardSupplierIndex s) (a, w) <= supply_index s a /\
    at0 (RewardBorrowerIndex s) (a, w) <= borrow_reward_index s a.

Section rewards.
Context {SA : SpArithmetic} {NB : NumBigint} {NL : NumBigintLaws NB} {SI : StorageIter}.
Context {L : Type} {FU : Fungibles L}.
Context (T : Config).
Implicit Types (s : State L) (a : CurrencyId) (w : AccountId).

Lemma reward_delta_index_nonneg d v t i :
  calculate_reward_delta_index d v t = Ok i -> 0 <= i.
Proof.
  unfold calculate_reward_delta_index. intros H. case_match; minv; [done |].
  match goal with H : big_to_u128 _ = Some _ |- _ => apply big_to_u128_type in H as [? _] end. done.
Qed.

Lemma update_reward_supply_index_Ok a s u s' :
  update_reward_supply_index a s = Ok (u, s') ->
  exists r, s' = set_RewardSupplyState (<[a := r]> (RewardSupplyState s)) s /\
    supply_index s a <= index r.
Proof.
  unfold update_reward_supply_index, supply_index. intros H. minv.
  case_match; minv; [eexists; split; [done |]; lia |].
  eexists. split; [done |]. simpl. case_match; minv; [lia |].
  match goal with H : calculate_reward_delta_index _ _ _ = Ok _ |- _ =>
    apply reward_delta_index_nonneg in H end. lia.
Qed.

Lemma update_reward_borrow_index_Ok a s u s' :
  update_reward_borrow_index a s = Ok (u, s') ->
  exists r, s' = set_RewardBorrowState (<[a := r]> (RewardBorrowState s)) s /\
    borrow_reward_index s a <= index r.
Proof.
  unfold update_reward_borrow_index, borrow_reward_index. intros H. minv.
  case_match; minv; [eexists; split; [done |]; lia |].
  eexists. split; [done |]. simpl. case_match; minv; [lia |].
  match goal with H : calculate_reward_delta_index _ _ _ = Ok _ |- _ =>
    apply reward_delta_index_nonneg in H end. lia.
Qed.

Lemma index_insert (m : gmap Z RewardMarketState) a r b :
  index (default default_reward (<[a := r]> m !! b)) =
    if decide (b = a) then index r else index (default default_reward (m !! b)).
Proof. case_decide; [subst; by rewrite lookup_insert_eq | by rewrite lookup_insert_ne]. Qed.

Lemma at0_insert_pair (m : gmap (Z * Z) Z) (k k' : Z * Z) (v : Z) :
  at0 (<[k := v]> m) k' = if decide (k' = k) then v else at0 m k'.
Proof.
  unfold at0. case_decide; [subst; by rewrite lookup_insert_eq | by rewrite lookup_insert_ne].
Qed.

Lemma update_reward_supply_index_rewards a :
  preserves rewards_ok (update_reward_supply_index a : M (State L) _ _).
Proof.
  intros s u s' Hs (r & -> & Hr)%update_reward_supply_index_Ok b w. destruct (Hs b w) as [H1 H2].
  split; [| exact H2]. unfold supply_index in *. simpl. rewrite index_insert.
  case_decide; subst; lia.
Qed.

Lemma update_reward_borrow_index_rewards a :
  preserves rewards_ok (update_reward_borrow_index a : M (State L) _ _).
Proof.
  intros s u s' Hs (r & -> & Hr)%update_reward_borrow_index_Ok b w. destruct (Hs b w) as [H1 H2].
  split; [exact H1 |]. unfold borrow_reward_index in *. simpl. rewrite index_insert.
  case_decide; subst; lia.
Qed.

Lemma distribute_supplier_reward_rewards a w :
  preserves rewards_ok (distribute_supplier_reward a w : M (State L) _ _).
Proof.
  intros s u s' Hs H. unfold distribute_supplier_reward, deposit_event in H. minv.
  intros b y. destruct (Hs b y) as [Hsup Hbor]. split; [| exact Hbor]. unfold supply_index in *. simpl in *.
  rewrite at0_insert_pair. case_decide as Hk; [by injection Hk as -> -> | done].
Qed.

Lemma distribute_borrower_reward_rewards a w :
  preserves rewards_ok (distribute_borrower_reward a w : M (State L) _ _).
Proof.
  intros s u s' Hs H. unfold distribute_borrower_reward, deposit_event in H. minv.
  intros b y. destruct (Hs b y) as [Hsup Hbor]. split; [exact Hsup |]. unfold borrow_reward_index in *.
  simpl in *. rewrite at0_insert_pair. case_decide as Hk; [by injection Hk as -> -> | done].
Qed.

Ltac rewards_write :=
  first [ apply update_reward_supply_index_rewards | apply update_reward_borrow_index_rewards
        | apply distribute_supplier_reward_rewards | apply distribute_borrower_reward_rewards
        | untouched_write ].

Lemma step_rewards s s' : rewards_ok s -> step T s s' -> rewards_ok s'.
Proof.
  intros Hs H. revert Hs. destruct H as [s o c u s' H | s p x y n k r s' H | s t b f l _ _]; [| | done].
  - assert (preserves rewards_ok (dispatch T o c : M (State L) _ _)) as Hp.
    { destruct c; simpl; preserve rewards_write. }
    intros Hs. exact (Hp s u s' Hs H).
  - assert (preserves rewards_ok (ptoken_transfer T p x y n k : M (State L) _ _)) as Hp.
    { unfold ptoken_transfer, do_transfer_ptokens. preserve rewards_write. }
    intros Hs. exact (Hp s r s' Hs H).
Qed.

(** Whatever happens, the reward index an account was last paid at never exceeds its
    market's, so the distribution of rewards never fails with an underflow. *)
Theorem reward_indices_ordered s0 s :
  rewards_ok s0 -> rtc (step T) s0 s ->
  rewards_ok s /\
  forall a w, distribute_supplier_reward a w s <> Err (Arithmetic Underflow).
Proof.
  intros H0 H. assert (rewards_ok s) as Hs.
  { induction H as [|s0 s1 s2 H _ IH]; [done |]. by eapply IH, step_rewards. }
  split; [done |]. intros a w. destruct (Hs a w) as [Hle _]. unfold supply_index in Hle.
  unfold distribute_supplier_reward. rewrite (M_bind_run get _ s s s eq_refl). cbv zeta.
  rewrite checked_sub_ok by done. erewrite (M_bind_run (lift (ok_or (Some _) _)) _ s) by done.
  unfold calculate_reward_delta.
  match goal with |- context [ok_or ?o _] => destruct o as [d|]; [| done] end.
  erewrite (M_bind_run (lift (ok_or (Some _) _)) _ s) by done.
  by destruct (checked_add (at0 (RewardAccrued s) w) d).
Qed.

Lemma distribute_supplier_reward_Ok a w s u s' :
  distribute_supplier_reward a w s = Ok (u, s') ->
  exists e acc, s' = set_RewardSupplierIndex
    (<[(a, w) := supply_index s a]> (RewardSupplierIndex s)) (set_RewardAccrued acc (push_event e s)).
Proof. unfold distribute_supplier_reward, deposit_event. intros H. minv. by eexists _, _. Qed.

(** A transfer of pTokens moves vouchers of the underlying market but settles the supply
    rewards of the pToken id instead: the market's reward index and the indices of both
    accounts in it stay where they were, so the receiver is later paid for the time before
    the transfer. *)
Theorem ptoken_transfer_skips_market_rewards p x y n s u s' a :
  do_transfer_ptokens p x y n s = Ok (u, s') -> UnderlyingAssetId s !! p = Some a -> a <> p ->
  x <> y ->
  RewardSupplyState s' !! a = RewardSupplyState s !! a /\
  RewardSupplierIndex s' !! (a, x) = RewardSupplierIndex s !! (a, x) /\
  RewardSupplierIndex s' !! (a, y) = RewardSupplierIndex s !! (a, y) /\
  voucher s' a x = voucher s a x - n /\ voucher s' a y = voucher s a y + n.
Proof.
  intros H Ha Hne Hxy. unfold do_transfer_ptokens in H. minv.
  repeat match goal with
  | H : update_reward_supply_index _ _ = Ok _ |- _ =>
      apply update_reward_supply_index_Ok in H as (? & -> & _)
  | H : distribute_supplier_reward _ _ _ = Ok _ |- _ =>
      apply distribute_supplier_reward_Ok in H as (? & ? & ->)
  | H : take_vouchers _ _ _ _ = Ok _ |- _ => apply take_vouchers_voucher in H as ((? & ->) & _ & Htake)
  | H : add_vouchers _ _ _ _ = Ok _ |- _ => apply add_vouchers_voucher in H as ((? & ->) & Hadd)
  end.
  unfold underlying_id in *. minv. simpl in *. rewrite Ha in *. minv.
  match goal with H : UnderlyingAssetId s !! p = Some ?z |- _ => rename z into a end.
  rewrite !lookup_insert_ne by congruence. do 3 (split; [done |]).
  rewrite !Hadd, !Htake, !decide_pair, !(decide_True (P := x = x)), !(decide_True (P := y = y)) by done.
  rewrite !decide_False by congruence.
  match goal with |- voucher ?st _ _ - _ + _ = _ /\ _ =>
    assert (forall z, voucher st a z = voucher s a z) as Hv by done end.
  rewrite !Hv. lia.
Qed.

Definition same_borrow_rewards s0 s : Prop :=
  RewardBorrowerIndex s = RewardBorrowerIndex s0 /\ RewardBorrowState s = RewardBorrowState s0.

(** A liquidation settles the borrow rewards of the liquidator instead of those of the
    borrower whose debt it lowers: the borrower's reward index stays where it was, so the
    borrower is later paid for the past time on the lowered debt. *)
Theorem liquidation_skips_borrower_rewards x w la n ca s u s' :
  do_liquidate_borrow T x w la n ca s = Ok (u, s') ->
  RewardBorrowerIndex s' !! (la, w) = RewardBorrowerIndex s !! (la, w) /\
  RewardBorrowerIndex s' !! (la, x) = Some (borrow_reward_index s' la).
Proof.
  intros H. unfold do_liquidate_borrow in H. minv. zbool.
  match goal with H : liquidated_transfer _ _ _ _ _ _ _ _ _ = Ok _ |- _ =>
    unfold liquidated_transfer in H; minv end.
  match goal with H : update_reward_borrow_index _ _ = Ok _ |- _ =>
    apply update_reward_borrow_index_Ok in H as (r & -> & _) end.
  match goal with H : distribute_borrower_reward _ _ _ = Ok (_, ?z) |- _ => rename z into s1;
    unfold distribute_borrower_reward, deposit_event in H; minv end.
  match goal with H : on_assets _ ?z = Ok _ |- _ => set (s1 := z) in *;
    assert (same_borrow_rewards s1 s1) as Hp by done; carry (same_borrow_rewards s1) end.
  match goal with H : same_borrow_rewards s1 s' |- _ => destruct H as [E1 E2] end.
  unfold borrow_reward_index. rewrite E1, E2. unfold s1. simpl.
  split; [rewrite lookup_insert_ne by congruence; done | apply lookup_insert_eq].
Qed.
End rewards.

(** ** Vouchers as tokens, and an account that cannot supply *)

Section tokens.
Context {SA : SpArithmetic} {SL : SpArithmeticLaws SA} {NB : NumBigint} {SI : StorageIter}.
Context {L : Type} {FU : Fungibles L}.
Context (T : Config).
Implicit Types (s : State L) (a : CurrencyId) (w : AccountId).

Lemma voucher_le_supply s a w :
  supply_ok s -> (forall k d, AccountDeposits s !! k = Some d -> 0 <= voucher_balance d) ->
  0 <= voucher s a w <= at0 (TotalSupply s) a.
Proof.
  intros Hs Hpos.
  assert (forall b k d, AccountDeposits s !! k = Some d -> 0 <= voucher_in b k d) as Hin.
  { intros b k d Hd. unfold voucher_in. case_decide; [by eapply Hpos | done]. }
  rewrite (Hs a). unfold voucher, account_deposits, vouchers.
  destruct (AccountDeposits s !! (a, w)) as [d|] eqn:Hd; simpl.
  - split; [by eapply Hpos |].
    pose proof (map_sum_lookup_le (voucher_in a) _ _ _ (Hin a) Hd) as Hle.
    unfold voucher_in in Hle at 1. by rewrite decide_True in Hle.
  - split; [done | by apply map_sum_nonneg, Hin].
Qed.

(** Asking whether vouchers can be deposited never panics: when the supply of the pToken
    can grow by the amount, so can the balance of any account. *)
Theorem ptoken_can_deposit_never_panics s p w n :
  supply_ok s -> (forall k d, AccountDeposits s !! k = Some d -> 0 <= voucher_balance d) ->
  exists r, ptoken_can_deposit s p w n = Ok r.
Proof.
  intros Hs Hpos. unfold ptoken_can_deposit, ptoken_balance, underlying_id.
  destruct (UnderlyingAssetId s !! p) as [a|]; simpl; [| eauto].
  destruct (negb _); [eauto |]. case_bool_decide as Hadd; [eauto |].
  destruct (voucher_le_supply s a w Hs Hpos) as [? ?].
  destruct (checked_add (at0 (TotalSupply s) a) n) as [t|] eqn:Ht; [| done]. minv.
  change (voucher_balance (account_deposits s a w)) with (voucher s a w).
  rewrite checked_add_ok by lia. simpl. case_match; eauto.
Qed.

Definition earned_rate s a w : Rate :=
  exchange_rate_prior (default default_earned (AccountEarned s !! (a, w))).

Definition same_earned s0 s : Prop :=
  TotalSupply s = TotalSupply s0 /\ AccountEarned s = AccountEarned s0.

(** An account that once supplied a market at an exchange rate above the initial 0.02
    cannot supply it again after the market has been emptied: the rate is back at 0.02 and
    the interest earned since is computed by a subtraction that fails. *)
Theorem mint_blocked_after_market_emptied s a w n :
  at0 (TotalSupply s) a = 0 -> is_u128 (earned_rate s a w) ->
  MIN_EXCHANGE_RATE < earned_rate s a w ->
  forall u s', do_mint T w a n s <> Ok (u, s').
Proof.
  intros H0 Hr Hlt u s' H. unfold do_mint in H. minv.
  assert (same_earned s s) as Hs by done. carry (same_earned s).
  match goal with H : exchange_rate_stored T ?s1 a = Ok ?r, He : update_earned_stored _ _ _ ?s1 = Ok _,
      Hs : same_earned s ?s1 |- _ => rename H into Hrate, He into Hearn; destruct Hs as [E1 E2] end.
  unfold exchange_rate_stored, calculate_exchange_rate in Hrate. rewrite E1, H0 in Hrate.
  simpl in Hrate. minv. unfold update_earned_stored in Hearn. minv. rewrite E2 in *.
  fold (earned_rate s a w) in *.
  match goal with H : fixed_checked_sub _ _ = Some _ |- _ =>
    rewrite fixed_checked_sub_eq, checked_sub_none in H by (done || by_range); discriminate H end.
Qed.
End tokens.

(** ** The theorems at concrete inputs *)

Section instances.
#[local] Existing Instances sp_reference big_reference storage_iter_reference ledger_ops.
#[local] Existing Instances sp_reference_laws big_reference_laws storage_iter_reference_laws
  ledger_ops_laws.

Lemma debts_change_authorised_witness :
  AccountBorrows loans_liquidated !! (1, 2) = AccountBorrows loans_crashed !! (1, 2) \/
  (Signed 3 = Signed 2 /\
     (CallLiquidateBorrow 2 1 (10 ^ 10) 2 = CallRepayBorrowAll 1 \/
      exists n, CallLiquidateBorrow 2 1 (10 ^ 10) 2 = CallBorrow 1 n \/
        CallLiquidateBorrow 2 1 (10 ^ 10) 2 = CallRepayBorrow 1 n)) \/
  (exists n ca, CallLiquidateBorrow 2 1 (10 ^ 10) 2 = CallLiquidateBorrow 2 1 n ca).
Proof.
  apply (debts_change_authorised loans_config (Signed 3) (CallLiquidateBorrow 2 1 (10 ^ 10) 2)
    loans_crashed tt loans_liquidated 1 2). by_eval.
Defined.

Lemma deposits_change_authorised_witness :
  AccountDeposits loans_liquidated !! (2, 3) = AccountDeposits loans_crashed !! (2, 3) \/
  Signed 3 = Signed 3 \/
  (exists la n, CallLiquidateBorrow 2 1 (10 ^ 10) 2 = CallLiquidateBorrow 3 la n 2) \/
  incentive_reward_account_id loans_config = Ok 3.
Proof.
  apply (deposits_change_authorised loans_config (Signed 3) (CallLiquidateBorrow 2 1 (10 ^ 10) 2)
    loans_crashed tt loans_liquidated 2 3). by_eval.
Defined.

Lemma loans_empty_rewards : rewards_ok loans_empty.
Proof.
  intros a w. split; [exact (Z.le_refl 0) | exact (Z.le_refl 0)].
Qed.

Lemma reward_indices_ordered_witness :
  rewards_ok loans_liquidated /\
  forall a w, distribute_supplier_reward a w loans_liquidated <> Err (Arithmetic Underflow).
Proof.
  apply (reward_indices_ordered loans_config loans_empty loans_liquidated);
    [exact loans_empty_rewards | exact loans_reach_liquidated].
Defined.

(** Account 1 sends pTokens of asset 1 to account 7. *)
Definition loans_sent : State ledger :=
  match do_transfer_ptokens 101 1 7 1000 loans_later with Ok (_, s) => s | _ => loans_later end.

Lemma ptoken_transfer_skips_market_rewards_witness :
  RewardSupplyState loans_sent !! 1 = RewardSupplyState loans_later !! 1 /\
  RewardSupplierIndex loans_sent !! (1, 1) = RewardSupplierIndex loans_later !! (1, 1) /\
  RewardSupplierIndex loans_sent !! (1, 7) = RewardSupplierIndex loans_later !! (1, 7) /\
  voucher loans_sent 1 1 = voucher loans_later 1 1 - 1000 /\
  voucher loans_sent 1 7 = voucher loans_later 1 7 + 1000.
Proof.
  apply (ptoken_transfer_skips_market_rewards 101 1 7 1000 loans_later tt loans_sent 1);
    [by_eval | by_eval | lia | lia].
Defined.

Lemma liquidation_skips_borrower_rewards_witness :
  RewardBorrowerIndex loans_liquidated !! (1, 2) = RewardBorrowerIndex loans_due !! (1, 2) /\
  RewardBorrowerIndex loans_liquidated !! (1, 3) = Some (borrow_reward_index loans_liquidated 1).
Proof.
  apply (liquidation_skips_borrower_rewards loans_config 3 2 1 (10 ^ 10) 2 loans_due tt
    loans_liquidated). by_eval.
Defined.

Lemma ptoken_can_deposit_never_panics_witness :
  exists r, ptoken_can_deposit loans_empty 101 1 1000 = Ok r.
Proof.
  apply (ptoken_can_deposit_never_panics loans_empty 101 1 1000); [exact loans_empty_supply |].
  intros k d Hk. discriminate Hk.
Defined.

(** Account 1 redeemed everything; it was the only supplier of asset 1. *)
Lemma mint_blocked_after_market_emptied_witness :
  MIN_EXCHANGE_RATE < earned_rate loans_redeemed 1 1 /\
  ~ (exists u s', do_mint loans_config 1 1 (10 ^ 10) loans_redeemed = Ok (u, s')).
Proof.
  split; [by_eval |]. intros (u & s' & H). revert H.
  apply (mint_blocked_after_market_emptied loans_config loans_redeemed 1 1 (10 ^ 10));
    [by_eval | by_range | by_eval].
Defined.
End instances.
