(* ===== verification/Traits.v ===== *)
(** * Traits through which pallets call each other (src/pallets/traits/src)

    [Loans] and [Streaming] are what crowdloans and liquid staking use of the lending and the
    streaming pallet.  [X] is the state of the chain the operations change.  The laws say what
    their clients rely on; Provides proves them of the pallets. *)

From S2P Require Import Prelude Arith Frame Loans.

Class StreamingTrait (X : Type) :=
  streaming_create : AccountId -> AccountId -> Balance -> CurrencyId -> Timestamp -> Timestamp ->
    bool -> X -> Res X.

(** Creating a stream takes the deposit from the sender and puts it into one account, and moves
    nothing else.  As with any payment, a rest of the sender below the minimum balance may be lost
    or go along. *)
Class StreamingLaws (X : Type) {F : Fungibles X} {S : StreamingTrait X} := {
  streaming_account : AccountId;
  streaming_balance f t amt a t0 t1 c x x' b who :
    streaming_create f t amt a t0 t1 c x = Ok x' ->
    b <> a \/ (who <> f /\ who <> streaming_account) -> balance x' b who = balance x b who;
  streaming_issuance f t amt a t0 t1 c x x' b :
    streaming_create f t amt a t0 t1 c x = Ok x' -> b <> a -> total_issuance x' b = total_issuance x b;
  streaming_receives f t amt a t0 t1 c x x' :
    streaming_create f t amt a t0 t1 c x = Ok x' -> f <> streaming_account ->
    balance x a streaming_account + amt <= balance x' a streaming_account;
  streaming_takes f t amt a t0 t1 c x x' :
    streaming_create f t amt a t0 t1 c x = Ok x' -> f <> streaming_account ->
    amt <= balance x a f /\ (dust_free x a f amt ->
      balance x' a f = balance x a f - amt /\
      balance x' a streaming_account = balance x a streaming_account + amt /\
      total_issuance x' a = total_issuance x a);
}.

Class LoansTrait (X : Type) := {
  loans_do_mint : AccountId -> CurrencyId -> Balance -> X -> Res X;
  loans_do_borrow : AccountId -> CurrencyId -> Balance -> X -> Res X;
  loans_do_collateral_asset : AccountId -> CurrencyId -> bool -> X -> Res X;
  loans_do_repay_borrow : AccountId -> CurrencyId -> Balance -> X -> Res X;
  loans_do_redeem : AccountId -> CurrencyId -> Balance -> X -> Res X;
  (** [LoansPositionDataProvider]; the balance is brought up to date first *)
  loans_get_current_borrow_balance : AccountId -> CurrencyId -> X -> Res (Balance * X);
  (** [LoansMarketDataProvider] *)
  loans_get_market_info : CurrencyId -> X -> Res Loans.MarketInfo;
}.

(** Every operation moves nothing but the currency of its market, between the caller and one
    account, and leaves the supply of every other currency alone.  A loan is paid out, what is
    supplied or repaid reaches the account, and takes no more than it says. *)
Inductive loans_operation {X} `{LoansTrait X} (who : AccountId) (a : CurrencyId) : (X -> Res X) -> Prop :=
| op_mint amt : loans_operation who a (loans_do_mint who a amt)
| op_borrow amt : loans_operation who a (loans_do_borrow who a amt)
| op_collateral enable : loans_operation who a (loans_do_collateral_asset who a enable)
| op_repay amt : loans_operation who a (loans_do_repay_borrow who a amt)
| op_redeem amt : loans_operation who a (loans_do_redeem who a amt).

Class LoansLaws (X : Type) {F : Fungibles X} {Lo : LoansTrait X} := {
  loans_account : AccountId;
  loans_balance who a f x x' b y :
    loans_operation who a f -> f x = Ok x' -> b <> a \/ (y <> who /\ y <> loans_account) ->
    balance x' b y = balance x b y;
  loans_issuance who a f x x' b :
    loans_operation who a f -> f x = Ok x' -> b <> a -> total_issuance x' b = total_issuance x b;
  loans_position who a x v x' b y :
    loans_get_current_borrow_balance who a x = Ok (v, x') ->
    balance x' b y = balance x b y /\ total_issuance x' b = total_issuance x b;
  loans_borrow_pays who a amt x x' :
    loans_do_borrow who a amt x = Ok x' -> who <> loans_account ->
    balance x a who + amt <= balance x' a who;
  loans_repay_takes who a amt x x' :
    loans_do_repay_borrow who a amt x = Ok x' -> who <> loans_account -> minimum_balance a <= 1 ->
    balance x a who - amt <= balance x' a who;
  loans_mint_takes who a amt x x' :
    loans_do_mint who a amt x = Ok x' -> who <> loans_account -> minimum_balance a <= 1 ->
    balance x a who - amt <= balance x' a who;
  loans_receives who a amt x x' :
    loans_do_mint who a amt x = Ok x' \/ loans_do_repay_borrow who a amt x = Ok x' ->
    who <> loans_account -> balance x a loans_account + amt <= balance x' a loans_account;
}.
