(* ===== verification/Provides.v ===== *)
(** * The pallets behind the traits, composed into one runtime

    Streaming and lending implement the traits of Traits.v as their clients use them.  A runtime
    is a tower: the ledger, the XCM helper on it, streaming on that and lending on top, each pallet
    with the rest of the chain as its ledger; what a lower level provides, the levels above pass on. *)

From stdpp Require Import strings.
From S2P Require Import Prelude Arith Frame Ledger XcmHelper Streaming RateModel Loans LoansProps Traits.

(** ** Passing a trait on *)

Section lifted.
Context {S L : Type} {FU : Fungibles L} (view : S -> L) (update : L -> S -> S).
Context (Hview : forall l s, view (update l s) = l).
#[local] Instance lifted_fungibles : Fungibles S := fungibles_inside view update.

Definition inside_query {A} (f : L -> Res (A * L)) (s : S) : Res (A * S) :=
  '(a, l) ← f (view s); Ok (a, update l s).
Lemma inside_query_Ok {A} (f : L -> Res (A * L)) s a s' :
  inside_query f s = Ok (a, s') -> f (view s) = Ok (a, view s').
Proof. unfold inside_query. intros H. minv. by rewrite Hview. Qed.
Lemma inside_view f s s' : inside view update f s = Ok s' -> f (view s) = Ok (view s').
Proof. intros (l & Hf & ->)%inside_Ok. by rewrite Hview. Qed.

Context {XH : XcmHelperTrait L} {XL : XcmHelperLaws L}.
Definition xcm_lifted : XcmHelperTrait S := {|
  xcm_add_fees who amt := inside view update (xcm_add_fees who amt);
  xcm_withdraw p a n := inside_query (xcm_withdraw p a n);
  xcm_contribute p v a n := inside_query (xcm_contribute p v a n);
  xcm_proxy_contribute p v a n := inside_query (xcm_proxy_contribute p v a n);
  xcm_bond v p a i n := inside_query (xcm_bond v p a i n);
  xcm_bond_extra v a i n := inside_query (xcm_bond_extra v a i n);
  xcm_unbond v i n := inside_query (xcm_unbond v i n);
  xcm_rebond v i n := inside_query (xcm_rebond v i n);
  xcm_withdraw_unbonded k a i n := inside_query (xcm_withdraw_unbonded k a i n);
  xcm_nominate ts i n := inside_query (xcm_nominate ts i n);
  xcm_add_proxy d t b n := inside_query (xcm_add_proxy d t b n);
  xcm_remove_proxy d t b n := inside_query (xcm_remove_proxy d t b n) |}.
#[local] Existing Instance xcm_lifted.

Lemma lifted_request f s q s' :
  xcm_request f -> f s = Ok (q, s') -> exists g, xcm_request g /\ g (view s) = Ok (q, view s').
Proof. destruct 1; cbn; intros H%inside_query_Ok; (eexists; split; [| exact H]); constructor. Qed.

Definition xcm_lifted_laws : XcmHelperLaws S.
Proof.
  refine {| xcm_account := xcm_account; xcm_currency := xcm_currency; next_query s := next_query (view s) |}.
  - intros f s q s' Hf (g & Hg & H)%lifted_request; [| done]. exact (request_query g _ q _ Hg H).
  - intros f s q s' a who Hf (g & Hg & H)%lifted_request Hne; [| done]. exact (request_balance g _ q _ a who Hg H Hne).
  - intros f s q s' a Hf (g & Hg & H)%lifted_request Hne; [| done]. exact (request_issuance g _ q _ a Hg H Hne).
  - intros who amt s. cbn. unfold inside. by rewrite add_fees_transfer.
  - intros a f t amt k s s' H%inside_view. exact (transfer_query _ _ _ _ _ _ _ H).
  - intros a w amt s s' H%inside_view. exact (mint_query _ _ _ _ _ H).
  - intros a w amt s s' H%inside_view. exact (burn_query _ _ _ _ _ H).
Defined.

Context {ST : StreamingTrait L} {SL : StreamingLaws L}.
Definition streaming_lifted : StreamingTrait S := fun f t amt a t0 t1 c =>
  inside view update (streaming_create f t amt a t0 t1 c).
#[local] Existing Instance streaming_lifted.
Definition streaming_lifted_laws : StreamingLaws S.
Proof.
  refine {| streaming_account := streaming_account |}.
  - intros f t amt a t0 t1 c s s' b who H%inside_view. exact (streaming_balance _ _ _ _ _ _ _ _ _ b who H).
  - intros f t amt a t0 t1 c s s' b H%inside_view. exact (streaming_issuance _ _ _ _ _ _ _ _ _ b H).
  - intros f t amt a t0 t1 c s s' H%inside_view Hne. exact (streaming_receives _ _ _ _ _ _ _ _ _ H Hne).
  - intros f t amt a t0 t1 c s s' H%inside_view Hne. exact (streaming_takes _ _ _ _ _ _ _ _ _ H Hne).
Defined.
End lifted.

(** ** Streaming *)

Section streaming.
Import Streaming.
Context {L : Type} {FU : Fungibles L} {FL : FungiblesLaws L} (T : Config).

Definition streaming_fungibles : Fungibles (State L) := fungibles_inside assets set_assets.
#[local] Existing Instance streaming_fungibles.
Lemma streaming_fungibles_laws : FungiblesLaws (State L).
Proof. by apply fungibles_inside_laws. Qed.

Definition streaming_trait : StreamingTrait (State L) := fun f t amt a t0 t1 c s =>
  '(_, s') ← StreamingTrait_create T f t amt a t0 t1 c s; Ok s'.
#[local] Existing Instance streaming_trait.

Lemma finished_library_assets f t l :
  preserves (fun s : State L => assets s = l) (update_finished_stream_library T f t).
Proof.
  unfold update_finished_stream_library, checked_pop, try_remove_stream_library, checked_remove, insert_library.
  preserve ltac:(by apply preserves_modify).
Qed.

Lemma streaming_trait_Ok f t amt a t0 t1 c s s' :
  streaming_create f t amt a t0 t1 c s = Ok s' ->
  transfer a f (account_id T) amt false (assets s) = Ok (assets s').
Proof.
  unfold streaming_create, streaming_trait, StreamingTrait_create, do_create, try_push_stream_library,
    insert_library, insert_stream, deposit_event. intros H. minv.
  match goal with H : update_finished_stream_library _ _ _ ?s1 = _ |- _ =>
    rewrite (finished_library_assets _ _ (assets s1) _ _ _ eq_refl H); cbn end.
  unfold on_assets in *. destruct (transfer a f (account_id T) amt false (assets s)); by minv.
Qed.

Definition streaming_trait_laws : StreamingLaws (State L).
Proof.
  refine {| streaming_account := account_id T |}.
  - intros f t amt a t0 t1 c s s' b who H%streaming_trait_Ok Hne. by apply (transfer_frame _ _ _ _ _ _ _ b who H).
  - intros f t amt a t0 t1 c s s' b H%streaming_trait_Ok Hne. by apply (transfer_issuance_frame _ _ _ _ _ _ _ b H).
  - intros f t amt a t0 t1 c s s' H%streaming_trait_Ok Hne. exact (transfer_dest _ _ _ _ _ _ _ H Hne).
  - intros f t amt a t0 t1 c s s' H%streaming_trait_Ok Hne. split; [exact (transfer_enough _ _ _ _ _ _ _ H Hne) |].
    intros Hd. split; [exact (transfer_source _ _ _ _ _ _ _ H Hne Hd) |].
    split; [exact (transfer_dest_exact _ _ _ _ _ _ _ H Hne Hd) | exact (transfer_issuance _ _ _ _ _ _ _ H Hd)].
Defined.
End streaming.

(** ** Lending *)

Section loans.
Import Loans.
Context {SA : SpArithmetic} {NB : NumBigint} {SI : StorageIter}.
Context {L : Type} {FU : Fungibles L} {FL : FungiblesLaws L} (T : Config).

Definition loans_fungibles : Fungibles (State L) := fungibles_inside assets set_assets.
#[local] Existing Instance loans_fungibles.
Lemma loans_fungibles_laws : FungiblesLaws (State L).
Proof. by apply fungibles_inside_laws. Qed.

Definition run (m : M (State L) DispatchError unit) (s : State L) : Res (State L) := '(_, s') ← m s; Ok s'.
Definition loans_trait : LoansTrait (State L) := {|
  loans_do_mint who a amt := run (do_mint T who a amt);
  loans_do_borrow who a amt := run (do_borrow T who a amt);
  loans_do_collateral_asset who a enable := run (do_collateral_asset T who a enable);
  loans_do_repay_borrow who a amt := run (do_repay_borrow T who a amt);
  loans_do_redeem who a amt := run (do_redeem T who a amt);
  loans_get_current_borrow_balance who a := get_current_borrow_balance T who a;
  loans_get_market_info a s := get_market_info s a |}.
#[local] Existing Instance loans_trait.

(** Nothing has moved but the currency [a], between [who] and the pallet's account. *)
Definition moved (l : L) (a : CurrencyId) (who : AccountId) (s : State L) : Prop :=
  (forall b y, b <> a \/ (y <> who /\ y <> account_id T) -> balance (assets s) b y = balance l b y) /\
  (forall b, b <> a -> total_issuance (assets s) b = total_issuance l b).

Lemma moved_transfer l a who g f t amt k :
  (forall x x', g x = Ok x' -> transfer a f t amt k x = Ok x') ->
  f = who /\ t = account_id T \/ f = account_id T /\ t = who ->
  preserves (moved l a who) (on_assets g).
Proof.
  intros Hg Hft s u s' [Hb Hi] H. unfold on_assets in H. case_match eqn:Ht; minv. apply Hg in Ht. split; cbn.
  - intros b y Hne. rewrite (transfer_frame _ _ _ _ _ _ _ b y Ht); [auto | naive_solver].
  - intros b Hne. rewrite (transfer_issuance_frame _ _ _ _ _ _ _ b Ht); auto.
Qed.

Ltac loans_steps :=
  unfold do_mint, do_redeem, do_redeem_voucher, do_borrow, do_repay_borrow, do_repay_borrow_with_amount,
    do_collateral_asset, accrue_interest, update_last_accrued_interest_time, update_reward_supply_index,
    update_reward_borrow_index, distribute_supplier_reward, distribute_borrower_reward, update_earned_stored,
    add_vouchers, sub_vouchers, take_vouchers, put_deposits, put_borrows, put_total_borrows, put_total_supply,
    put_total_reserves, deposit_event.
Ltac moved_tac := preserve ltac:(first
  [ eapply moved_transfer; [intros ? ? Hg; first [exact Hg | apply map_err_Ok in Hg; exact Hg] | by auto] | untouched_write]).

Lemma moved_operation l a who f s s' :
  loans_operation who a f -> f s = Ok s' -> moved l a who s -> moved l a who s'.
Proof.
  assert (Hrun : forall m, preserves (moved l a who) m -> run m s = Ok s' -> moved l a who s -> moved l a who s').
  { intros m Hm H Hs. unfold run in H. minv. by eapply Hm. }
  destruct 1; cbn; apply Hrun;
    loans_steps; moved_tac.
Qed.
Lemma moved_refl a who s : moved (assets s) a who s.
Proof. done. Qed.

Lemma position_assets who a l :
  preserves (fun s : State L => assets s = l) (get_current_borrow_balance T who a).
Proof.
  unfold get_current_borrow_balance, accrue_interest, update_last_accrued_interest_time.
  preserve ltac:(untouched_write).
Qed.

Ltac keeps_assets :=
  loans_steps; preserve ltac:(untouched_write).
Ltac assets_through l :=
  repeat match goal with
  | E : assets ?s = l, H : ?m ?s = Ok (_, ?s') |- _ =>
      lazymatch m with on_assets _ => fail | _ => idtac end;
      lazymatch goal with _ : assets s' = l |- _ => fail | _ => idtac end;
      let Hp := fresh in
      assert (preserves (fun s : State L => assets s = l) m) as Hp by keeps_assets;
      assert (assets s' = l) by exact (Hp s _ s' E H); clear Hp
  end.
Lemma on_assets_run g (s : State L) u s' : on_assets g s = Ok (u, s') -> g (assets s) = Ok (assets s').
Proof. unfold on_assets. destruct (g (assets s)); intros H; by minv. Qed.

Lemma do_borrow_transfers who a amt (s : State L) u s' :
  do_borrow T who a amt s = Ok (u, s') -> transfer a (account_id T) who amt false (assets s) = Ok (assets s').
Proof.
  intros H. unfold do_borrow in H. minv. assert (assets s = assets s) as E by done. assets_through (assets s).
  match goal with H : on_assets _ _ = Ok (_, ?s1), H' : deposit_event _ ?s1 = Ok (_, s') |- _ =>
    apply on_assets_run in H; unfold deposit_event in H'; minv end. cbn. congruence.
Qed.
Lemma do_repay_transfers who a amt (s : State L) u s' :
  do_repay_borrow T who a amt s = Ok (u, s') -> transfer a who (account_id T) amt false (assets s) = Ok (assets s').
Proof.
  intros H. unfold do_repay_borrow, do_repay_borrow_with_amount in H. minv.
  assert (assets s = assets s) as E by done. assets_through (assets s).
  match goal with H : on_assets _ _ = Ok (_, ?s1) |- _ => apply on_assets_run in H; rename s1 into s2 end.
  assert (assets s2 = assets s2) as E2 by done. assets_through (assets s2). cbn in *. congruence.
Qed.

Lemma do_mint_transfers who a amt (s : State L) u s' :
  do_mint T who a amt s = Ok (u, s') -> transfer a who (account_id T) amt false (assets s) = Ok (assets s').
Proof.
  intros H. unfold do_mint in H. minv. assert (assets s = assets s) as E by done. assets_through (assets s).
  match goal with H : on_assets _ _ = Ok (_, ?s1) |- _ => apply on_assets_run in H; rename s1 into s2 end.
  assert (assets s2 = assets s2) as E2 by done. assets_through (assets s2). cbn in *. congruence.
Qed.
Lemma taken_at_most a who amt k (l l' : L) :
  transfer a who (account_id T) amt k l = Ok l' -> who <> account_id T -> minimum_balance a <= 1 ->
  balance l a who - amt <= balance l' a who.
Proof.
  intros Ht Hw Hm. rewrite (transfer_source _ _ _ _ _ _ _ Ht Hw); [lia |]. apply dust_free_min_one; [done |].
  by eapply transfer_enough.
Qed.

Definition loans_trait_laws : LoansLaws (State L).
Proof.
  refine {| loans_account := account_id T |}.
  - intros who a f s s' b y Hf H Hne. by apply (moved_operation (assets s) a who f s s' Hf H).
  - intros who a f s s' b Hf H Hne. by apply (moved_operation (assets s) a who f s s' Hf H).
  - intros who a s v s' b y H. cbn. by rewrite (position_assets who a (assets s) s v s' eq_refl H).
  - intros who a amt s s' H Hw. cbn in H. unfold run in H. minv.
    match goal with H : do_borrow _ _ _ _ _ = _ |- _ => apply do_borrow_transfers in H; by apply (transfer_dest _ _ _ _ _ _ _ H) end.
  - intros who a amt s s' H Hw Hm. cbn in H. unfold run in H. minv.
    match goal with H : do_repay_borrow _ _ _ _ _ = _ |- _ => apply do_repay_transfers in H; by eapply taken_at_most end.
  - intros who a amt s s' H Hw Hm. cbn in H. unfold run in H. minv.
    match goal with H : do_mint _ _ _ _ _ = _ |- _ => apply do_mint_transfers in H; by eapply taken_at_most end.
  - intros who a amt s s' H Hw. cbn in H. unfold run in H.
    assert (transfer a who (account_id T) amt false (assets s) = Ok (assets s')) as Ht.
    { destruct H; minv; [by eapply do_mint_transfers | by eapply do_repay_transfers]. }
    exact (transfer_dest _ _ _ _ _ _ _ Ht Hw).
Defined.

(** Lending sends no messages. *)
Section queries.
Context {XH : XcmHelperTrait L} {XL : XcmHelperLaws L}.
Lemma asking_transfer n g a f t amt k :
  (forall x x', g x = Ok x' -> transfer a f t amt k x = Ok x') ->
  preserves (fun s : State L => next_query (assets s) = n) (on_assets g).
Proof. intros Hg s u s' Hs H%on_assets_run%Hg. by rewrite (transfer_query _ _ _ _ _ _ _ H). Qed.
Ltac asking_tac := preserve ltac:(first
  [ eapply asking_transfer; intros ? ? Hg; first [exact Hg | apply map_err_Ok in Hg; exact Hg] | untouched_write]).

Lemma loans_keep_queries who a f s s' :
  loans_operation who a f -> f s = Ok s' -> next_query (assets s') = next_query (assets s).
Proof.
  assert (Hrun : forall m, preserves (fun s0 : State L => next_query (assets s0) = next_query (assets s)) m ->
    run m s = Ok s' -> next_query (assets s') = next_query (assets s)).
  { intros m Hm H. unfold run in H. minv. by eapply Hm. }
  destruct 1; cbn; apply Hrun;
    loans_steps; asking_tac.
Qed.
Lemma position_keeps_queries who a s v s' :
  loans_get_current_borrow_balance who a s = Ok (v, s') -> next_query (assets s') = next_query (assets s).
Proof. intros H. by rewrite (position_assets who a (assets s) s v s' eq_refl H). Qed.
End queries.
End loans.

(** ** The runtime *)

Section runtime.
Context {SA : SpArithmetic} {NB : NumBigint} {SI : StorageIter}.
Context {L : Type} {FU : Fungibles L} {FL : FungiblesLaws L} {PX : PalletXcm L} {PL : PalletXcmLaws L}.
Context (TX : XcmHelper.Config) (TS : Streaming.Config) (TL : Loans.Config).

Definition helper_level : Type := XcmHelper.State L.
Definition streaming_level : Type := Streaming.State helper_level.
Definition runtime : Type := Loans.State streaming_level.

#[local] Instance helper_fungibles : Fungibles helper_level := XcmHelper.xcm_fungibles.
#[local] Instance helper_fungibles_laws : FungiblesLaws helper_level := XcmHelper.xcm_fungibles_laws.
#[local] Instance helper_xcm : XcmHelperTrait helper_level := XcmHelper.xcm_helper TX.
#[local] Instance helper_xcm_laws : XcmHelperLaws helper_level := XcmHelper.xcm_helper_provides TX.

#[local] Instance middle_fungibles : Fungibles streaming_level := streaming_fungibles.
#[local] Instance middle_fungibles_laws : FungiblesLaws streaming_level := streaming_fungibles_laws.
#[local] Instance middle_xcm : XcmHelperTrait streaming_level := xcm_lifted Streaming.assets Streaming.set_assets.
#[local] Instance middle_xcm_laws : XcmHelperLaws streaming_level :=
  xcm_lifted_laws Streaming.assets Streaming.set_assets (fun _ _ => eq_refl).
#[local] Instance middle_streaming : StreamingTrait streaming_level := streaming_trait TS.
#[local] Instance middle_streaming_laws : StreamingLaws streaming_level := streaming_trait_laws TS.

Definition runtime_fungibles : Fungibles runtime := loans_fungibles.
#[local] Existing Instance runtime_fungibles.
Definition runtime_fungibles_laws : FungiblesLaws runtime := loans_fungibles_laws.
Definition runtime_xcm : XcmHelperTrait runtime := xcm_lifted Loans.assets Loans.set_assets.
#[local] Existing Instance runtime_xcm.
Definition runtime_xcm_laws : XcmHelperLaws runtime :=
  xcm_lifted_laws Loans.assets Loans.set_assets (fun _ _ => eq_refl).
Definition runtime_streaming : StreamingTrait runtime := streaming_lifted Loans.assets Loans.set_assets.
#[local] Existing Instance runtime_streaming.
Definition runtime_streaming_laws : StreamingLaws runtime :=
  streaming_lifted_laws Loans.assets Loans.set_assets (fun _ _ => eq_refl).
Definition runtime_loans : LoansTrait runtime := loans_trait TL.
#[local] Existing Instance runtime_loans.
Definition runtime_loans_laws : LoansLaws runtime := loans_trait_laws TL.

(** C35: The pallets implement the traits that crowdloans and liquid staking use, together and on one ledger.
    In a runtime of the XCM helper, streaming and lending over any ledger and message queue with the documented
    behaviour: a request to the relay chain gets a fresh query number and costs only fees, from the helper's
    account in the relay currency; creating a stream takes the deposit from the sender, who has it, and puts it into
    the streaming account, exactly unless the sender is left with dust, and moves nothing else; an operation of
    lending moves only its market's currency between the caller and the lending account, where a loan reaches the
    caller, what is supplied or repaid reaches the lending account and takes no more than that from the caller (in a
    currency with a minimum balance of at most one); and none changes the supply of another currency. *)
Theorem runtime_provides_traits :
  FungiblesLaws runtime /\
  (exists laws : XcmHelperLaws runtime,
     xcm_account = XcmHelper.account_id TX /\ xcm_currency = XcmHelper.RelayCurrency TX) /\
  (exists laws : StreamingLaws runtime, streaming_account = Streaming.account_id TS) /\
  (exists laws : LoansLaws runtime, loans_account = Loans.account_id TL).
Proof.
  split; [exact runtime_fungibles_laws |].
  split; [by exists runtime_xcm_laws |]. split; [by exists runtime_streaming_laws | by exists runtime_loans_laws].
Qed.
End runtime.
