(* ===== verification/RuntimeDemo.v ===== *)
(** * A concrete runtime

    The tower of Provides over a ledger, with the configurations of the pallets below: what the
    theorems on crowdloans and liquid staking are instantiated with. *)

From stdpp Require Import strings.
From S2P Require Import Prelude Arith Frame Ledger XcmHelper Streaming RateModel Loans LoansDemo Traits Provides.
#[local] Open Scope Z_scope.

#[export] Existing Instances sp_reference big_reference storage_iter_reference storage_iter_reference_laws
  storage_pair_iter_reference ledger_ops ledger_ops_laws XcmHelper.relay_xcm XcmHelper.relay_xcm_laws.
#[export] Instance base_fungibles : Fungibles (XcmHelper.relay ledger) := XcmHelper.relay_fungibles.
#[export] Instance base_fungibles_laws : FungiblesLaws (XcmHelper.relay ledger) := XcmHelper.relay_fungibles_laws.
Definition demo_streaming : Streaming.Config := Streaming.mkConfig 98 128 10 0 1 (fun _ => true).

Definition chain_state : Type := runtime (L := XcmHelper.relay ledger).
#[export] Instance demo_fungibles : Fungibles chain_state := runtime_fungibles.
#[export] Instance demo_fungibles_laws : FungiblesLaws chain_state := runtime_fungibles_laws.
#[export] Instance demo_xcm : XcmHelperTrait chain_state := runtime_xcm XcmHelper.xcm_config.
#[export] Instance demo_xcm_laws : XcmHelperLaws chain_state := runtime_xcm_laws XcmHelper.xcm_config.
#[export] Instance demo_streams : StreamingTrait chain_state := runtime_streaming demo_streaming.
#[export] Instance demo_streams_laws : StreamingLaws chain_state := runtime_streaming_laws demo_streaming.
#[export] Instance demo_loans : LoansTrait chain_state := runtime_loans loans_config.
#[export] Instance demo_loans_laws : LoansLaws chain_state := runtime_loans_laws loans_config.

Definition is_root (o : RuntimeOrigin) : bool := match o with Root => true | _ => false end.
Definition is_ok {E A} (r : result E A) : bool := match r with Ok _ => true | _ => false end.

Definition runtime_state (l : ledger) : chain_state :=
  Loans.mkState ∅ [] ∅ ∅ ∅ ∅ ∅ ∅ ∅ ∅ ∅ ∅ ∅ ∅ ∅ ∅ ∅ ∅ ∅ ∅ ∅ ∅
    (Streaming.mkState 0 ∅ ∅ {[0 := 1]} (XcmHelper.xcm_state l) 10 []) one_price 1000 10 [].

Lemma runtime_provides_traits_witness :
  FungiblesLaws chain_state /\ exists laws : XcmHelperLaws chain_state, @xcm_account _ _ _ laws = 99.
Proof.
  destruct (runtime_provides_traits XcmHelper.xcm_config demo_streaming loans_config) as (H & (laws & E & _) & _).
  split; [exact H | by exists laws].
Defined.
