(* ===== verification/Crowdloans.v ===== *)
(** * Crowdloans (src/pallets/crowdloans/src/lib.rs and types.rs)

    A vault collects contributions to one parachain's crowdloan for one lease.  Contributions wait
    (pending), are sent to the relay chain (flying) and confirmed (contributed); a vault moves
    through the phases of its auction.  When the auction is won, contributors claim ctokens, which
    redeem the contribution once the slot has expired; when it is lost they withdraw it.

    Contributions are kept per vault and kind in child tries, whose names are hashes of the vault's
    trie index; [child] is the storage of all of them.  [chain] is the rest of the chain, on which
    the ledger, the messages to the relay chain, streams and lending act.  The block number of the
    relay chain, the group of automation accounts and the nonces of accounts are fields of the
    state that the pallet only reads. *)

From stdpp Require Import strings.
From Stdlib Require Import SpecFloat.
From S2P Require Import Prelude Arith Frame XcmHelper Loans Traits MathHelper.
Import CrowdloansErrors.
#[local] Open Scope Z_scope.

Module Crowdloans.
Import MathHelper.

(** ** types.rs *)

Abbreviation LeasePeriod := Z (only parsing).    (* u32 *)
Abbreviation VaultId := (Z * Z)%type (only parsing).
Abbreviation TrieIndex := Z (only parsing).      (* u32 *)
Abbreviation Bytes := (list Z) (only parsing).

Inductive VaultPhase := Pending | Contributing | Closed | Failed | Succeeded | Expired.
#[global] Instance VaultPhase_eq_dec : EqDecision VaultPhase.
Proof. solve_decision. Defined.

Inductive ContributionStrategy := XCM | XCMPROXY.

Record Vault := mkVault {
  ctoken : CurrencyId;
  phase : VaultPhase;
  contributed : Balance;
  pending : Balance;
  flying : Balance;
  contribution_strategy : ContributionStrategy;
  cap : Balance;
  end_block : BlockNumber;
  trie_index : TrieIndex;
  lease_start : LeasePeriod;
  lease_end : LeasePeriod;
}.
Definition vault_eta (v : Vault) : Vault :=
  mkVault (ctoken v) (phase v) (contributed v) (pending v) (flying v) (contribution_strategy v)
    (cap v) (end_block v) (trie_index v) (lease_start v) (lease_end v).
Definition set_phase x v : Vault := ltac:(update_field vault_eta v (phase v) x).
Definition set_contributed x v : Vault := ltac:(update_field vault_eta v (contributed v) x).
Definition set_pending x v : Vault := ltac:(update_field vault_eta v (pending v) x).
Definition set_flying x v : Vault := ltac:(update_field vault_eta v (flying v) x).
Definition set_strategy x v : Vault := ltac:(update_field vault_eta v (contribution_strategy v) x).
Definition set_cap x v : Vault := ltac:(update_field vault_eta v (cap v) x).
Definition set_end_block x v : Vault := ltac:(update_field vault_eta v (end_block v) x).

(** [Vault::new] *)
Definition Vault_new (lease_start lease_end : LeasePeriod) (ctoken : CurrencyId)
    (contribution_strategy : ContributionStrategy) (cap : Balance) (end_block : BlockNumber)
    (trie_index : TrieIndex) : Vault :=
  mkVault ctoken Pending 0 0 0 contribution_strategy cap end_block trie_index lease_start lease_end.

Inductive XcmRequest :=
| Contribute (crowdloan : ParaId) (vault_id : VaultId) (who : AccountId) (amount : Balance)
    (referral_code : Bytes)
| Withdraw (crowdloan : ParaId) (vault_id : VaultId) (amount : Balance) (target_phase : VaultPhase).

Inductive ChildStorageKind := KPending | KFlying | KContributed.
#[global] Instance ChildStorageKind_eq_dec : EqDecision ChildStorageKind.
Proof. solve_decision. Defined.

(** src/primitives/src/lib.rs *)
Inductive ArithmeticKind := Addition | Subtraction.

Record BonusConfig := mkBonusConfig {
  bonus_per_token : Balance;
  start_time : Timestamp;
  end_time : Timestamp;
}.
Definition BonusConfig_default : BonusConfig := mkBonusConfig 0 0 0.
Definition check (b : BonusConfig) : bool := end_time b >? start_time b.

(** ** The pallet *)

Record Config := mkConfig {
  account_id : AccountId;        (* PalletId::get().into_account_truncating() *)
  para_account_id : AccountId;   (* SelfParaId::get().into_account_truncating() *)
  RelayCurrency : CurrencyId;
  MinContribution : Balance;
  MigrateKeysLimit : Z;
  RemoveKeysLimit : Z;
  LeasePeriodLength : BlockNumber;  (* T::LeasePeriod *)
  LeaseOffset : BlockNumber;
  LeasePerYear : BlockNumber;
  ProxyOrigin : RuntimeOrigin -> bool;
  MigrateOrigin : RuntimeOrigin -> bool;
  VrfOrigin : RuntimeOrigin -> bool;
  CreateOrigin : RuntimeOrigin -> bool;
  RefundOrigin : RuntimeOrigin -> bool;
  DissolveOrigin : RuntimeOrigin -> bool;
  UpdateOrigin : RuntimeOrigin -> bool;
  OpenCloseOrigin : RuntimeOrigin -> bool;
  AuctionSucceededFailedOrigin : RuntimeOrigin -> bool;
  SlotExpiredOrigin : RuntimeOrigin -> bool;
  GetNativeCurrencyId : CurrencyId;
  get_decimal : CurrencyId -> option Z;
  lookup : Source -> Res AccountId;
  (** [T::Hashing::hash] *)
  hash : Bytes -> Z;
  (** [Call::notification_received] of this pallet *)
  notify_placeholder : RuntimeCall;
}.

Abbreviation VaultKey := (ParaId * VaultId)%type (only parsing).

Inductive Event :=
| VaultCreated (p : ParaId) (v : VaultId) (ctoken : CurrencyId) (ph : VaultPhase)
    (s : ContributionStrategy) (cap : Balance) (end_block : BlockNumber) (i : TrieIndex)
| VaultUpdated (p : ParaId) (v : VaultId) (s : ContributionStrategy) (cap : Balance)
    (end_block : BlockNumber)
| VaultPhaseUpdated (p : ParaId) (v : VaultId) (pre now : VaultPhase)
| VaultDoContributing (p : ParaId) (v : VaultId) (who : AccountId) (amount : Balance) (code : Bytes)
| VaultDoWithdrawing (p : ParaId) (v : VaultId) (amount : Balance) (target : VaultPhase)
| VaultContributed (p : ParaId) (v : VaultId) (who : AccountId) (amount : Balance) (code : Bytes)
| VaultClaimed (p : ParaId) (v : VaultId) (ctoken : CurrencyId) (who : AccountId) (amount : Balance)
    (ph : VaultPhase)
| VaultWithdrew (p : ParaId) (v : VaultId) (who : AccountId) (amount : Balance) (ph : VaultPhase)
| VaultRedeemed (p : ParaId) (v : VaultId) (ctoken : CurrencyId) (who : AccountId) (amount : Balance)
    (ph : VaultPhase)
| VrfUpdated (flag : bool)
| NotificationReceived (l : MultiLocation) (q : QueryId) (res : option (Z * Z))
| AllMigrated (p : ParaId) (v : VaultId)
| PartiallyMigrated (p : ParaId) (v : VaultId)
| VaultDissolved (p : ParaId) (v : VaultId)
| AllRefunded (p : ParaId) (v : VaultId)
| PartiallyRefunded (p : ParaId) (v : VaultId)
| UserRefunded (p : ParaId) (v : VaultId) (who : AccountId) (k : ChildStorageKind) (amount : Balance)
| ProxyUpdated (who : AccountId)
| LeasesBonusUpdated (v : VaultId) (b : BonusConfig).

Record State (X : Type) := mkState {
  Vaults : gmap VaultKey Vault;
  IsVrf : bool;
  CTokensRegistry : gmap VaultId CurrencyId;
  LeasesRegistry : gmap ParaId VaultId;
  NextTrieIndex : TrieIndex;
  XcmRequests : gmap QueryId XcmRequest;
  ProxyAddress : option AccountId;
  LeasesBonus : gmap VaultId BonusConfig;
  child : gmap Z (gmap AccountId (Balance * Bytes));
  chain : X;
  relay_block : BlockNumber;
  Members : list AccountId;
  account_nonce : AccountId -> Z;
  events : list Event;
}.
Arguments mkState {X}.
Arguments Vaults {X}.
Arguments IsVrf {X}.
Arguments CTokensRegistry {X}.
Arguments LeasesRegistry {X}.
Arguments NextTrieIndex {X}.
Arguments XcmRequests {X}.
Arguments ProxyAddress {X}.
Arguments LeasesBonus {X}.
Arguments child {X}.
Arguments chain {X}.
Arguments relay_block {X}.
Arguments Members {X}.
Arguments account_nonce {X}.
Arguments events {X}.

Definition state_eta {X} (s : State X) : State X :=
  mkState (Vaults s) (IsVrf s) (CTokensRegistry s) (LeasesRegistry s) (NextTrieIndex s)
    (XcmRequests s) (ProxyAddress s) (LeasesBonus s) (child s) (chain s) (relay_block s) (Members s)
    (account_nonce s) (events s).

Section setters.
Context {X : Type}.
Implicit Types s : State X.
Definition set_Vaults v s : State X := ltac:(update_field (@state_eta X) s (Vaults s) v).
Definition set_IsVrf v s : State X := ltac:(update_field (@state_eta X) s (IsVrf s) v).
Definition set_CTokens v s : State X := ltac:(update_field (@state_eta X) s (CTokensRegistry s) v).
Definition set_Leases v s : State X := ltac:(update_field (@state_eta X) s (LeasesRegistry s) v).
Definition set_NextTrieIndex v s : State X := ltac:(update_field (@state_eta X) s (NextTrieIndex s) v).
Definition set_XcmRequests v s : State X := ltac:(update_field (@state_eta X) s (XcmRequests s) v).
Definition set_ProxyAddress v s : State X := ltac:(update_field (@state_eta X) s (ProxyAddress s) v).
Definition set_LeasesBonus v s : State X := ltac:(update_field (@state_eta X) s (LeasesBonus s) v).
Definition set_child v s : State X := ltac:(update_field (@state_eta X) s (child s) v).
Definition set_chain v s : State X := ltac:(update_field (@state_eta X) s (chain s) v).
Definition push_event e s : State X := ltac:(update_field (@state_eta X) s (events s) (events s ++ [e])).
End setters.

(** ** Child tries *)

Definition bytes_of (s : string) : Bytes :=
  map (fun c => Z.of_N (Ascii.N_of_ascii c)) (String.list_ascii_of_string s).
(** [index.encode()] of a [u32] *)
Definition u32_encode (n : Z) : Bytes :=
  [n mod 256; n / 256 mod 256; n / 65536 mod 256; n / 16777216 mod 256].
Definition kind_prefix (kind : ChildStorageKind) : Bytes :=
  bytes_of match kind with
           | KPending => "crowdloan:pending"
           | KFlying => "crowdloan:flying"
           | KContributed => "crowdloan:contributed"
           end.
Definition id_from_index (T : Config) (index : TrieIndex) (kind : ChildStorageKind) : Z :=
  hash T (kind_prefix kind ++ u32_encode index).

(** [10u128.checked_pow(n)] *)
Definition checked_pow10 (n : Z) : option Z := fit_u128 (10 ^ n).
(** [a.saturating_mul(b)], [a.saturating_add(b)] for block numbers *)
Definition block_mul (a b : BlockNumber) : BlockNumber := Z.min u32_max (a * b).
Definition block_add (a b : BlockNumber) : BlockNumber := Z.min u32_max (a + b).

Section pallet.
Context {SA : SpArithmetic} {FP : FixedPow} {SI : StorageIter} {SP : StoragePairIter}.
Context {X : Type} {FU : Fungibles X} {XH : XcmHelperTrait X} {ST : StreamingTrait X} {LT : LoansTrait X}.
Variable T : Config.

Abbreviation St := (State X).
Abbreviation Run := (M St DispatchError).

Definition deposit_event (e : Event) : Run unit := modify (push_event e).
Definition on_chain (f : X -> Res X) : Run unit := fun s =>
  match f (chain s) with
  | Ok x => Ok (tt, set_chain x s) | Err e => Err e | Panic => Panic
  end.
Definition on_chain_query (f : X -> Res (QueryId * X)) : Run QueryId := fun s =>
  match f (chain s) with
  | Ok (q, x) => Ok (q, set_chain x s) | Err e => Err e | Panic => Panic
  end.
Definition insert_vault (k : VaultKey) (v : Vault) : Run unit :=
  modify (fun s => set_Vaults (<[k := v]> (Vaults s)) s).
Definition insert_request (q : QueryId) (r : XcmRequest) : Run unit :=
  modify (fun s => set_XcmRequests (<[q := r]> (XcmRequests s)) s).
Definition vaults (k : VaultKey) (s : St) : Res Vault :=
  ok_or (Vaults s !! k) (Crowdloans VaultDoesNotExist).

(** The macro [ensure_origin!] *)
Definition ensure_origin_or_member (allowed : RuntimeOrigin -> bool) (origin : RuntimeOrigin) (s : St)
    : Res unit :=
  if allowed origin then Ok tt
  else
    who ← ensure_signed origin;
    if bool_decide (who ∈ Members s) then Ok tt else Err BadOrigin.

Definition current_vault (crowdloan : ParaId) (s : St) : option Vault :=
  id ← LeasesRegistry s !! crowdloan; Vaults s !! (crowdloan, id).

Definition total_contribution (v : Vault) : Res Balance :=
  ok_or (sum ← checked_add (contributed v) (flying v); checked_add sum (pending v)) (Arithmetic Overflow).

Definition trie (index : TrieIndex) (kind : ChildStorageKind) (s : St) : gmap AccountId (Balance * Bytes) :=
  default ∅ (child s !! id_from_index T index kind).
Definition contribution_put (index : TrieIndex) (who : AccountId) (balance : Balance)
    (referral_code : Bytes) (kind : ChildStorageKind) : Run unit :=
  modify (fun s => set_child (<[id_from_index T index kind :=
    <[who := (balance, referral_code)]> (trie index kind s)]> (child s)) s).
Definition contribution_get (index : TrieIndex) (who : AccountId) (kind : ChildStorageKind) (s : St)
    : Balance * Bytes :=
  default (0, []) (trie index kind s !! who).
Definition contribution_kill (index : TrieIndex) (who : AccountId) (kind : ChildStorageKind) : Run unit :=
  modify (fun s => set_child (<[id_from_index T index kind :=
    delete who (trie index kind s)]> (child s)) s).
Definition contribution_iterator (index : TrieIndex) (kind : ChildStorageKind) (s : St)
    : list (AccountId * (Balance * Bytes)) :=
  storage_iter (trie index kind s).

(** The sum of one kind in a vault, and the vault with another one *)
Definition kind_sum (kind : ChildStorageKind) (v : Vault) : Balance :=
  match kind with KPending => pending v | KFlying => flying v | KContributed => contributed v end.
Definition set_kind_sum (kind : ChildStorageKind) (x : Balance) (v : Vault) : Vault :=
  match kind with
  | KPending => set_pending x v | KFlying => set_flying x v | KContributed => set_contributed x v
  end.
Definition apply_arithmetic (a : ArithmeticKind) (x amount : Balance) : Res Balance :=
  match a with
  | Addition => ok_or (checked_add x amount) (Arithmetic Overflow)
  | Subtraction => ok_or (checked_sub x amount) (Arithmetic Underflow)
  end.

Definition do_update_contribution (who : AccountId) (vault : Vault) (amount : Balance)
    (new_referral_code : option Bytes) (arithmetic_kind : ArithmeticKind)
    (child_storage_kind : ChildStorageKind) : Run (Bytes * Vault) :=
  s ← get;
  let '(contribution, old_referral_code) :=
    contribution_get (trie_index vault) who child_storage_kind s in
  let referral_code := default old_referral_code new_referral_code in
  sum ← lift (apply_arithmetic arithmetic_kind (kind_sum child_storage_kind vault) amount);
  let vault := set_kind_sum child_storage_kind sum vault in
  new_contribution ← lift (apply_arithmetic arithmetic_kind contribution amount);
  _ ← (if new_contribution =? 0
       then contribution_kill (trie_index vault) who child_storage_kind
       else contribution_put (trie_index vault) who new_contribution referral_code child_storage_kind);
  mret (referral_code, vault).

Definition do_migrate_contribution (who : AccountId) (vault : Vault) (amount : Balance)
    (src dst : ChildStorageKind) : Run Vault :=
  '(referral_code, vault) ← do_update_contribution who vault amount None Subtraction src;
  '(_, vault) ← do_update_contribution who vault amount (Some referral_code) Addition dst;
  mret vault.

Definition do_contribute (who : AccountId) (crowdloan : ParaId) (vault_id : VaultId)
    (strategy : ContributionStrategy) (amount : Balance) (referral_code : Bytes) : Run unit :=
  query_id ← (match strategy with
              | XCM => on_chain_query (xcm_contribute crowdloan amount who (notify_placeholder T))
              | XCMPROXY =>
                  s ← get;
                  proxy_address ← lift (ok_or (ProxyAddress s) (Crowdloans EmptyProxyAddress));
                  on_chain_query (xcm_proxy_contribute crowdloan amount proxy_address
                                    (notify_placeholder T))
              end);
  _ ← insert_request query_id (Contribute crowdloan vault_id who amount referral_code);
  deposit_event (VaultDoContributing crowdloan vault_id who amount referral_code).

Definition do_withdraw (crowdloan : ParaId) (vault_id : VaultId) (amount : Balance)
    (target_phase : VaultPhase) : Run unit :=
  query_id ← on_chain_query (xcm_withdraw crowdloan (para_account_id T) (notify_placeholder T));
  _ ← insert_request query_id (Withdraw crowdloan vault_id amount target_phase);
  deposit_event (VaultDoWithdrawing crowdloan vault_id amount target_phase).

Definition has_childstorage (v : Vault) (s : St) : bool :=
  existsb (fun kind => negb (Nat.eqb (length (contribution_iterator (trie_index v) kind s)) 0))
    [KContributed; KFlying; KPending].

(** [cb] changes the vault and may act on the chain *)
Definition try_mutate_vault (crowdloan : ParaId) (ph : VaultPhase) (cb : Vault -> Run Vault) : Run unit :=
  s ← get;
  vault ← lift (ok_or (current_vault crowdloan s) (Crowdloans VaultDoesNotExist));
  _ ← lift (ensure (bool_decide (phase vault = ph)) (Crowdloans IncorrectVaultPhase));
  vault ← cb vault;
  insert_vault (crowdloan, (lease_start vault, lease_end vault)) vault.

Definition do_notification_received (query_id : QueryId) (request : XcmRequest)
    (res : option (Z * Z)) : Run unit :=
  let executed := bool_decide (res = None) in
  _ ← (match request with
       | Contribute crowdloan vault_id who amount referral_code =>
           vault ← reads (vaults (crowdloan, vault_id));
           if executed then
             _ ← on_chain (burn_from (RelayCurrency T) (account_id T) amount);
             vault ← do_migrate_contribution who vault amount KFlying KContributed;
             _ ← insert_vault (crowdloan, vault_id) vault;
             deposit_event (VaultContributed crowdloan vault_id who amount referral_code)
           else
             _ ← on_chain (transfer (RelayCurrency T) (account_id T) who amount false);
             '(_, vault) ← do_update_contribution who vault amount None Subtraction KFlying;
             insert_vault (crowdloan, vault_id) vault
       | Withdraw crowdloan vault_id _ target_phase =>
           if executed then
             vault ← reads (vaults (crowdloan, vault_id));
             let pre_phase := phase vault in
             _ ← insert_vault (crowdloan, vault_id) (set_phase target_phase vault);
             deposit_event (VaultPhaseUpdated crowdloan vault_id pre_phase target_phase)
           else mret tt
       end);
  if executed then modify (fun s => set_XcmRequests (delete query_id (XcmRequests s)) s) else mret tt.

(** [amount.saturating_mul(b)] *)
Definition balance_saturating_mul (a b : Balance) : Balance := Z.min u128_max (a * b).

Definition normalized_amount (amount : Balance) : option Balance :=
  relay_decimal ← get_decimal T (RelayCurrency T);
  native_decimal ← get_decimal T (GetNativeCurrencyId T);
  if relay_decimal <? native_decimal then
    p ← checked_pow10 (native_decimal - relay_decimal); checked_mul amount p
  else if relay_decimal =? native_decimal then Some amount
  else p ← checked_pow10 (relay_decimal - native_decimal); checked_div amount p.

Definition do_claim_for (who : AccountId) (crowdloan : ParaId) (vault_id : VaultId) (force : bool)
    : Run unit :=
  s ← get;
  ctoken ← lift (ok_or (CTokensRegistry s !! vault_id) (Crowdloans CTokenDoesNotExist));
  vault ← reads (vaults (crowdloan, vault_id));
  _ ← (if negb force
       then lift (ensure (bool_decide (phase vault = Succeeded)) (Crowdloans IncorrectVaultPhase))
       else mret tt);
  let '(amount, _) := contribution_get (trie_index vault) who KContributed s in
  _ ← lift (ensure (negb (amount =? 0)) (Crowdloans NoContributions));
  _ ← on_chain (mint_into ctoken who amount);
  _ ← contribution_kill (trie_index vault) who KContributed;
  let bonus_config := default BonusConfig_default (LeasesBonus s !! vault_id) in
  let bonus_amount := balance_saturating_mul amount (bonus_per_token bonus_config) in
  let normalized := default 0 (normalized_amount bonus_amount) in
  _ ← (if negb (normalized =? 0)
       then on_chain (streaming_create (account_id T) who normalized (GetNativeCurrencyId T)
                        (start_time bonus_config) (end_time bonus_config) false)
       else mret tt);
  deposit_event (VaultClaimed crowdloan vault_id ctoken who amount Succeeded).

Definition do_withdraw_for (who : AccountId) (crowdloan : ParaId) (vault_id : VaultId) : Run unit :=
  vault ← reads (vaults (crowdloan, vault_id));
  _ ← lift (ensure (bool_decide (phase vault = Failed)) (Crowdloans IncorrectVaultPhase));
  s ← get;
  let '(amount, _) := contribution_get (trie_index vault) who KContributed s in
  _ ← lift (ensure (negb (amount =? 0)) (Crowdloans NoContributions));
  _ ← contribution_kill (trie_index vault) who KContributed;
  rest ← lift (ok_or (checked_sub (contributed vault) amount) (Arithmetic Underflow));
  let vault := set_contributed rest vault in
  _ ← on_chain (mint_into (RelayCurrency T) who amount);
  _ ← insert_vault (crowdloan, vault_id) vault;
  deposit_event (VaultWithdrew crowdloan vault_id who amount Failed).

Definition do_refund_for (who : AccountId) (vault : Vault) (kind : ChildStorageKind) (amount : Balance)
    : Run Vault :=
  _ ← (if bool_decide (kind = KContributed)
       then on_chain (mint_into (RelayCurrency T) who amount)
       else on_chain (transfer (RelayCurrency T) (account_id T) who amount false));
  '(_, vault) ← do_update_contribution who vault amount None Subtraction kind;
  mret vault.

Definition do_redeem (who : AccountId) (crowdloan : ParaId) (vault_id : VaultId) (amount : Balance)
    : Run unit :=
  s ← get;
  ctoken ← lift (ok_or (CTokensRegistry s !! vault_id) (Crowdloans CTokenDoesNotExist));
  vault ← reads (vaults (crowdloan, vault_id));
  _ ← lift (ensure (bool_decide (phase vault = Expired)) (Crowdloans IncorrectVaultPhase));
  let ctoken_balance := reducible_balance (chain s) ctoken who false in
  _ ← lift (ensure (ctoken_balance >=? amount) (Crowdloans InsufficientBalance));
  rest ← lift (ok_or (checked_sub (contributed vault) amount) (Arithmetic Underflow));
  let vault := set_contributed rest vault in
  _ ← on_chain (burn_from ctoken who amount);
  _ ← on_chain (mint_into (RelayCurrency T) who amount);
  _ ← insert_vault (crowdloan, vault_id) vault;
  deposit_event (VaultRedeemed crowdloan vault_id ctoken who amount Expired).

(** ** Exchange rates of ctokens *)

Definition find_vault_by_asset_id (s : St) (asset_id : CurrencyId) : option VaultId :=
  fst <$> List.find (fun p => p.2 =? asset_id) (storage_pair_iter (CTokensRegistry s)).

Definition get_vault_term_rate (s : St) (vault : VaultId) : Res (option (Rate * Rate)) :=
  let '(start_lease, end_lease) := vault in
  let current_block := relay_block s in
  if current_block =? 0 then Ok None else
  let lease_period := LeasePeriodLength T in
  let start_block := block_add (block_mul lease_period start_lease) (LeaseOffset T) in
  next_lease ← or_panic (checked_add_to u32_max end_lease 1);
  let end_block := block_add (block_mul lease_period next_lease) (LeaseOffset T) in
  leases ← or_panic (checked_sub end_lease start_lease);
  leases ← or_panic (checked_add_to u32_max leases 1);
  let lease_length := block_mul lease_period leases in
  let blocks_per_year := block_mul (LeasePerYear T) lease_period in
  total_term_by_year ← or_panic (fixed_saturating_from_rational lease_length blocks_per_year);
  term_rate ← (if current_block <? start_block then Ok 0
               else if (current_block >=? start_block) && (current_block <? end_block) then
                 or_panic (fixed_saturating_from_rational (saturating_sub current_block start_block)
                             lease_length)
               else Ok FIXED_DIV);
  Ok (Some (term_rate, total_term_by_year)).

(** [VaultTokenExchangeRateProvider] *)
Definition get_exchange_rate (s : St) (asset_id : CurrencyId) (start_exchange_rate : Rate)
    : Res (option Rate) :=
  match find_vault_by_asset_id s asset_id with
  | None => Ok None
  | Some vault =>
      r ← get_vault_term_rate s vault;
      match r with
      | None => Ok None
      | Some (term_rate, total_term_by_year) =>
          let remaining_year := f64_mul (fixed_u128_to_float total_term_by_year)
                                  (f64_sub (f64_of_int 1) (fixed_u128_to_float term_rate)) in
          match power_float (f64_add (f64_of_int 1) (fixed_u128_to_float start_exchange_rate))
                  remaining_year with
          | Ok current_rate => Ok (fixed_reciprocal (fixed_u128_from_float current_rate))
          | Err _ => Ok None
          | Panic => Panic
          end
      end
  end.

(** [VaultTokenCurrenciesFilter] *)
Definition contains (s : St) (asset_id : CurrencyId) : bool :=
  bool_decide (is_Some (find_vault_by_asset_id s asset_id)).

(** ** Extrinsics *)

Definition create_vault (origin : RuntimeOrigin) (crowdloan : ParaId) (ctoken : CurrencyId)
    (lease_start lease_end : LeasePeriod) (strategy : ContributionStrategy) (cap : Balance)
    (end_block : BlockNumber) : Run unit :=
  let id : VaultId := (lease_start, lease_end) in
  _ ← reads (ensure_origin_or_member (CreateOrigin T) origin);
  _ ← lift (ensure (negb (cap =? 0)) (Crowdloans InvalidCap));
  _ ← lift (ensure (lease_start <=? lease_end) (Crowdloans LastPeriodBeforeFirstPeriod));
  s ← get;
  _ ← (match CTokensRegistry s !! id with
       | Some c => lift (ensure (c =? ctoken) (Crowdloans InvalidCToken))
       | None => mret tt
       end);
  _ ← lift (ensure (bool_decide (Vaults s !! (crowdloan, id) = None)) (Crowdloans VaultAlreadyExists));
  _ ← (match current_vault crowdloan s with
       | Some vault => lift (ensure (bool_decide (phase vault = Failed) || bool_decide (phase vault = Expired))
                               (Crowdloans VaultNotEnded))
       | None => mret tt
       end);
  _ ← lift (ensure (relay_block s <=? end_block) (Crowdloans EndBlockExceeded));
  let trie_index := NextTrieIndex s in
  next_trie_index ← lift (ok_or (checked_add_to u32_max trie_index 1) (Arithmetic Overflow));
  let new_vault := Vault_new lease_start lease_end ctoken strategy cap end_block trie_index in
  _ ← modify (set_NextTrieIndex next_trie_index);
  _ ← insert_vault (crowdloan, id) new_vault;
  _ ← modify (fun s => set_CTokens (<[id := ctoken]> (CTokensRegistry s)) s);
  _ ← modify (fun s => set_Leases (<[crowdloan := id]> (LeasesRegistry s)) s);
  deposit_event (VaultCreated crowdloan id ctoken Pending strategy cap end_block trie_index).

Definition update_vault (origin : RuntimeOrigin) (crowdloan : ParaId) (cap' : option Balance)
    (end_block' : option BlockNumber) (strategy' : option ContributionStrategy) : Run unit :=
  _ ← reads (ensure_origin_or_member (UpdateOrigin T) origin);
  s ← get;
  vault ← lift (ok_or (current_vault crowdloan s) (Crowdloans VaultDoesNotExist));
  vault ← (match cap' with
           | Some c => _ ← lift (ensure (negb (c =? 0)) (Crowdloans InvalidCap)); mret (set_cap c vault)
           | None => mret vault
           end);
  vault ← (match end_block' with
           | Some b => _ ← lift (ensure (relay_block s <=? b) (Crowdloans EndBlockExceeded));
                       mret (set_end_block b vault)
           | None => mret vault
           end);
  let vault := match strategy' with Some st => set_strategy st vault | None => vault end in
  let id : VaultId := (lease_start vault, lease_end vault) in
  _ ← insert_vault (crowdloan, id) vault;
  deposit_event (VaultUpdated crowdloan id (contribution_strategy vault) (cap vault) (end_block vault)).

(** The body of [open], [close], [reopen] and [auction_succeeded] *)
Definition switch_phase (crowdloan : ParaId) (from to : VaultPhase) : Run unit :=
  try_mutate_vault crowdloan from (fun vault =>
    _ ← deposit_event (VaultPhaseUpdated crowdloan (lease_start vault, lease_end vault) from to);
    mret (set_phase to vault)).

Definition open (origin : RuntimeOrigin) (crowdloan : ParaId) : Run unit :=
  _ ← reads (ensure_origin_or_member (OpenCloseOrigin T) origin);
  switch_phase crowdloan Pending Contributing.

Definition contribute (origin : RuntimeOrigin) (crowdloan : ParaId) (amount : Balance)
    (referral_code : Bytes) : Run unit :=
  who ← lift (ensure_signed origin);
  s ← get;
  vault ← lift (ok_or (current_vault crowdloan s) (Crowdloans VaultDoesNotExist));
  _ ← lift (ensure (negb (amount =? 0)) (Crowdloans InvalidParams));
  _ ← lift (ensure (relay_block s <=? end_block vault) (Crowdloans EndBlockExceeded));
  _ ← lift (ensure (bool_decide (phase vault = Contributing) || bool_decide (phase vault = Pending))
              (Crowdloans IncorrectVaultPhase));
  _ ← lift (ensure (amount >=? MinContribution T) (Crowdloans InsufficientContribution));
  _ ← lift (ensure (negb (IsVrf s)) (Crowdloans VrfDelayInProgress));
  total ← lift (total_contribution vault);
  total ← lift (ok_or (checked_add total amount) (Arithmetic Overflow));
  _ ← lift (ensure (total <=? cap vault) (Crowdloans CapExceeded));
  _ ← on_chain (transfer (RelayCurrency T) who (account_id T) amount false);
  vault ← (if bool_decide (phase vault = Contributing) then
             '(_, vault) ← do_update_contribution who vault amount (Some referral_code) Addition KFlying;
             _ ← do_contribute who crowdloan (lease_start vault, lease_end vault)
                   (contribution_strategy vault) amount referral_code;
             mret vault
           else
             '(_, vault) ← do_update_contribution who vault amount (Some referral_code) Addition KPending;
             mret vault);
  insert_vault (crowdloan, (lease_start vault, lease_end vault)) vault.

Definition set_vrf (origin : RuntimeOrigin) (flag : bool) : Run unit :=
  _ ← reads (ensure_origin_or_member (VrfOrigin T) origin);
  _ ← modify (set_IsVrf flag);
  deposit_event (VrfUpdated flag).

Definition close (origin : RuntimeOrigin) (crowdloan : ParaId) : Run unit :=
  _ ← reads (ensure_origin_or_member (OpenCloseOrigin T) origin);
  switch_phase crowdloan Contributing Closed.

Definition reopen (origin : RuntimeOrigin) (crowdloan : ParaId) : Run unit :=
  _ ← reads (ensure_origin_or_member (OpenCloseOrigin T) origin);
  switch_phase crowdloan Closed Contributing.

Definition auction_succeeded (origin : RuntimeOrigin) (crowdloan : ParaId) : Run unit :=
  _ ← reads (ensure_origin_or_member (AuctionSucceededFailedOrigin T) origin);
  switch_phase crowdloan Closed Succeeded.

Definition auction_failed (origin : RuntimeOrigin) (crowdloan : ParaId) : Run unit :=
  _ ← reads (ensure_origin_or_member (AuctionSucceededFailedOrigin T) origin);
  try_mutate_vault crowdloan Closed (fun vault =>
    _ ← do_withdraw crowdloan (lease_start vault, lease_end vault) (contributed vault) Failed;
    mret vault).

Definition claim (origin : RuntimeOrigin) (crowdloan : ParaId) (id : VaultId) : Run unit :=
  who ← lift (ensure_signed origin);
  do_claim_for who crowdloan id false.

Definition claim_for (origin : RuntimeOrigin) (dest : Source) (crowdloan : ParaId) (id : VaultId) : Run unit :=
  _ ← lift (ensure_signed origin);
  who ← lift (lookup T dest);
  do_claim_for who crowdloan id false.

Definition withdraw (origin : RuntimeOrigin) (crowdloan : ParaId) (id : VaultId) : Run unit :=
  who ← lift (ensure_signed origin);
  do_withdraw_for who crowdloan id.

Definition withdraw_for (origin : RuntimeOrigin) (dest : Source) (crowdloan : ParaId) (id : VaultId)
    : Run unit :=
  _ ← lift (ensure_signed origin);
  who ← lift (lookup T dest);
  do_withdraw_for who crowdloan id.

Definition redeem (origin : RuntimeOrigin) (crowdloan : ParaId) (id : VaultId) (amount : Balance)
    : Run unit :=
  who ← lift (ensure_signed origin);
  do_redeem who crowdloan id amount.

Definition slot_expired (origin : RuntimeOrigin) (crowdloan : ParaId) : Run unit :=
  _ ← reads (ensure_origin_or_member (SlotExpiredOrigin T) origin);
  try_mutate_vault crowdloan Succeeded (fun vault =>
    _ ← do_withdraw crowdloan (lease_start vault, lease_end vault) (contributed vault) Expired;
    mret vault).

(** The loop of [migrate_pending]: whether all have been migrated *)
Fixpoint migrate_loop (crowdloan : ParaId) (contributions : list (AccountId * (Balance * Bytes)))
    (migrated_count : Z) (vault : Vault) : Run (bool * Vault) :=
  match contributions with
  | [] => mret (true, vault)
  | (who, (amount, referral_code)) :: rest =>
      if migrated_count >=? MigrateKeysLimit T then mret (false, vault)
      else
        vault ← do_migrate_contribution who vault amount KPending KFlying;
        _ ← do_contribute who crowdloan (lease_start vault, lease_end vault)
              (contribution_strategy vault) amount referral_code;
        migrate_loop crowdloan rest (migrated_count + 1) vault
  end.

Definition migrate_pending (origin : RuntimeOrigin) (crowdloan : ParaId) : Run unit :=
  _ ← reads (ensure_origin_or_member (MigrateOrigin T) origin);
  s ← get;
  vault ← lift (ok_or (current_vault crowdloan s) (Crowdloans VaultDoesNotExist));
  _ ← lift (ensure (bool_decide (phase vault = Pending) || bool_decide (phase vault = Contributing))
              (Crowdloans IncorrectVaultPhase));
  _ ← lift (ensure (negb (IsVrf s)) (Crowdloans VrfDelayInProgress));
  '(all_migrated, vault) ← migrate_loop crowdloan
                             (contribution_iterator (trie_index vault) KPending s) 0 vault;
  let id : VaultId := (lease_start vault, lease_end vault) in
  _ ← insert_vault (crowdloan, id) vault;
  deposit_event (if all_migrated : bool then AllMigrated crowdloan id else PartiallyMigrated crowdloan id).

Definition notification_received (origin : XcmOrigin) (query_id : QueryId) (response : Response) : Run unit :=
  responder ← lift (ensure_response_or (UpdateOrigin T) origin);
  match response with
  | ExecutionResult res =>
      s ← get;
      _ ← (match XcmRequests s !! query_id with
           | Some request => do_notification_received query_id request res
           | None => mret tt
           end);
      deposit_event (NotificationReceived responder query_id res)
  | OtherResponse => mret tt
  end.

(** The loops of [refund]: whether all have been refunded *)
Fixpoint refund_entries (kind : ChildStorageKind) (entries : list (AccountId * (Balance * Bytes)))
    (refund_count : Z) (vault : Vault) : Run (bool * Z * Vault) :=
  match entries with
  | [] => mret (true, refund_count, vault)
  | (who, (amount, _)) :: rest =>
      if refund_count >=? RemoveKeysLimit T then mret (false, refund_count, vault)
      else
        vault ← do_refund_for who vault kind amount;
        refund_entries kind rest (refund_count + 1) vault
  end.
Fixpoint refund_kinds (kinds : list ChildStorageKind) (refund_count : Z) (vault : Vault)
    : Run (bool * Vault) :=
  match kinds with
  | [] => mret (true, vault)
  | kind :: rest =>
      s ← get;
      '(all, refund_count, vault) ← refund_entries kind
                                      (contribution_iterator (trie_index vault) kind s) refund_count vault;
      if all : bool then refund_kinds rest refund_count vault else mret (false, vault)
  end.

Definition refund (origin : RuntimeOrigin) (crowdloan : ParaId) (id : VaultId) : Run unit :=
  _ ← reads (ensure_origin_or_member (RefundOrigin T) origin);
  vault ← reads (vaults (crowdloan, id));
  _ ← lift (ensure (bool_decide (phase vault = Closed) || bool_decide (phase vault = Failed))
              (Crowdloans IncorrectVaultPhase));
  '(all_refunded, vault) ← refund_kinds [KContributed; KFlying; KPending] 0 vault;
  _ ← insert_vault (crowdloan, id) vault;
  deposit_event (if all_refunded : bool then AllRefunded crowdloan id else PartiallyRefunded crowdloan id).

Definition dissolve_vault (origin : RuntimeOrigin) (crowdloan : ParaId) (id : VaultId) : Run unit :=
  _ ← reads (ensure_origin_or_member (DissolveOrigin T) origin);
  vault ← reads (vaults (crowdloan, id));
  _ ← lift (ensure (bool_decide (phase vault = Closed) || bool_decide (phase vault = Failed)
                    || bool_decide (phase vault = Expired)) (Crowdloans IncorrectVaultPhase));
  s ← get;
  _ ← lift (ensure (negb (has_childstorage vault s)) (Crowdloans NotReadyToDissolve));
  total ← lift (total_contribution vault);
  _ ← lift (ensure (total =? 0) (Crowdloans NotReadyToDissolve));
  _ ← modify (fun s => set_Vaults (delete (crowdloan, id) (Vaults s)) s);
  _ ← (if bool_decide (LeasesRegistry s !! crowdloan = Some id)
       then modify (fun s => set_Leases (delete crowdloan (LeasesRegistry s)) s) else mret tt);
  deposit_event (VaultDissolved crowdloan id).

Definition refund_for (origin : RuntimeOrigin) (dest : Source) (crowdloan : ParaId)
    (kind : ChildStorageKind) (amount : Balance) (id : VaultId) : Run unit :=
  _ ← reads (ensure_origin_or_member (RefundOrigin T) origin);
  who ← lift (lookup T dest);
  vault ← reads (vaults (crowdloan, id));
  _ ← lift (ensure (bool_decide (phase vault = Closed)) (Crowdloans IncorrectVaultPhase));
  s ← get;
  let '(contribution, _) := contribution_get (trie_index vault) who kind s in
  _ ← lift (ensure (contribution >=? amount) (Crowdloans InsufficientContribution));
  vault ← do_refund_for who vault kind amount;
  _ ← insert_vault (crowdloan, id) vault;
  deposit_event (UserRefunded crowdloan id who kind amount).

Definition update_proxy (origin : RuntimeOrigin) (proxy_address : AccountId) : Run unit :=
  _ ← lift (ensure_origin (ProxyOrigin T) origin);
  _ ← modify (set_ProxyAddress (Some proxy_address));
  deposit_event (ProxyUpdated proxy_address).

Definition update_leases_bonus (origin : RuntimeOrigin) (lease_start lease_end : LeasePeriod)
    (bonus_config : BonusConfig) : Run unit :=
  _ ← reads (ensure_origin_or_member (UpdateOrigin T) origin);
  _ ← lift (ensure (lease_start <=? lease_end) (Crowdloans LastPeriodBeforeFirstPeriod));
  _ ← lift (ensure (check bonus_config) (Crowdloans WrongBonusConfig));
  _ ← modify (fun s => set_LeasesBonus (<[(lease_start, lease_end) := bonus_config]> (LeasesBonus s)) s);
  deposit_event (LeasesBonusUpdated (lease_start, lease_end) bonus_config).

Definition force_claim_for (origin : RuntimeOrigin) (dest : Source) (crowdloan : ParaId) (id : VaultId)
    : Run unit :=
  _ ← reads (ensure_origin_or_member (SlotExpiredOrigin T) origin);
  who ← lift (lookup T dest);
  do_claim_for who crowdloan id true.

Definition redeem_and_lend_for (origin : RuntimeOrigin) (dest : Source) (crowdloan : ParaId)
    (id : VaultId) (amount : Balance) : Run unit :=
  _ ← reads (ensure_origin_or_member (SlotExpiredOrigin T) origin);
  who ← lift (lookup T dest);
  s ← get;
  _ ← lift (ensure (account_nonce s who >? 0) (Crowdloans InvalidParams));
  _ ← do_redeem who crowdloan id amount;
  on_chain (loans_do_mint who (RelayCurrency T) amount).

Inductive Call :=
| CallCreateVault (crowdloan : ParaId) (ctoken : CurrencyId) (lease_start lease_end : LeasePeriod)
    (strategy : ContributionStrategy) (cap : Balance) (end_block : BlockNumber)
| CallUpdateVault (crowdloan : ParaId) (cap : option Balance) (end_block : option BlockNumber)
    (strategy : option ContributionStrategy)
| CallOpen (crowdloan : ParaId)
| CallContribute (crowdloan : ParaId) (amount : Balance) (referral_code : Bytes)
| CallSetVrf (flag : bool)
| CallClose (crowdloan : ParaId)
| CallReopen (crowdloan : ParaId)
| CallAuctionSucceeded (crowdloan : ParaId)
| CallAuctionFailed (crowdloan : ParaId)
| CallClaim (crowdloan : ParaId) (id : VaultId)
| CallClaimFor (dest : Source) (crowdloan : ParaId) (id : VaultId)
| CallWithdraw (crowdloan : ParaId) (id : VaultId)
| CallWithdrawFor (dest : Source) (crowdloan : ParaId) (id : VaultId)
| CallRedeem (crowdloan : ParaId) (id : VaultId) (amount : Balance)
| CallSlotExpired (crowdloan : ParaId)
| CallMigratePending (crowdloan : ParaId)
| CallRefund (crowdloan : ParaId) (id : VaultId)
| CallDissolveVault (crowdloan : ParaId) (id : VaultId)
| CallRefundFor (dest : Source) (crowdloan : ParaId) (kind : ChildStorageKind) (amount : Balance)
    (id : VaultId)
| CallUpdateProxy (proxy_address : AccountId)
| CallUpdateLeasesBonus (lease_start lease_end : LeasePeriod) (bonus_config : BonusConfig)
| CallForceClaimFor (dest : Source) (crowdloan : ParaId) (id : VaultId)
| CallRedeemAndLendFor (dest : Source) (crowdloan : ParaId) (id : VaultId) (amount : Balance).

Definition dispatch (o : RuntimeOrigin) (c : Call) : Run unit :=
  match c with
  | CallCreateVault p c ls le st cap b => create_vault o p c ls le st cap b
  | CallUpdateVault p cap b st => update_vault o p cap b st
  | CallOpen p => open o p
  | CallContribute p amount code => contribute o p amount code
  | CallSetVrf flag => set_vrf o flag
  | CallClose p => close o p
  | CallReopen p => reopen o p
  | CallAuctionSucceeded p => auction_succeeded o p
  | CallAuctionFailed p => auction_failed o p
  | CallClaim p id => claim o p id
  | CallClaimFor dest p id => claim_for o dest p id
  | CallWithdraw p id => withdraw o p id
  | CallWithdrawFor dest p id => withdraw_for o dest p id
  | CallRedeem p id amount => redeem o p id amount
  | CallSlotExpired p => slot_expired o p
  | CallMigratePending p => migrate_pending o p
  | CallRefund p id => refund o p id
  | CallDissolveVault p id => dissolve_vault o p id
  | CallRefundFor dest p kind amount id => refund_for o dest p kind amount id
  | CallUpdateProxy a => update_proxy o a
  | CallUpdateLeasesBonus ls le b => update_leases_bonus o ls le b
  | CallForceClaimFor dest p id => force_claim_for o dest p id
  | CallRedeemAndLendFor dest p id amount => redeem_and_lend_for o dest p id amount
  end.
End pallet.
End Crowdloans.
