(* ===== verification/CrowdloansProps.v ===== *)
(** * Crowdloans: what vaults hold is covered, and every ctoken is backed

    [crowd_inv] ties the sums of every vault to the child tries of its contributions, the pending
    and flying sums to the pallet's account, and the supply of every ctoken to what has been
    contributed for it; every step of the chain preserves it.  An operation works on a vault in
    memory before it stores it: [work] relates the states in between to the state before. *)

From stdpp Require Import strings.
From S2P Require Import Prelude Arith Frame XcmHelper Loans Traits MathHelper Crowdloans.
From stdpp Require Import list.
Import CrowdloansErrors Crowdloans.
#[local] Open Scope Z_scope.

(** ** Names of child tries *)

Lemma u32_encode_inj i j : is_u32 i -> is_u32 j -> u32_encode i = u32_encode j -> i = j.
Proof.
  unfold is_u32, u32_max, u32_encode. intros Hi Hj H. injection H as H0 H1 H2 H3.
  assert (D : forall n, 0 <= n <= 2 ^ 32 - 1 ->
    n = n mod 256 + 256 * (n / 256 mod 256) + 65536 * (n / 65536 mod 256) + 16777216 * (n / 16777216 mod 256)).
  { intros n Hn.
    pose proof (Z.div_mod n 256 ltac:(lia)). pose proof (Z.div_mod (n / 256) 256 ltac:(lia)).
    pose proof (Z.div_mod (n / 65536) 256 ltac:(lia)).
    replace (n / 65536) with (n / 256 / 256) in * by (rewrite Z.div_div by lia; done).
    replace (n / 16777216) with (n / 256 / 256 / 256) in * by (rewrite !Z.div_div by lia; done).
    rewrite (Z.mod_small (n / 256 / 256 / 256)); [lia |].
    rewrite !Z.div_div by lia. split; [apply Z.div_pos; lia | apply Z.div_lt_upper_bound; lia]. }
  rewrite (D i Hi), (D j Hj). lia.
Qed.

Lemma trie_name_inj i j k k' :
  is_u32 i -> is_u32 j -> kind_prefix k ++ u32_encode i = kind_prefix k' ++ u32_encode j -> i = j /\ k = k'.
Proof.
  intros Hi Hj H.
  assert (k = k') as <-.
  { apply (f_equal length) in H. rewrite !length_app in H. by destruct k, k'. }
  apply app_inv_head in H. split; [by apply u32_encode_inj | done].
Qed.

(** The hash has no collision among the names of child tries. *)
Definition collision_free (T : Config) : Prop := forall i j k k', is_u32 i -> is_u32 j ->
  hash T (kind_prefix k ++ u32_encode i) = hash T (kind_prefix k' ++ u32_encode j) ->
  kind_prefix k ++ u32_encode i = kind_prefix k' ++ u32_encode j.

Section tries.
Context {X : Type} (T : Config) (Hhash : collision_free T).
Implicit Types s : State X.

Lemma trie_set i k m s j k' :
  is_u32 i -> is_u32 j ->
  trie T j k' (set_child (<[id_from_index T i k := m]> (child s)) s) =
    if decide (j = i /\ k' = k) then m else trie T j k' s.
Proof.
  intros Hi Hj. unfold trie. cbn. case_decide as Hd.
  - destruct Hd as [-> ->]. by rewrite lookup_insert_eq.
  - rewrite lookup_insert_ne; [done |]. intros He. apply Hd. unfold id_from_index in He.
    apply Hhash in He; [| done | done]. apply trie_name_inj in He as [-> ->]; auto.
Qed.

(** What a trie holds *)
Definition tsum s (i : TrieIndex) (kind : ChildStorageKind) : Z := map_sum (fun _ p => p.1) (trie T i kind s).
Definition amount_of s (i : TrieIndex) (who : AccountId) (kind : ChildStorageKind) : Z :=
  (contribution_get T i who kind s).1.

Lemma tsum_insert (m : gmap AccountId (Balance * Bytes)) who n code :
  map_sum (fun _ p => p.1) (<[who := (n, code)]> m) =
    map_sum (fun _ p => p.1) m + n - (default (0, []) (m !! who)).1.
Proof. by rewrite (map_sum_put _ m who (n, code) (0, [])). Qed.

Lemma tsum_delete (m : gmap AccountId (Balance * Bytes)) who :
  map_sum (fun _ p => p.1) (delete who m) = map_sum (fun _ p => p.1) m - (default (0, []) (m !! who)).1.
Proof.
  destruct (m !! who) as [p|] eqn:Hp; cbn.
  - rewrite (map_sum_delete _ m who p Hp). lia.
  - rewrite delete_id by done. lia.
Qed.

(** [do_update_contribution] changes one entry of one trie and the vault's sum by the same amount. *)
Definition signed (a : ArithmeticKind) (amount : Balance) : Z :=
  match a with Addition => amount | Subtraction => - amount end.

(** What that is to the pallet's account *)
Definition held_delta (kind : ChildStorageKind) (a : ArithmeticKind) (amount : Balance) : Z :=
  match kind with KContributed => 0 | _ => signed a amount end.

Lemma apply_arithmetic_Ok a x amount y :
  apply_arithmetic a x amount = Ok y -> y = x + signed a amount /\ (a = Subtraction -> amount <= x).
Proof. destruct a; cbn; intros H; minv; split; try lia; done. Qed.

Lemma update_contribution_Ok who v amount code a kind s code' v' s' :
  do_update_contribution T who v amount code a kind s = Ok ((code', v'), s') ->
  is_u32 (trie_index v) ->
  let n := amount_of s (trie_index v) who kind + signed a amount in
  v' = set_kind_sum kind (kind_sum kind v + signed a amount) v /\
  (a = Subtraction -> amount <= amount_of s (trie_index v) who kind) /\
  (exists m, s' = set_child m s) /\
  (forall j k, is_u32 j -> trie T j k s' =
     if decide (j = trie_index v /\ k = kind)
     then (if n =? 0 then delete who (trie T j k s) else <[who := (n, code')]> (trie T j k s))
     else trie T j k s).
Proof.
  intros H Hi. unfold do_update_contribution in H. minv.
  unfold amount_of. destruct (contribution_get T (trie_index v) who kind s) as [n old] eqn:Hg. cbn in *. minv.
  match goal with H : apply_arithmetic _ (kind_sum _ _) _ = _ |- _ => apply apply_arithmetic_Ok in H as [-> _] end.
  match goal with H : apply_arithmetic _ n _ = _ |- _ => apply apply_arithmetic_Ok in H as [-> Hle] end.
  assert (Hidx : forall x, trie_index (set_kind_sum kind x v) = trie_index v) by (by destruct kind).
  split; [done |]. split; [done |].
  destruct (Z.eqb_spec (n + signed a amount) 0) as [Hz|Hz];
    unfold contribution_kill, contribution_put in *; minv; rewrite !Hidx.
  - split; [by eexists |]. intros j k Hj. rewrite trie_set by done. case_decide as Hd; [| done].
    by destruct Hd as [-> ->].
  - split; [by eexists |]. intros j k Hj. rewrite trie_set by done. case_decide as Hd; [| done].
    by destruct Hd as [-> ->].
Qed.

Lemma update_contribution_tsum who v amount code a kind s code' v' s' :
  do_update_contribution T who v amount code a kind s = Ok ((code', v'), s') ->
  is_u32 (trie_index v) ->
  forall k, tsum s' (trie_index v) k = tsum s (trie_index v) k + (if decide (k = kind) then signed a amount else 0).
Proof.
  intros H Hi k. apply update_contribution_Ok in H as (_ & _ & _ & Ht); [| done].
  unfold tsum. rewrite Ht by done. unfold amount_of, contribution_get in *.
  destruct (decide (k = kind)) as [->|Hne].
  - rewrite decide_True by done. case_match eqn:Hz; zbool; rewrite ?tsum_insert, ?tsum_delete; lia.
  - rewrite decide_False by naive_solver. lia.
Qed.
End tries.

(** ** The invariant *)

Section invariant.
Context {X : Type} {FU : Fungibles X} (T : Config).
Implicit Types s : State X.
Abbreviation acc := (account_id T).

(** What is left of a vault's contributions for holders of ctokens *)
Definition claimed s (v : Vault) : Z := contributed v - tsum T s (trie_index v) KContributed.
Definition registered s (c : CurrencyId) : Prop := exists id, CTokensRegistry s !! id = Some c.
(** What backs a ctoken: the claimed contributions of every vault of its leases *)
Definition backing s (c : CurrencyId) : Z :=
  map_sum (fun k v => if decide (CTokensRegistry s !! k.2 = Some c) then claimed s v else 0) (Vaults s).
(** What the pallet holds for contributors *)
Definition held (v : Vault) : Z := pending v + flying v.
Definition total_held s : Z := map_sum (fun _ v => held v) (Vaults s).

Definition entries_ok (m : gmap AccountId (Balance * Bytes)) : Prop :=
  forall who p, m !! who = Some p -> 0 < p.1 /\ who <> acc.
(** A vault whose auction is over *)
Definition ended (ph : VaultPhase) : Prop := ph = Failed \/ ph = Expired.
Definition request_ok (r : XcmRequest) : Prop :=
  match r with
  | Contribute _ _ who amt _ => 0 <= amt /\ who <> acc
  | Withdraw _ _ _ target => ended target
  end.
Definition requests_ok s : Prop := forall q r, XcmRequests s !! q = Some r -> request_ok r.

Record crowd_inv s : Prop := {
  ci_key k v : Vaults s !! k = Some v -> k.2 = (lease_start v, lease_end v);
  ci_next : is_u32 (NextTrieIndex s);
  ci_index k v : Vaults s !! k = Some v -> 0 <= trie_index v < NextTrieIndex s;
  ci_distinct k k' v v' : Vaults s !! k = Some v -> Vaults s !! k' = Some v' ->
    trie_index v = trie_index v' -> k = k';
  ci_fresh i kind : is_u32 i -> NextTrieIndex s <= i -> trie T i kind s = ∅;
  ci_entries i kind : is_u32 i -> entries_ok (trie T i kind s);
  ci_pending k v : Vaults s !! k = Some v -> pending v = tsum T s (trie_index v) KPending;
  ci_flying k v : Vaults s !! k = Some v -> flying v = tsum T s (trie_index v) KFlying;
  ci_funds : total_held s <= balance (chain s) (RelayCurrency T) acc;
  ci_registry k v : Vaults s !! k = Some v -> is_Some (CTokensRegistry s !! k.2);
  ci_ctokens c : registered s c -> c <> RelayCurrency T /\ c <> GetNativeCurrencyId T /\
    total_issuance (chain s) c <= backing s c;
  ci_requests : requests_ok s;
  ci_nonce : account_nonce s acc = 0;
}.

(** [s1] is on the way from [s], where the vault [v] is stored, with the vault [w] in memory. *)
Record work s (v w : Vault) s1 : Prop := {
  wk_ids : trie_index w = trie_index v /\ lease_start w = lease_start v /\ lease_end w = lease_end v;
  wk_frame : Vaults s1 = Vaults s /\ CTokensRegistry s1 = CTokensRegistry s /\
    NextTrieIndex s1 = NextTrieIndex s /\ account_nonce s1 = account_nonce s;
  wk_tries i kind : is_u32 i -> i <> trie_index v -> trie T i kind s1 = trie T i kind s;
  wk_entries kind : entries_ok (trie T (trie_index v) kind s1);
  wk_pending : pending w - tsum T s1 (trie_index v) KPending = pending v - tsum T s (trie_index v) KPending;
  wk_flying : flying w - tsum T s1 (trie_index v) KFlying = flying v - tsum T s (trie_index v) KFlying;
  wk_requests : requests_ok s1;
}.

Lemma index_u32 s k v : crowd_inv s -> Vaults s !! k = Some v -> is_u32 (trie_index v).
Proof. intros Hi Hk. pose proof (ci_index s Hi k v Hk). pose proof (ci_next s Hi). unfold is_u32 in *. lia. Qed.

Lemma work_refl s k v : crowd_inv s -> Vaults s !! k = Some v -> work s v v s.
Proof.
  intros Hi Hk. constructor; try done; [| apply Hi].
  intros kind. eapply Hi, index_u32; eauto.
Qed.

Lemma entries_update who n code m :
  entries_ok m -> 0 <= n -> (n <> 0 -> who <> acc) ->
  entries_ok (if n =? 0 then delete who m else <[who := (n, code)]> m).
Proof.
  intros Hm Hn Hw. destruct (Z.eqb_spec n 0).
  - intros w p [_ Hp]%lookup_delete_Some. eauto.
  - intros w p [[<- <-]|[_ Hp]]%lookup_insert_Some; [cbn; split; [lia | auto] | eauto].
Qed.

Lemma amount_nonneg s i who kind :
  entries_ok (trie T i kind s) -> 0 <= amount_of T s i who kind.
Proof.
  intros He. unfold amount_of, contribution_get. destruct (trie T i kind s !! who) as [p|] eqn:Hp; cbn; [| lia].
  apply He in Hp. lia.
Qed.

(** A contributor is not the pallet. *)
Lemma amount_who s i who kind :
  entries_ok (trie T i kind s) -> amount_of T s i who kind <> 0 -> who <> acc.
Proof.
  intros He. unfold amount_of, contribution_get. destruct (trie T i kind s !! who) as [p|] eqn:Hp; cbn; [| done].
  by apply He in Hp as [_ ?].
Qed.

Lemma work_update (Hhash : collision_free T) s v w s1 who amount code a kind code' w' s2 :
  is_u32 (trie_index v) -> work s v w s1 ->
  do_update_contribution T who w amount code a kind s1 = Ok ((code', w'), s2) ->
  0 <= amount -> who <> acc \/ a = Subtraction ->
  work s v w' s2 /\ chain s2 = chain s1 /\ phase w' = phase w /\
  held w' = held w + held_delta kind a amount /\
  contributed w' - tsum T s2 (trie_index v) KContributed = contributed w - tsum T s1 (trie_index v) KContributed.
Proof.
  intros Hu [Hids Hfr Htr Hen Hpe Hfl Hre] H Ha Hw. destruct Hids as (Hidx & Hls & Hle).
  assert (is_u32 (trie_index w)) as Hu' by by rewrite Hidx.
  pose proof (update_contribution_tsum T Hhash _ _ _ _ _ _ _ _ _ _ H Hu') as Hs.
  apply (update_contribution_Ok T Hhash) in H as (-> & Hle' & (m & ->) & Ht); [| done].
  rewrite Hidx in *. pose proof (Hs KPending) as Hs1. pose proof (Hs KFlying) as Hs2. pose proof (Hs KContributed) as Hs3.
  assert (0 <= amount_of T s1 (trie_index v) who kind) by by apply amount_nonneg.
  split; [| split; [done | split; [by destruct kind |]]].
  - constructor; try done.
    + by destruct kind.
    + intros i k Hi Hne. rewrite Ht by done. rewrite decide_False by naive_solver. by apply Htr.
    + intros k. rewrite Ht by done. destruct (decide (trie_index v = trie_index v /\ k = kind)) as [[_ ->]|Hd]; [| apply Hen].
      apply entries_update; [done | | intros Hn].
      * destruct a; cbn in *; [lia | specialize (Hle' eq_refl); lia].
      * destruct Hw as [? | ->]; [done |]. cbn in Hn. specialize (Hle' eq_refl).
        apply (amount_who s1 (trie_index v) who kind); [done | lia].
    + rewrite Hs1. destruct (decide (KPending = kind)) as [<-|]; [| destruct kind]; try done; cbn; lia.
    + rewrite Hs2. destruct (decide (KFlying = kind)) as [<-|]; [| destruct kind]; try done; cbn; lia.
  - unfold held. rewrite Hs3.
    destruct (decide (KContributed = kind)) as [<-|]; [| destruct kind]; try done; cbn; lia.
Qed.

(** Steps that do not touch vaults and tries keep [work]. *)
Lemma work_chain s v w s1 x : work s v w s1 -> work s v w (set_chain x s1).
Proof. intros []. by constructor. Qed.
Lemma work_event s v w s1 e : work s v w s1 -> work s v w (push_event e s1).
Proof. intros []. by constructor. Qed.
Lemma work_request s v w s1 q r :
  request_ok r -> work s v w s1 -> work s v w (set_XcmRequests (<[q := r]> (XcmRequests s1)) s1).
Proof.
  intros Hr [Hids Hfr Htr Hen Hpe Hfl Hre]. constructor; try done.
  intros q' r'. cbn. intros [[_ <-]|[_ Hq]]%lookup_insert_Some; [done | by eapply Hre].
Qed.

Lemma work_vault s v w s1 w' :
  trie_index w' = trie_index w -> lease_start w' = lease_start w -> lease_end w' = lease_end w ->
  pending w' = pending w -> flying w' = flying w -> work s v w s1 -> work s v w' s1.
Proof. intros E1 E2 E3 E4 E5 []. constructor; rewrite ?E1, ?E2, ?E3, ?E4, ?E5; done. Qed.

(** ** Storing the vault *)

Section commit.
Context (s s1 : State X) (k : VaultKey) (v w : Vault).
Context (Hi : crowd_inv s) (Hk : Vaults s !! k = Some v) (Hw : work s v w s1).
#[local] Abbreviation s2 := (set_Vaults (<[k := w]> (Vaults s1)) s1).

Lemma commit_lookup k' v' :
  Vaults s2 !! k' = Some v' -> (k' = k /\ v' = w) \/ (k' <> k /\ Vaults s !! k' = Some v').
Proof.
  cbn. destruct (wk_frame _ _ _ _ Hw) as (-> & _). intros [[<- <-]|[? ?]]%lookup_insert_Some; auto.
Qed.

Lemma commit_tsum k' v' kind : Vaults s !! k' = Some v' -> k' <> k ->
  trie_index v' <> trie_index v /\ tsum T s2 (trie_index v') kind = tsum T s (trie_index v') kind.
Proof.
  intros H' Hne. assert (trie_index v' <> trie_index v) as Hd.
  { intros He. apply Hne. by apply (ci_distinct s Hi k' k v' v). }
  split; [done |]. unfold tsum. change (trie T ?i ?k s2) with (trie T i k s1).
  rewrite (wk_tries _ _ _ _ Hw); [done | by eapply index_u32 | done].
Qed.

Lemma commit_backing c :
  backing s2 c = backing s c +
    if decide (CTokensRegistry s !! k.2 = Some c)
    then (contributed w - tsum T s1 (trie_index v) KContributed) - claimed s v else 0.
Proof.
  destruct (wk_frame _ _ _ _ Hw) as (Hv & Hct & _), (wk_ids _ _ _ _ Hw) as (Hidx & _).
  assert (Hcw : claimed s2 w = contributed w - tsum T s1 (trie_index v) KContributed).
  { unfold claimed. by rewrite Hidx. }
  unfold backing. cbn [Vaults CTokensRegistry set_Vaults]. rewrite map_sum_insert, Hv, Hk, Hct. cbn.
  rewrite (map_sum_delete (fun k0 v0 => if decide (CTokensRegistry s !! k0.2 = Some c) then claimed s v0 else 0) _ k v Hk).
  rewrite (map_sum_delete (fun k0 v0 => if decide (CTokensRegistry s !! k0.2 = Some c) then claimed (set_Vaults _ s1) v0 else 0) _ k v Hk).
  rewrite (map_sum_ext _ (fun k0 v0 => if decide (CTokensRegistry s !! k0.2 = Some c) then claimed s v0 else 0) (delete k (Vaults s))).
  { rewrite Hv in Hcw. destruct (decide (CTokensRegistry s !! k.2 = Some c)); [rewrite Hcw; lia | lia]. }
  intros k' v' [Hne H']%lookup_delete_Some. case_decide; [| done]. unfold claimed.
  destruct (commit_tsum k' v' KContributed H' (not_eq_sym Hne)) as [_ E]. rewrite Hv in E. by rewrite E.
Qed.

Lemma commit_index :
  (forall k' v', Vaults s2 !! k' = Some v' -> 0 <= trie_index v' < NextTrieIndex s) /\
  (forall k1 k2 v1 v2, Vaults s2 !! k1 = Some v1 -> Vaults s2 !! k2 = Some v2 ->
     trie_index v1 = trie_index v2 -> k1 = k2).
Proof.
  destruct (wk_ids _ _ _ _ Hw) as (Hidx & _). split.
  - intros k' v' [[-> ->]|[_ H']]%commit_lookup; [rewrite Hidx |]; by eapply (ci_index s Hi).
  - intros k1 k2 v1 v2 [[-> ->]|[Hn1 H1]]%commit_lookup [[-> ->]|[Hn2 H2]]%commit_lookup; try done.
    + rewrite Hidx. intros He. by destruct (commit_tsum k2 v2 KPending H2 Hn2).
    + rewrite Hidx. intros He. by destruct (commit_tsum k1 v1 KPending H1 Hn1).
    + by apply (ci_distinct s Hi).
Qed.

Lemma commit_sums k' v' :
  Vaults s2 !! k' = Some v' ->
  pending v' = tsum T s2 (trie_index v') KPending /\ flying v' = tsum T s2 (trie_index v') KFlying.
Proof.
  destruct (wk_ids _ _ _ _ Hw) as (Hidx & _).
  intros [[-> ->]|[Hne H']]%commit_lookup.
  - rewrite Hidx. pose proof (ci_pending s Hi k v Hk). pose proof (ci_flying s Hi k v Hk).
    pose proof (wk_pending _ _ _ _ Hw). pose proof (wk_flying _ _ _ _ Hw).
    change (tsum T s2) with (tsum T s1). lia.
  - destruct (commit_tsum k' v' KPending H' Hne) as [_ ->], (commit_tsum k' v' KFlying H' Hne) as [_ ->].
    split; [by eapply (ci_pending s Hi) | by eapply (ci_flying s Hi)].
Qed.

(** Storing the vault restores the invariant. *)
Lemma commit :
  balance (chain s) (RelayCurrency T) acc + held w - held v <= balance (chain s1) (RelayCurrency T) acc ->
  (forall c, registered s c -> total_issuance (chain s1) c - total_issuance (chain s) c <=
     if decide (CTokensRegistry s !! k.2 = Some c)
     then (contributed w - tsum T s1 (trie_index v) KContributed) - claimed s v else 0) ->
  crowd_inv s2.
Proof.
  intros Hf Hc. pose proof (index_u32 s k v Hi Hk) as Hu.
  destruct (wk_ids _ _ _ _ Hw) as (Hidx & Hls & Hle), (wk_frame _ _ _ _ Hw) as (Hv & Hct & Hnx & Hno).
  assert (Hreg : forall c, registered s2 c <-> registered s c) by (intros c; unfold registered; cbn; by rewrite Hct).
  constructor; cbn [NextTrieIndex CTokensRegistry account_nonce chain set_Vaults]; rewrite ?Hnx, ?Hct, ?Hno;
    try apply Hi; try apply commit_index.
  - intros k' v' [[-> ->]|[_ H']]%commit_lookup; [| by apply (ci_key s Hi)].
    rewrite Hls, Hle. by apply (ci_key s Hi).
  - intros i kind Hi' Hn. pose proof (ci_index s Hi k v Hk).
    change (trie T i kind s2) with (trie T i kind s1).
    rewrite (wk_tries _ _ _ _ Hw i kind Hi') by lia. by apply (ci_fresh s Hi).
  - intros i kind Hi'. change (trie T i kind s2) with (trie T i kind s1).
    destruct (decide (i = trie_index v)) as [->|Hne]; [apply (wk_entries _ _ _ _ Hw) |].
    rewrite (wk_tries _ _ _ _ Hw i kind Hi' Hne). by apply (ci_entries s Hi).
  - intros k' v' H'. exact (proj1 (commit_sums k' v' H')).
  - intros k' v' H'. exact (proj2 (commit_sums k' v' H')).
  - unfold total_held. cbn. rewrite map_sum_insert, Hv, Hk. cbn.
    pose proof (ci_funds s Hi). unfold total_held in *. lia.
  - intros k' v' [[-> ->]|[Hne H']]%commit_lookup; by eapply (ci_registry s Hi).
  - intros c Hr%Hreg. destruct (ci_ctokens s Hi c Hr) as (? & ? & Hb). split; [done |]. split; [done |].
    rewrite commit_backing. specialize (Hc c Hr). lia.
  - exact (wk_requests _ _ _ _ Hw).
Qed.
End commit.
End invariant.
