(* ===== verification/CrowdloansOps.v ===== *)
(** * Crowdloans: what every operation leaves behind

    Calls and answers of the relay chain keep the invariant of CrowdloansProps, and change the
    phase of a vault along the edges of its life only. *)

From stdpp Require Import strings.
From S2P Require Import Prelude Arith Frame XcmHelper Loans Traits MathHelper Crowdloans CrowdloansProps.
From stdpp Require Import list.
Import CrowdloansErrors Crowdloans.
#[local] Open Scope Z_scope.

(** ** Operations *)

Section operations.
Context {SA : SpArithmetic} {FP : FixedPow} {SI : StorageIter} {SIL : StorageIterLaws SI} {SP : StoragePairIter}.
Context {X : Type} {FU : Fungibles X} {FL : FungiblesLaws X}.
Context {XH : XcmHelperTrait X} {XL : XcmHelperLaws X}.
Context {ST : StreamingTrait X} {SL : StreamingLaws X} {LT : LoansTrait X} {LL : LoansLaws X}.

(** What the runtime sees to: the relay currency and ctokens may be held in any amount (they are
    not the native currency), and messages and lending have accounts of their own. *)
Record crowd_setup (T : Config) : Prop := {
  cs_hash : collision_free T;
  cs_min a : a <> GetNativeCurrencyId T -> minimum_balance a <= 1;
  cs_native : RelayCurrency T <> GetNativeCurrencyId T;
  cs_xcm_currency : xcm_currency = RelayCurrency T;
  cs_xcm_account : xcm_account <> account_id T;
  cs_loans_account : loans_account <> account_id T;
}.
Context (T : Config) (HT : crowd_setup T).
Implicit Types s : State X.
Abbreviation acc := (account_id T).
Abbreviation relay := (RelayCurrency T).

(** The chain pays the pallet [d] or more, and no ctoken is issued. *)
Definition chain_eff (d : Z) (x x' : X) : Prop :=
  balance x relay acc + d <= balance x' relay acc /\
  forall c, c <> relay -> c <> GetNativeCurrencyId T -> total_issuance x' c <= total_issuance x c.

Lemma eff_refl x : chain_eff 0 x x.
Proof. split; [lia | intros; lia]. Qed.
Lemma eff_trans d e x y z : chain_eff d x y -> chain_eff e y z -> chain_eff (d + e) x z.
Proof. intros [H1 H2] [H3 H4]. split; [lia |]. intros c ? ?. specialize (H2 c). specialize (H4 c). lia. Qed.

Lemma eff_in who amt k x x' : transfer relay who acc amt k x = Ok x' -> who <> acc -> chain_eff amt x x'.
Proof.
  intros H Hw. split; [by eapply transfer_dest |]. intros c Hc _. by rewrite (transfer_issuance_frame _ _ _ _ _ _ _ c H).
Qed.
Lemma eff_out who amt k x x' : transfer relay acc who amt k x = Ok x' -> 0 <= amt -> chain_eff (- amt) x x'.
Proof.
  destruct HT. intros H Ha. split.
  - destruct (decide (who = acc)) as [->|Hw]; [rewrite (transfer_self _ _ _ _ _ _ H); lia |].
    rewrite (pay_out _ _ _ _ _ _ _ H Hw) by (right; auto). rewrite decide_True by done. lia.
  - intros c Hc _. by rewrite (transfer_issuance_frame _ _ _ _ _ _ _ c H).
Qed.
Lemma eff_burn amt x x' : burn_from relay acc amt x = Ok x' -> chain_eff (- amt) x x'.
Proof.
  destruct HT. intros H. split.
  - rewrite (burn_from_balance _ _ _ _ _ H); [lia |]. apply dust_free_min_one; [auto | by eapply burn_from_enough].
  - intros c Hc _. by rewrite (burn_from_issuance_frame _ _ _ _ _ c H).
Qed.
Lemma eff_mint who amt x x' : mint_into relay who amt x = Ok x' -> 0 <= amt -> chain_eff 0 x x'.
Proof.
  destruct HT. intros H Ha. split.
  - pose proof (mint_into_grows _ _ _ _ _ H Ha relay acc). lia.
  - intros c Hc _. by rewrite (mint_into_issuance_frame _ _ _ _ _ c H).
Qed.
Lemma eff_request f x q x' : xcm_request f -> f x = Ok (q, x') -> chain_eff 0 x x'.
Proof.
  destruct HT. intros Hf H. split.
  - rewrite (request_balance f x q x' _ _ Hf H) by auto. lia.
  - intros c Hc _. rewrite (request_issuance f x q x' c Hf H) by congruence. lia.
Qed.
Lemma eff_stream who amt t0 t1 b x x' :
  streaming_create acc who amt (GetNativeCurrencyId T) t0 t1 b x = Ok x' -> chain_eff 0 x x'.
Proof.
  destruct HT. intros H. split.
  - rewrite (streaming_balance _ _ _ _ _ _ _ _ _ relay acc H) by auto. lia.
  - intros c _ Hc. by rewrite (streaming_issuance _ _ _ _ _ _ _ _ _ c H).
Qed.
Lemma eff_lend who amt x x' : loans_do_mint who relay amt x = Ok x' -> who <> acc -> chain_eff 0 x x'.
Proof.
  destruct HT. intros H Hw. split.
  - rewrite (loans_balance who relay _ x x' relay acc (op_mint who relay amt) H) by auto. lia.
  - intros c Hc _. by rewrite (loans_issuance who relay _ x x' c (op_mint who relay amt) H).
Qed.

(** [bal s v w s1 d]: on the way from [s], where [v] is stored, to storing [w], the pallet has
    received [d] more than [w] accounts for, and no ctoken has been claimed. *)
Definition bal s (v w : Vault) s1 (d : Z) : Prop :=
  work T s v w s1 /\ phase w = phase v /\
  contributed w - tsum T s1 (trie_index v) KContributed = claimed T s v /\
  chain_eff (held w - held v + d) (chain s) (chain s1).

Lemma bal_refl s k v : crowd_inv T s -> Vaults s !! k = Some v -> bal s v v s 0.
Proof.
  intros Hi Hk. split; [by eapply work_refl |]. do 2 (split; [done |]).
  replace (held v - held v + 0) with 0 by lia. apply eff_refl.
Qed.

Lemma bal_chain s v w s1 d e x : bal s v w s1 d -> chain_eff e (chain s1) x -> bal s v w (set_chain x s1) (d + e).
Proof.
  intros (Hw & Hp & Hc & He) Hx. split; [by apply work_chain |]. do 2 (split; [done |]).
  replace (held w - held v + (d + e)) with (held w - held v + d + e) by lia. by eapply eff_trans.
Qed.
Lemma bal_weaken s v w s1 d d' : bal s v w s1 d -> d' <= d -> bal s v w s1 d'.
Proof. intros (Hw & Hp & Hc & He & Hs) Hd. do 3 (split; [done |]). split; [lia | done]. Qed.
Lemma bal_event s v w s1 d e : bal s v w s1 d -> bal s v w (push_event e s1) d.
Proof. intros (Hw & Hc & He). split; [by apply work_event | done]. Qed.
Lemma bal_request s v w s1 d q r :
  request_ok T r -> bal s v w s1 d -> bal s v w (set_XcmRequests (<[q := r]> (XcmRequests s1)) s1) d.
Proof. intros Hr (Hw & Hc & He). split; [by apply work_request | done]. Qed.

Lemma bal_update s v w s1 d d' who amount code a kind code' w' s2 :
  is_u32 (trie_index v) -> bal s v w s1 d ->
  do_update_contribution T who w amount code a kind s1 = Ok ((code', w'), s2) ->
  0 <= amount -> who <> acc \/ a = Subtraction -> d' = d - held_delta kind a amount ->
  bal s v w' s2 d'.
Proof.
  intros Hu (Hw & Hp & Hc & He) H Ha Hwho ->.
  destruct (work_update T (cs_hash T HT) s v w s1 who amount code a kind code' w' s2 Hu Hw H Ha Hwho) as (Hw' & Hch & Hp' & Hh & Hc').
  split; [done |]. split; [congruence |]. split; [lia |]. rewrite Hch, Hh.
  replace (held w + _ - _ + _) with (held w - held v + d) by lia. done.
Qed.

Lemma crowd_chain_Ok f s u s' : on_chain f s = Ok (u, s') -> exists x, f (chain s) = Ok x /\ s' = set_chain x s.
Proof. unfold on_chain. destruct (f (chain s)) as [x| |]; naive_solver. Qed.
Lemma crowd_query_Ok f s q s' :
  on_chain_query f s = Ok (q, s') -> exists x, f (chain s) = Ok (q, x) /\ s' = set_chain x s.
Proof. unfold on_chain_query. destruct (f (chain s)) as [[q' x]| |]; naive_solver. Qed.

Lemma bal_query s v w s1 d f q s2 :
  xcm_request f -> bal s v w s1 d -> on_chain_query f s1 = Ok (q, s2) -> bal s v w s2 d.
Proof.
  intros Hf Hb (x & Hx & ->)%crowd_query_Ok. replace d with (d + 0) by lia.
  apply bal_chain; [done |]. by eapply eff_request.
Qed.

Lemma do_contribute_bal s v w s1 d who p id st amount code u s2 :
  bal s v w s1 d -> do_contribute T who p id st amount code s1 = Ok (u, s2) -> 0 <= amount -> who <> acc ->
  bal s v w s2 d.
Proof.
  intros Hb H Ha Hwho. unfold do_contribute, insert_request, deposit_event in H. minv.
  apply bal_event, bal_request; [done |]. destruct st; minv; (eapply bal_query; [| eassumption | eassumption]; constructor).
Qed.

(** ** What an operation leaves behind

    The invariant, and for every vault its phase before and after, unless it is new. *)

Definition vault_step (R : VaultPhase -> VaultPhase -> Prop) s s' : Prop :=
  NextTrieIndex s <= NextTrieIndex s' /\
  forall k v', Vaults s' !! k = Some v' ->
    (exists v, Vaults s !! k = Some v /\ trie_index v' = trie_index v /\ R (phase v) (phase v')) \/
    (trie_index v' = NextTrieIndex s /\ NextTrieIndex s < NextTrieIndex s' /\ phase v' = Pending).
Definition outcome (R : VaultPhase -> VaultPhase -> Prop) s s' : Prop := crowd_inv T s' /\ vault_step R s s'.

(** Nothing the invariant speaks of has changed. *)
Definition untouched s s' : Prop :=
  Vaults s' = Vaults s /\ CTokensRegistry s' = CTokensRegistry s /\ NextTrieIndex s' = NextTrieIndex s /\
  child s' = child s /\ account_nonce s' acc = account_nonce s acc /\
  (requests_ok T s -> requests_ok T s') /\
  chain_eff 0 (chain s) (chain s').

Lemma inv_untouched s s' : crowd_inv T s -> untouched s s' -> crowd_inv T s'.
Proof.
  intros Hinv (Hv & Hc & Hn & Hch & Ha & Hr & Hb & Hi). pose proof Hinv as [].
  assert (Htr : forall i kind, trie T i kind s' = trie T i kind s) by (intros; unfold trie; by rewrite Hch).
  assert (Hts : forall i kind, tsum T s' i kind = tsum T s i kind) by (intros; unfold tsum; by rewrite Htr).
  constructor; rewrite ?Hv, ?Hn, ?Ha, ?Hc; intros; rewrite ?Htr, ?Hts; eauto.
  - unfold total_held in *. rewrite Hv. lia.
  - assert (registered s c) as Hr' by (unfold registered in *; rewrite <- Hc; done).
    destruct (ci_ctokens c Hr') as (? & ? & Hle). do 2 (split; [done |]).
    enough (backing T s' c = backing T s c) as -> by (specialize (Hi c ltac:(done) ltac:(done)); lia).
    unfold backing. rewrite Hv, Hc. apply map_sum_ext. intros k v _. case_decide; [| done].
    unfold claimed. by rewrite Hts.
Qed.

Lemma outcome_then R s s1 s2 : outcome R s s1 -> untouched s1 s2 -> outcome R s s2.
Proof.
  intros [Hi [Hn Hv]] Hu. split; [by eapply inv_untouched |].
  destruct Hu as (E1 & _ & E2 & _). split; [by rewrite E2 |]. intros k v'. rewrite E1, E2. auto.
Qed.
Lemma outcome_refl (R : VaultPhase -> VaultPhase -> Prop) s :
  (forall ph, R ph ph) -> crowd_inv T s -> outcome R s s.
Proof. intros HR Hi. split; [done |]. split; [lia |]. intros k v' Hk. left. by exists v'. Qed.

Lemma untouched_event s e : untouched s (push_event e s).
Proof. unfold untouched. split_and!; try done; apply eff_refl. Qed.
Lemma untouched_chain s x : chain_eff 0 (chain s) x -> untouched s (set_chain x s).
Proof. intros He. unfold untouched. by split_and!. Qed.

Lemma outcome_commit (R : VaultPhase -> VaultPhase -> Prop) s k v w s1 :
  crowd_inv T s -> Vaults s !! k = Some v -> work T s v w s1 -> R (phase v) (phase w) -> (forall ph, R ph ph) ->
  crowd_inv T (set_Vaults (<[k := w]> (Vaults s1)) s1) ->
  outcome R s (set_Vaults (<[k := w]> (Vaults s1)) s1).
Proof.
  intros Hi Hk Hw HR Hrefl Hi'. split; [done |]. destruct (wk_frame T _ _ _ _ Hw) as (Hv & _ & Hn & _).
  split; [cbn; lia |]. intros k' v' [[-> ->]|[Hne H']]%(commit_lookup T s s1 k v w Hw); left.
  - exists v. split; [done |]. split; [apply (wk_ids T _ _ _ _ Hw) | done].
  - by exists v'.
Qed.

(** Vaults that differ in nothing but their terms and their phase *)
Definition same_books (w w' : Vault) : Prop :=
  trie_index w' = trie_index w /\ lease_start w' = lease_start w /\ lease_end w' = lease_end w /\
  pending w' = pending w /\ flying w' = flying w /\ contributed w' = contributed w.

Lemma bal_commit (R : VaultPhase -> VaultPhase -> Prop) s k v w w' s1 d :
  crowd_inv T s -> Vaults s !! k = Some v -> bal s v w s1 d -> 0 <= d -> same_books w w' ->
  R (phase v) (phase w') -> (forall ph, R ph ph) ->
  outcome R s (set_Vaults (<[k := w']> (Vaults s1)) s1).
Proof.
  intros Hi Hk (Hw & _ & Hc & Hb & Hs) Hd (E1 & E2 & E3 & E4 & E5 & E6) HR Hrefl.
  assert (work T s v w' s1) as Hw' by (by eapply work_vault).
  eapply outcome_commit; eauto.
  apply (commit T s s1 k v w'); auto.
  - unfold held in *. rewrite E4, E5. lia.
  - intros c Hr. destruct (ci_ctokens T s Hi c Hr) as (? & ? & _). specialize (Hs c ltac:(done) ltac:(done)).
    rewrite E6. case_decide; lia.
Qed.

(** ** Phases *)

Inductive phase_edge : VaultPhase -> VaultPhase -> Prop :=
| edge_open : phase_edge Pending Contributing
| edge_close : phase_edge Contributing Closed
| edge_reopen : phase_edge Closed Contributing
| edge_succeeded : phase_edge Closed Succeeded.
(** What a call and what an answer of the relay chain may do to the phase of a vault *)
Definition call_phase (a b : VaultPhase) : Prop := a = b \/ phase_edge a b.
Definition notified_phase (a b : VaultPhase) : Prop := a = b \/ ended b.

Lemma same_books_refl w : same_books w w.
Proof. by split_and!. Qed.

(** ** Calls on the current vault of a crowdloan *)

Section current.
Context (s : State X) (p : ParaId) (v : Vault) (Hi : crowd_inv T s) (Hcur : current_vault p s = Some v).

Lemma current_stored : Vaults s !! (p, (lease_start v, lease_end v)) = Some v.
Proof.
  unfold current_vault in Hcur. apply bind_Some in Hcur as (id & _ & Hk).
  by rewrite <- (ci_key T s Hi _ _ Hk).
Qed.
Lemma current_u32 : is_u32 (trie_index v).
Proof. eapply index_u32, current_stored. done. Qed.
Lemma current_bal : bal s v v s 0.
Proof. eapply bal_refl, current_stored. done. Qed.

Lemma current_commit k m w w' s1 d :
  k = (p, (lease_start w', lease_end w')) -> m = Vaults s1 ->
  bal s v w s1 d -> 0 <= d -> same_books w w' -> call_phase (phase v) (phase w') ->
  outcome call_phase s (set_Vaults (<[k := w']> m) s1).
Proof.
  intros -> -> Hb Hd Hs HR. destruct (wk_ids T _ _ _ _ (proj1 Hb)) as (_ & E1 & E2), Hs as (E3 & E4 & E5 & Hr) eqn:Hs'.
  rewrite E4, E5, E1, E2. eapply bal_commit; eauto using current_stored. by left.
Qed.

Lemma current_done k m w s1 d :
  k = (p, (lease_start w, lease_end w)) -> m = Vaults s1 -> bal s v w s1 d -> 0 <= d ->
  outcome call_phase s (set_Vaults (<[k := w]> m) s1).
Proof.
  intros -> -> Hb Hd. eapply current_commit; [done | done | done | done | apply same_books_refl |].
  left. symmetry. apply Hb.
Qed.
End current.

Lemma update_vault_outcome s o p c b st u s' :
  crowd_inv T s -> update_vault T o p c b st s = Ok (u, s') -> outcome call_phase s s'.
Proof.
  intros Hi H. unfold update_vault, insert_vault, deposit_event in H. destruct c, b, st; minv;
  (eapply outcome_then; [| apply untouched_event];
   eapply current_commit; [done | eassumption | done | done | by eapply current_bal | lia | done | by left]).
Qed.

Lemma switch_phase_outcome s p from to u s' :
  phase_edge from to -> crowd_inv T s -> switch_phase p from to s = Ok (u, s') -> outcome call_phase s s'.
Proof.
  intros He Hi H. unfold switch_phase, try_mutate_vault, insert_vault, deposit_event in H. minv.
  match goal with H : bool_decide _ = true |- _ => apply bool_decide_eq_true in H as <- end.
  eapply current_commit; [done | eassumption | done | done | apply bal_event; by eapply current_bal | lia | done | by right].
Qed.

Lemma withdraw_request_outcome s p from target amount u s' :
  ended target -> crowd_inv T s ->
  try_mutate_vault p from (fun vault =>
    _ ← do_withdraw T p (lease_start vault, lease_end vault) (amount vault) target; mret vault) s = Ok (u, s') ->
  outcome call_phase s s'.
Proof.
  intros He Hi H. unfold try_mutate_vault, do_withdraw, insert_request, insert_vault, deposit_event in H. minv.
  eapply (current_commit _ _ _ Hi ltac:(eassumption) _ _ _ _ _ 0); [done | done | | done | apply same_books_refl | by left].
  apply bal_event, bal_request; [done |].
  eapply bal_query; [| by eapply current_bal | eassumption]. constructor.
Qed.

Lemma contribute_outcome s o p amount code u s' :
  crowd_inv T s -> o <> Signed acc -> 0 <= amount -> contribute T o p amount code s = Ok (u, s') ->
  outcome call_phase s s'.
Proof.
  intros Hi Ho Ha H. unfold contribute, insert_vault in H. minv.
  match goal with H : ensure_signed o = Ok ?who |- _ =>
    assert (who <> acc) as Hw by (destruct o; cbn in H; congruence) end.
  match goal with H : on_chain _ _ = _ |- _ => apply crowd_chain_Ok in H as (y & Ht & ->) end.
  pose proof (eff_in _ _ _ _ _ Ht Hw) as He.
  match goal with H : current_vault p s = Some ?v |- _ =>
    pose proof (current_u32 s p v Hi H) as Hu;
    pose proof (bal_chain _ _ _ _ _ _ _ (current_bal s p v Hi H) He) as Hb end.
  eapply current_done with (d := 0); [done | eassumption | done | done | | done]. case_match; minv.
  - eapply do_contribute_bal; [| done..].
    eapply bal_update; [done | eassumption | eassumption | done | by left | cbn; lia].
  - eapply bal_update; [done | eassumption | eassumption | done | by left | cbn; lia].
Qed.

Lemma migrate_bal s v w s1 d who amount src dst w' s2 :
  is_u32 (trie_index v) -> bal s v w s1 d -> 0 <= amount -> who <> acc ->
  do_migrate_contribution T who w amount src dst s1 = Ok (w', s2) ->
  bal s v w' s2 (d - held_delta src Subtraction amount - held_delta dst Addition amount).
Proof.
  intros Hu Hb Ha Hw H. unfold do_migrate_contribution in H. minv.
  eapply bal_update; [done | | eassumption | done | by left | done]. eapply bal_update; eauto.
Qed.

Lemma migrate_loop_bal p l : forall n s v w s1 all w' s2,
  is_u32 (trie_index v) -> Forall (fun e => 0 <= e.2.1 /\ e.1 <> acc) l -> bal s v w s1 0 ->
  migrate_loop T p l n w s1 = Ok ((all, w'), s2) -> bal s v w' s2 0.
Proof.
  induction l as [|[who [amount code]] l IH]; intros n s v w s1 all w' s2 Hu Hl Hb H; cbn in H.
  - by minv.
  - inversion Hl as [|? ? [Ha Hw] Hl']; subst; cbn in *.
    destruct (n >=? MigrateKeysLimit T); minv; [done |].
    eapply IH; [done | done | | eassumption]. eapply do_contribute_bal; [| done..].
    eapply migrate_bal in Hb; [| done..]. eapply bal_weaken; eauto. cbn. lia.
Qed.

Lemma iterator_entries s1 i kind :
  entries_ok T (trie T i kind s1) -> Forall (fun e => 0 <= e.2.1 /\ e.1 <> acc) (contribution_iterator T i kind s1).
Proof.
  intros He. apply Forall_forall. intros [who p]. unfold contribution_iterator.
  rewrite storage_iter_perm, elem_of_map_to_list. intros Hp. apply He in Hp as []. cbn. split; [lia | done].
Qed.

Lemma migrate_pending_outcome s o p u s' :
  crowd_inv T s -> migrate_pending T o p s = Ok (u, s') -> outcome call_phase s s'.
Proof.
  intros Hi H. unfold migrate_pending, insert_vault, deposit_event in H. minv.
  eapply outcome_then; [| apply untouched_event].
  match goal with H : current_vault p s = Some ?v |- _ => pose proof (current_u32 s p v Hi H) end.
  eapply current_done with (d := 0); [done | eassumption | done | done | | done].
  eapply migrate_loop_bal; [done | | by eapply current_bal | eassumption].
  apply iterator_entries. by apply (ci_entries T s Hi).
Qed.

(** ** Operations on a stored vault *)

Lemma stored_done (R : VaultPhase -> VaultPhase -> Prop) s k v w m s1 d :
  (forall ph, R ph ph) -> crowd_inv T s -> Vaults s !! k = Some v -> m = Vaults s1 -> bal s v w s1 d -> 0 <= d ->
  outcome R s (set_Vaults (<[k := w]> m) s1).
Proof.
  intros HR Hi Hk -> Hb Hd. eapply bal_commit; [done.. | apply same_books_refl | | done].
  destruct Hb as (_ & -> & _). apply HR.
Qed.
Lemma call_phase_refl ph : call_phase ph ph.
Proof. by left. Qed.
Lemma notified_phase_refl ph : notified_phase ph ph.
Proof. by left. Qed.

Lemma refund_for_bal s v w s1 d who kind amount w' s2 :
  is_u32 (trie_index v) -> bal s v w s1 d -> 0 <= amount ->
  do_refund_for T who w kind amount s1 = Ok (w', s2) -> bal s v w' s2 d.
Proof.
  intros Hu Hb Ha H. unfold do_refund_for in H. minv.
  eapply (bal_update _ _ _ _ (d + held_delta kind Subtraction amount));
    [done | | eassumption | done | by right | lia].
  destruct (bool_decide_reflect (kind = KContributed)) as [->|Hk];
    match goal with H : on_chain _ _ = _ |- _ => apply crowd_chain_Ok in H as (y & Hy & ->) end.
  - eapply bal_chain; [done | by eapply eff_mint].
  - replace (held_delta kind Subtraction amount) with (- amount) by by destruct kind.
    eapply bal_chain; [done | by eapply eff_out].
Qed.

Lemma refund_entries_bal kind l : forall n s v w s1 all n' w' s2,
  is_u32 (trie_index v) -> Forall (fun e => 0 <= e.2.1 /\ e.1 <> acc) l -> bal s v w s1 0 ->
  refund_entries T kind l n w s1 = Ok ((all, n', w'), s2) -> bal s v w' s2 0.
Proof.
  induction l as [|[who [amount code]] l IH]; intros n s v w s1 all n' w' s2 Hu Hl Hb H; cbn in H.
  - by minv.
  - inversion Hl as [|? ? [Ha Hw] Hl']; subst; cbn in *.
    destruct (n >=? RemoveKeysLimit T); minv; [done |].
    eapply IH; [done | done | | eassumption]. by eapply refund_for_bal.
Qed.

Lemma refund_kinds_bal kinds : forall n s v w s1 all w' s2,
  is_u32 (trie_index v) -> bal s v w s1 0 -> refund_kinds T kinds n w s1 = Ok ((all, w'), s2) -> bal s v w' s2 0.
Proof.
  induction kinds as [|kind kinds IH]; intros n s v w s1 all w' s2 Hu Hb H; cbn in H.
  - by minv.
  - minv. match goal with H : refund_entries _ _ _ _ _ _ = _ |- _ => eapply refund_entries_bal in H; [| done | | done] end.
    + case_match; minv; [eapply IH; [done | | eassumption] |]; done.
    + apply iterator_entries. destruct Hb as (Hw & _). destruct (wk_ids T _ _ _ _ Hw) as (-> & _).
      apply (wk_entries T _ _ _ _ Hw).
Qed.

#[local] Arguments refund_kinds : simpl never.
Lemma refund_outcome s o p id u s' :
  crowd_inv T s -> refund T o p id s = Ok (u, s') -> outcome call_phase s s'.
Proof.
  intros Hi H. unfold refund, vaults, insert_vault, deposit_event in H.
  minv.
  eapply outcome_then; [| apply untouched_event].
  match goal with H : Vaults s !! _ = Some ?v |- _ => pose proof (index_u32 T s _ v Hi H) end.
  eapply stored_done with (d := 0); [apply call_phase_refl | done | eassumption | done | | done].
  eapply refund_kinds_bal; [done | by eapply bal_refl | eassumption].
Qed.

Lemma refund_for_outcome s o dest p kind amount id u s' :
  crowd_inv T s -> 0 <= amount -> refund_for T o dest p kind amount id s = Ok (u, s') -> outcome call_phase s s'.
Proof.
  intros Hi Ha H. unfold refund_for, vaults, insert_vault, deposit_event in H. minv.
  destruct (contribution_get _ _ _ _ _); minv. eapply outcome_then; [| apply untouched_event].
  match goal with H : Vaults s !! _ = Some ?v |- _ => pose proof (index_u32 T s _ v Hi H) end.
  eapply stored_done with (d := 0); [apply call_phase_refl | done | eassumption | done | | done].
  eapply refund_for_bal; [done | by eapply bal_refl | done | eassumption].
Qed.

Lemma untouched_request s m q : m = delete q (XcmRequests s) -> untouched s (set_XcmRequests m s).
Proof.
  intros ->. unfold untouched. split_and!; try done; [| apply eff_refl].
  intros Hr q' r'. cbn. intros [_ Hq]%lookup_delete_Some. eauto.
Qed.

Lemma do_notification_outcome s q r res u s' :
  crowd_inv T s -> request_ok T r -> do_notification_received T q r res s = Ok (u, s') ->
  outcome notified_phase s s'.
Proof.
  intros Hi Hr H. unfold do_notification_received, vaults, insert_vault, deposit_event in H.
  destruct r as [p id who amount code | p id amount target];
    destruct (bool_decide_reflect (res = None)) as [->|Hres]; minv; cbn in Hr.
  1,2: destruct Hr as [Ha Hw];
    match goal with H : Vaults _ !! _ = Some ?v |- _ => pose proof (index_u32 T _ _ v Hi H) end;
    match goal with H : on_chain _ _ = _ |- _ => apply crowd_chain_Ok in H as (y & Hy & ->) end.
  - eapply outcome_then; [| by eapply untouched_request]. eapply outcome_then; [| apply untouched_event].
    eapply stored_done; [apply notified_phase_refl | done | eassumption | done | |];
      [eapply migrate_bal; [done | | done | done | eassumption] |].
    + eapply bal_chain; [by eapply bal_refl | by eapply eff_burn].
    + cbn. lia.
  - eapply stored_done with (d := 0); [apply notified_phase_refl | done | eassumption | done | | done].
    eapply bal_update; [done | | eassumption | done | by right |].
    + eapply bal_chain; [by eapply bal_refl | by eapply eff_out].
    + cbn. lia.
  - eapply outcome_then; [| by eapply untouched_request]. eapply outcome_then; [| apply untouched_event].
    eapply bal_commit; [done | eassumption | by eapply bal_refl | done | done | by right | apply notified_phase_refl].
  - apply outcome_refl; [apply notified_phase_refl | done].
Qed.

Lemma notification_outcome s o q r u s' :
  crowd_inv T s -> notification_received T o q r s = Ok (u, s') -> outcome notified_phase s s'.
Proof.
  intros Hi H. unfold notification_received, deposit_event in H. minv.
  destruct r as [res|]; minv; [| apply outcome_refl; [apply notified_phase_refl | done]].
  eapply outcome_then; [| apply untouched_event].
  destruct (XcmRequests s !! q) as [req|] eqn:Hq; minv; [| apply outcome_refl; [apply notified_phase_refl | done]].
  eapply do_notification_outcome; [done | by eapply (ci_requests T s Hi) | eassumption].
Qed.

(** Taking a contributor's entry out of the trie of contributions *)
Lemma work_kill s v w s1 who u s2 :
  is_u32 (trie_index v) -> work T s v w s1 ->
  contribution_kill T (trie_index v) who KContributed s1 = Ok (u, s2) ->
  work T s v w s2 /\ chain s2 = chain s1 /\
  tsum T s2 (trie_index v) KContributed =
    tsum T s1 (trie_index v) KContributed - amount_of T s1 (trie_index v) who KContributed.
Proof.
  intros Hu [Hids Hfr Htr Hen Hpe Hfl Hre] H. unfold contribution_kill in H. minv.
  assert (Ht : forall j k, is_u32 j -> (j <> trie_index v \/ k <> KContributed) ->
    trie T j k (set_child (<[id_from_index T (trie_index v) KContributed :=
      delete who (trie T (trie_index v) KContributed s1)]> (child s1)) s1) = trie T j k s1).
  { intros j k Hj Hne. rewrite (trie_set T (cs_hash T HT)) by done. rewrite decide_False by naive_solver. done. }
  split; [| split; [done |]].
  - constructor; try done.
    + intros i kind Hj Hne. rewrite Ht by auto. auto.
    + intros kind who' p. destruct (decide (kind = KContributed)) as [->|Hne].
      * rewrite (trie_set T (cs_hash T HT)) by done. rewrite decide_True by done.
        intros [_ Hp]%lookup_delete_Some. by eapply Hen.
      * rewrite Ht by auto. apply Hen.
    + unfold tsum in *. by rewrite Ht by auto.
    + unfold tsum in *. by rewrite Ht by auto.
  - unfold tsum. rewrite (trie_set T (cs_hash T HT)) by done. rewrite decide_True by done. apply tsum_delete.
Qed.

Lemma vaults_id s k v : Vaults s !! k = Some v -> set_Vaults (<[k := v]> (Vaults s)) s = s.
Proof. intros Hk. rewrite insert_id by done. by destruct s. Qed.

(** The issue of ctokens for a contribution that is taken out of its trie *)
Lemma claim_kill_outcome s p id c v who y u s' :
  crowd_inv T s -> Vaults s !! (p, id) = Some v -> CTokensRegistry s !! id = Some c ->
  mint_into c who (amount_of T s (trie_index v) who KContributed) (chain s) = Ok y ->
  contribution_kill T (trie_index v) who KContributed (set_chain y s) = Ok (u, s') ->
  outcome call_phase s s'.
Proof.
  intros Hi Hk Hc Hy H. pose proof (index_u32 T _ _ v Hi Hk) as Hu.
  pose proof (work_chain T _ _ _ _ y (work_refl T _ _ v Hi Hk)) as Hw.
  destruct (work_kill _ _ _ _ _ _ _ Hu Hw H) as (Hw' & Hch & Hts).
  assert (Vaults s' !! (p, id) = Some v) as Hk' by (by destruct (wk_frame T _ _ _ _ Hw') as (-> & _)).
  rewrite <- (vaults_id s' (p, id) v Hk').
  eapply outcome_commit; [done | done | done | by left | apply call_phase_refl |].
  apply (commit T s s' (p, id) v v Hi Hk Hw').
  - rewrite Hch. cbn. pose proof (mint_into_grows _ _ _ _ _ Hy (amount_nonneg T s (trie_index v) who KContributed
      (ci_entries T s Hi _ _ Hu)) relay acc). lia.
  - intros c' Hr. rewrite Hch. cbn. destruct (decide (c' = c)) as [->|Hne].
    + rewrite decide_True by done. rewrite (mint_into_issuance _ _ _ _ _ Hy), Hts. unfold claimed.
      change (tsum T (set_chain y s)) with (tsum T s). change (amount_of T (set_chain y s)) with (amount_of T s). lia.
    + rewrite decide_False by congruence. rewrite (mint_into_issuance_frame _ _ _ _ _ c' Hy) by done. lia.
Qed.

Lemma do_claim_for_Ok s who p id force u s' :
  do_claim_for T who p id force s = Ok (u, s') ->
  exists c v y s1 e, CTokensRegistry s !! id = Some c /\ Vaults s !! (p, id) = Some v /\
    amount_of T s (trie_index v) who KContributed <> 0 /\
    mint_into c who (amount_of T s (trie_index v) who KContributed) (chain s) = Ok y /\
    contribution_kill T (trie_index v) who KContributed (set_chain y s) = Ok (tt, s1) /\
    (s' = push_event e s1 \/
     exists n t0 t1 y', streaming_create acc who n (GetNativeCurrencyId T) t0 t1 false (chain s1) = Ok y' /\
       s' = push_event e (set_chain y' s1)).
Proof.
  intros H. unfold do_claim_for, vaults, deposit_event, amount_of in *. minv.
  destruct (contribution_get _ _ _ _ _) as [amount code] eqn:Hg; minv.
  match goal with H : on_chain (mint_into _ _ _) _ = _ |- _ => apply crowd_chain_Ok in H as (y & Hy & ->) end.
  match goal with H : (if negb force then _ else _) s = Ok (_, ?s0) |- _ =>
    assert (s0 = s) as -> by (destruct force; cbn in H; by minv) end.
  eexists _, _, y, _, _. do 2 (split; [eassumption |]). rewrite Hg. cbn. zbool. do 3 (split; [eassumption |]).
  case_match; minv; [right | by left].
  match goal with H : on_chain _ _ = _ |- _ => apply crowd_chain_Ok in H as (y' & Hs & ->) end.
  by eexists _, _, _, y'.
Qed.

Lemma claim_outcome s who p id force u s' :
  crowd_inv T s -> do_claim_for T who p id force s = Ok (u, s') -> outcome call_phase s s'.
Proof.
  intros Hi (c & v & y & s1 & e & Hc & Hk & _ & Hy & Hkill & Hs)%do_claim_for_Ok.
  pose proof (claim_kill_outcome s p id c v who y tt s1 Hi Hk Hc Hy Hkill) as Ho.
  destruct Hs as [-> | (n & t0 & t1 & y' & Hs & ->)]; (eapply outcome_then; [| apply untouched_event]); [done |].
  eapply outcome_then; [exact Ho |]. by eapply untouched_chain, eff_stream.
Qed.

Lemma withdraw_for_outcome s who p id u s' :
  crowd_inv T s -> do_withdraw_for T who p id s = Ok (u, s') -> outcome call_phase s s'.
Proof.
  intros Hi H. unfold do_withdraw_for, vaults, insert_vault, deposit_event in H. minv.
  destruct (contribution_get _ _ _ _ _) as [amount code] eqn:Hg; minv.
  eapply outcome_then; [| apply untouched_event].
  match goal with H : on_chain _ _ = _ |- _ => apply crowd_chain_Ok in H as (y & Hy & ->) end.
  match goal with H : Vaults s !! _ = Some ?v |- _ => rename v into w; rename H into Hk end.
  match goal with H : contribution_kill _ _ _ _ _ = _ |- _ => rename H into Hkill end.
  pose proof (index_u32 T _ _ w Hi Hk) as Hu.
  destruct (work_kill _ _ _ _ _ _ _ Hu (work_refl T _ _ w Hi Hk) Hkill) as (Hw & Hch & Hts).
  assert (Ha : amount_of T s (trie_index w) who KContributed = amount) by (unfold amount_of; by rewrite Hg).
  assert (0 <= amount) as Hp by (rewrite <- Ha; apply amount_nonneg; by apply (ci_entries T s Hi)).
  eapply (stored_done call_phase s _ w _ _ _ 0); [apply call_phase_refl | done | done | done | | done].
  rewrite Hch in Hy. replace 0 with (0 + 0) by lia. apply bal_chain; [| rewrite Hch; by eapply eff_mint].
  split; [by eapply work_vault; [..| exact Hw] |]. split; [done |]. split; [cbn; unfold claimed; lia |].
  rewrite Hch. unfold held. cbn. replace (_ - _ + 0) with 0 by lia. apply eff_refl.
Qed.

Lemma redeem_outcome s who p id amount u s' :
  crowd_inv T s -> 0 <= amount -> do_redeem T who p id amount s = Ok (u, s') -> outcome call_phase s s'.
Proof.
  intros Hi Ha H. unfold do_redeem, vaults, insert_vault, deposit_event in H. minv.
  eapply outcome_then; [| apply untouched_event].
  repeat match goal with H : on_chain ?f _ = _ |- _ => apply crowd_chain_Ok in H as (? & ? & ->) end.
  match goal with H : CTokensRegistry s !! ?id = Some ?c, H1 : Vaults s !! _ = Some ?v, Hb : burn_from _ _ _ _ = Ok ?y,
      Hm : mint_into _ _ _ _ = Ok ?x |- _ =>
    rename H into Hreg, H1 into Hk, v into w, c into c0, Hb into Hburn, y into x1, Hm into Hmint, x into x2 end.
  destruct (ci_ctokens T s Hi c0) as (Hc1 & Hc2 & _); [by eexists |].
  destruct (eff_mint _ _ _ _ Hmint Ha) as [Hb Hiss]. cbn in Hb, Hiss.
  assert (work T s w (set_contributed (contributed w - amount) w) (set_chain x2 (set_chain x1 s))) as Hw.
  { do 2 apply work_chain. eapply work_vault; [..| by eapply work_refl]; done. }
  eapply outcome_commit; [done | done | done | by left | apply call_phase_refl |].
  apply (commit T s _ _ w _ Hi Hk Hw); cbn.
  - unfold held. cbn. rewrite (burn_from_frame _ _ _ _ _ relay acc Hburn) in Hb by auto. lia.
  - intros c Hr. destruct (ci_ctokens T s Hi c Hr) as (? & ? & _). specialize (Hiss c ltac:(done) ltac:(done)).
    unfold claimed. change (tsum T (set_chain _ (set_chain _ s))) with (tsum T s).
    destruct (decide (c = c0)) as [->|Hne].
    + rewrite decide_True by done. rewrite (burn_from_issuance _ _ _ _ _ Hburn) in Hiss; [lia |].
      apply dust_free_min_one; [by apply (cs_min T HT) | by eapply burn_from_enough].
    + rewrite decide_False by congruence. rewrite (burn_from_issuance_frame _ _ _ _ _ c Hburn) in Hiss by done. lia.
Qed.

(** ** Creating and dissolving a vault *)

(** A new vault has no contributions. *)
Lemma fresh_tsum s i kind : crowd_inv T s -> is_u32 i -> NextTrieIndex s <= i -> tsum T s i kind = 0.
Proof. intros Hi Hu Hn. unfold tsum. rewrite (ci_fresh T s Hi) by done. apply map_sum_empty. Qed.

(** What [create_vault] expects of a ctoken: its supply is the pallet's. *)
Definition ctoken_ok s (c : CurrencyId) : Prop :=
  c <> relay /\ c <> GetNativeCurrencyId T /\ (registered s c \/ total_issuance (chain s) c = 0).

Section create.
Context (s s' : State X) (k : VaultKey) (c : CurrencyId) (w : Vault).
Context (Hi : crowd_inv T s) (Hnone : Vaults s !! k = None) (Hok : ctoken_ok s c).
Context (Hreg : forall c0, CTokensRegistry s !! k.2 = Some c0 -> c0 = c).
Context (Hw : trie_index w = NextTrieIndex s /\ contributed w = 0 /\ pending w = 0 /\ flying w = 0 /\
  k.2 = (lease_start w, lease_end w)).
Context (HV : Vaults s' = <[k := w]> (Vaults s)) (HC : CTokensRegistry s' = <[k.2 := c]> (CTokensRegistry s)).
Context (HN : NextTrieIndex s' = NextTrieIndex s + 1) (HN' : is_u32 (NextTrieIndex s')).
Context (Hch : child s' = child s) (Hx : chain s' = chain s) (HR : XcmRequests s' = XcmRequests s).
Context (Ha : account_nonce s' = account_nonce s).

Lemma create_trie i kind : trie T i kind s' = trie T i kind s.
Proof. unfold trie. by rewrite Hch. Qed.
Lemma create_tsum i kind : tsum T s' i kind = tsum T s i kind.
Proof. unfold tsum. by rewrite create_trie. Qed.
Lemma create_fresh kind : tsum T s' (trie_index w) kind = 0.
Proof.
  rewrite create_tsum. destruct Hw as (-> & _). apply fresh_tsum; [done | apply (ci_next T s Hi) | lia].
Qed.
Lemma create_lookup k' v' : Vaults s' !! k' = Some v' ->
  (k' = k /\ v' = w) \/ (k' <> k /\ Vaults s !! k' = Some v').
Proof. rewrite HV. intros [[<- <-]|[? ?]]%lookup_insert_Some; auto. Qed.
Lemma create_registry k' v' : Vaults s !! k' = Some v' -> CTokensRegistry s' !! k'.2 = CTokensRegistry s !! k'.2.
Proof.
  intros Hk'. rewrite HC. destruct (ci_registry T s Hi k' v' Hk') as [c0 Hc0].
  destruct (decide (k'.2 = k.2)) as [E|Hne]; [| by rewrite lookup_insert_ne by congruence].
  rewrite E in *. rewrite lookup_insert_eq, Hc0. by rewrite (Hreg c0 Hc0).
Qed.

Lemma create_backing c' : backing T s' c' = backing T s c'.
Proof.
  unfold backing. rewrite HV, map_sum_insert_new by done.
  replace (if decide _ then claimed T _ w else 0) with 0.
  2: { case_decide; [| done]. unfold claimed. rewrite create_fresh. destruct Hw as (_ & -> & _). lia. }
  rewrite Z.add_0_l. apply map_sum_ext. intros k' v' Hk'. rewrite (create_registry k' v' Hk').
  case_decide; [| done]. unfold claimed. by rewrite create_tsum.
Qed.

Lemma create_ctokens c' : registered s' c' ->
  c' <> relay /\ c' <> GetNativeCurrencyId T /\ total_issuance (chain s') c' <= backing T s' c'.
Proof.
  intros [id Hid]. rewrite create_backing, Hx. destruct Hok as (Hc1 & Hc2 & Hc3).
  assert (registered s c' \/ (c' = c /\ total_issuance (chain s) c = 0 /\ ~ registered s c)) as [Hr | (-> & H0 & Hn)].
  { destruct (CTokensRegistry s !! id) as [c0|] eqn:E.
    - left. exists id. rewrite HC in Hid. apply lookup_insert_Some in Hid as [[<- <-]|[_ ?]]; [| done].
      by rewrite E, (Hreg _ E).
    - rewrite HC in Hid. apply lookup_insert_Some in Hid as [[<- <-]|[_ ?]]; [| congruence].
      destruct Hc3 as [?|?]; [by left |].
      destruct (decide (map_Exists (fun _ c1 => c1 = c) (CTokensRegistry s))) as [(j & c1 & Hj & ->)|Hne].
      + left. by exists j.
      + right. split; [done |]. split; [done |]. intros [j Hj]. apply Hne. by exists j, c. }
  - by apply (ci_ctokens T s Hi).
  - do 2 (split; [done |]). rewrite H0. unfold backing. rewrite map_sum_zero; [lia |].
    intros k' v' _. rewrite decide_False; [done |]. intros E. apply Hn. by exists k'.2.
Qed.

Lemma create_vault_inv : crowd_inv T s'.
Proof.
  destruct Hw as (Hidx & Hco & Hpe & Hfl & Hkey).
  constructor; intros *; rewrite ?create_trie, ?HN, ?Ha.
  - intros [[-> ->]|[_ H]]%create_lookup; [done | by apply (ci_key T s Hi)].
  - rewrite <- HN. exact HN'.
  - intros [[-> ->]|[_ H]]%create_lookup.
    + pose proof (ci_next T s Hi). unfold is_u32 in *. lia.
    + apply (ci_index T s Hi) in H. lia.
  - intros [[-> ->]|[Hn1 H1]]%create_lookup [[-> ->]|[Hn2 H2]]%create_lookup; try done.
    + apply (ci_index T s Hi) in H2. lia.
    + apply (ci_index T s Hi) in H1. lia.
    + by apply (ci_distinct T s Hi).
  - intros Hu Hn. apply (ci_fresh T s Hi); [done | lia].
  - apply (ci_entries T s Hi).
  - intros [[-> ->]|[_ H]]%create_lookup; [by rewrite create_fresh |]. rewrite create_tsum. by eapply (ci_pending T s Hi).
  - intros [[-> ->]|[_ H]]%create_lookup; [by rewrite create_fresh |]. rewrite create_tsum. by eapply (ci_flying T s Hi).
  - rewrite Hx. pose proof (ci_funds T s Hi). unfold total_held in *. rewrite HV, map_sum_insert_new by done.
    unfold held at 1. lia.
  - intros [[-> ->]|[_ H]]%create_lookup; [rewrite HC, lookup_insert_eq; by eexists |].
    rewrite (create_registry k0 v H). by eapply (ci_registry T s Hi).
  - apply create_ctokens.
  - unfold requests_ok. rewrite HR. apply (ci_requests T s Hi).
  - apply (ci_nonce T s Hi).
Qed.

Lemma create_step : phase w = Pending -> vault_step call_phase s s'.
Proof.
  intros Hp. destruct Hw as (Hidx & _). split; [lia |].
  intros k' v' [[-> ->]|[_ H]]%create_lookup; [right; split; [done |]; split; [lia | done] |].
  left. exists v'. split; [done |]. split; [done | by left].
Qed.
End create.

Lemma create_vault_outcome s o p c ls le st cap b u s' :
  crowd_inv T s -> ctoken_ok s c -> create_vault T o p c ls le st cap b s = Ok (u, s') -> outcome call_phase s s'.
Proof.
  intros Hi Hc H. unfold create_vault, insert_vault, deposit_event in H. minv.
  match goal with H : match current_vault p s with _ => _ end ?x = Ok (_, ?y) |- _ =>
    assert (y = x) as -> by (case_match; by minv); clear H end.
  match goal with H : match CTokensRegistry s !! _ with _ => _ end _ = Ok (_, ?y), H' : checked_add_to _ _ _ = _ |- _ =>
    assert (y = s /\ forall c0, CTokensRegistry s !! (ls, le) = Some c0 -> c0 = c) as [-> Hreg]
      by (destruct (CTokensRegistry s !! (ls, le)); minv; zbool; naive_solver); clear H;
    apply checked_add_to_Some in H' as [-> Hn] end.
  match goal with H : bool_decide (_ = None) = true |- _ => apply bool_decide_eq_true in H as Hnone end.
  assert (is_u32 (NextTrieIndex s + 1)) as Hu by (pose proof (ci_next T s Hi); unfold is_u32 in *; lia).
  match goal with |- outcome _ _ ?s' => set (s2 := s') end.
  pose proof (create_vault_inv s s2 (p, (ls, le)) c (Vault_new ls le c st cap b (NextTrieIndex s)) Hi Hnone Hc Hreg
    ltac:(by split_and!) eq_refl eq_refl eq_refl Hu eq_refl eq_refl eq_refl eq_refl) as Hinv.
  split; [exact Hinv |].
  by apply (create_step s s2 (p, (ls, le)) (Vault_new ls le c st cap b (NextTrieIndex s)) ltac:(by split_and!) eq_refl eq_refl).
Qed.

Lemma trie_empty s i kind :
  length (contribution_iterator T i kind s) = 0%nat -> tsum T s i kind = 0.
Proof.
  unfold contribution_iterator, tsum. intros H%nil_length_inv.
  pose proof (storage_iter_perm _ (trie T i kind s)) as Hp. rewrite H in Hp.
  apply Permutation_nil in Hp. apply map_to_list_empty_iff in Hp. rewrite Hp. apply map_sum_empty.
Qed.
Lemma no_childstorage s v :
  has_childstorage T v s = false -> forall kind, tsum T s (trie_index v) kind = 0.
Proof.
  unfold has_childstorage. cbn. rewrite !orb_false_iff, !negb_false_iff, !Nat.eqb_eq.
  intros (H1 & H2 & H3 & _) kind. destruct kind; by apply trie_empty.
Qed.

Lemma dissolve_inv s k v :
  crowd_inv T s -> Vaults s !! k = Some v -> (forall kind, tsum T s (trie_index v) kind = 0) -> contributed v = 0 ->
  crowd_inv T (set_Vaults (delete k (Vaults s)) s).
Proof.
  intros Hi Hk Hts Hc. pose proof (ci_pending T s Hi k v Hk). pose proof (ci_flying T s Hi k v Hk).
  rewrite Hts in *.
  assert (Hl : forall k' v', delete k (Vaults s) !! k' = Some v' -> Vaults s !! k' = Some v')
    by (by intros k' v' [_ ?]%lookup_delete_Some).
  pose proof Hi as []. constructor; try done; cbn; eauto.
  - unfold total_held in *. cbn. pose proof (map_sum_delete (fun _ v => held v) _ k v Hk) as E.
    unfold held at 2 in E. lia.
  - intros c Hr. destruct (ci_ctokens c Hr) as (? & ? & Hle). do 2 (split; [done |]).
    unfold backing in *. cbn.
    pose proof (map_sum_delete (fun k v => if decide (CTokensRegistry s !! k.2 = Some c) then claimed T s v else 0) _ k v Hk) as E.
    cbn in E. replace (if decide (CTokensRegistry s !! k.2 = Some c) then claimed T s v else 0) with 0 in E.
    + change (claimed T (set_Vaults (delete k (Vaults s)) s)) with (claimed T s). lia.
    + case_decide; [| done]. unfold claimed. rewrite Hts. lia.
Qed.

Lemma dissolve_outcome s o p id u s' :
  crowd_inv T s -> dissolve_vault T o p id s = Ok (u, s') -> outcome call_phase s s'.
Proof.
  intros Hi H. unfold dissolve_vault, vaults, deposit_event, total_contribution in H. minv. zbool.
  match goal with H : Vaults s !! _ = Some ?v |- _ => rename H into Hk; rename v into w end.
  pose proof (no_childstorage s w ltac:(done)) as Hts.
  pose proof (ci_pending T s Hi _ w Hk). pose proof (ci_flying T s Hi _ w Hk). rewrite Hts in *.
  eapply outcome_then; [| apply untouched_event].
  eapply (outcome_then _ _ (set_Vaults (delete (p, _) (Vaults s)) s)).
  - split; [eapply dissolve_inv; [done | exact Hk | done | lia] |].
    split; [done |]. cbn. intros k' v' [_ Hk']%lookup_delete_Some. left. exists v'. split; [done |]. split; [done | by left].
  - case_match; minv; unfold untouched; split_and!; try done; apply eff_refl.
Qed.

(** ** Dispatch *)

(** Calls come from outside the pallet, with amounts of their type, and name ctokens whose supply
    is the pallet's. *)
Definition call_ok s (o : RuntimeOrigin) (c : Call) : Prop :=
  match c with
  | CallCreateVault _ c _ _ _ _ _ => ctoken_ok s c
  | CallContribute _ amount _ => 0 <= amount /\ o <> Signed acc
  | CallRedeem _ _ amount | CallRefundFor _ _ _ amount _ | CallRedeemAndLendFor _ _ _ amount => 0 <= amount
  | _ => True
  end.

Lemma redeem_and_lend_outcome s o dest p id amount u s' :
  crowd_inv T s -> 0 <= amount -> redeem_and_lend_for T o dest p id amount s = Ok (u, s') -> outcome call_phase s s'.
Proof.
  intros Hi Ha H. unfold redeem_and_lend_for in H. minv. zbool.
  match goal with H : on_chain _ _ = _ |- _ => apply crowd_chain_Ok in H as (y & Hy & ->) end.
  eapply outcome_then; [by eapply redeem_outcome |]. eapply untouched_chain, eff_lend; [exact Hy |].
  intros ->. rewrite (ci_nonce T s Hi) in *. lia.
Qed.

Lemma dispatch_outcome s o c u s' :
  crowd_inv T s -> call_ok s o c -> dispatch T o c s = Ok (u, s') -> outcome call_phase s s'.
Proof.
  intros Hi Hc H. destruct c; cbn [dispatch call_ok] in *.
  all: try (unfold open, close, reopen, auction_succeeded, auction_failed, slot_expired, claim, claim_for, withdraw,
    withdraw_for, redeem, force_claim_for, set_vrf, update_proxy, update_leases_bonus, deposit_event in H; minv).
  all: try match goal with
    | H : switch_phase _ _ _ _ = _ |- _ => eapply switch_phase_outcome; [| done | exact H]; constructor
    | H : try_mutate_vault _ _ _ _ = _ |- _ => eapply withdraw_request_outcome; [| done | exact H]
    | H : do_claim_for _ _ _ _ _ _ = _ |- _ => by eapply claim_outcome
    | H : do_withdraw_for _ _ _ _ _ = _ |- _ => by eapply withdraw_for_outcome
    | H : do_redeem _ _ _ _ _ _ = _ |- _ => by eapply redeem_outcome
    | |- outcome _ _ (push_event _ _) => eapply (outcome_then _ _ s);
        [apply outcome_refl; [apply call_phase_refl | done] | unfold untouched; split_and!; try done; apply eff_refl]
    end.
  - by eapply create_vault_outcome.
  - by eapply update_vault_outcome.
  - destruct Hc. by eapply contribute_outcome.
  - by left.
  - by right.
  - by eapply migrate_pending_outcome.
  - by eapply refund_outcome.
  - by eapply dissolve_outcome.
  - by eapply refund_for_outcome.
  - by eapply redeem_and_lend_outcome.
Qed.
End operations.
