(* ===== verification/CrowdloansSafety.v ===== *)
(** * Crowdloans: what holds of every run

    Runs start from an empty pallet; between its calls and the answers of the relay chain, the rest
    of the chain may do anything that does not take from the pallet's account or issue its ctokens. *)

From stdpp Require Import strings.
From S2P Require Import Prelude Arith Frame XcmHelper Loans Traits MathHelper Crowdloans CrowdloansProps CrowdloansOps.
From stdpp Require Import list relations.
Import CrowdloansErrors Crowdloans.
#[local] Open Scope Z_scope.

Section runs.
Context {SA : SpArithmetic} {FP : FixedPow} {SI : StorageIter} {SIL : StorageIterLaws SI} {SP : StoragePairIter}.
Context {X : Type} {FU : Fungibles X} {FL : FungiblesLaws X}.
Context {XH : XcmHelperTrait X} {XL : XcmHelperLaws X}.
Context {ST : StreamingTrait X} {SL : StreamingLaws X} {LT : LoansTrait X} {LL : LoansLaws X}.
Context (T : Config).
Implicit Types s : State X.

(** The rest of the chain *)
Definition others_step s s' : Prop := exists x b ms n,
  s' = mkState (Vaults s) (IsVrf s) (CTokensRegistry s) (LeasesRegistry s) (NextTrieIndex s) (XcmRequests s)
         (ProxyAddress s) (LeasesBonus s) (child s) x b ms n (events s) /\
  chain_eff T 0 (chain s) x /\ n (account_id T) = 0.

Inductive crowd_step s : State X -> Prop :=
| step_call o c s' : call_ok T s o c -> dispatch T o c s = Ok (tt, s') -> crowd_step s s'
| step_answer o q r s' : notification_received T o q r s = Ok (tt, s') -> crowd_step s s'
| step_others s' : others_step s s' -> crowd_step s s'.

Definition genesis x b ms n : State X := mkState ∅ false ∅ ∅ 0 ∅ None ∅ ∅ x b ms n [].
Definition reachable s : Prop := exists x b ms n, n (account_id T) = 0 /\ rtc crowd_step (genesis x b ms n) s.

Lemma crowd_genesis_inv x b ms n : n (account_id T) = 0 -> crowd_inv T (genesis x b ms n).
Proof.
  intros Hn. constructor; cbn; intros *; try (by rewrite lookup_empty); try done.
  - unfold total_held. cbn. rewrite map_sum_empty. apply (balance_range x).
  - intros [id Hid]. cbn in Hid. by rewrite lookup_empty in Hid.
Qed.

Lemma others_outcome s s' : crowd_inv T s -> others_step s s' -> outcome T eq s s'.
Proof.
  intros Hi (x & b & ms & n & -> & He & Hn). split; [| split; [done |]].
  - eapply inv_untouched; [exact Hi |]. split_and!; try done; [| apply He..]. cbn. by rewrite (ci_nonce T s Hi).
  - cbn. intros k v Hk. left. by exists v.
Qed.

(** One step keeps the invariant; every vault there is after it was there before, in a phase that
    leads to its phase now, or is new. *)
Definition any_phase (a b : VaultPhase) : Prop := a = b \/ phase_edge a b \/ ended b.
Lemma vault_step_weaken (R R' : VaultPhase -> VaultPhase -> Prop) s s' :
  (forall a b, R a b -> R' a b) -> vault_step R s s' -> vault_step R' s s'.
Proof. intros HR [Hn Hv]. split; [done |]. intros k v' Hk. destruct (Hv k v' Hk) as [(v & ? & ? & ?)|?]; eauto 6. Qed.

Context (HT : crowd_setup T).

Lemma step_outcome s s' : crowd_inv T s -> crowd_step s s' -> crowd_inv T s' /\ vault_step any_phase s s'.
Proof.
  intros Hi [o c ? Hc H | o q r ? H | ? H].
  - apply (dispatch_outcome T HT) in H as [? Hv]; [| done..]. split; [done |].
    eapply vault_step_weaken, Hv. unfold any_phase, call_phase. tauto.
  - apply (notification_outcome T HT) in H as [? Hv]; [| done]. split; [done |].
    eapply vault_step_weaken, Hv. unfold any_phase, notified_phase. tauto.
  - apply others_outcome in H as [? Hv]; [| done]. split; [done |].
    eapply vault_step_weaken, Hv. unfold any_phase. tauto.
Qed.

Lemma steps_inv s s' : crowd_inv T s -> rtc crowd_step s s' -> crowd_inv T s'.
Proof. intros Hi. induction 1 as [|s s1 s' H _ IH]; [done |]. by apply IH, (step_outcome s). Qed.
Lemma reachable_inv s : reachable s -> crowd_inv T s.
Proof. intros (x & b & ms & n & Hn & Hr). eapply steps_inv; [by apply crowd_genesis_inv | exact Hr]. Qed.





(** ** Migration of pending contributions *)

Abbreviation pending_of s v := (trie T (trie_index v) KPending s).









(** ** A contribution is paid out once *)

Lemma killed_amount i who s u s' :
  is_u32 i -> contribution_kill T i who KContributed s = Ok (u, s') -> contribution_get T i who KContributed s' = (0, []).
Proof.
  intros Hu H. unfold contribution_kill in H. minv. unfold contribution_get.
  rewrite (trie_set T (cs_hash T HT)) by done. rewrite decide_True by done. by rewrite lookup_delete_eq.
Qed.

(** What is left when a contributor's entry is gone *)
Lemma nothing_to_claim who p id v s :
  Vaults s !! (p, id) = Some v -> contribution_get T (trie_index v) who KContributed s = (0, []) ->
  (forall force u s', do_claim_for T who p id force s <> Ok (u, s')) /\
  (forall u s', do_withdraw_for T who p id s <> Ok (u, s')).
Proof.
  intros Hk Hg. split; intros; intros H.
  - unfold do_claim_for, vaults in H. minv. match goal with H : Vaults s !! _ = _ |- _ => rewrite Hk in H end. minv.
    destruct force; cbn in *; minv; rewrite Hg in *; minv.
  - unfold do_withdraw_for, vaults in H. minv. match goal with H : Vaults s !! _ = _ |- _ => rewrite Hk in H end. minv.
    rewrite Hg in *; minv.
Qed.

(** A claim issues the contributor's whole contribution in ctokens, and takes it out of the vault's
    trie, so that it can be neither claimed again nor withdrawn. *)
Theorem contribution_claimed_once s who p id force v c s' :
  reachable s -> Vaults s !! (p, id) = Some v -> CTokensRegistry s !! id = Some c ->
  do_claim_for T who p id force s = Ok (tt, s') ->
  let amount := amount_of T s (trie_index v) who KContributed in
  0 < amount /\
  balance (chain s') c who = balance (chain s) c who + amount /\
  total_issuance (chain s') c = total_issuance (chain s) c + amount /\
  (forall force' u s2, do_claim_for T who p id force' s' <> Ok (u, s2)) /\
  (forall u s2, do_withdraw_for T who p id s' <> Ok (u, s2)).
Proof.
  intros Hi%reachable_inv Hk Hc H. pose proof (index_u32 T s _ v Hi Hk) as Hu.
  destruct (ci_ctokens T s Hi c) as (Hc1 & Hc2 & _); [by exists id |].
  apply do_claim_for_Ok in H as (c' & v' & y & s1 & e & Hc' & Hk' & Ha & Hy & Hkill & Hs).
  rewrite Hc in Hc'. rewrite Hk in Hk'. injection Hc' as <-. injection Hk' as <-.
  pose proof (amount_nonneg T s (trie_index v) who KContributed (ci_entries T s Hi _ _ Hu)) as Hpos.
  pose proof (killed_amount _ _ _ _ _ Hu Hkill) as Hg.
  assert (Hs1 : Vaults s1 = Vaults s /\ chain s1 = y) by (unfold contribution_kill in Hkill; by minv).
  destruct Hs1 as [Hv1 Hx1].
  assert (Hs' : Vaults s' = Vaults s /\ contribution_get T (trie_index v) who KContributed s' = (0, []) /\
    balance (chain s') c who = balance y c who /\ total_issuance (chain s') c = total_issuance y c).
  { destruct Hs as [-> | (n & t0 & t1 & y' & Hs & ->)]; cbn; rewrite Hv1; [by rewrite Hx1 |].
    rewrite Hx1 in Hs. rewrite (streaming_balance _ _ _ _ _ _ _ _ _ c who Hs) by auto.
    by rewrite (streaming_issuance _ _ _ _ _ _ _ _ _ c Hs). }
  destruct Hs' as (Hv' & Hg' & Hb & Ht). split; [lia |].
  rewrite Hb, Ht, (mint_into_balance _ _ _ _ _ Hy), (mint_into_issuance _ _ _ _ _ Hy). do 2 (split; [done |]).
  apply (nothing_to_claim who p id v); [by rewrite Hv' | done].
Qed.
End runs.
