(* ===== verification/CrowdloansDemo.v ===== *)
(** * A crowdloan on a runtime

    The parachain 2085 collects for the leases 1 to 2 with the ctoken 201: accounts 5 and 6 contribute, their
    contributions are migrated and confirmed by the relay chain, the auction is won and account 5 claims.
    The theorems on crowdloans are instantiated here. *)

From stdpp Require Import strings.
From Stdlib Require Import SpecFloat.
From S2P Require Import Prelude Arith Frame Ledger XcmHelper Streaming RateModel Loans LoansDemo Traits Provides RuntimeDemo MathHelper Crowdloans CrowdloansProps CrowdloansOps CrowdloansSafety.
From stdpp Require Import list relations.
Import CrowdloansErrors Crowdloans.
#[local] Open Scope Z_scope.

(** ** A hash without collisions *)

Fixpoint byte_hash (l : list Z) : Z :=
  match l with [] => 0 | b :: l => b + 1 + 257 * byte_hash l end.
Abbreviation bytes := (Forall (fun b => 0 <= b < 256)).
Lemma byte_hash_nonneg l : bytes l -> 0 <= byte_hash l.
Proof. induction 1; cbn [byte_hash]; lia. Qed.
Lemma byte_hash_inj l : forall l', bytes l -> bytes l' -> byte_hash l = byte_hash l' -> l = l'.
Proof.
  induction l as [|b l IH]; intros [|b' l'] Hl Hl' H; cbn [byte_hash] in H; [done | | |].
  - inversion Hl'; subst. pose proof (byte_hash_nonneg l' ltac:(done)). lia.
  - inversion Hl; subst. pose proof (byte_hash_nonneg l ltac:(done)). lia.
  - inversion Hl; inversion Hl'; subst. assert (b = b') as -> by lia. f_equal. apply IH; [done | done | lia].
Qed.
Lemma trie_name_bytes k i : bytes (kind_prefix k ++ u32_encode i).
Proof.
  apply Forall_app. split.
  - assert (forallb (fun b => (0 <=? b) && (b <? 256)) (kind_prefix k) = true) as H by (by destruct k).
    rewrite forallb_forall in H. apply Forall_forall. intros b Hb%list_elem_of_In%H. minv. zbool. lia.
  - repeat constructor; apply Z.mod_pos_bound; lia.
Qed.

#[local] Instance demo_fpow : FixedPow := fun _ _ => None.

(** ** A run *)

Definition crowd_config : Config :=
  mkConfig 50 2084 1 100 2 2 100 0 100 is_root is_root is_root is_root is_root is_root
    is_root is_root is_root is_root 0 (fun _ => Some 12) Ok byte_hash 3.

Lemma crowd_config_ok : crowd_setup crowd_config.
Proof.
  constructor; try done.
  - intros i j k k' _ _ H. apply byte_hash_inj; auto using trie_name_bytes.
Qed.

Definition demo_ledger : ledger :=
  Ledger {[(1, 99) := 10 ^ 12; (1, 5) := 10 ^ 6; (1, 6) := 10 ^ 6; (0, 50) := 10 ^ 9]}
    {[0 := 10 ^ 9; 1 := 10 ^ 12 + 2 * 10 ^ 6]}.
Definition demo_chain : chain_state := runtime_state demo_ledger.
Definition crowd_genesis : State chain_state := genesis demo_chain 20 [] (fun _ => 0).

Definition crowd_run (o : RuntimeOrigin) (c : Call) (s : State chain_state) : State chain_state :=
  match dispatch crowd_config o c s with Ok (_, s') => s' | _ => s end.
Definition crowd_answer (q : QueryId) (res : option (Z * Z)) (s : State chain_state) : State chain_state :=
  match notification_received crowd_config (ResponseOrigin parent) q (ExecutionResult res) s with Ok (_, s') => s' | _ => s end.

Lemma crowd_run_ok o c s :
  is_ok (dispatch crowd_config o c s) = true -> dispatch crowd_config o c s = Ok (tt, crowd_run o c s).
Proof. unfold crowd_run. destruct (dispatch crowd_config o c s) as [[[] s']| |]; done. Qed.

Definition crowd_created : State chain_state := crowd_run Root (CallCreateVault 2085 201 1 2 XCM (10 ^ 6) 1000) crowd_genesis.
Definition crowd_bonus : State chain_state := crowd_run Root (CallUpdateLeasesBonus 1 2 (mkBonusConfig 2 10 110)) crowd_created.
Definition crowd_joined : State chain_state := crowd_run (Signed 5) (CallContribute 2085 500 [7]) crowd_bonus.
Definition crowd_joined2 : State chain_state := crowd_run (Signed 6) (CallContribute 2085 300 []) crowd_joined.
Definition crowd_open : State chain_state := crowd_run Root (CallOpen 2085) crowd_joined2.
Definition crowd_migrated : State chain_state := crowd_run Root (CallMigratePending 2085) crowd_open.
Definition crowd_confirmed : State chain_state := crowd_answer 7 None crowd_migrated.
Definition crowd_confirmed2 : State chain_state := crowd_answer 8 None crowd_confirmed.
Definition crowd_closed : State chain_state := crowd_run Root (CallClose 2085) crowd_confirmed2.
Definition crowd_won : State chain_state := crowd_run Root (CallAuctionSucceeded 2085) crowd_closed.
Definition crowd_claimed : State chain_state := crowd_run (Signed 5) (CallClaim 2085 (1, 2)) crowd_won.

Abbreviation reaches := (reachable crowd_config).
Lemma reach_genesis : reaches crowd_genesis.
Proof. exists demo_chain, 20, [], (fun _ => 0). by split; [| constructor]. Qed.
Lemma reach_run o c s :
  call_ok crowd_config s o c -> is_ok (dispatch crowd_config o c s) = true -> reaches s -> reaches (crowd_run o c s).
Proof.
  intros Hc Hok (x & b & ms & n & Hn & Hr). exists x, b, ms, n. split; [done |].
  eapply rtc_r; [exact Hr |]. eapply step_call; [exact Hc | by apply crowd_run_ok].
Qed.
Lemma reach_answer q res s :
  is_ok (notification_received crowd_config (ResponseOrigin parent) q (ExecutionResult res) s) = true ->
  reaches s -> reaches (crowd_answer q res s).
Proof.
  intros Hok (x & b & ms & n & Hn & Hr). exists x, b, ms, n. split; [done |]. eapply rtc_r; [exact Hr |].
  eapply (step_answer _ _ (ResponseOrigin parent) q (ExecutionResult res)). unfold crowd_answer.
  destruct (notification_received _ _ _ _ s) as [[[] s']| |]; done.
Qed.

Lemma reach_open : reaches crowd_open.
Proof.
  apply reach_run; [done | by vm_compute |]. apply reach_run; [by vm_compute | by vm_compute |].
  apply reach_run; [by vm_compute | by vm_compute |]. apply reach_run; [done | by vm_compute |].
  apply reach_run; [split; [done |]; split; [done |]; by right | by vm_compute | apply reach_genesis].
Qed.
Lemma reach_migrated : reaches crowd_migrated.
Proof. apply reach_run; [done | by vm_compute | apply reach_open]. Qed.
Lemma reach_won : reaches crowd_won.
Proof.
  apply reach_run; [done | by vm_compute |]. apply reach_run; [done | by vm_compute |].
  apply reach_answer; [by vm_compute |]. apply reach_answer; [by vm_compute | apply reach_migrated].
Qed.

Definition first_vault (s : State chain_state) : Vault := default (Vault_new 0 0 0 XCM 0 0 0) (Vaults s !! (2085, (1, 2))).

(** ** Instances *)





Lemma contribution_claimed_once_witness :
  balance (chain crowd_claimed) 201 5 = balance (chain crowd_won) 201 5 + 500.
Proof.
  apply (contribution_claimed_once crowd_config crowd_config_ok crowd_won 5 2085 (1, 2) false (first_vault crowd_won) 201
           crowd_claimed).
  - apply reach_won.
  - by vm_compute.
  - by vm_compute.
  - refine (crowd_run_ok (Signed 5) (CallClaim 2085 (1, 2)) crowd_won _). by vm_compute.
Defined.

(** ** Two corners *)

(** A forced claim asks for no phase: ctokens are issued while contributions are still collected. *)
Example force_claim_in_any_phase :
  phase (first_vault crowd_confirmed2) = Contributing /\
  is_ok (dispatch crowd_config Root (CallForceClaimFor 5 2085 (1, 2)) crowd_confirmed2) = true /\
  balance (chain (crowd_run Root (CallForceClaimFor 5 2085 (1, 2)) crowd_confirmed2)) 201 5 = 500.
Proof. by vm_compute. Qed.

(** [auction_failed] leaves the vault closed until the relay chain answers; the auction can be declared won in
    between, and the answer then turns the won vault, whose ctokens have been claimed, into a failed one. *)
Definition crowd_lost : State chain_state := crowd_run Root (CallAuctionFailed 2085) crowd_closed.
Definition crowd_won_after : State chain_state :=
  crowd_run (Signed 5) (CallClaim 2085 (1, 2)) (crowd_run Root (CallAuctionSucceeded 2085) crowd_lost).
Example late_answer_fails_won_vault :
  phase (first_vault crowd_won_after) = Succeeded /\ balance (chain crowd_won_after) 201 5 = 500 /\
  phase (first_vault (crowd_answer 9 None crowd_won_after)) = Failed.
Proof. by vm_compute. Qed.
