(* ===== verification/LiquidTypes.v ===== *)
(** * Data of liquid staking (src/pallets/liquid-staking/src/types.rs and distribution.rs)

    The pool in which stakes and unstakes of an era are matched, the copies of the relay chain's
    staking ledgers, and the strategies that spread an amount over the derivative accounts.
    Plain [+], [-] and [+=] panic when they overflow. *)

From S2P Require Import Prelude Arith Frame.
From stdpp Require Import list sorting.
#[local] Open Scope Z_scope.

Abbreviation EraIndex := Z (only parsing).          (* u32 *)
Abbreviation DerivativeIndex := Z (only parsing).   (* u16 *)

Module LiquidTypes.

(** ** The matching pool *)

Record ReservableAmount := mkReservable { total : Balance; reserved : Balance }.
Definition free (a : ReservableAmount) : Res Balance :=
  ok_or (checked_sub (total a) (reserved a)) (Arithmetic Underflow).

Record MatchingLedger := mkMatching {
  total_stake_amount : ReservableAmount;
  total_unstake_amount : ReservableAmount;
}.
Definition MatchingLedger_default : MatchingLedger := mkMatching (mkReservable 0 0) (mkReservable 0 0).

(** [matching]: [(bond_amount, rebond_amount, unbond_amount)] *)
Definition matching (p : MatchingLedger) (unbonding_amount : Balance)
    : Res (Balance * Balance * Balance) :=
  total_free_stake_amount ← free (total_stake_amount p);
  total_free_unstake_amount ← free (total_unstake_amount p);
  if total_free_stake_amount <=? total_free_unstake_amount then
    unbond ← or_panic (checked_sub total_free_unstake_amount total_free_stake_amount);
    Ok (0, 0, unbond)
  else
    amount ← or_panic (checked_sub total_free_stake_amount total_free_unstake_amount);
    if amount <? unbonding_amount then Ok (0, amount, 0)
    else
      bond ← or_panic (checked_sub amount unbonding_amount);
      Ok (bond, unbonding_amount, 0).

(** One side of the pool *)
Definition add_total (a : ReservableAmount) (amount : Balance) : Res ReservableAmount :=
  t ← ok_or (checked_add (total a) amount) (Arithmetic Overflow);
  Ok (mkReservable t (reserved a)).
Definition sub_total (a : ReservableAmount) (amount : Balance) : Res ReservableAmount :=
  total_free ← free a;
  if total_free <? amount then Err (Arithmetic Underflow)
  else
    t ← ok_or (checked_sub (total a) amount) (Arithmetic Underflow);
    Ok (mkReservable t (reserved a)).
Definition set_lock (a : ReservableAmount) (amount : Balance) : Res ReservableAmount :=
  new_reserved ← ok_or (checked_add (reserved a) amount) (Arithmetic Overflow);
  if new_reserved >? total a then Err (Arithmetic Overflow)
  else Ok (mkReservable (total a) new_reserved).
Definition remove_lock (a : ReservableAmount) (amount : Balance) : Res ReservableAmount :=
  r ← ok_or (checked_sub (reserved a) amount) (Arithmetic Underflow);
  Ok (mkReservable (total a) r).

Definition on_stake (f : ReservableAmount -> Res ReservableAmount) (p : MatchingLedger) : Res MatchingLedger :=
  a ← f (total_stake_amount p); Ok (mkMatching a (total_unstake_amount p)).
Definition on_unstake (f : ReservableAmount -> Res ReservableAmount) (p : MatchingLedger) : Res MatchingLedger :=
  a ← f (total_unstake_amount p); Ok (mkMatching (total_stake_amount p) a).

Definition add_stake_amount (amount : Balance) : MatchingLedger -> Res MatchingLedger :=
  on_stake (fun a => add_total a amount).
Definition add_unstake_amount (amount : Balance) : MatchingLedger -> Res MatchingLedger :=
  on_unstake (fun a => add_total a amount).
Definition sub_stake_amount (amount : Balance) : MatchingLedger -> Res MatchingLedger :=
  on_stake (fun a => sub_total a amount).
Definition sub_unstake_amount (amount : Balance) : MatchingLedger -> Res MatchingLedger :=
  on_unstake (fun a => sub_total a amount).
Definition set_stake_amount_lock (amount : Balance) : MatchingLedger -> Res MatchingLedger :=
  on_stake (fun a => set_lock a amount).
Definition remove_stake_amount_lock (amount : Balance) : MatchingLedger -> Res MatchingLedger :=
  on_stake (fun a => remove_lock a amount).
Definition set_unstake_amount_lock (amount : Balance) : MatchingLedger -> Res MatchingLedger :=
  on_unstake (fun a => set_lock a amount).
Definition remove_unstake_amount_lock (amount : Balance) : MatchingLedger -> Res MatchingLedger :=
  on_unstake (fun a => remove_lock a amount).

Definition clear (p : MatchingLedger) : Res MatchingLedger :=
  total_free_stake_amount ← free (total_stake_amount p);
  total_free_unstake_amount ← free (total_unstake_amount p);
  if negb (total_free_stake_amount =? total_free_unstake_amount) then Ok p
  else
    s ← ok_or (checked_sub (total (total_stake_amount p)) total_free_stake_amount) (Arithmetic Underflow);
    u ← ok_or (checked_sub (total (total_unstake_amount p)) total_free_stake_amount) (Arithmetic Underflow);
    Ok (mkMatching (mkReservable s (reserved (total_stake_amount p)))
          (mkReservable u (reserved (total_unstake_amount p)))).

Definition consolidate_stake (amount : Balance) (p : MatchingLedger) : Res MatchingLedger :=
  p ← remove_stake_amount_lock amount p;
  p ← sub_stake_amount amount p;
  clear p.
Definition consolidate_unstake (amount : Balance) (p : MatchingLedger) : Res MatchingLedger :=
  p ← remove_unstake_amount_lock amount p;
  p ← sub_unstake_amount amount p;
  clear p.

(** ** Staking ledgers *)

Record UnlockChunk := mkChunk { value : Balance; era : EraIndex }.
#[global] Instance UnlockChunk_eq_dec : EqDecision UnlockChunk.
Proof. solve_decision. Defined.

Record StakingLedger := mkLedger {
  stash : AccountId;
  ledger_total : Balance;   (* total *)
  active : Balance;
  unlocking : list UnlockChunk;
  claimed_rewards : list EraIndex;
}.
Definition StakingLedger_new (stash : AccountId) (value : Balance) : StakingLedger :=
  mkLedger stash value value [] [].

(** [consolidate_unlocked]: the chunks that are kept, and the total without the others *)
Definition consolidate_unlocked (current_era : EraIndex) (l : StakingLedger) : StakingLedger :=
  let total := foldl (fun t chunk => if era chunk >? current_era then t else saturating_sub t (value chunk))
                 (ledger_total l) (unlocking l) in
  mkLedger (stash l) total (active l) (List.filter (fun chunk => era chunk >? current_era) (unlocking l))
    (claimed_rewards l).

(** The loop of [rebond] from the last chunk on.  When a chunk is split, the sum has reached the value
    and the loop ends. *)
Fixpoint rebond_loop (last_first : list UnlockChunk) (v unlocking_balance active : Balance)
    : Res (list UnlockChunk * Balance) :=
  match last_first with
  | [] => Ok ([], active)
  | last :: rest =>
      sum ← or_panic (checked_add unlocking_balance (value last));
      if sum <=? v then
        active ← or_panic (checked_add active (value last));
        if sum >=? v then Ok (rest, active) else rebond_loop rest v sum active
      else
        diff ← or_panic (checked_sub v unlocking_balance);
        active ← or_panic (checked_add active diff);
        left ← or_panic (checked_sub (value last) diff);
        Ok (mkChunk left (era last) :: rest, active)
  end.
Definition rebond (v : Balance) (l : StakingLedger) : Res StakingLedger :=
  '(chunks, active) ← rebond_loop (rev (unlocking l)) v 0 (active l);
  Ok (mkLedger (stash l) (ledger_total l) active (rev chunks) (claimed_rewards l)).

Definition bond_extra (v : Balance) (l : StakingLedger) : Res StakingLedger :=
  t ← or_panic (checked_add (ledger_total l) v);
  a ← or_panic (checked_add (active l) v);
  Ok (mkLedger (stash l) t a (unlocking l) (claimed_rewards l)).

(** One chunk per era, the latest last *)
Definition add_chunk (chunks : list UnlockChunk) (v : Balance) (target_era : EraIndex) : list UnlockChunk :=
  match rev chunks with
  | last :: rest =>
      if era last =? target_era then rev rest ++ [mkChunk (saturating_add (value last) v) (era last)]
      else chunks ++ [mkChunk v target_era]
  | [] => [mkChunk v target_era]
  end.
Definition unbond (v : Balance) (target_era : EraIndex) (l : StakingLedger) : Res StakingLedger :=
  let chunks := add_chunk (unlocking l) v target_era in
  a ← or_panic (checked_sub (active l) v);
  Ok (mkLedger (stash l) (ledger_total l) a chunks (claimed_rewards l)).

Inductive UnstakeProvider := RelayChain | LoansProvider | MatchingPoolProvider.
Definition is_relay_chain (p : UnstakeProvider) : bool := match p with RelayChain => true | _ => false end.
Definition is_loans (p : UnstakeProvider) : bool := match p with LoansProvider => true | _ => false end.
Definition is_matching_pool (p : UnstakeProvider) : bool :=
  match p with MatchingPoolProvider => true | _ => false end.

(** ** Distribution strategies *)

Class DistributionStrategy := {
  get_bond_distributions : list (DerivativeIndex * Balance * Balance) -> Balance -> Balance -> Balance ->
    list (DerivativeIndex * Balance);
  get_unbond_distributions : list (DerivativeIndex * Balance) -> Balance -> Balance ->
    list (DerivativeIndex * Balance);
  get_rebond_distributions : list (DerivativeIndex * Balance) -> Balance -> list (DerivativeIndex * Balance);
}.

Definition average_bond (bonded_amounts : list (DerivativeIndex * Balance * Balance))
    (input cap min_nominator_bond : Balance) : list (DerivativeIndex * Balance) :=
  let length := Z.of_nat (length bonded_amounts) in
  if length =? 0 then []
  else
    let amount := default 0 (checked_div input length) in
    omap (fun '(index, active_bonded, total_bonded) =>
      if saturating_add amount active_bonded <? min_nominator_bond then None
      else
        let amount := Z.min (saturating_sub cap total_bonded) amount in
        if amount =? 0 then None else Some (index, amount)) bonded_amounts.
Definition average_unbond (active_bonded_amounts : list (DerivativeIndex * Balance))
    (input min_nominator_bond : Balance) : list (DerivativeIndex * Balance) :=
  let length := Z.of_nat (length active_bonded_amounts) in
  if length =? 0 then []
  else
    let amount := default 0 (checked_div input length) in
    omap (fun '(index, bonded) =>
      if saturating_sub bonded amount <? min_nominator_bond then None
      else if amount =? 0 then None else Some (index, amount)) active_bonded_amounts.
(** [amount] is lowered by every account it meets *)
Fixpoint average_rebond_loop (amount : Balance) (unbonding_amounts : list (DerivativeIndex * Balance))
    : list (DerivativeIndex * Balance) :=
  match unbonding_amounts with
  | [] => []
  | (index, unbonding) :: rest =>
      let amount := Z.min amount unbonding in
      if amount =? 0 then average_rebond_loop amount rest
      else (index, amount) :: average_rebond_loop amount rest
  end.
Definition average_rebond (unbonding_amounts : list (DerivativeIndex * Balance)) (input : Balance)
    : list (DerivativeIndex * Balance) :=
  let length := Z.of_nat (length unbonding_amounts) in
  if length =? 0 then []
  else average_rebond_loop (default 0 (checked_div input length)) unbonding_amounts.
Definition AverageDistribution : DistributionStrategy := {|
  get_bond_distributions := average_bond;
  get_unbond_distributions := average_unbond;
  get_rebond_distributions := average_rebond |}.

Definition by_active (a b : DerivativeIndex * Balance * Balance) : Prop := a.1.2 <= b.1.2.
Definition by_bonded (a b : DerivativeIndex * Balance) : Prop := b.2 <= a.2.
#[global] Instance by_active_dec : RelDecision by_active.
Proof. intros a b. unfold by_active. apply _. Defined.
#[global] Instance by_bonded_dec : RelDecision by_bonded.
Proof. intros a b. unfold by_bonded. apply _. Defined.

Fixpoint max_min_bond_loop (remain cap min_nominator_bond : Balance)
    (bonded_amounts : list (DerivativeIndex * Balance * Balance)) : list (DerivativeIndex * Balance) :=
  match bonded_amounts with
  | [] => []
  | (index, active_bonded, total_bonded) :: rest =>
      if remain =? 0 then []
      else
        let amount := Z.min (saturating_sub cap total_bonded) remain in
        if amount =? 0 then []
        else if saturating_add amount active_bonded <? min_nominator_bond
             then max_min_bond_loop remain cap min_nominator_bond rest
             else (index, amount) :: max_min_bond_loop (saturating_sub remain amount) cap min_nominator_bond rest
  end.
(** The loop of [get_unbond_distributions] and [get_rebond_distributions]; [room] is what an account
    can give *)
Fixpoint max_min_loop (remain : Balance) (amounts : list (DerivativeIndex * Balance))
    (room : Balance -> Balance) : list (DerivativeIndex * Balance) :=
  match amounts with
  | [] => []
  | (index, bonded) :: rest =>
      if remain =? 0 then []
      else
        let amount := Z.min remain (room bonded) in
        if amount =? 0 then max_min_loop remain rest room
        else (index, amount) :: max_min_loop (saturating_sub remain amount) rest room
  end.
Definition max_min_bond (bonded_amounts : list (DerivativeIndex * Balance * Balance))
    (input cap min_nominator_bond : Balance) : list (DerivativeIndex * Balance) :=
  max_min_bond_loop input cap min_nominator_bond (merge_sort by_active bonded_amounts).
Definition max_min_unbond (active_bonded_amounts : list (DerivativeIndex * Balance))
    (input min_nominator_bond : Balance) : list (DerivativeIndex * Balance) :=
  max_min_loop input (merge_sort by_bonded active_bonded_amounts)
    (fun bonded => saturating_sub bonded min_nominator_bond).
Definition max_min_rebond (unbonding_amounts : list (DerivativeIndex * Balance)) (input : Balance)
    : list (DerivativeIndex * Balance) :=
  max_min_loop input (merge_sort by_bonded unbonding_amounts) (fun unbonding => unbonding).
Definition MaxMinDistribution : DistributionStrategy := {|
  get_bond_distributions := max_min_bond;
  get_unbond_distributions := max_min_unbond;
  get_rebond_distributions := max_min_rebond |}.

End LiquidTypes.
