(* ===== verification/LiquidPool.v ===== *)
(** * The matching pool, staking ledgers and distributions

    What the data of liquid staking guarantees by itself: locks never exceed the amounts they are
    part of, a match leaves nothing over, ledgers stay balanced and a distribution stays within its
    bounds. *)

From S2P Require Import Prelude Arith Frame LiquidTypes.
From stdpp Require Import list sorting.
Import LiquidTypes.
#[local] Open Scope Z_scope.

(** ** The matching pool *)

Definition amount_ok (a : ReservableAmount) : Prop := 0 <= reserved a <= total a.
Definition pool_ok (p : MatchingLedger) : Prop :=
  amount_ok (total_stake_amount p) /\ amount_ok (total_unstake_amount p).

Lemma free_Ok a n : free a = Ok n -> n = total a - reserved a.
Proof. unfold free. intros H. minv. done. Qed.
Lemma free_ok a : amount_ok a -> free a = Ok (total a - reserved a).
Proof. intros Ha. unfold free, amount_ok in *. rewrite checked_sub_ok by lia. done. Qed.

(** What an operation does to the totals and the locks of the two sides *)
Definition moves (p p' : MatchingLedger) (st sr ut ur : Z) : Prop :=
  total (total_stake_amount p') = total (total_stake_amount p) + st /\
  reserved (total_stake_amount p') = reserved (total_stake_amount p) + sr /\
  total (total_unstake_amount p') = total (total_unstake_amount p) + ut /\
  reserved (total_unstake_amount p') = reserved (total_unstake_amount p) + ur.

Ltac pool_op :=
  intros; unfold add_stake_amount, add_unstake_amount, sub_stake_amount, sub_unstake_amount,
    set_stake_amount_lock, set_unstake_amount_lock, remove_stake_amount_lock, remove_unstake_amount_lock,
    on_stake, on_unstake, add_total, sub_total, set_lock, remove_lock in *; minv;
  repeat (case_match; minv); zbool; repeat match goal with H : free _ = Ok _ |- _ => apply free_Ok in H as -> end;
  unfold pool_ok, amount_ok, moves in *; cbn in *; lia.

Lemma add_stake_Ok n p p' : add_stake_amount n p = Ok p' -> 0 <= n -> pool_ok p -> pool_ok p' /\ moves p p' n 0 0 0.
Proof. pool_op. Qed.
Lemma add_unstake_Ok n p p' : add_unstake_amount n p = Ok p' -> 0 <= n -> pool_ok p -> pool_ok p' /\ moves p p' 0 0 n 0.
Proof. pool_op. Qed.
Lemma sub_stake_Ok n p p' : sub_stake_amount n p = Ok p' -> 0 <= n -> pool_ok p -> pool_ok p' /\ moves p p' (- n) 0 0 0.
Proof. pool_op. Qed.
Lemma sub_unstake_Ok n p p' : sub_unstake_amount n p = Ok p' -> 0 <= n -> pool_ok p -> pool_ok p' /\ moves p p' 0 0 (- n) 0.
Proof. pool_op. Qed.
Lemma set_stake_lock_Ok n p p' : set_stake_amount_lock n p = Ok p' -> 0 <= n -> pool_ok p -> pool_ok p' /\ moves p p' 0 n 0 0.
Proof. pool_op. Qed.
Lemma set_unstake_lock_Ok n p p' : set_unstake_amount_lock n p = Ok p' -> 0 <= n -> pool_ok p -> pool_ok p' /\ moves p p' 0 0 0 n.
Proof. pool_op. Qed.
Lemma remove_stake_lock_Ok n p p' : remove_stake_amount_lock n p = Ok p' -> 0 <= n -> pool_ok p -> pool_ok p' /\ moves p p' 0 (- n) 0 0.
Proof. pool_op. Qed.
Lemma remove_unstake_lock_Ok n p p' : remove_unstake_amount_lock n p = Ok p' -> 0 <= n -> pool_ok p -> pool_ok p' /\ moves p p' 0 0 0 (- n).
Proof. pool_op. Qed.

(** [clear] takes the same amount off both totals, and always succeeds. *)
Lemma clear_Ok p p' : clear p = Ok p' -> pool_ok p -> pool_ok p' /\ exists c, 0 <= c /\ moves p p' (- c) 0 (- c) 0.
Proof.
  intros H Hp. unfold clear in H. minv. repeat match goal with H : free _ = Ok _ |- _ => apply free_Ok in H as -> end.
  case_match; minv; zbool; unfold pool_ok, amount_ok, moves in *; cbn.
  - split; [lia |]. exists 0. lia.
  - split; [lia |]. exists (total (total_stake_amount p) - reserved (total_stake_amount p)). lia.
Qed.

Lemma consolidate_stake_Ok n p p' : consolidate_stake n p = Ok p' -> 0 <= n -> pool_ok p ->
  pool_ok p' /\ exists c, 0 <= c /\ moves p p' (- n - c) (- n) (- c) 0.
Proof.
  intros H Hn Hp. unfold consolidate_stake in H. minv.
  match goal with H1 : remove_stake_amount_lock _ _ = _, H2 : sub_stake_amount _ _ = _, H3 : clear _ = _ |- _ =>
    apply remove_stake_lock_Ok in H1 as [Hp1 M1]; [| done..]; apply sub_stake_Ok in H2 as [Hp2 M2]; [| done..];
    apply clear_Ok in H3 as [Hp3 (c & Hc & M3)]; [| done] end.
  split; [done |]. exists c. unfold moves in *. lia.
Qed.
Lemma consolidate_unstake_Ok n p p' : consolidate_unstake n p = Ok p' -> 0 <= n -> pool_ok p ->
  pool_ok p' /\ exists c, 0 <= c /\ moves p p' (- c) 0 (- n - c) (- n).
Proof.
  intros H Hn Hp. unfold consolidate_unstake in H. minv.
  match goal with H1 : remove_unstake_amount_lock _ _ = _, H2 : sub_unstake_amount _ _ = _, H3 : clear _ = _ |- _ =>
    apply remove_unstake_lock_Ok in H1 as [Hp1 M1]; [| done..]; apply sub_unstake_Ok in H2 as [Hp2 M2]; [| done..];
    apply clear_Ok in H3 as [Hp3 (c & Hc & M3)]; [| done] end.
  split; [done |]. exists c. unfold moves in *. lia.
Qed.

Lemma matching_nonneg p n b r u : matching p n = Ok (b, r, u) -> 0 <= n -> 0 <= b /\ 0 <= r /\ 0 <= u.
Proof.
  intros H Hn. unfold matching in H. minv. repeat (case_match; minv); zbool; lia.
Qed.

(** Matching always has an answer, and the answer settles the era: what is bonded and rebonded, less what is
    unbonded, is the difference of the free stakes and unstakes; the pool either bonds or unbonds, never both;
    it rebonds what is unbonding before it bonds anything new; and no amount exceeds what asked for it. *)
Theorem matching_settles p unbonding :
  pool_ok p -> 0 <= unbonding ->
  exists b r u, matching p unbonding = Ok (b, r, u) /\
    b + r - u = (total (total_stake_amount p) - reserved (total_stake_amount p))
                - (total (total_unstake_amount p) - reserved (total_unstake_amount p)) /\
    0 <= b /\ 0 <= u /\ 0 <= r <= unbonding /\ (u = 0 \/ b + r = 0) /\ (b = 0 \/ r = unbonding) /\
    b + r <= total (total_stake_amount p) /\ u <= total (total_unstake_amount p).
Proof.
  intros [Hs Hu] Hn. unfold matching. rewrite (free_ok _ Hs), (free_ok _ Hu). cbn. unfold amount_ok in *.
  case_match; zbool; [rewrite checked_sub_ok by lia; cbn; eexists 0, 0, _; split; [done |]; lia |].
  rewrite checked_sub_ok by lia. cbn. case_match; zbool; [eexists 0, _, 0; split; [done |]; lia |].
  rewrite checked_sub_ok by lia. cbn. eexists _, _, 0. split; [done |]. lia.
Qed.
Lemma matching_settles_witness :
  matching (mkMatching (mkReservable 100 20) (mkReservable 30 0)) 40 = Ok (10, 40, 0) /\
  exists b r u, matching (mkMatching (mkReservable 100 20) (mkReservable 30 0)) 40 = Ok (b, r, u) /\ b + r - u = 50.
Proof.
  split; [done |].
  destruct (matching_settles (mkMatching (mkReservable 100 20) (mkReservable 30 0)) 40) as (b & r & u & H & E & _);
    [by split; vm_compute | done |]. by exists b, r, u.
Defined.

(** ** Staking ledgers *)

Abbreviation chunks_sum := (sum_list_Z value).
Abbreviation chunks_ok := (Forall (fun c => 0 <= value c)).
Record ledger_ok (l : StakingLedger) : Prop := {
  lo_active : 0 <= active l;
  lo_chunks : chunks_ok (unlocking l);
  lo_total : ledger_total l = active l + chunks_sum (unlocking l);
  lo_range : ledger_total l <= u128_max;
}.

Lemma chunks_sum_cons c l : chunks_sum (c :: l) = value c + chunks_sum l.
Proof. done. Qed.
Lemma chunks_sum_nil : chunks_sum [] = 0.
Proof. done. Qed.
#[local] Arguments sum_list_Z : simpl never.
Lemma chunks_sum_rev l : chunks_sum (rev l) = chunks_sum l.
Proof. induction l as [|c l IH]; [done |]. cbn [rev]. rewrite sum_list_app, IH, !chunks_sum_cons, chunks_sum_nil. lia. Qed.
Lemma chunks_ok_sum l : chunks_ok l -> 0 <= chunks_sum l.
Proof. apply sum_list_nonneg. Qed.
Lemma Forall_rev' {A} (P : A -> Prop) l : Forall P l -> Forall P (rev l).
Proof. rewrite !List.Forall_forall. intros H x Hx%in_rev. auto. Qed.

(** What rebonding means: [n] is taken from the newest chunks on (here the first ones). *)
Fixpoint take_newest (l : list UnlockChunk) (n : Balance) : list UnlockChunk :=
  match l with
  | [] => []
  | c :: rest =>
      if n =? 0 then l
      else if value c <=? n then take_newest rest (n - value c) else mkChunk (value c - n) (era c) :: rest
  end.
Lemma take_newest_zero l : take_newest l 0 = l.
Proof. by destruct l. Qed.
Lemma take_newest_sum l : forall n, chunks_ok l -> 0 <= n ->
  chunks_ok (take_newest l n) /\ chunks_sum (take_newest l n) = chunks_sum l - Z.min n (chunks_sum l).
Proof.
  induction l as [|c l IH]; intros n Hl Hn; [cbn; rewrite chunks_sum_nil; split; [done | lia] |].
  pose proof (chunks_ok_sum _ Hl) as Hp. inversion Hl as [|? ? Hc Hl']; subst. pose proof (chunks_ok_sum _ Hl').
  rewrite chunks_sum_cons in *. cbn [take_newest]. repeat case_match; zbool.
  - split; [done |]. rewrite chunks_sum_cons. lia.
  - destruct (IH (n - value c) Hl' ltac:(lia)) as [Hk Hs]. split; [done |]. lia.
  - split; [constructor; cbn; [lia | done] |]. rewrite chunks_sum_cons. cbn. lia.
Qed.

Lemma rebond_loop_ok v : forall l u a,
  chunks_ok l -> 0 <= u < v -> 0 <= a -> u + chunks_sum l <= u128_max -> a + chunks_sum l <= u128_max ->
  rebond_loop l v u a = Ok (take_newest l (v - u), a + Z.min (v - u) (chunks_sum l)).
Proof.
  induction l as [|c l IH]; intros u a Hl Hu Ha Hs Has; [cbn; rewrite chunks_sum_nil; do 2 f_equal; lia |].
  inversion Hl as [|? ? Hc Hl']; subst. pose proof (chunks_ok_sum _ Hl'). rewrite chunks_sum_cons in *.
  specialize (IH (u + value c) (a + value c) Hl'). set (rest := chunks_sum l) in *.
  cbn [rebond_loop take_newest]. rewrite (checked_add_ok u) by lia. cbn.
  replace (v - u =? 0) with false by (symmetry; apply Z.eqb_neq; lia).
  destruct (Z.leb_spec (u + value c) v) as [Hle|Hgt].
  - rewrite (checked_add_ok a) by lia. cbn. replace (value c <=? v - u) with true by (symmetry; apply Z.leb_le; lia).
    replace (u + value c <=? v) with true by (symmetry; apply Z.leb_le; lia).
    destruct (u + value c >=? v) eqn:He; zbool.
    + replace (v - u - value c) with 0 by lia. rewrite take_newest_zero. do 2 f_equal. lia.
    + rewrite IH by lia. replace (v - (u + value c)) with (v - u - value c) by lia. do 2 f_equal. lia.
  - replace (value c <=? v - u) with false by (symmetry; apply Z.leb_gt; lia).
    replace (u + value c <=? v) with false by (symmetry; apply Z.leb_gt; lia).
    rewrite (checked_sub_ok v) by lia. cbn. rewrite checked_add_ok by lia. cbn. rewrite checked_sub_ok by lia. cbn.
    do 2 f_equal. lia.
Qed.

(** C39: [rebond] never panics and is what rebonding means: of a balanced ledger it makes active the given value, or all
    that is unlocking if that is less, and takes it from the newest chunks on, splitting one where it must; the
    total stays. *)
Theorem rebond_takes_newest v l :
  ledger_ok l -> 0 < v ->
  rebond v l = Ok (mkLedger (stash l) (ledger_total l) (active l + Z.min v (chunks_sum (unlocking l)))
                     (rev (take_newest (rev (unlocking l)) v)) (claimed_rewards l)).
Proof.
  intros [Ha Hc Ht Hr] Hv. unfold rebond. pose proof (Forall_rev' _ _ Hc) as Hc'. pose proof (chunks_ok_sum _ Hc).
  rewrite rebond_loop_ok; rewrite ?chunks_sum_rev; [| done | lia..]. cbn. rewrite Z.sub_0_r. done.
Qed.
Lemma rebond_takes_newest_witness :
  rebond 70 (mkLedger 9 200 100 [mkChunk 40 5; mkChunk 60 6] []) =
    Ok (mkLedger 9 200 170 [mkChunk 30 5] []).
Proof.
  apply (rebond_takes_newest 70 (mkLedger 9 200 100 [mkChunk 40 5; mkChunk 60 6] [])); [| done].
  constructor; cbn; [done | by repeat constructor | done | by vm_compute].
Defined.

(** Every operation keeps a ledger balanced. *)
Lemma rebond_ledger v l l' : rebond v l = Ok l' -> ledger_ok l -> 0 < v -> ledger_ok l'.
Proof.
  intros H Hl Hv. unfold rebond in H.
  destruct Hl as [Ha Hc Ht Hr]. pose proof (Forall_rev' _ _ Hc) as Hc'. pose proof (chunks_ok_sum _ Hc).
  rewrite rebond_loop_ok in H; rewrite ?chunks_sum_rev in *; [| done | lia..]. cbn in H. minv.
  destruct (take_newest_sum (rev (unlocking l)) (v - 0) Hc' ltac:(lia)) as [H1 H2]. rewrite chunks_sum_rev in H2.
  constructor; cbn; [lia | by apply Forall_rev' | rewrite chunks_sum_rev; lia | done].
Qed.
Lemma bond_extra_ledger v l l' : bond_extra v l = Ok l' -> ledger_ok l -> 0 <= v -> ledger_ok l'.
Proof. intros H [Ha Hc Ht Hr] Hv. unfold bond_extra in H. minv. constructor; cbn; [lia | done | lia | lia]. Qed.
Lemma new_ledger a v : 0 <= v <= u128_max -> ledger_ok (StakingLedger_new a v).
Proof. intros Hv. constructor; cbn; rewrite ?chunks_sum_nil; [lia | done | lia | lia]. Qed.

Lemma add_chunk_sum l v e : chunks_ok l -> 0 <= v -> chunks_sum l + v <= u128_max ->
  chunks_ok (add_chunk l v e) /\ chunks_sum (add_chunk l v e) = chunks_sum l + v.
Proof.
  intros Hl Hv Hs. unfold add_chunk. destruct (rev l) as [|c r] eqn:Hr.
  { apply (f_equal (@rev _)) in Hr. rewrite rev_involutive in Hr. subst l. rewrite chunks_sum_cons, chunks_sum_nil. cbn. split; [| rewrite chunks_sum_nil; lia].
    by constructor; [| constructor]. }
  apply (f_equal (@rev _)) in Hr. rewrite rev_involutive in Hr. cbn in Hr. subst l.
  apply Forall_app in Hl as [Hl1 Hl2]. inversion Hl2 as [|? ? Hc _]; subst.
  rewrite sum_list_app, chunks_sum_cons, chunks_sum_nil in Hs. pose proof (chunks_ok_sum _ Hl1).
  case_match; rewrite !sum_list_app, !chunks_sum_cons, ?chunks_sum_nil; cbn; unfold saturating_add.
  - split; [apply Forall_app; split; [done |]; constructor; cbn; [lia | done] | lia].
  - split; [| lia]. rewrite !Forall_app. split; [by split; [| constructor] | by constructor; [| constructor]].
Qed.
Lemma add_chunk_ok l v e : chunks_ok l -> 0 <= v -> chunks_ok (add_chunk l v e).
Proof.
  intros Hl Hv. unfold add_chunk. destruct (rev l) as [|c r] eqn:Hr; [by constructor |].
  apply (f_equal (@rev _)) in Hr. rewrite rev_involutive in Hr. cbn in Hr. subst l.
  apply Forall_app in Hl as [Hl1 Hl2]. inversion Hl2 as [|? ? Hc _]; subst.
  case_match; rewrite ?Forall_app; [| by repeat split; repeat constructor]. split; [done |].
  constructor; [| done]. cbn. unfold saturating_add, u128_max. lia.
Qed.
Lemma unbond_ledger v e l l' : unbond v e l = Ok l' -> ledger_ok l -> 0 <= v -> ledger_ok l'.
Proof.
  intros H [Ha Hc Ht Hr] Hv. unfold unbond in H. minv.
  destruct (add_chunk_sum (unlocking l) v e Hc Hv ltac:(lia)) as [H1 H2]. constructor; cbn; [lia | done | lia | done].
Qed.

Lemma consolidate_sum e l : forall t, chunks_ok l -> chunks_sum l <= t ->
  foldl (fun t chunk => if era chunk >? e then t else saturating_sub t (value chunk)) t l =
    t - chunks_sum l + chunks_sum (List.filter (fun c => era c >? e) l).
Proof.
  induction l as [|c l IH]; intros t Hl Ht; [cbn; rewrite chunks_sum_nil; lia |]. inversion Hl as [|? ? Hc Hl']; subst.
  pose proof (chunks_ok_sum _ Hl'). rewrite chunks_sum_cons in *. cbn [foldl List.filter].
  destruct (era c >? e); rewrite ?chunks_sum_cons, IH by (done || unfold saturating_sub; lia); unfold saturating_sub; lia.
Qed.
Lemma filter_chunks_ok f l : chunks_ok l -> chunks_ok (List.filter f l).
Proof. rewrite !List.Forall_forall. intros H c [Hc _]%List.filter_In. auto. Qed.
Lemma filter_chunks_sum f l : chunks_ok l -> chunks_sum (List.filter f l) <= chunks_sum l.
Proof.
  induction 1 as [|c l Hc Hl IH]; [done |]. cbn [List.filter]. case_match; rewrite ?chunks_sum_cons; lia.
Qed.
Lemma consolidate_ledger e l : ledger_ok l -> ledger_ok (consolidate_unlocked e l).
Proof.
  intros [Ha Hc Ht Hr]. pose proof (filter_chunks_sum (fun c => era c >? e) _ Hc).
  unfold consolidate_unlocked. rewrite consolidate_sum by (done || lia).
  constructor; cbn; [done | by apply filter_chunks_ok | lia | lia].
Qed.

(** ** Distributions *)

Abbreviation amounts_sum := (sum_list_Z (fun p : DerivativeIndex * Balance => p.2)).
Abbreviation amounts_ok := (Forall (fun p : DerivativeIndex * Balance => 0 <= p.2)).

(** What the pallet relies on: no more is distributed than there is. *)
Class DistributionLaws (DS : DistributionStrategy) : Prop := {
  bond_distribution l input cap m : 0 <= input ->
    amounts_ok (get_bond_distributions l input cap m) /\ amounts_sum (get_bond_distributions l input cap m) <= input;
  unbond_distribution l input m : 0 <= input ->
    amounts_ok (get_unbond_distributions l input m) /\ amounts_sum (get_unbond_distributions l input m) <= input;
  rebond_distribution l input : 0 <= input -> amounts_ok l ->
    amounts_ok (get_rebond_distributions l input) /\ amounts_sum (get_rebond_distributions l input) <= input;
}.

Lemma amounts_sum_cons i n l : amounts_sum ((i, n) :: l) = n + amounts_sum l.
Proof. done. Qed.
Lemma amounts_sum_nil : amounts_sum [] = 0.
Proof. done. Qed.
#[local] Arguments sum_list_Z : simpl never.
Lemma sum_list_perm {A} (f : A -> Z) l l' : l ≡ₚ l' -> sum_list_Z f l = sum_list_Z f l'.
Proof. intros Hp. unfold sum_list_Z. induction Hp; cbn; lia. Qed.

(** *** Equal shares *)

Lemma share_nonneg input n : 0 <= input -> 0 <= default 0 (checked_div input (Z.of_nat n)).
Proof. intros Hi. destruct (checked_div _ _) eqn:H; cbn; [| lia]. minv. apply Z.div_pos; lia. Qed.
Lemma share_total input n : 0 <= input -> Z.of_nat n * default 0 (checked_div input (Z.of_nat n)) <= input.
Proof. intros Hi. destruct (checked_div _ _) eqn:H; cbn; [| lia]. minv. apply Z.mul_div_le. lia. Qed.

Lemma omap_share {A} (f : A -> option (DerivativeIndex * Balance)) amount l :
  0 <= amount -> (forall x p, f x = Some p -> 0 <= p.2 <= amount) ->
  amounts_ok (omap f l) /\ amounts_sum (omap f l) <= Z.of_nat (length l) * amount.
Proof.
  intros Ha Hf. induction l as [|x l [IH1 IH2]]; [cbn; rewrite amounts_sum_nil; split; [done | lia] |]. cbn -[Z.of_nat].
  destruct (f x) as [[i n]|] eqn:Hx; cbn -[Z.of_nat].
  - apply Hf in Hx. cbn in Hx. rewrite amounts_sum_cons. split; [constructor; cbn; [lia | done] | lia].
  - split; [done | lia].
Qed.

Lemma average_rebond_loop_ok amount l : 0 <= amount -> amounts_ok l ->
  amounts_ok (average_rebond_loop amount l) /\ amounts_sum (average_rebond_loop amount l) <= Z.of_nat (length l) * amount.
Proof.
  revert amount. induction l as [|[i n] l IH]; intros amount Ha Hl; [cbn; rewrite amounts_sum_nil; split; [done | lia] |].
  inversion Hl as [|? ? Hn Hl']; subst. cbn in Hn. cbn -[Z.of_nat].
  destruct (IH (Z.min amount n) ltac:(lia) Hl') as [IH1 IH2].
  case_match; [split; [done | nia] |]. rewrite amounts_sum_cons. split; [constructor; cbn; [lia | done] | nia].
Qed.

Lemma average_laws : DistributionLaws AverageDistribution.
Proof.
  constructor; cbn; unfold average_bond, average_unbond, average_rebond; intros.
  - case_match; [rewrite amounts_sum_nil; split; [done | lia] |].
    pose proof (share_nonneg input (length l) ltac:(done)) as Hs. pose proof (share_total input (length l) ltac:(done)) as Ht.
    destruct (omap_share (fun '(index, active_bonded, total_bonded) =>
      if saturating_add (default 0 (checked_div input (Z.of_nat (length l)))) active_bonded <? m then None
      else if Z.min (saturating_sub cap total_bonded) (default 0 (checked_div input (Z.of_nat (length l)))) =? 0 then None
      else Some (index, Z.min (saturating_sub cap total_bonded) (default 0 (checked_div input (Z.of_nat (length l)))))) _ l Hs)
      as [Hok Hle]; [| split; [done | lia]].
    intros [[i a] t] p Hp. repeat case_match; simplify_eq. cbn. unfold saturating_sub. lia.
  - case_match; [rewrite amounts_sum_nil; split; [done | lia] |].
    pose proof (share_nonneg input (length l) ltac:(done)) as Hs. pose proof (share_total input (length l) ltac:(done)) as Ht.
    destruct (omap_share (fun '(index, bonded) =>
      if saturating_sub bonded (default 0 (checked_div input (Z.of_nat (length l)))) <? m then None
      else if default 0 (checked_div input (Z.of_nat (length l))) =? 0 then None
      else Some (index, default 0 (checked_div input (Z.of_nat (length l))))) _ l Hs) as [Hok Hle]; [| split; [done | lia]].
    intros [i b] p Hp. repeat case_match; simplify_eq. cbn. lia.
  - case_match; [rewrite amounts_sum_nil; split; [done | lia] |].
    pose proof (share_nonneg input (length l) ltac:(done)) as Hs. pose proof (share_total input (length l) ltac:(done)) as Ht.
    destruct (average_rebond_loop_ok _ l Hs ltac:(done)) as [Hok Hle]. split; [done | lia].
Qed.

(** *** Filling up the smallest, emptying the largest *)

Lemma max_min_loop_ok room l : forall remain, Forall (fun p => 0 <= room p.2) l -> 0 <= remain ->
  amounts_sum (max_min_loop remain l room) = Z.min remain (sum_list_Z (fun p => room p.2) l) /\
  forall i n, (i, n) ∈ max_min_loop remain l room -> exists b, (i, b) ∈ l /\ 0 < n <= room b.
Proof.
  induction l as [|[i b] l IH]; intros remain Hl Hr.
  { cbn. rewrite amounts_sum_nil. split; [unfold sum_list_Z; cbn; lia |]. by intros i n Hn%elem_of_nil. }
  inversion Hl as [|? ? Hb Hl']; subst. cbn in Hb. cbn [max_min_loop].
  change (sum_list_Z (fun p => room p.2) ((i, b) :: l)) with (room b + sum_list_Z (fun p => room p.2) l).
  pose proof (sum_list_nonneg (fun p : DerivativeIndex * Balance => room p.2) l Hl') as Hsum.
  case_match; zbool; [rewrite amounts_sum_nil; split; [lia |]; by intros j n Hn%elem_of_nil |].
  case_match; zbool.
  - destruct (IH remain Hl' Hr) as [IH1 IH2]. split; [lia |].
    intros j n Hn. destruct (IH2 j n Hn) as (b' & ? & ?). exists b'. split; [by right | done].
  - destruct (IH (saturating_sub remain (Z.min remain (room b))) Hl' ltac:(unfold saturating_sub; lia)) as [IH1 IH2].
    rewrite amounts_sum_cons, IH1. split; [unfold saturating_sub; lia |].
    intros j n [[= -> ->]|Hn]%elem_of_cons; [exists b; split; [by left | lia] |].
    destruct (IH2 j n Hn) as (b' & ? & ?). exists b'. split; [by right | done].
Qed.

Lemma max_min_bond_loop_ok cap m l : forall remain, 0 <= remain ->
  amounts_sum (max_min_bond_loop remain cap m l) <= remain /\
  forall i n, (i, n) ∈ max_min_bond_loop remain cap m l ->
    exists a t, (i, a, t) ∈ l /\ 0 < n /\ n + t <= cap /\ m <= n + a.
Proof.
  induction l as [|[[i a] t] l IH]; intros remain Hr.
  { cbn. rewrite amounts_sum_nil. split; [lia |]. by intros i n Hn%elem_of_nil. }
  cbn [max_min_bond_loop].
  case_match; zbool; [rewrite amounts_sum_nil; split; [lia |]; by intros j n Hn%elem_of_nil |].
  case_match; zbool; [rewrite amounts_sum_nil; split; [lia |]; by intros j n Hn%elem_of_nil |].
  case_match; zbool.
  - destruct (IH remain Hr) as [IH1 IH2]. split; [lia |].
    intros j n Hn. destruct (IH2 j n Hn) as (a' & t' & ? & ?). exists a', t'. split; [by right | done].
  - unfold saturating_sub, saturating_add in *.
    destruct (IH (Z.max 0 (remain - Z.min (Z.max 0 (cap - t)) remain)) ltac:(lia)) as [IH1 IH2].
    rewrite amounts_sum_cons. split; [lia |].
    intros j n [[= -> ->]|Hn]%elem_of_cons; [exists a, t; split; [by left | lia] |].
    destruct (IH2 j n Hn) as (a' & t' & ? & ?). exists a', t'. split; [by right | done].
Qed.

Lemma positive_amounts l : (forall i n, (i, n) ∈ l -> 0 < n) -> amounts_ok l.
Proof. intros H. apply Forall_forall. intros [i n] Hn. apply H in Hn. cbn. lia. Qed.
Lemma max_min_unbond_ok l input m : 0 <= input ->
  amounts_sum (max_min_unbond l input m) = Z.min input (sum_list_Z (fun p => saturating_sub p.2 m) l) /\
  forall i n, (i, n) ∈ max_min_unbond l input m -> exists b, (i, b) ∈ l /\ 0 < n /\ m <= b - n.
Proof.
  intros Hi. unfold max_min_unbond. pose proof (merge_sort_Permutation by_bonded l) as Hp.
  destruct (max_min_loop_ok (fun b => saturating_sub b m) (merge_sort by_bonded l) input) as [H1 H2];
    [by apply Forall_forall; intros; unfold saturating_sub; lia | done |].
  split; [by rewrite H1, (sum_list_perm _ _ _ Hp) |].
  intros i n Hn. destruct (H2 i n Hn) as (b & Hb & Hr). exists b. rewrite <- Hp. unfold saturating_sub in Hr.
  split; [done | lia].
Qed.
Lemma max_min_rebond_ok l input : 0 <= input -> amounts_ok l ->
  amounts_sum (max_min_rebond l input) = Z.min input (amounts_sum l) /\
  forall i n, (i, n) ∈ max_min_rebond l input -> exists b, (i, b) ∈ l /\ 0 < n <= b.
Proof.
  intros Hi Hl. unfold max_min_rebond. pose proof (merge_sort_Permutation by_bonded l) as Hp.
  destruct (max_min_loop_ok (fun b => b) (merge_sort by_bonded l) input) as [H1 H2]; [by rewrite Hp | done |].
  split; [by rewrite H1, (sum_list_perm _ _ _ Hp) |].
  intros i n Hn. destruct (H2 i n Hn) as (b & Hb & Hr). exists b. by rewrite <- Hp.
Qed.

Lemma max_min_laws : DistributionLaws MaxMinDistribution.
Proof.
  constructor; cbn; intros.
  - destruct (max_min_bond_loop_ok cap m (merge_sort by_active l) input ltac:(done)) as [H1 H2]. split; [| done].
    apply positive_amounts. intros i n Hn. destruct (H2 i n Hn) as (a & t & _ & ? & _). done.
  - destruct (max_min_unbond_ok l input m ltac:(done)) as [H1 H2]. split; [| lia].
    apply positive_amounts. intros i n Hn. destruct (H2 i n Hn) as (b & _ & ? & _). done.
  - destruct (max_min_rebond_ok l input ltac:(done) ltac:(done)) as [H1 H2]. split; [| lia].
    apply positive_amounts. intros i n Hn. destruct (H2 i n Hn) as (b & _ & ? & _). done.
Qed.

(** The strategy that fills up the smallest accounts and empties the largest stays within its bounds.  Bonding
    hands out no more than there is, to accounts that stay below the cap and have at least the minimum bond
    afterwards.  Unbonding takes all that is asked for, or all that the accounts can give above the minimum bond,
    and leaves every account it touches at least the minimum.  Rebonding takes all that is asked for or all that is
    unbonding. *)
Theorem max_min_within_bounds bonded active unbonding input cap m :
  0 <= input -> amounts_ok unbonding ->
  (amounts_sum (max_min_bond bonded input cap m) <= input /\
   forall i n, (i, n) ∈ max_min_bond bonded input cap m ->
     exists a t, (i, a, t) ∈ bonded /\ 0 < n /\ n + t <= cap /\ m <= n + a) /\
  (amounts_sum (max_min_unbond active input m) = Z.min input (sum_list_Z (fun p => saturating_sub p.2 m) active) /\
   forall i n, (i, n) ∈ max_min_unbond active input m -> exists b, (i, b) ∈ active /\ 0 < n /\ m <= b - n) /\
  (amounts_sum (max_min_rebond unbonding input) = Z.min input (amounts_sum unbonding) /\
   forall i n, (i, n) ∈ max_min_rebond unbonding input -> exists b, (i, b) ∈ unbonding /\ 0 < n <= b).
Proof.
  intros Hi Hu. split; [| split; [by apply max_min_unbond_ok | by apply max_min_rebond_ok]].
  destruct (max_min_bond_loop_ok cap m (merge_sort by_active bonded) input Hi) as [H1 H2]. split; [done |].
  intros i n Hn. destruct (H2 i n Hn) as (a & t & He & Hr). exists a, t. by rewrite (merge_sort_Permutation by_active bonded) in He.
Qed.
Lemma max_min_within_bounds_witness :
  max_min_unbond [(0, 50); (1, 90)] 70 30 = [(1, 60); (0, 10)] /\
  amounts_sum (max_min_unbond [(0, 50); (1, 90)] 70 30) = 70.
Proof.
  split; [by vm_compute |].
  apply (max_min_within_bounds [] [(0, 50); (1, 90)] [] 70 100 30); [done | constructor].
Defined.

(** *** Two corners *)

(** Equal shares for rebonding: an account with nothing to rebond leaves nothing for those after it. *)
Example average_rebond_stops : average_rebond [(0, 0); (1, 100)] 100 = [].
Proof. done. Qed.
(** The accounts are sorted by their active bond, and an account without room ends the loop; room is measured by
    the total bond, so that an account after it that has room is passed over. *)
Example max_min_bond_stops_early : max_min_bond [(0, 10, 100); (1, 20, 20)] 50 100 5 = [].
Proof. by vm_compute. Qed.
