(* ===== verification/LiquidStaking.v ===== *)
(** * Liquid staking (src/pallets/liquid-staking/src/lib.rs)

    Users stake the relay chain's currency and receive the liquid currency for it.  Stakes and
    unstakes of an era meet in the matching pool; what is left over is bonded, rebonded or unbonded
    on the relay chain through derivative accounts, whose ledgers the pallet keeps copies of.

    [chain] is the rest of the chain, on which the ledger, the messages to the relay chain and
    lending act.  The block number and the validation data of the relay chain and the group of
    automation accounts are fields of the state that the pallet only reads.  Reading a value from
    a storage proof, the encodings and the hashes of storage keys are fields of [Config]. *)

From stdpp Require Import strings.
From S2P Require Import Prelude Arith Frame XcmHelper Loans Traits LiquidTypes.
From stdpp Require Import list.
Import LiquidStakingErrors.
#[local] Open Scope Z_scope.

Module LiquidStaking.
Import LiquidTypes.

Abbreviation Bytes := (list Z) (only parsing).

Inductive XcmRequest :=
| Bond (index : DerivativeIndex) (amount : Balance)
| BondExtra (index : DerivativeIndex) (amount : Balance)
| Unbond (index : DerivativeIndex) (amount : Balance)
| Rebond (index : DerivativeIndex) (amount : Balance)
| WithdrawUnbonded (index : DerivativeIndex) (num_slashing_spans : Z)
| Nominate (index : DerivativeIndex) (targets : list AccountId).

(** [PersistedValidationData]: the fields the pallet reads *)
Record PersistedValidationData := mkValidationData {
  relay_parent_number : BlockNumber;
  relay_parent_storage_root : Z;
}.

Record Config := mkConfig {
  account_id : AccountId;
  loans_account_id : AccountId;
  sovereign_account_id : AccountId;
  (** [derivative_account_id(sovereign_account_id(), index)] *)
  derivative_sovereign_account_id : DerivativeIndex -> AccountId;
  DerivativeIndexList : list DerivativeIndex;
  XcmFees : Balance;
  LoansInstantUnstakeFee : Rate;
  MatchingPoolFastUnstakeFee : Rate;
  StakingCurrency : CurrencyId;
  LiquidCurrency : CurrencyId;
  CollateralCurrency : CurrencyId;
  NativeCurrency : CurrencyId;
  MinStake : Balance;
  MinUnstake : Balance;
  BondingDuration : EraIndex;
  MinNominatorBond : Balance;
  EraLength : BlockNumber;
  NumSlashingSpans : Z;
  ElectionSolutionStoredOffset : BlockNumber;
  ProtocolFeeReceiver : AccountId;
  RelayOrigin : RuntimeOrigin -> bool;
  UpdateOrigin : RuntimeOrigin -> bool;
  get_decimal : CurrencyId -> option Z;
  lookup : Source -> Res AccountId;
  notify_placeholder : RuntimeCall;
  (** [read_trie_value] of the storage proof of a root at a key *)
  read_trie_value : list Bytes -> Z -> Bytes -> option Bytes;
  storage_prefix : string -> string -> Bytes;
  (** [Blake2_128Concat::hash] of an encoded account *)
  hash_account : AccountId -> Bytes;
  encode_era : EraIndex -> Bytes;
  encode_ledger : StakingLedger -> Bytes;
}.

Definition MAX_UNLOCKING_CHUNKS : nat := 32.

Inductive Event :=
| Staked (who : AccountId) (amount : Balance)
| Unstaked (who : AccountId) (liquid_amount amount : Balance)
| StakingLedgerUpdated (index : DerivativeIndex) (l : StakingLedger)
| Bonding (index : DerivativeIndex) (stash : AccountId) (amount : Balance) (payee : Ump.RewardDestination)
| BondingExtra (index : DerivativeIndex) (amount : Balance)
| Unbonding (index : DerivativeIndex) (amount : Balance)
| Rebonding (index : DerivativeIndex) (amount : Balance)
| WithdrawingUnbonded (index : DerivativeIndex) (num_slashing_spans : Z)
| Nominating (index : DerivativeIndex) (targets : list AccountId)
| StakingLedgerCapUpdated (cap : Balance)
| ReserveFactorUpdated (r : Ratio)
| ExchangeRateUpdated (r : Rate)
| NotificationReceived (l : MultiLocation) (q : QueryId) (res : option (Z * Z))
| ClaimedFor (who : AccountId) (amount : Balance)
| NewEra (e : EraIndex)
| Matching (bond rebond unbond : Balance)
| ReservesReduced (who : AccountId) (amount : Balance)
| UnstakeCancelled (who : AccountId) (amount liquid_amount : Balance)
| CommissionRateUpdated (r : Rate)
| FastUnstakeMatched (who : AccountId) (received matched fee : Balance)
| IncentiveUpdated (amount : Balance)
| NonIdealStakingLedger (index : DerivativeIndex).

Record State (X : Type) := mkState {
  ExchangeRate : Rate;
  CommissionRate : Rate;
  ValidationData : option PersistedValidationData;
  ReserveFactor : Ratio;
  TotalReserves : Balance;
  MatchingPool : MatchingLedger;
  StakingLedgerCap : Balance;
  XcmRequests : gmap QueryId XcmRequest;
  FastUnstakeRequests : gmap AccountId Balance;
  CurrentEra : EraIndex;
  EraStartBlock : BlockNumber;
  Unlockings : gmap AccountId (list UnlockChunk);
  StakingLedgers : gmap DerivativeIndex StakingLedger;
  IsUpdated : gmap DerivativeIndex bool;
  IsMatched : bool;
  Incentive : Balance;
  chain : X;
  relay_block : BlockNumber;
  relay_validation_data : option PersistedValidationData;
  Members : list AccountId;
  events : list Event;
}.
Arguments mkState {X}.
Arguments ExchangeRate {X}.
Arguments CommissionRate {X}.
Arguments ValidationData {X}.
Arguments ReserveFactor {X}.
Arguments TotalReserves {X}.
Arguments MatchingPool {X}.
Arguments StakingLedgerCap {X}.
Arguments XcmRequests {X}.
Arguments FastUnstakeRequests {X}.
Arguments CurrentEra {X}.
Arguments EraStartBlock {X}.
Arguments Unlockings {X}.
Arguments StakingLedgers {X}.
Arguments IsUpdated {X}.
Arguments IsMatched {X}.
Arguments Incentive {X}.
Arguments chain {X}.
Arguments relay_block {X}.
Arguments relay_validation_data {X}.
Arguments Members {X}.
Arguments events {X}.

Definition state_eta {X} (s : State X) : State X :=
  mkState (ExchangeRate s) (CommissionRate s) (ValidationData s) (ReserveFactor s) (TotalReserves s)
    (MatchingPool s) (StakingLedgerCap s) (XcmRequests s) (FastUnstakeRequests s) (CurrentEra s)
    (EraStartBlock s) (Unlockings s) (StakingLedgers s) (IsUpdated s) (IsMatched s) (Incentive s)
    (chain s) (relay_block s) (relay_validation_data s) (Members s) (events s).

Section setters.
Context {X : Type}.
Implicit Types s : State X.
Definition set_ExchangeRate v s : State X := ltac:(update_field (@state_eta X) s (ExchangeRate s) v).
Definition set_CommissionRate v s : State X := ltac:(update_field (@state_eta X) s (CommissionRate s) v).
Definition set_ValidationData v s : State X := ltac:(update_field (@state_eta X) s (ValidationData s) v).
Definition set_ReserveFactor v s : State X := ltac:(update_field (@state_eta X) s (ReserveFactor s) v).
Definition set_TotalReserves v s : State X := ltac:(update_field (@state_eta X) s (TotalReserves s) v).
Definition set_MatchingPool v s : State X := ltac:(update_field (@state_eta X) s (MatchingPool s) v).
Definition set_StakingLedgerCap v s : State X := ltac:(update_field (@state_eta X) s (StakingLedgerCap s) v).
Definition set_XcmRequests v s : State X := ltac:(update_field (@state_eta X) s (XcmRequests s) v).
Definition set_FastUnstake v s : State X := ltac:(update_field (@state_eta X) s (FastUnstakeRequests s) v).
Definition set_CurrentEra v s : State X := ltac:(update_field (@state_eta X) s (CurrentEra s) v).
Definition set_EraStartBlock v s : State X := ltac:(update_field (@state_eta X) s (EraStartBlock s) v).
Definition set_Unlockings v s : State X := ltac:(update_field (@state_eta X) s (Unlockings s) v).
Definition set_StakingLedgers v s : State X := ltac:(update_field (@state_eta X) s (StakingLedgers s) v).
Definition set_IsUpdated v s : State X := ltac:(update_field (@state_eta X) s (IsUpdated s) v).
Definition set_IsMatched v s : State X := ltac:(update_field (@state_eta X) s (IsMatched s) v).
Definition set_Incentive v s : State X := ltac:(update_field (@state_eta X) s (Incentive s) v).
Definition set_chain v s : State X := ltac:(update_field (@state_eta X) s (chain s) v).
Definition push_event e s : State X := ltac:(update_field (@state_eta X) s (events s) (events s ++ [e])).
End setters.

Section pallet.
Context {SA : SpArithmetic} {SI : StorageIter} {DS : DistributionStrategy}.
Context {X : Type} {FU : Fungibles X} {XH : XcmHelperTrait X} {LT : LoansTrait X}.
Variable T : Config.

Abbreviation St := (State X).
Abbreviation Run := (M St DispatchError).

Definition deposit_event (e : Event) : Run unit := modify (push_event e).
Definition on_chain (f : X -> Res X) : Run unit := fun s =>
  match f (chain s) with
  | Ok x => Ok (tt, set_chain x s) | Err e => Err e | Panic => Panic
  end.
(** [let _ = f(..)]: an error is ignored and has changed nothing *)
Definition on_chain_ignore (f : X -> Res X) : Run unit := fun s =>
  match f (chain s) with
  | Ok x => Ok (tt, set_chain x s) | Err _ => Ok (tt, s) | Panic => Panic
  end.
Definition on_chain_query {A} (f : X -> Res (A * X)) : Run A := fun s =>
  match f (chain s) with
  | Ok (q, x) => Ok (q, set_chain x s) | Err e => Err e | Panic => Panic
  end.
(** [MatchingPool::try_mutate] *)
Definition mutate_pool (f : MatchingLedger -> Res MatchingLedger) : Run unit :=
  s ← get;
  p ← lift (f (MatchingPool s));
  modify (set_MatchingPool p).
Definition insert_request (q : QueryId) (r : XcmRequest) : Run unit :=
  modify (fun s => set_XcmRequests (<[q := r]> (XcmRequests s)) s).

(** ** Currencies and conversions *)

(** [LiquidStakingCurrenciesProvider] *)
Definition get_staking_currency : option CurrencyId :=
  if bool_decide (is_Some (get_decimal T (StakingCurrency T))) then Some (StakingCurrency T) else None.
Definition get_liquid_currency : option CurrencyId :=
  if bool_decide (is_Some (get_decimal T (LiquidCurrency T))) then Some (LiquidCurrency T) else None.
Definition staking_currency : Res CurrencyId := ok_or get_staking_currency (LiquidStaking InvalidStakingCurrency).
Definition liquid_currency : Res CurrencyId := ok_or get_liquid_currency (LiquidStaking InvalidLiquidCurrency).

(** [LiquidStakingConvert] and [ExchangeRateProvider] *)
Definition staking_to_liquid (s : St) (amount : Balance) : option Balance :=
  r ← fixed_reciprocal (ExchangeRate s); fixed_checked_mul_int r amount.
Definition liquid_to_staking (s : St) (liquid_amount : Balance) : option Balance :=
  fixed_checked_mul_int (ExchangeRate s) liquid_amount.
Definition get_exchange_rate (s : St) (_ : CurrencyId) : option Rate := Some (ExchangeRate s).

(** ** Reading the ledgers *)

Definition target_era (s : St) : Res EraIndex :=
  e ← or_panic (checked_add_to u32_max (CurrentEra s) (BondingDuration T));
  or_panic (checked_add_to u32_max e 1).
Definition get_total_unclaimed (s : St) (currency : CurrencyId) : Balance :=
  saturating_sub
    (saturating_sub (reducible_balance (chain s) currency (account_id T) false) (TotalReserves s))
    (total (total_stake_amount (MatchingPool s))).
Definition offset (s : St) (relaychain_block_number : BlockNumber) : EraIndex :=
  default 0 (r ← checked_sub relaychain_block_number (EraStartBlock s);
             r ← checked_div r (EraLength T);
             if r <=? u32_max then Some r else None).
Definition total_bonded_of (s : St) (index : DerivativeIndex) : Balance :=
  from_option ledger_total 0 (StakingLedgers s !! index).
Definition active_bonded_of (s : St) (index : DerivativeIndex) : Balance :=
  from_option active 0 (StakingLedgers s !! index).
Definition unbonding_of (s : St) (index : DerivativeIndex) : Balance :=
  from_option (fun l => saturating_sub (ledger_total l) (active l)) 0 (StakingLedgers s !! index).
Definition unbonded_of (s : St) (index : DerivativeIndex) : Balance :=
  from_option (fun l =>
    foldl (fun acc chunk => if era chunk <=? CurrentEra s then saturating_add acc (value chunk) else acc)
      0 (unlocking l)) 0 (StakingLedgers s !! index).
(** A fold of [saturating_add] over [StakingLedgers::iter_values()] *)
Definition fold_ledgers (f : StakingLedger -> Balance) (s : St) : Balance :=
  foldl (fun acc p => saturating_add acc (f p.2)) 0 (storage_iter (StakingLedgers s)).
Definition get_total_unbonding : St -> Balance :=
  fold_ledgers (fun l => saturating_sub (ledger_total l) (active l)).
Definition get_total_bonded : St -> Balance := fold_ledgers ledger_total.
Definition get_total_active_bonded : St -> Balance := fold_ledgers active.
Definition get_market_cap (s : St) : Balance :=
  Z.min u128_max (StakingLedgerCap s * Z.of_nat (length (DerivativeIndexList T))).

Definition ensure_automation (origin : RuntimeOrigin) (s : St) : Res unit :=
  if RelayOrigin T origin then Ok tt
  else
    who ← ensure_signed origin;
    if bool_decide (who ∈ Members s) then Ok tt else Err BadOrigin.
Definition ensure_market_cap (amount : Balance) (s : St) : Res unit :=
  ensure (saturating_add (get_total_bonded s) amount <=? get_market_cap s) (LiquidStaking CapExceeded).
Definition ensure_staking_ledger_cap (index : DerivativeIndex) (amount : Balance) (s : St) : Res unit :=
  ensure (saturating_add (total_bonded_of s index) amount <=? StakingLedgerCap s) (LiquidStaking CapExceeded).
Definition ensure_index (index : DerivativeIndex) : Res unit :=
  ensure (bool_decide (index ∈ DerivativeIndexList T)) (LiquidStaking InvalidDerivativeIndex).
Definition ensure_bonded (index : DerivativeIndex) (s : St) : Res unit :=
  ensure (bool_decide (is_Some (StakingLedgers s !! index))) (LiquidStaking NotBonded).

(** ** Requests to the relay chain *)

Definition do_bond_extra (index : DerivativeIndex) (amount : Balance) : Run unit :=
  if amount =? 0 then mret tt
  else
    _ ← lift (ensure_index index);
    _ ← reads (ensure_bonded index);
    _ ← reads (ensure_staking_ledger_cap index amount);
    _ ← mutate_pool (set_stake_amount_lock amount);
    query_id ← on_chain_query (xcm_bond_extra amount (derivative_sovereign_account_id T index) index
                                 (notify_placeholder T));
    _ ← insert_request query_id (BondExtra index amount);
    deposit_event (BondingExtra index amount).

Definition do_bond (index : DerivativeIndex) (amount : Balance) (payee : Ump.RewardDestination) : Run unit :=
  if amount =? 0 then mret tt
  else
    s ← get;
    if bool_decide (is_Some (StakingLedgers s !! index)) then do_bond_extra index amount
    else
      _ ← lift (ensure_index index);
      _ ← lift (ensure (amount >=? MinNominatorBond T) (LiquidStaking InsufficientBond));
      _ ← reads (ensure_staking_ledger_cap index amount);
      _ ← mutate_pool (set_stake_amount_lock amount);
      let derivative_account_id := derivative_sovereign_account_id T index in
      query_id ← on_chain_query (xcm_bond amount payee derivative_account_id index (notify_placeholder T));
      _ ← insert_request query_id (Bond index amount);
      deposit_event (Bonding index derivative_account_id amount payee).

Definition do_unbond (index : DerivativeIndex) (amount : Balance) : Run unit :=
  if amount =? 0 then mret tt
  else
    _ ← lift (ensure_index index);
    s ← get;
    ledger ← lift (ok_or (StakingLedgers s !! index) (LiquidStaking NotBonded));
    _ ← lift (ensure (length (unlocking ledger) <? MAX_UNLOCKING_CHUNKS)%nat (LiquidStaking NoMoreChunks));
    _ ← lift (ensure (saturating_sub (active ledger) amount >=? MinNominatorBond T)
                (LiquidStaking InsufficientBond));
    _ ← mutate_pool (set_unstake_amount_lock amount);
    query_id ← on_chain_query (xcm_unbond amount index (notify_placeholder T));
    _ ← insert_request query_id (Unbond index amount);
    deposit_event (Unbonding index amount).

Definition do_rebond (index : DerivativeIndex) (amount : Balance) : Run unit :=
  if amount =? 0 then mret tt
  else
    _ ← lift (ensure_index index);
    _ ← reads (ensure_bonded index);
    _ ← mutate_pool (set_stake_amount_lock amount);
    query_id ← on_chain_query (xcm_rebond amount index (notify_placeholder T));
    _ ← insert_request query_id (Rebond index amount);
    deposit_event (Rebonding index amount).

Definition do_withdraw_unbonded (index : DerivativeIndex) (num_slashing_spans : Z) : Run unit :=
  s ← get;
  if unbonded_of s index =? 0 then mret tt
  else
    _ ← lift (ensure_index index);
    _ ← reads (ensure_bonded index);
    query_id ← on_chain_query (xcm_withdraw_unbonded num_slashing_spans (sovereign_account_id T) index
                                 (notify_placeholder T));
    _ ← insert_request query_id (WithdrawUnbonded index num_slashing_spans);
    deposit_event (WithdrawingUnbonded index num_slashing_spans).

Definition do_nominate (index : DerivativeIndex) (targets : list AccountId) : Run unit :=
  _ ← lift (ensure_index index);
  _ ← reads (ensure_bonded index);
  query_id ← on_chain_query (xcm_nominate targets index (notify_placeholder T));
  _ ← insert_request query_id (Nominate index targets);
  deposit_event (Nominating index targets).

Definition do_multi_bond (total_amount : Balance) (payee : Ump.RewardDestination) : Run unit :=
  if total_amount =? 0 then mret tt
  else
    s ← get;
    let amounts := map (fun index => (index, active_bonded_of s index, total_bonded_of s index))
                     (DerivativeIndexList T) in
    for_each (fun '(index, amount) => do_bond index amount payee)
      (get_bond_distributions amounts total_amount (StakingLedgerCap s) (MinNominatorBond T)).

Definition do_multi_unbond (total_amount : Balance) : Run unit :=
  if total_amount =? 0 then mret tt
  else
    s ← get;
    let amounts := map (fun index => (index, active_bonded_of s index)) (DerivativeIndexList T) in
    for_each (fun '(index, amount) => do_unbond index amount)
      (get_unbond_distributions amounts total_amount (MinNominatorBond T)).

Definition do_multi_rebond (total_amount : Balance) : Run unit :=
  if total_amount =? 0 then mret tt
  else
    s ← get;
    let amounts := map (fun index => (index, unbonding_of s index)) (DerivativeIndexList T) in
    for_each (fun '(index, amount) => do_rebond index amount)
      (get_rebond_distributions amounts total_amount).

Definition do_multi_withdraw_unbonded (num_slashing_spans : Z) : Run unit :=
  s ← get;
  for_each (fun index => do_withdraw_unbonded index num_slashing_spans)
    (map fst (storage_iter (StakingLedgers s))).

(** ** Answers of the relay chain *)

(** [cb] changes the ledger and may act on the chain *)
Definition do_update_ledger (index : DerivativeIndex) (cb : StakingLedger -> Run StakingLedger) : Run unit :=
  s ← get;
  ledger ← lift (ok_or (StakingLedgers s !! index) (LiquidStaking NotBonded));
  ledger ← cb ledger;
  _ ← modify (fun s => set_IsUpdated (<[index := true]> (IsUpdated s)) s);
  _ ← deposit_event (StakingLedgerUpdated index ledger);
  modify (fun s => set_StakingLedgers (<[index := ledger]> (StakingLedgers s)) s).

Definition do_notification_received (query_id : QueryId) (req : XcmRequest) (res : option (Z * Z)) : Run unit :=
  if negb (bool_decide (res = None)) then mret tt
  else
    _ ← (match req with
         | Bond index amount =>
             s ← get;
             _ ← lift (ensure (bool_decide (StakingLedgers s !! index = None)) (LiquidStaking AlreadyBonded));
             _ ← modify (fun s => set_StakingLedgers
                   (<[index := StakingLedger_new (derivative_sovereign_account_id T index) amount]>
                      (StakingLedgers s)) s);
             _ ← mutate_pool (consolidate_stake amount);
             staking ← lift staking_currency;
             on_chain (burn_from staking (account_id T) amount)
         | BondExtra index amount =>
             _ ← do_update_ledger index (fun l => lift (bond_extra amount l));
             _ ← mutate_pool (consolidate_stake amount);
             staking ← lift staking_currency;
             on_chain (burn_from staking (account_id T) amount)
         | Unbond index amount =>
             s ← get;
             target ← lift (or_panic (checked_add_to u32_max (CurrentEra s) (BondingDuration T)));
             _ ← do_update_ledger index (fun l => lift (unbond amount target l));
             mutate_pool (consolidate_unstake amount)
         | Rebond index amount =>
             _ ← do_update_ledger index (fun l => lift (rebond amount l));
             mutate_pool (consolidate_stake amount)
         | WithdrawUnbonded index _ =>
             do_update_ledger index (fun l =>
               s ← get;
               staking ← lift staking_currency;
               let l' := consolidate_unlocked (CurrentEra s) l in
               let amount := saturating_sub (ledger_total l) (ledger_total l') in
               _ ← on_chain (mint_into staking (account_id T) amount);
               mret l')
         | Nominate _ _ => mret tt
         end);
    modify (fun s => set_XcmRequests (delete query_id (XcmRequests s)) s).

(** ** Eras, matching and the exchange rate *)

(** What backs the liquid currency: active bonds and stakes, less unstakes *)
Definition total_staked (s : St) : Res Balance :=
  ok_or (r ← checked_add (get_total_active_bonded s) (total (total_stake_amount (MatchingPool s)));
         checked_sub r (total (total_unstake_amount (MatchingPool s)))) (Arithmetic Overflow).

Definition do_update_exchange_rate : Run unit :=
  s ← get;
  liquid ← lift liquid_currency;
  let issuance := total_issuance (chain s) liquid in
  if issuance =? 0 then mret tt
  else
    staked ← lift (total_staked s);
    new_exchange_rate ← lift (ok_or (fixed_checked_from_rational staked issuance)
                                (LiquidStaking InvalidExchangeRate));
    if new_exchange_rate >? ExchangeRate s then
      _ ← modify (set_ExchangeRate new_exchange_rate);
      deposit_event (ExchangeRateUpdated new_exchange_rate)
    else mret tt.

Definition do_matching : Run unit :=
  s ← get;
  '(bond_amount, rebond_amount, unbond_amount) ← lift (matching (MatchingPool s) (get_total_unbonding s));
  _ ← modify (set_IsMatched true);
  _ ← do_multi_bond bond_amount Ump.Staked;
  _ ← do_multi_rebond rebond_amount;
  _ ← do_multi_unbond unbond_amount;
  _ ← do_multi_withdraw_unbonded (NumSlashingSpans T);
  deposit_event (Matching bond_amount rebond_amount unbond_amount).

(** [if let Err(e) = m { .. }]: the error is logged *)
Definition ignore_error (m : Run unit) : Run unit := fun s =>
  match m s with Ok r => Ok r | Err _ => Ok (tt, s) | Panic => Panic end.

Definition do_advance_era (offset : EraIndex) : Run unit :=
  if offset =? 0 then mret tt
  else
    _ ← modify (fun s => set_EraStartBlock (relay_block s) s);
    _ ← modify (fun s => set_CurrentEra (Z.min u32_max (CurrentEra s + offset)) s);
    _ ← ignore_error do_update_exchange_rate;
    _ ← modify (set_IsMatched false);
    s ← get;
    deposit_event (NewEra (CurrentEra s)).

(** ** Claims and instant unstaking *)

(** [collateral_factor.saturating_reciprocal_mul_ceil(amount)], which panics for a factor of zero *)
Definition collateral_for (amount : Balance) : Run Balance :=
  s ← get;
  info ← lift (loans_get_market_info (CollateralCurrency T) (chain s));
  let factor := Loans.info_collateral_factor info in
  if factor =? 0 then lift Panic else mret (permill_saturating_reciprocal_mul_ceil factor amount).

Definition do_claim_for (who : AccountId) (amount : Balance) : Run unit :=
  let module_id := account_id T in
  let collateral_currency := CollateralCurrency T in
  staking ← lift staking_currency;
  if who =? loans_account_id T then
    account_borrows ← on_chain_query (loans_get_current_borrow_balance module_id staking);
    _ ← on_chain (loans_do_repay_borrow module_id staking (Z.min account_borrows amount));
    redeem_amount ← collateral_for amount;
    _ ← on_chain (loans_do_redeem module_id collateral_currency redeem_amount);
    on_chain (burn_from collateral_currency module_id redeem_amount)
  else on_chain (transfer staking module_id who amount false).

Definition do_loans_instant_unstake (who : AccountId) (amount : Balance) : Run unit :=
  loans_instant_unstake_fee ← lift (ok_or (fixed_checked_mul_int (LoansInstantUnstakeFee T) amount)
                                      (Arithmetic Overflow));
  borrow_amount ← lift (ok_or (checked_sub amount loans_instant_unstake_fee) (Arithmetic Underflow));
  let collateral_currency := CollateralCurrency T in
  mint_amount ← collateral_for amount;
  let module_id := account_id T in
  staking ← lift staking_currency;
  _ ← on_chain (mint_into collateral_currency module_id mint_amount);
  _ ← on_chain (loans_do_mint module_id collateral_currency mint_amount);
  _ ← on_chain_ignore (loans_do_collateral_asset module_id collateral_currency true);
  _ ← on_chain (loans_do_borrow module_id staking borrow_amount);
  on_chain (transfer staking module_id who borrow_amount false).

Definition get_inflate_liquid_amount (s : St) (rewards : Balance) : Res Balance :=
  liquid ← liquid_currency;
  let issuance := total_issuance (chain s) liquid in
  let commission_rate := CommissionRate s in
  if (issuance =? 0) || (commission_rate =? 0) || (rewards =? 0) then Ok 0
  else
    total_stake_amount ← total_staked s;
    let commission_staking_amount := fixed_saturating_mul_int commission_rate rewards in
    let inflate_rate := default 0 (fixed_checked_from_rational commission_staking_amount
      (saturating_sub (saturating_add total_stake_amount rewards) commission_staking_amount)) in
    Ok (fixed_saturating_mul_int inflate_rate issuance).

Definition do_fast_match_unstake (unstaker : AccountId) : Run unit :=
  s ← get;
  match FastUnstakeRequests s !! unstaker with
  | None => mret tt
  | Some request =>
      liquid ← lift liquid_currency;
      let current_liquid_amount := reducible_balance (chain s) liquid unstaker false in
      let request_liquid_amount := Z.min request current_liquid_amount in
      free_stake ← lift (free (total_stake_amount (MatchingPool s)));
      available_liquid_amount ← lift (ok_or (staking_to_liquid s free_stake) (LiquidStaking InvalidExchangeRate));
      let matched_liquid_amount := Z.min request_liquid_amount available_liquid_amount in
      _ ← (if negb (matched_liquid_amount =? 0) then
             let matched_fee := fixed_saturating_mul_int (MatchingPoolFastUnstakeFee T) matched_liquid_amount in
             let liquid_to_burn := saturating_sub matched_liquid_amount matched_fee in
             _ ← on_chain (burn_from liquid unstaker liquid_to_burn);
             _ ← on_chain (transfer liquid unstaker (ProtocolFeeReceiver T) matched_fee false);
             s ← get;
             staking_to_receive ← lift (ok_or (liquid_to_staking s liquid_to_burn)
                                          (LiquidStaking InvalidExchangeRate));
             _ ← mutate_pool (sub_stake_amount staking_to_receive);
             staking ← lift staking_currency;
             _ ← on_chain (transfer staking (account_id T) unstaker staking_to_receive false);
             deposit_event (FastUnstakeMatched unstaker staking_to_receive matched_liquid_amount matched_fee)
           else mret tt);
      let unmatched_amount := saturating_sub request_liquid_amount matched_liquid_amount in
      modify (fun s => set_FastUnstake
        (if unmatched_amount =? 0 then delete unstaker (FastUnstakeRequests s)
         else <[unstaker := unmatched_amount]> (FastUnstakeRequests s)) s)
  end.

(** ** Storage proofs *)

Definition verify_merkle_proof (key value : Bytes) (proof : list Bytes) (s : St) : bool :=
  match ValidationData s with
  | None => false
  | Some data =>
      match read_trie_value T proof (relay_parent_storage_root data) key with
      | Some result => bool_decide (result = value)
      | None => false
      end
  end.
Definition get_staking_ledger_key (index : DerivativeIndex) : Bytes :=
  storage_prefix T "Staking" "Ledger" ++ hash_account T (derivative_sovereign_account_id T index).
Definition get_current_era_key : Bytes := storage_prefix T "Staking" "CurrentEra".

(** ** Extrinsics *)

Definition stake (origin : RuntimeOrigin) (amount : Balance) : Run unit :=
  who ← lift (ensure_signed origin);
  _ ← lift (ensure (amount >=? MinStake T) (LiquidStaking StakeTooSmall));
  s ← get;
  let reserves := permill_mul_floor (ReserveFactor s) amount in
  let xcm_fees := XcmFees T in
  amount ← lift (ok_or (checked_sub amount xcm_fees) (Arithmetic Underflow));
  staking ← lift staking_currency;
  _ ← on_chain (transfer staking who (account_id T) amount false);
  _ ← on_chain (xcm_add_fees who xcm_fees);
  amount ← lift (ok_or (checked_sub amount reserves) (Arithmetic Underflow));
  liquid_amount ← lift (ok_or (staking_to_liquid s amount) (LiquidStaking InvalidExchangeRate));
  liquid ← lift liquid_currency;
  _ ← reads (ensure_market_cap amount);
  _ ← on_chain (mint_into liquid who liquid_amount);
  _ ← mutate_pool (add_stake_amount amount);
  s ← get;
  total_reserves ← lift (ok_or (checked_add (TotalReserves s) reserves) (Arithmetic Overflow));
  _ ← modify (set_TotalReserves total_reserves);
  deposit_event (Staked who amount).

Definition unstake (origin : RuntimeOrigin) (liquid_amount : Balance) (unstake_provider : UnstakeProvider)
    : Run unit :=
  who ← lift (ensure_signed origin);
  _ ← lift (ensure (liquid_amount >=? MinUnstake T) (LiquidStaking UnstakeTooSmall));
  s ← get;
  if is_matching_pool unstake_provider then
    liquid ← lift liquid_currency;
    let balance := reducible_balance (chain s) liquid who false in
    let request := Z.min (saturating_add (default 0 (FastUnstakeRequests s !! who)) liquid_amount) balance in
    modify (fun s => set_FastUnstake (<[who := request]> (FastUnstakeRequests s)) s)
  else
    amount ← lift (ok_or (liquid_to_staking s liquid_amount) (LiquidStaking InvalidExchangeRate));
    let unlockings_key := if is_loans unstake_provider then loans_account_id T else who in
    target ← lift (target_era s);
    let chunks := add_chunk (default [] (Unlockings s !! unlockings_key)) amount target in
    _ ← lift (ensure (length chunks <=? MAX_UNLOCKING_CHUNKS)%nat (LiquidStaking NoMoreChunks));
    _ ← modify (fun s => set_Unlockings (<[unlockings_key := chunks]> (Unlockings s)) s);
    liquid ← lift liquid_currency;
    _ ← on_chain (burn_from liquid who liquid_amount);
    _ ← (if is_loans unstake_provider then do_loans_instant_unstake who amount else mret tt);
    _ ← mutate_pool (add_unstake_amount amount);
    deposit_event (Unstaked who liquid_amount amount).

Definition update_reserve_factor (origin : RuntimeOrigin) (reserve_factor : Ratio) : Run unit :=
  _ ← lift (ensure_origin (UpdateOrigin T) origin);
  _ ← lift (ensure ((reserve_factor >? 0) && (reserve_factor <? PERMILL_ONE)) (LiquidStaking InvalidFactor));
  _ ← modify (set_ReserveFactor reserve_factor);
  deposit_event (ReserveFactorUpdated reserve_factor).

Definition update_staking_ledger_cap (origin : RuntimeOrigin) (cap : Balance) : Run unit :=
  _ ← lift (ensure_origin (UpdateOrigin T) origin);
  _ ← lift (ensure (negb (cap =? 0)) (LiquidStaking InvalidCap));
  _ ← modify (set_StakingLedgerCap cap);
  deposit_event (StakingLedgerCapUpdated cap).

Definition bond (origin : RuntimeOrigin) (index : DerivativeIndex) (amount : Balance)
    (payee : Ump.RewardDestination) : Run unit :=
  _ ← lift (ensure_origin (RelayOrigin T) origin);
  do_bond index amount payee.
Definition call_bond_extra (origin : RuntimeOrigin) (index : DerivativeIndex) (amount : Balance) : Run unit :=
  _ ← lift (ensure_origin (RelayOrigin T) origin);
  do_bond_extra index amount.
Definition call_unbond (origin : RuntimeOrigin) (index : DerivativeIndex) (amount : Balance) : Run unit :=
  _ ← lift (ensure_origin (RelayOrigin T) origin);
  do_unbond index amount.
Definition call_rebond (origin : RuntimeOrigin) (index : DerivativeIndex) (amount : Balance) : Run unit :=
  _ ← lift (ensure_origin (RelayOrigin T) origin);
  do_rebond index amount.
Definition withdraw_unbonded (origin : RuntimeOrigin) (index : DerivativeIndex) (num_slashing_spans : Z) : Run unit :=
  _ ← reads (ensure_automation origin);
  do_withdraw_unbonded index num_slashing_spans.
Definition nominate (origin : RuntimeOrigin) (index : DerivativeIndex) (targets : list AccountId) : Run unit :=
  _ ← reads (ensure_automation origin);
  do_nominate index targets.

Definition notification_received (origin : XcmOrigin) (query_id : QueryId) (response : Response) : Run unit :=
  responder ← lift (ensure_response_or (UpdateOrigin T) origin);
  match response with
  | ExecutionResult res =>
      s ← get;
      _ ← (match XcmRequests s !! query_id with
           | Some request => do_notification_received query_id request res
           | None => mret tt
           end);
      deposit_event (NotificationReceived responder query_id res)
  | OtherResponse => mret tt
  end.

(** The sum of the chunks of past eras; [+=] panics *)
Definition claimable (current_era : EraIndex) (chunks : list UnlockChunk) : Res Balance :=
  foldl (fun acc chunk => acc ← acc;
           if era chunk >? current_era then Ok acc else or_panic (checked_add acc (value chunk)))
    (Ok 0) chunks.

Definition claim_for (origin : RuntimeOrigin) (dest : Source) : Run unit :=
  _ ← reads (ensure_automation origin);
  who ← lift (lookup T dest);
  s ← get;
  let current_era := CurrentEra s in
  chunks ← lift (ok_or (Unlockings s !! who) (LiquidStaking NoUnlockings));
  amount ← lift (claimable current_era chunks);
  let chunks := List.filter (fun chunk => era chunk >? current_era) chunks in
  staking ← lift staking_currency;
  let total_unclaimed := get_total_unclaimed s staking in
  _ ← lift (ensure (negb (amount =? 0)) (LiquidStaking NothingToClaim));
  _ ← lift (ensure (negb (total_unclaimed <? amount)) (LiquidStaking NotWithdrawn));
  _ ← do_claim_for who amount;
  _ ← deposit_event (ClaimedFor who amount);
  modify (fun s => set_Unlockings
    (match chunks with [] => delete who (Unlockings s) | _ => <[who := chunks]> (Unlockings s) end) s).

Definition force_set_era_start_block (origin : RuntimeOrigin) (block_number : BlockNumber) : Run unit :=
  _ ← lift (ensure_origin (UpdateOrigin T) origin);
  modify (set_EraStartBlock block_number).
Definition force_set_current_era (origin : RuntimeOrigin) (era : EraIndex) : Run unit :=
  _ ← lift (ensure_origin (UpdateOrigin T) origin);
  _ ← modify (set_IsMatched false);
  modify (set_CurrentEra era).
Definition force_advance_era (origin : RuntimeOrigin) (offset : EraIndex) : Run unit :=
  _ ← lift (ensure_origin (UpdateOrigin T) origin);
  do_advance_era offset.
Definition force_matching (origin : RuntimeOrigin) : Run unit :=
  _ ← lift (ensure_origin (UpdateOrigin T) origin);
  do_matching.

Definition is_updated (s : St) (index : DerivativeIndex) : bool := default false (IsUpdated s !! index).

Definition force_set_staking_ledger (origin : RuntimeOrigin) (index : DerivativeIndex)
    (staking_ledger : StakingLedger) : Run unit :=
  _ ← lift (ensure_origin (UpdateOrigin T) origin);
  do_update_ledger index (fun _ =>
    s ← get;
    _ ← lift (ensure (negb (is_updated s index) && bool_decide (XcmRequests s = ∅))
                (LiquidStaking StakingLedgerLocked));
    mret staking_ledger).

Definition set_current_era (origin : RuntimeOrigin) (era : EraIndex) (proof : list Bytes) : Run unit :=
  who ← lift (ensure_signed origin);
  s ← get;
  let offset := saturating_sub era (CurrentEra s) in
  _ ← lift (ensure (verify_merkle_proof get_current_era_key (encode_era T era) proof s)
              (LiquidStaking InvalidProof));
  _ ← do_advance_era offset;
  if negb (offset =? 0) then
    s ← get;
    on_chain_ignore (transfer (NativeCurrency T) (account_id T) who (Incentive s) false)
  else mret tt.

Definition set_staking_ledger (origin : RuntimeOrigin) (index : DerivativeIndex)
    (staking_ledger : StakingLedger) (proof : list Bytes) : Run unit :=
  who ← lift (ensure_signed origin);
  do_update_ledger index (fun ledger =>
    s ← get;
    _ ← lift (ensure (negb (is_updated s index)) (LiquidStaking StakingLedgerLocked));
    _ ← (if (ledger_total staking_ledger <? ledger_total ledger) || (active staking_ledger <? active ledger)
            || negb (bool_decide (unlocking staking_ledger = unlocking ledger))
            || negb (bool_decide (XcmRequests s = ∅))
         then deposit_event (NonIdealStakingLedger index) else mret tt);
    _ ← lift (ensure (verify_merkle_proof (get_staking_ledger_key index) (encode_ledger T staking_ledger) proof s)
                (LiquidStaking InvalidProof));
    let rewards := saturating_sub (ledger_total staking_ledger) (ledger_total ledger) in
    inflate_liquid_amount ← lift (get_inflate_liquid_amount s rewards);
    _ ← (if negb (inflate_liquid_amount =? 0) then
           liquid ← lift liquid_currency;
           on_chain (mint_into liquid (ProtocolFeeReceiver T) inflate_liquid_amount)
         else mret tt);
    _ ← on_chain_ignore (transfer (NativeCurrency T) (account_id T) who (Incentive s) false);
    mret staking_ledger).

Definition reduce_reserves (origin : RuntimeOrigin) (receiver : Source) (reduce_amount : Balance) : Run unit :=
  _ ← lift (ensure_origin (UpdateOrigin T) origin);
  receiver ← lift (lookup T receiver);
  s ← get;
  rest ← lift (ok_or (checked_sub (TotalReserves s) reduce_amount) (Arithmetic Underflow));
  _ ← modify (set_TotalReserves rest);
  staking ← lift staking_currency;
  _ ← on_chain (transfer staking (account_id T) receiver reduce_amount false);
  deposit_event (ReservesReduced receiver reduce_amount).

Definition cancel_unstake (origin : RuntimeOrigin) (amount : Balance) : Run unit :=
  who ← lift (ensure_signed origin);
  s ← get;
  liquid ← lift liquid_currency;
  let balance := reducible_balance (chain s) liquid who false in
  let request := saturating_sub (Z.min (default 0 (FastUnstakeRequests s !! who)) balance) amount in
  _ ← deposit_event (UnstakeCancelled who amount amount);
  modify (fun s => set_FastUnstake (<[who := request]> (FastUnstakeRequests s)) s).

Definition update_commission_rate (origin : RuntimeOrigin) (commission_rate : Rate) : Run unit :=
  _ ← lift (ensure_origin (UpdateOrigin T) origin);
  _ ← lift (ensure ((commission_rate >? 0) && (commission_rate <? FIXED_DIV)) (LiquidStaking InvalidCommissionRate));
  _ ← modify (set_CommissionRate commission_rate);
  deposit_event (CommissionRateUpdated commission_rate).

Definition fast_match_unstake (origin : RuntimeOrigin) (unstaker_list : list AccountId) : Run unit :=
  _ ← reads (ensure_automation origin);
  for_each do_fast_match_unstake unstaker_list.

Definition update_incentive (origin : RuntimeOrigin) (amount : Balance) : Run unit :=
  _ ← lift (ensure_origin (UpdateOrigin T) origin);
  _ ← modify (set_Incentive amount);
  deposit_event (IncentiveUpdated amount).

(** ** Hooks *)

Definition do_on_initialize : Run unit :=
  s ← get;
  _ ← (if negb (IsMatched s)
          && (Z.min u32_max (ElectionSolutionStoredOffset T + EraStartBlock s) <=? relay_block s)
       then do_matching else mret tt);
  s ← get;
  let off := offset s (relay_block s) in
  if off =? 0 then mret tt else do_advance_era off.
(** [with_transaction]: an error rolls everything back *)
Definition on_initialize : Run unit := ignore_error do_on_initialize.

Definition on_finalize : Run unit :=
  _ ← modify (set_IsUpdated ∅);
  s ← get;
  match relay_validation_data s with
  | Some data => modify (set_ValidationData (Some data))
  | None => mret tt
  end.

Inductive Call :=
| CallStake (amount : Balance)
| CallUnstake (liquid_amount : Balance) (p : UnstakeProvider)
| CallUpdateReserveFactor (r : Ratio)
| CallUpdateStakingLedgerCap (cap : Balance)
| CallBond (index : DerivativeIndex) (amount : Balance) (payee : Ump.RewardDestination)
| CallBondExtra (index : DerivativeIndex) (amount : Balance)
| CallUnbond (index : DerivativeIndex) (amount : Balance)
| CallRebond (index : DerivativeIndex) (amount : Balance)
| CallWithdrawUnbonded (index : DerivativeIndex) (num_slashing_spans : Z)
| CallNominate (index : DerivativeIndex) (targets : list AccountId)
| CallClaimFor (dest : Source)
| CallForceSetEraStartBlock (block_number : BlockNumber)
| CallForceSetCurrentEra (era : EraIndex)
| CallForceAdvanceEra (offset : EraIndex)
| CallForceMatching
| CallForceSetStakingLedger (index : DerivativeIndex) (l : StakingLedger)
| CallSetCurrentEra (era : EraIndex) (proof : list Bytes)
| CallSetStakingLedger (index : DerivativeIndex) (l : StakingLedger) (proof : list Bytes)
| CallReduceReserves (receiver : Source) (amount : Balance)
| CallCancelUnstake (amount : Balance)
| CallUpdateCommissionRate (r : Rate)
| CallFastMatchUnstake (unstaker_list : list AccountId)
| CallUpdateIncentive (amount : Balance).

Definition dispatch (o : RuntimeOrigin) (c : Call) : Run unit :=
  match c with
  | CallStake n => stake o n
  | CallUnstake n p => unstake o n p
  | CallUpdateReserveFactor r => update_reserve_factor o r
  | CallUpdateStakingLedgerCap cap => update_staking_ledger_cap o cap
  | CallBond i n payee => bond o i n payee
  | CallBondExtra i n => call_bond_extra o i n
  | CallUnbond i n => call_unbond o i n
  | CallRebond i n => call_rebond o i n
  | CallWithdrawUnbonded i n => withdraw_unbonded o i n
  | CallNominate i ts => nominate o i ts
  | CallClaimFor dest => claim_for o dest
  | CallForceSetEraStartBlock b => force_set_era_start_block o b
  | CallForceSetCurrentEra e => force_set_current_era o e
  | CallForceAdvanceEra off => force_advance_era o off
  | CallForceMatching => force_matching o
  | CallForceSetStakingLedger i l => force_set_staking_ledger o i l
  | CallSetCurrentEra e proof => set_current_era o e proof
  | CallSetStakingLedger i l proof => set_staking_ledger o i l proof
  | CallReduceReserves r n => reduce_reserves o r n
  | CallCancelUnstake n => cancel_unstake o n
  | CallUpdateCommissionRate r => update_commission_rate o r
  | CallFastMatchUnstake l => fast_match_unstake o l
  | CallUpdateIncentive n => update_incentive o n
  end.
End pallet.

(** The storage of a new chain, and [GenesisBuild::build] *)
Definition empty_storage {X} (x : X) (block : BlockNumber) (data : option PersistedValidationData)
    (members : list AccountId) : State X :=
  mkState 0 0 None 0 0 MatchingLedger_default 0 ∅ ∅ 0 0 ∅ ∅ ∅ false 0 x block data members [].
Definition build {X} (exchange_rate : Rate) (reserve_factor : Ratio) (s : State X) : State X :=
  set_ReserveFactor reserve_factor (set_ExchangeRate exchange_rate s).
End LiquidStaking.
