(* ===== verification/LiquidProps.v ===== *)
(** * Liquid staking: stakes and reserves are funded, locks are the open requests

    [mid ds du d] says of a state that the pool is sound, that what is locked is what open requests lock
    and [ds] and [du] more on the two sides, that chunks are not negative, and that the pallet holds the reserves and the stakes of
    the pool and [d] more.  The invariant is [mid 0 0 0]; operations are followed step by step. *)

From stdpp Require Import strings.
From S2P Require Import Prelude Arith Frame XcmHelper Loans Traits LiquidTypes LiquidPool LiquidStaking.
From stdpp Require Import list.
Import LiquidStakingErrors LiquidTypes LiquidStaking.
#[local] Open Scope Z_scope.

(** What a request locks in the pool *)
Definition stake_lock (r : XcmRequest) : Z :=
  match r with Bond _ n | BondExtra _ n | Rebond _ n => n | _ => 0 end.
Definition unstake_lock (r : XcmRequest) : Z := match r with Unbond _ n => n | _ => 0 end.
Definition request_amount (r : XcmRequest) : Z := stake_lock r + unstake_lock r.

Section liquid.
Context {SA : SpArithmetic} {SAL : SpArithmeticLaws SA} {SI : StorageIter} {SIL : StorageIterLaws SI}.
Context {DS : DistributionStrategy} {DL : DistributionLaws DS}.
Context {X : Type} {FU : Fungibles X} {FL : FungiblesLaws X}.
Context {XH : XcmHelperTrait X} {XL : XcmHelperLaws X} {LT : LoansTrait X} {LL : LoansLaws X}.

(** What the runtime sees to: the currencies are different, the staking currency may be held in any
    amount, messages and lending have accounts of their own, and lending sends no messages. *)
Record staking_setup (T : Config) : Prop := {
  ss_liquid : LiquidCurrency T <> StakingCurrency T;
  ss_collateral : CollateralCurrency T <> StakingCurrency T;
  ss_native : NativeCurrency T <> StakingCurrency T;
  ss_min : minimum_balance (StakingCurrency T) <= 1;
  ss_xcm : xcm_account <> account_id T;
  ss_loans : loans_account <> account_id T;
  ss_queries who a f x x' : loans_operation who a f -> f x = Ok x' -> next_query x' = next_query x;
  ss_position who a x v x' : loans_get_current_borrow_balance who a x = Ok (v, x') -> next_query x' = next_query x;
}.
Context (T : Config) (HT : staking_setup T).
Implicit Types s : State X.
Abbreviation acc := (account_id T).
Abbreviation ksm := (StakingCurrency T).

(** ** The chain *)

Definition chain_eff (d : Z) (x x' : X) : Prop :=
  balance x ksm acc + d <= balance x' ksm acc /\ next_query x <= next_query x'.

Lemma stk_transfer a f t amt k x x' :
  transfer a f t amt k x = Ok x' -> a <> ksm -> chain_eff 0 x x'.
Proof.
  intros H Ha. split; [rewrite (transfer_frame _ _ _ _ _ _ _ ksm acc H) by auto; lia |].
  rewrite (transfer_query _ _ _ _ _ _ _ H). lia.
Qed.
Lemma stk_in who amt k x x' : transfer ksm who acc amt k x = Ok x' -> who <> acc -> chain_eff amt x x'.
Proof.
  intros H Hw. split; [by eapply transfer_dest |]. rewrite (transfer_query _ _ _ _ _ _ _ H). lia.
Qed.
Lemma stk_out who amt k x x' : transfer ksm acc who amt k x = Ok x' -> 0 <= amt -> chain_eff (- amt) x x'.
Proof.
  destruct HT. intros H Ha. split; [| rewrite (transfer_query _ _ _ _ _ _ _ H); lia].
  destruct (decide (who = acc)) as [->|Hw]; [rewrite (transfer_self _ _ _ _ _ _ H); lia |].
  rewrite (pay_out _ _ _ _ _ _ _ H Hw) by (by right). rewrite decide_True by done. lia.
Qed.
Lemma stk_fees who amt x x' : xcm_add_fees who amt x = Ok x' -> who <> acc -> chain_eff 0 x x'.
Proof.
  destruct HT. rewrite add_fees_transfer. intros H Hw. split; [| rewrite (transfer_query _ _ _ _ _ _ _ H); lia].
  rewrite (transfer_frame _ _ _ _ _ _ _ ksm acc H) by auto. lia.
Qed.
Lemma stk_mint a who amt x x' : mint_into a who amt x = Ok x' -> 0 <= amt \/ a <> ksm -> chain_eff 0 x x'.
Proof.
  intros H Ha. split; [| rewrite (mint_query _ _ _ _ _ H); lia]. destruct Ha as [Ha|Ha].
  - pose proof (mint_into_grows _ _ _ _ _ H Ha ksm acc). lia.
  - rewrite (mint_into_frame _ _ _ _ _ ksm acc H) by auto. lia.
Qed.
Lemma stk_burn amt x x' : burn_from ksm acc amt x = Ok x' -> chain_eff (- amt) x x'.
Proof.
  destruct HT. intros H. split; [| rewrite (burn_query _ _ _ _ _ H); lia].
  rewrite (burn_from_balance _ _ _ _ _ H); [lia |]. apply dust_free_min_one; [done | by eapply burn_from_enough].
Qed.
Lemma stk_burn_other a who amt x x' : burn_from a who amt x = Ok x' -> a <> ksm -> chain_eff 0 x x'.
Proof.
  intros H Ha. split; [| rewrite (burn_query _ _ _ _ _ H); lia].
  rewrite (burn_from_frame _ _ _ _ _ ksm acc H) by auto. lia.
Qed.
Lemma stk_request f x q x' : xcm_request f -> f x = Ok (q, x') -> chain_eff 0 x x' /\ q = next_query x /\ next_query x' = q + 1.
Proof.
  destruct HT. intros Hf H. destruct (request_query f x q x' Hf H) as [-> E]. split; [| done].
  split; [| lia]. rewrite (request_balance f x (next_query x) x' _ _ Hf H) by auto. lia.
Qed.
Lemma stk_loans a f x x' : loans_operation acc a f -> f x = Ok x' -> a <> ksm -> chain_eff 0 x x'.
Proof.
  destruct HT as [_ _ _ _ _ _ Hq _]. intros Hf H Ha. split; [| rewrite (Hq _ _ _ _ _ Hf H); lia].
  rewrite (loans_balance _ _ _ _ _ ksm acc Hf H) by auto. lia.
Qed.
Lemma stk_borrow amt x x' : loans_do_borrow acc ksm amt x = Ok x' -> chain_eff amt x x'.
Proof.
  destruct HT as [_ _ _ _ _ Hl Hq _]. intros H. split; [by apply (loans_borrow_pays _ _ _ _ _ H) |].
  rewrite (Hq _ _ _ _ _ (op_borrow acc ksm amt) H). lia.
Qed.
Lemma stk_repay amt x x' : loans_do_repay_borrow acc ksm amt x = Ok x' -> chain_eff (- amt) x x'.
Proof.
  destruct HT as [_ _ _ Hm _ Hl Hq _]. intros H. split; [| rewrite (Hq _ _ _ _ _ (op_repay acc ksm amt) H); lia].
  pose proof (loans_repay_takes _ _ _ _ _ H ltac:(done) Hm). lia.
Qed.
Lemma stk_position who a x v x' : loans_get_current_borrow_balance who a x = Ok (v, x') -> chain_eff 0 x x'.
Proof.
  intros H. split; [rewrite (proj1 (loans_position _ _ _ _ _ ksm acc H)); lia |].
  rewrite (ss_position T HT _ _ _ _ _ H). lia.
Qed.

(** ** The invariant *)

Record mid (ds du d : Z) s : Prop := {
  md_pool : pool_ok (MatchingPool s);
  md_stake : reserved (total_stake_amount (MatchingPool s)) = map_sum (fun _ r => stake_lock r) (XcmRequests s) + ds;
  md_unstake : reserved (total_unstake_amount (MatchingPool s)) = map_sum (fun _ r => unstake_lock r) (XcmRequests s) + du;
  md_requests q r : XcmRequests s !! q = Some r -> q < next_query (chain s) /\ 0 <= stake_lock r /\ 0 <= unstake_lock r;
  md_unlockings who cs : Unlockings s !! who = Some cs -> Forall (fun c => 0 <= value c) cs;
  md_funds : TotalReserves s + total (total_stake_amount (MatchingPool s)) + d <= balance (chain s) ksm acc;
}.
Abbreviation staking_inv := (mid 0 0 0).

Lemma mid_frame ds du d s s' :
  MatchingPool s' = MatchingPool s -> XcmRequests s' = XcmRequests s -> TotalReserves s' = TotalReserves s ->
  chain s' = chain s -> Unlockings s' = Unlockings s -> mid ds du d s -> mid ds du d s'.
Proof. intros E1 E2 E3 E4 E5 []. constructor; rewrite ?E1, ?E2, ?E3, ?E4, ?E5; done. Qed.
Lemma mid_weaken ds du d d' s : mid ds du d s -> d' <= d -> mid ds du d' s.
Proof. intros [] Hd. constructor; try done. lia. Qed.
Lemma mid_chain ds du d e x s : mid ds du d s -> chain_eff e (chain s) x -> mid ds du (d + e) (set_chain x s).
Proof.
  intros [Hp Hs Hu Hr Hc Hf] [Hb Hq]. constructor; cbn; try done; [| lia].
  intros q r Hqr. destruct (Hr q r Hqr) as [? ?]. split; [lia | done].
Qed.
Lemma mid_pool ds du d s p st sr ut ur :
  mid ds du d s -> pool_ok p -> moves (MatchingPool s) p st sr ut ur ->
  mid (ds + sr) (du + ur) (d - st) (set_MatchingPool p s).
Proof. intros [Hp Hs Hu Hr Hc Hf] Hp' (M1 & M2 & M3 & M4). constructor; cbn; try done; lia. Qed.
Lemma mid_reserves ds du d s n : mid ds du d s -> mid ds du (d + TotalReserves s - n) (set_TotalReserves n s).
Proof. intros []. constructor; cbn; try done. lia. Qed.
Lemma mid_unlockings ds du d s m :
  (forall who cs, m !! who = Some cs -> Forall (fun c => 0 <= value c) cs) ->
  mid ds du d s -> mid ds du d (set_Unlockings m s).
Proof. intros Hc []. by constructor. Qed.
Lemma mid_insert ds du d s q r :
  mid ds du d s -> XcmRequests s !! q = None -> q < next_query (chain s) -> 0 <= stake_lock r -> 0 <= unstake_lock r ->
  mid (ds - stake_lock r) (du - unstake_lock r) d (set_XcmRequests (<[q := r]> (XcmRequests s)) s).
Proof.
  intros [Hp Hs Hu Hr Hc Hf] Hn Hq Hsl Hul. constructor; cbn; try done.
  - rewrite map_sum_insert_new by done. lia.
  - rewrite map_sum_insert_new by done. lia.
  - intros q' r' [[<- <-]|[_ Hq']]%lookup_insert_Some; [done | by apply Hr].
Qed.
Lemma mid_delete ds du d s q r :
  mid ds du d s -> XcmRequests s !! q = Some r ->
  mid (ds + stake_lock r) (du + unstake_lock r) d (set_XcmRequests (delete q (XcmRequests s)) s).
Proof.
  intros [Hp Hs Hu Hr Hc Hf] Hq. constructor; cbn; try done.
  - pose proof (map_sum_delete (fun _ r => stake_lock r) _ q r Hq) as E. cbn in E. lia.
  - pose proof (map_sum_delete (fun _ r => unstake_lock r) _ q r Hq) as E. cbn in E. lia.
  - intros q' r' [_ Hq']%lookup_delete_Some. by apply Hr.
Qed.

(** ** Requests *)

Lemma staking_chain_Ok f s u s' : on_chain f s = Ok (u, s') -> exists x, f (chain s) = Ok x /\ s' = set_chain x s.
Proof. unfold on_chain. destruct (f (chain s)) as [x| |]; naive_solver. Qed.
Lemma staking_query_Ok {A} (f : X -> Res (A * X)) s q s' :
  on_chain_query f s = Ok (q, s') -> exists x, f (chain s) = Ok (q, x) /\ s' = set_chain x s.
Proof. unfold on_chain_query. destruct (f (chain s)) as [[q' x]| |]; naive_solver. Qed.
Lemma mutate_pool_Ok f s u s' :
  mutate_pool f s = Ok (u, s') -> exists p, f (MatchingPool s) = Ok p /\ s' = set_MatchingPool p s.
Proof. unfold mutate_pool. intros H. minv. eauto. Qed.

Lemma request_mid ds du d f s q s' r :
  xcm_request f -> mid ds du d s -> on_chain_query f s = Ok (q, s') -> 0 <= stake_lock r -> 0 <= unstake_lock r ->
  mid (ds - stake_lock r) (du - unstake_lock r) d (set_XcmRequests (<[q := r]> (XcmRequests s')) s').
Proof.
  intros Hf Hm (x & Hx & ->)%staking_query_Ok Hs Hu. destruct (stk_request f _ q x Hf Hx) as (He & Hq & Hn).
  apply mid_insert; [| | cbn; lia | done | done].
  - replace d with (d + 0) by lia. by apply mid_chain.
  - cbn. destruct (XcmRequests s !! q) as [r'|] eqn:Hr; [| done].
    destruct (md_requests _ _ _ s Hm q r' Hr). lia.
Qed.

Lemma mid_event ds du d s e : mid ds du d s -> mid ds du d (push_event e s).
Proof. by apply mid_frame. Qed.

(** A request that locks, and one that does not *)
Lemma stake_request_mid d i n (r : DerivativeIndex -> Balance -> XcmRequest) f s u s1 q s2 :
  0 <= n -> xcm_request f -> stake_lock (r i n) = n -> unstake_lock (r i n) = 0 -> mid 0 0 d s ->
  mutate_pool (set_stake_amount_lock n) s = Ok (u, s1) -> on_chain_query f s1 = Ok (q, s2) ->
  mid 0 0 d (set_XcmRequests (<[q := r i n]> (XcmRequests s2)) s2).
Proof.
  intros Hn Hf E1 E2 Hm (p & Hp & ->)%mutate_pool_Ok Hq.
  apply set_stake_lock_Ok in Hp as [Hp Hmv]; [| done | by apply Hm].
  pose proof (mid_pool _ _ _ s p _ _ _ _ Hm Hp Hmv) as Hm1.
  pose proof (request_mid _ _ _ f _ q s2 (r i n) Hf Hm1 Hq ltac:(lia) ltac:(lia)) as Hm2.
  rewrite E1, E2 in Hm2. replace (0 + n - n) with 0 in Hm2 by lia. replace (d - 0) with d in Hm2 by lia. exact Hm2.
Qed.
Lemma unstake_request_mid d i n f s u s1 q s2 :
  0 <= n -> xcm_request f -> mid 0 0 d s ->
  mutate_pool (set_unstake_amount_lock n) s = Ok (u, s1) -> on_chain_query f s1 = Ok (q, s2) ->
  mid 0 0 d (set_XcmRequests (<[q := Unbond i n]> (XcmRequests s2)) s2).
Proof.
  intros Hn Hf Hm (p & Hp & ->)%mutate_pool_Ok Hq.
  apply set_unstake_lock_Ok in Hp as [Hp Hmv]; [| done | by apply Hm].
  pose proof (mid_pool _ _ _ s p _ _ _ _ Hm Hp Hmv) as Hm1.
  pose proof (request_mid _ _ _ f _ q s2 (Unbond i n) Hf Hm1 Hq ltac:(cbn; lia) ltac:(cbn; lia)) as Hm2. cbn in Hm2.
  replace (0 + n - n) with 0 in Hm2 by lia. replace (d - 0) with d in Hm2 by lia. exact Hm2.
Qed.

Lemma do_bond_extra_mid d i n : 0 <= n -> preserves (mid 0 0 d) (do_bond_extra T i n).
Proof.
  intros Hn s u s' Hm H. unfold do_bond_extra, insert_request, deposit_event in H. case_match; minv; [done |].
  apply mid_event. eapply (stake_request_mid d i n BondExtra); [done | constructor | done | done | exact Hm | eassumption | eassumption].
Qed.
Lemma do_bond_mid d i n payee : 0 <= n -> preserves (mid 0 0 d) (do_bond T i n payee).
Proof.
  intros Hn s u s' Hm H. unfold do_bond, insert_request, deposit_event in H. case_match; minv; [done |].
  case_match; minv; [by eapply do_bond_extra_mid |].
  apply mid_event. eapply (stake_request_mid d i n Bond); [done | | done | done | exact Hm | eassumption | eassumption]. constructor.
Qed.
Lemma do_rebond_mid d i n : 0 <= n -> preserves (mid 0 0 d) (do_rebond T i n).
Proof.
  intros Hn s u s' Hm H. unfold do_rebond, insert_request, deposit_event in H. case_match; minv; [done |].
  apply mid_event. eapply (stake_request_mid d i n Rebond); [done | | done | done | exact Hm | eassumption | eassumption]. constructor.
Qed.
Lemma do_unbond_mid d i n : 0 <= n -> preserves (mid 0 0 d) (do_unbond T i n).
Proof.
  intros Hn s u s' Hm H. unfold do_unbond, insert_request, deposit_event in H. case_match; minv; [done |].
  apply mid_event. eapply unstake_request_mid; [done | | exact Hm | eassumption | eassumption]. constructor.
Qed.
Lemma do_withdraw_unbonded_mid d i n : preserves (mid 0 0 d) (do_withdraw_unbonded T i n).
Proof.
  intros s u s' Hm H. unfold do_withdraw_unbonded, insert_request, deposit_event in H. minv. case_match; minv; [done |].
  apply mid_event.
  match goal with H : on_chain_query _ _ = Ok (?q, ?s2) |- _ =>
    apply (request_mid 0 0 d _ s q s2 (WithdrawUnbonded i n)) in H; [exact H | constructor | done | done | done] end.
Qed.
Lemma do_nominate_mid d i ts : preserves (mid 0 0 d) (do_nominate T i ts).
Proof.
  intros s u s' Hm H. unfold do_nominate, insert_request, deposit_event in H. minv. apply mid_event.
  match goal with H : on_chain_query _ _ = Ok (?q, ?s2) |- _ =>
    apply (request_mid 0 0 d _ s q s2 (Nominate i ts)) in H; [exact H | constructor | done | done | done] end.
Qed.

(** ** Matching and eras *)

Lemma preserves_for_each_in {S E A} (P : S -> Prop) (f : A -> M S E unit) l :
  Forall (fun x => preserves P (f x)) l -> preserves P (for_each f l).
Proof. induction 1 as [|x l Hx Hl IH]; simpl; [apply preserves_mret |]. apply preserves_bind; auto. Qed.
Lemma fold_nonneg {A} (f : A -> Z) (l : list A) a : 0 <= a -> 0 <= foldl (fun acc p => saturating_add acc (f p)) a l \/ exists p, p ∈ l /\ f p < 0.
Proof.
  revert a. induction l as [|p l IH]; intros a Ha; [by left |]. cbn.
  destruct (decide (0 <= f p)) as [Hp|Hp]; [| right; exists p; split; [left | lia]].
  destruct (IH (saturating_add a (f p))) as [?|(p' & ? & ?)].
  - unfold saturating_add, u128_max in *. lia.
  - by left.
  - right. exists p'. split; [by right | done].
Qed.
Lemma total_unbonding_nonneg s : 0 <= get_total_unbonding s.
Proof.
  unfold get_total_unbonding, fold_ledgers.
  destruct (fold_nonneg (fun p : Z * StakingLedger => saturating_sub (ledger_total p.2) (active p.2)) (storage_iter (StakingLedgers s)) 0)
    as [?|(p & _ & Hp)]; [done | done |]. unfold saturating_sub in Hp. lia.
Qed.


(** What the requests keep, matching keeps: the distributions ask for no negative amounts. *)
Section matching.
Context (P : State X -> Prop).
Context (Hbond : forall i n payee, 0 <= n -> preserves P (do_bond T i n payee)).
Context (Hunbond : forall i n, 0 <= n -> preserves P (do_unbond T i n)).
Context (Hrebond : forall i n, 0 <= n -> preserves P (do_rebond T i n)).
Context (Hwithdraw : forall i n, preserves P (do_withdraw_unbonded T i n)).
Context (Hmatched : forall b s, P s -> P (set_IsMatched b s)) (Hevent : forall e s, P s -> P (push_event e s)).

Lemma amounts_for_each (f : DerivativeIndex * Balance -> M (State X) DispatchError unit) l :
  amounts_ok l -> (forall i n, 0 <= n -> preserves P (f (i, n))) -> preserves P (for_each f l).
Proof.
  intros Hl Hf. apply preserves_for_each_in. eapply Forall_impl; [exact Hl |]. intros [i n] Hn. by apply Hf.
Qed.
Lemma multi_bond_preserves n payee : 0 <= n -> preserves P (do_multi_bond T n payee).
Proof.
  intros Hn. unfold do_multi_bond. case_match; [apply preserves_mret |]. apply preserves_bind; [apply preserves_get |].
  intros s. apply amounts_for_each; [by apply bond_distribution |]. intros i m Hm. by apply Hbond.
Qed.
Lemma multi_unbond_preserves n : 0 <= n -> preserves P (do_multi_unbond T n).
Proof.
  intros Hn. unfold do_multi_unbond. case_match; [apply preserves_mret |]. apply preserves_bind; [apply preserves_get |].
  intros s. apply amounts_for_each; [by apply unbond_distribution |]. intros i m Hm. by apply Hunbond.
Qed.
Lemma multi_rebond_preserves n : 0 <= n -> preserves P (do_multi_rebond T n).
Proof.
  intros Hn. unfold do_multi_rebond. case_match; [apply preserves_mret |]. apply preserves_bind; [apply preserves_get |].
  intros s. apply amounts_for_each; [| intros i m Hm; by apply Hrebond]. apply rebond_distribution; [done |].
  apply Forall_forall. intros p (i & -> & _)%list_elem_of_fmap. cbn. unfold unbonding_of.
  destruct (StakingLedgers s !! i); cbn; unfold saturating_sub; lia.
Qed.
Lemma multi_withdraw_preserves n : preserves P (do_multi_withdraw_unbonded T n).
Proof. apply preserves_bind; [apply preserves_get |]. intros s. by apply preserves_for_each. Qed.
Lemma matching_preserves : preserves P (do_matching T).
Proof.
  intros s u s' Hs H. unfold do_matching, deposit_event in H. minv.
  match goal with H : matching _ _ = _ |- _ => apply matching_nonneg in H as (? & ? & ?); [| apply total_unbonding_nonneg] end.
  apply Hevent.
  match goal with H1 : do_multi_bond _ _ _ _ = _, H2 : do_multi_rebond _ _ _ = _, H3 : do_multi_unbond _ _ _ = _,
      H4 : do_multi_withdraw_unbonded _ _ _ = _ |- _ =>
    apply multi_bond_preserves in H1; [apply multi_rebond_preserves in H2;
      [apply multi_unbond_preserves in H3; [by apply multi_withdraw_preserves in H4 | done | done]
      | done | done] | done | by apply Hmatched] end.
Qed.
End matching.
Lemma do_matching_mid d : preserves (mid 0 0 d) (do_matching T).
Proof.
  apply matching_preserves; intros; [by apply do_bond_mid | by apply do_unbond_mid | by apply do_rebond_mid
    | apply do_withdraw_unbonded_mid | by eapply mid_frame; [..| eassumption] | by apply mid_event].
Qed.

Lemma ignore_error_preserves (P : State X -> Prop) m : preserves P m -> preserves P (ignore_error m).
Proof. intros Hm s u s' Hs H. unfold ignore_error in H. destruct (m s) as [[v s1]| |] eqn:E; simplify_eq; [by eapply Hm | done]. Qed.

Ltac mid_write := apply preserves_modify; intros ? ?; by eapply mid_frame; [..| eassumption].
Lemma do_advance_era_mid ds du d n : preserves (mid ds du d) (do_advance_era T n).
Proof.
  unfold do_advance_era, do_update_exchange_rate, deposit_event.
  preserve ltac:(first [apply ignore_error_preserves | mid_write]).
  apply ignore_error_preserves. preserve ltac:(mid_write).
Qed.
Lemma on_initialize_mid d : preserves (mid 0 0 d) (on_initialize T).
Proof.
  apply ignore_error_preserves. unfold do_on_initialize.
  preserve ltac:(first [apply do_matching_mid | apply do_advance_era_mid]).
Qed.
Lemma on_finalize_mid ds du d : preserves (mid ds du d) on_finalize.
Proof. unfold on_finalize. preserve ltac:(mid_write). Qed.
End liquid.
