(* ===== verification/LiquidOps.v ===== *)
(** * Liquid staking: every operation keeps the pool funded

    The extrinsics, the answers of the relay chain and the hooks, one after the other, and the
    transition system they make up. *)

From stdpp Require Import strings.
From S2P Require Import Prelude Arith Frame XcmHelper Loans Traits LiquidTypes LiquidPool LiquidStaking LiquidProps.
From stdpp Require Import list relations.
Import LiquidStakingErrors LiquidTypes LiquidStaking.
#[local] Open Scope Z_scope.

Section liquid.
Context {SA : SpArithmetic} {SAL : SpArithmeticLaws SA} {SI : StorageIter} {SIL : StorageIterLaws SI}.
Context {DS : DistributionStrategy} {DL : DistributionLaws DS}.
Context {X : Type} {FU : Fungibles X} {FL : FungiblesLaws X}.
Context {XH : XcmHelperTrait X} {XL : XcmHelperLaws X} {LT : LoansTrait X} {LL : LoansLaws X}.
Context (T : Config) (HT : staking_setup T).
Implicit Types s : State X.
Abbreviation acc := (account_id T).
Abbreviation ksm := (StakingCurrency T).
Abbreviation mid := (mid T).

Lemma staking_currency_Ok a : staking_currency T = Ok a -> a = ksm.
Proof. unfold staking_currency, get_staking_currency. case_match; naive_solver. Qed.
Lemma liquid_currency_Ok a : liquid_currency T = Ok a -> a = LiquidCurrency T.
Proof. unfold liquid_currency, get_liquid_currency. case_match; naive_solver. Qed.

Ltac mid_write := apply preserves_modify; intros ? ?; by eapply mid_frame; [..| eassumption].

(** ** Steps *)

Lemma chain_mid ds du d e f s u s' :
  mid ds du d s -> on_chain f s = Ok (u, s') -> (forall x x', f x = Ok x' -> chain_eff T e x x') -> mid ds du (d + e) s'.
Proof. intros Hm (x & Hx & ->)%staking_chain_Ok He. apply mid_chain; auto. Qed.
Lemma chain_preserves ds du d f :
  (forall x x', f x = Ok x' -> chain_eff T 0 x x') -> preserves (mid ds du d) (on_chain f).
Proof. intros He s u s' Hm H. replace d with (d + 0) by lia. by eapply chain_mid. Qed.
Lemma ignore_preserves ds du d f :
  (forall x x', f x = Ok x' -> chain_eff T 0 x x') -> preserves (mid ds du d) (on_chain_ignore f).
Proof.
  intros He s u s' Hm H. unfold on_chain_ignore in H. destruct (f (chain s)) as [x| |] eqn:Hx; simplify_eq; [| done].
  replace d with (d + 0) by lia. apply mid_chain; auto.
Qed.
Lemma pool_mid ds du d f s u s' st sr ut ur :
  mid ds du d s -> mutate_pool f s = Ok (u, s') ->
  (forall p p', f p = Ok p' -> pool_ok p -> pool_ok p' /\ moves p p' st sr ut ur) ->
  mid (ds + sr) (du + ur) (d - st) s'.
Proof.
  intros Hm (p & Hp & ->)%mutate_pool_Ok Hf. destruct (Hf _ _ Hp (md_pool _ _ _ _ _ Hm)). by eapply mid_pool.
Qed.
Lemma mid_eq ds du d ds' du' d' s : mid ds' du' d' s -> ds' = ds -> du' = du -> d <= d' -> mid ds du d s.
Proof. intros H -> -> Hd. by eapply mid_weaken. Qed.
Lemma update_ledger_preserves (P : State X -> Prop) i cb :
  (forall m s, P s -> P (set_IsUpdated m s)) -> (forall e s, P s -> P (push_event e s)) ->
  (forall m s, P s -> P (set_StakingLedgers m s)) -> (forall l, preserves P (cb l)) -> preserves P (do_update_ledger i cb).
Proof.
  intros H1 H2 H3 Hcb. unfold do_update_ledger, deposit_event.
  preserve ltac:(first [apply Hcb | apply preserves_modify; intros ? ?; auto]).
Qed.
Lemma update_ledger_mid ds du d i cb :
  (forall l, preserves (mid ds du d) (cb l)) -> preserves (mid ds du d) (do_update_ledger i cb).
Proof. intros H. apply update_ledger_preserves; [intros ? ?; by apply mid_frame .. | done]. Qed.

(** ** Answers of the relay chain *)

Lemma consolidate_stake_mid ds d n s u s' :
  0 <= n -> mid ds 0 d s -> mutate_pool (consolidate_stake n) s = Ok (u, s') -> mid (ds - n) 0 (d + n) s'.
Proof.
  intros Hn Hm (p & Hp & ->)%mutate_pool_Ok.
  apply consolidate_stake_Ok in Hp as (Hp & c & Hc & Hmv); [| done | by apply Hm].
  pose proof (mid_pool T _ _ _ s p _ _ _ _ Hm Hp Hmv). eapply mid_eq; [eassumption | lia..].
Qed.
Lemma consolidate_unstake_mid du d n s u s' :
  0 <= n -> mid 0 du d s -> mutate_pool (consolidate_unstake n) s = Ok (u, s') -> mid 0 (du - n) d s'.
Proof.
  intros Hn Hm (p & Hp & ->)%mutate_pool_Ok.
  apply consolidate_unstake_Ok in Hp as (Hp & c & Hc & Hmv); [| done | by apply Hm].
  pose proof (mid_pool T _ _ _ s p _ _ _ _ Hm Hp Hmv). eapply mid_eq; [eassumption | lia..].
Qed.
Lemma burn_mid ds du d n s u s' :
  mid ds du d s -> on_chain (burn_from ksm acc n) s = Ok (u, s') -> mid ds du (d - n) s'.
Proof.
  intros Hm H. replace (d - n) with (d + - n) by lia. eapply chain_mid; [exact Hm | exact H |].
  intros x x'. by apply stk_burn.
Qed.

Ltac same_requests := preserve ltac:(apply preserves_modify; by intros ? ?).
Lemma update_keeps_requests rs i cb :
  (forall l, preserves (fun s : State X => XcmRequests s = rs) (cb l)) ->
  preserves (fun s : State X => XcmRequests s = rs) (do_update_ledger i cb).
Proof. intros H. by apply update_ledger_preserves. Qed.
Lemma chain_keeps_requests rs f : preserves (fun s : State X => XcmRequests s = rs) (on_chain f).
Proof. intros s u s' H (x & _ & ->)%staking_chain_Ok. done. Qed.

Lemma lift_mid ds du d i f s u s' :
  mid ds du d s -> do_update_ledger i (fun l => lift (f l)) s = Ok (u, s') -> mid ds du d s'.
Proof. intros Hm H. eapply update_ledger_mid; [| exact Hm | exact H]. intros l. apply preserves_lift. Qed.
Lemma withdrawn_mid ds du d i :
  preserves (mid ds du d) (do_update_ledger i (fun l =>
    s ← get; staking ← lift (staking_currency T);
    _ ← on_chain (mint_into staking acc (saturating_sub (ledger_total l) (ledger_total (consolidate_unlocked (CurrentEra s) l))));
    mret (consolidate_unlocked (CurrentEra s) l))).
Proof.
  apply update_ledger_mid. intros l.
  preserve ltac:(apply chain_preserves; intros ? ? Hx; eapply stk_mint; [exact Hx |]; left; unfold saturating_sub; lia).
Qed.

Ltac ledger_step :=
  repeat match goal with
  | Hm : LiquidProps.mid _ _ _ _ ?s, H : do_update_ledger _ (fun l => lift _) ?s = Ok _ |- _ =>
      pose proof (lift_mid _ _ _ _ _ _ _ _ Hm H); clear Hm
  | Hm : LiquidProps.mid _ _ _ _ ?s, H : mutate_pool (consolidate_stake ?n) ?s = Ok _, Hn : 0 <= ?n |- _ =>
      apply (consolidate_stake_mid _ _ _ _ _ _ Hn Hm) in H; clear Hm
  | Hm : LiquidProps.mid _ _ _ _ ?s, H : mutate_pool (consolidate_unstake ?n) ?s = Ok _, Hn : 0 <= ?n |- _ =>
      apply (consolidate_unstake_mid _ _ _ _ _ _ Hn Hm) in H; clear Hm
  | Hm : LiquidProps.mid _ _ _ _ ?s, H : on_chain (burn_from ksm acc _) ?s = Ok _ |- _ =>
      apply (burn_mid _ _ _ _ _ _ _ Hm) in H; clear Hm
  end.

Lemma notification_mid q r res s u s' :
  XcmRequests s !! q = Some r -> mid 0 0 0 s -> do_notification_received T q r res s = Ok (u, s') -> mid 0 0 0 s'.
Proof.
  intros Hr Hm H. unfold do_notification_received in H. case_match; minv; [done |].
  destruct (md_requests _ _ _ _ s Hm q r Hr) as (_ & Hs & Hu).
  match goal with H : (match r with _ => _ end) _ = Ok (_, ?s1) |- _ => rename s1 into s1', H into Hact end.
  assert (XcmRequests s1' = XcmRequests s) as E.
  { refine ((_ : preserves (fun s0 => XcmRequests s0 = XcmRequests s) _) s _ s1' eq_refl Hact). clear.
    destruct r; preserve ltac:(first [apply update_keeps_requests | apply chain_keeps_requests]);
      try (apply update_keeps_requests; intros ?); same_requests; apply chain_keeps_requests. }
  enough (mid (- stake_lock r) (- unstake_lock r) 0 s1') as Hm1.
  { eapply mid_eq; [apply mid_delete; [exact Hm1 | by rewrite E] | lia..]. }
  destruct r as [i n|i n|i n|i n|i n|i ts]; cbn in *; minv;
    repeat match goal with H : staking_currency _ = Ok _ |- _ => apply staking_currency_Ok in H as -> end.
  - match goal with H : mutate_pool _ ?s1 = _ |- _ => assert (mid 0 0 0 s1) as Hm1 by (by eapply mid_frame; [..| exact Hm]) end.
    ledger_step. eapply mid_eq; [eassumption | lia..].
  - ledger_step. eapply mid_eq; [eassumption | lia..].
  - ledger_step. eapply mid_eq; [eassumption | lia..].
  - ledger_step. eapply mid_eq; [eassumption | lia..].
  - by eapply withdrawn_mid.
  - done.
Qed.
Lemma notification_received_mid o q r : preserves (mid 0 0 0) (notification_received T o q r).
Proof.
  unfold notification_received, deposit_event. intros s u s' Hm H. minv. destruct r as [res|]; minv; [| done].
  apply mid_event. case_match; minv; [by eapply notification_mid | done].
Qed.

(** ** Users *)

Ltac currencies := repeat match goal with
  | H : staking_currency _ = Ok _ |- _ => apply staking_currency_Ok in H as ->
  | H : liquid_currency _ = Ok _ |- _ => apply liquid_currency_Ok in H as ->
  end.
Ltac other_currency :=
  intros ? ? Hx; destruct HT;
  first [ by eapply stk_transfer; [exact Hx |]
        | by eapply stk_mint; [exact Hx | right]
        | by eapply stk_burn_other; [exact Hx |]
        | by eapply stk_loans; [done | constructor | exact Hx |] ].
Lemma collateral_for_state n s v s' : collateral_for T n s = Ok (v, s') -> s' = s.
Proof. unfold collateral_for. intros H. minv. case_match; minv; done. Qed.


Lemma stake_mid o n : o <> Signed acc -> preserves (mid 0 0 0) (stake T o n).
Proof.
  intros Ho s u s' Hm H. unfold stake, deposit_event in H. minv. currencies. apply mid_event.
  match goal with H : ensure_signed o = Ok ?w |- _ => destruct o; simplify_eq/=; rename w into who end.
  assert (who <> acc) as Hw by congruence.
  pose proof (permill_mul_floor_type (ReserveFactor s) n) as [? _].
  match goal with H1 : on_chain (transfer _ _ _ _ _) s = _, H2 : on_chain (xcm_add_fees _ _) _ = _,
      H3 : on_chain (mint_into _ _ _) _ = _, H4 : mutate_pool _ _ = _ |- _ =>
    eapply chain_mid in H1; [| exact Hm | intros ? ? Hx; by eapply stk_in];
    eapply chain_mid in H2; [| exact H1 | intros ? ? Hx; by eapply stk_fees];
    eapply chain_mid in H3; [| exact H2 | intros ? ? Hx; eapply stk_mint; [exact Hx | right; apply HT]];
    eapply pool_mid in H4; [| exact H3 | intros p p' Hp Hpo; apply (add_stake_Ok _ p p' Hp); [lia | done]];
    eapply mid_eq; [apply mid_reserves; exact H4 | lia..] end.
Qed.


Lemma instant_unstake_mid who n : preserves (mid 0 0 0) (do_loans_instant_unstake T who n).
Proof.
  intros s u s' Hm H. unfold do_loans_instant_unstake in H. minv. currencies.
  match goal with H : collateral_for _ _ _ = _ |- _ => apply collateral_for_state in H as -> end.
  match goal with H1 : on_chain (mint_into _ _ _) s = Ok (_, ?s1), H2 : on_chain (loans_do_mint _ _ _) ?s1 = Ok (_, ?s2),
      H3 : on_chain_ignore _ ?s2 = Ok (_, ?s3), H4 : on_chain (loans_do_borrow _ _ _) ?s3 = _, H5 : on_chain (transfer _ _ _ _ _) _ = _ |- _ =>
    eapply chain_preserves in H1; [| other_currency | exact Hm];
    eapply chain_preserves in H2; [| other_currency | exact H1];
    eapply ignore_preserves in H3; [| other_currency | exact H2];
    eapply chain_mid in H4; [| exact H3 | intros ? ? Hx; by apply stk_borrow];
    eapply chain_mid in H5; [| exact H4 | intros ? ? Hx; eapply stk_out; [done | exact Hx | lia]];
    eapply mid_eq; [exact H5 | lia..] end.
Qed.

Lemma unstake_mid o n p : preserves (mid 0 0 0) (unstake T o n p).
Proof.
  intros s u s' Hm H. unfold unstake, deposit_event in H. minv. case_match; minv; currencies; [by eapply mid_frame; [..| exact Hm] |].
  apply mid_event.
  match goal with H : liquid_to_staking _ _ = Some ?m |- _ =>
    unfold liquid_to_staking in H; apply fixed_checked_mul_int_type in H as [Hn0 _]; rename m into m' end.
  match goal with H1 : on_chain (burn_from _ _ _) ?s1 = Ok (_, ?s2), H2 : _ ?s2 = Ok (_, ?s3), H3 : mutate_pool _ ?s3 = _ |- _ =>
    eapply chain_preserves in H1; [| other_currency | apply mid_unlockings; [| exact Hm]];
    [assert (mid 0 0 0 s3) as Hm3 by (case_match; minv; [by eapply instant_unstake_mid | done]);
     eapply pool_mid in H3; [| exact Hm3 | intros p' p'' Hp Hpo; apply (add_unstake_Ok _ p' p'' Hp); [lia | done]];
     eapply mid_eq; [exact H3 | lia..] |] end.
  intros w cs [[<- <-]|[_ Hcs]]%lookup_insert_Some; [| by eapply md_unlockings].
  apply add_chunk_ok; [| done]. destruct (Unlockings s !! _) as [l|] eqn:Hl; [by eapply md_unlockings | done].
Qed.

(** What a claim may take is what is held beyond reserves and stakes. *)
Lemma unclaimed_mid n s : mid 0 0 0 s -> 0 < n -> n <= get_total_unclaimed T s ksm -> mid 0 0 n s.
Proof.
  intros Hm Hn Hu. pose proof (md_pool _ _ _ _ _ Hm) as [[? ?] _]. constructor; try apply Hm.
  unfold get_total_unclaimed, saturating_sub in Hu.
  pose proof (reducible_balance_range (chain s) ksm acc false). lia.
Qed.
Lemma claimable_nonneg e cs n : chunks_ok cs -> claimable e cs = Ok n -> 0 <= n.
Proof.
  unfold claimable. intros Hc.
  assert (forall a : Res Balance, (forall m, a = Ok m -> 0 <= m) -> foldl (fun acc chunk => acc ← acc;
           if era chunk >? e then Ok acc else or_panic (checked_add acc (value chunk))) a cs = Ok n -> 0 <= n) as Hf.
  { induction Hc as [|c cs Hv Hc IH]; intros a Ha H; cbn in H; [by apply Ha |]. apply IH in H; [done |].
    intros m Hm. minv. match goal with H : _ = Ok ?x |- _ => pose proof (Ha x H) end. case_match; minv; lia. }
  apply Hf. intros m [= <-]. lia.
Qed.
Lemma do_claim_for_mid who n s u s' :
  0 < n -> mid 0 0 n s -> do_claim_for T who n s = Ok (u, s') -> mid 0 0 0 s'.
Proof.
  intros Hn Hm H. unfold do_claim_for in H. minv. currencies. case_match; minv.
  - match goal with H : collateral_for _ _ _ = _ |- _ => apply collateral_for_state in H as -> end.
    match goal with H1 : on_chain_query _ s = Ok (_, ?s1), H2 : on_chain (loans_do_repay_borrow _ _ _) ?s1 = _,
      H3 : on_chain (loans_do_redeem _ _ _) _ = _, H4 : on_chain (burn_from _ _ _) _ = _ |- _ =>
    apply staking_query_Ok in H1 as (x1 & Hx1 & ->);
    pose proof (mid_chain _ _ _ _ _ _ _ Hm (stk_position _ HT _ _ _ _ _ Hx1)) as Hm1;
    eapply chain_mid in H2; [| exact Hm1 | intros ? ? Hx; by apply stk_repay];
    eapply chain_preserves in H3; [| other_currency | exact H2];
    eapply chain_preserves in H4; [| other_currency | exact H3];
    eapply mid_eq; [exact H4 | lia..] end.
  - match goal with H : on_chain (transfer _ _ _ _ _) _ = _ |- _ =>
      eapply chain_mid in H; [| exact Hm | intros ? ? Hx; eapply stk_out; [done | exact Hx | lia]];
      eapply mid_eq; [exact H | lia..] end.
Qed.

Lemma claim_for_mid o dest : preserves (mid 0 0 0) (claim_for T o dest).
Proof.
  intros s u s' Hm H. unfold claim_for, deposit_event in H. minv. currencies.
  match goal with H : Unlockings s !! _ = Some ?c |- _ => rename c into cs, H into Hcs end.
  pose proof (md_unlockings _ _ _ _ s Hm _ _ Hcs) as Hc.
  match goal with H : claimable _ _ = Ok ?m |- _ => pose proof (claimable_nonneg _ _ _ Hc H); rename m into n end.
  zbool. assert (mid 0 0 n s) as Hn by (apply unclaimed_mid; [done | lia | lia]).
  match goal with H : do_claim_for _ _ _ _ = _ |- _ => apply do_claim_for_mid in H; [rename H into Hd | lia | exact Hn] end.
  apply mid_unlockings; [| by apply mid_event]. intros w l Hl.
  match type of Hl with (match ?f with _ => _ end !! _ = _) => destruct f eqn:Hf end.
  - apply lookup_delete_Some in Hl as [_ Hl]. exact (md_unlockings _ _ _ _ _ Hd _ _ Hl).
  - rewrite <- Hf in Hl. apply lookup_insert_Some in Hl as [[<- <-]|[_ Hl]]; [by apply filter_chunks_ok | exact (md_unlockings _ _ _ _ _ Hd _ _ Hl)].
Qed.

(** ** Administration, automation and provers *)

Lemma fast_match_mid who : preserves (mid 0 0 0) (do_fast_match_unstake T who).
Proof.
  intros s u s' Hm H. unfold do_fast_match_unstake, deposit_event in H. minv. case_match; minv; [| done].
  currencies. match goal with |- LiquidProps.mid _ _ _ _ (set_FastUnstake _ ?s1) => apply (mid_frame T 0 0 0 s1); [done .. |] end. case_match; minv; [| done]. currencies. apply mid_event.
  match goal with H : liquid_to_staking _ _ = Some ?m |- _ =>
    unfold liquid_to_staking in H; apply fixed_checked_mul_int_type in H as [Hn0 _] end.
  match goal with H1 : on_chain (burn_from _ _ _) s = _, H2 : on_chain (transfer (LiquidCurrency T) _ _ _ _) _ = _,
    H3 : mutate_pool _ _ = _, H4 : on_chain (transfer ksm _ _ _ _) _ = _ |- _ =>
    eapply chain_preserves in H1; [| other_currency | exact Hm];
    eapply chain_preserves in H2; [| other_currency | exact H1];
    eapply pool_mid in H3; [| exact H2 | intros p' p'' Hp Hpo; apply (sub_stake_Ok _ p' p'' Hp); [lia | done]];
    eapply chain_mid in H4; [| exact H3 | intros ? ? Hx; eapply stk_out; [done | exact Hx | lia]];
    eapply mid_eq; [exact H4 | lia..] end.
Qed.
Lemma reduce_reserves_mid o r n : 0 <= n -> preserves (mid 0 0 0) (reduce_reserves T o r n).
Proof.
  intros Hn s u s' Hm H. unfold reduce_reserves, deposit_event in H. minv. currencies. apply mid_event.
  match goal with H : on_chain (transfer _ _ _ _ _) _ = _ |- _ =>
    eapply chain_mid in H; [| apply mid_reserves; exact Hm | intros ? ? Hx; eapply stk_out; [done | exact Hx | lia]];
    eapply mid_eq; [exact H | lia..] end.
Qed.
Lemma set_current_era_mid o e proof : preserves (mid 0 0 0) (set_current_era T o e proof).
Proof.
  unfold set_current_era.
  preserve ltac:(first [apply do_advance_era_mid | apply ignore_preserves; other_currency]).
Qed.
Lemma set_staking_ledger_mid o i l proof : preserves (mid 0 0 0) (set_staking_ledger T o i l proof).
Proof.
  unfold set_staking_ledger, deposit_event. apply preserves_bind_lift. intros who _. apply update_ledger_mid. intros l0.
  preserve ltac:(first [mid_write | apply ignore_preserves; other_currency | currencies; apply chain_preserves; other_currency]).
Qed.
Lemma force_set_staking_ledger_mid o i l : preserves (mid 0 0 0) (force_set_staking_ledger T o i l).
Proof.
  unfold force_set_staking_ledger. apply preserves_bind_lift. intros who _. apply update_ledger_mid. intros l0. preserve ltac:(fail).
Qed.

(** ** Dispatch *)

(** Amounts are [Balance]s, and the pallet's own account signs nothing. *)
Definition staking_call_ok (o : RuntimeOrigin) (c : Call) : Prop :=
  match c with
  | CallStake _ => o <> Signed acc
  | CallBond _ n _ | CallBondExtra _ n | CallUnbond _ n | CallRebond _ n | CallReduceReserves _ n => 0 <= n
  | _ => True
  end.

Lemma dispatch_mid o c : staking_call_ok o c -> preserves (mid 0 0 0) (dispatch T o c).
Proof.
  intros Hc. destruct c; cbn in *;
    first [ by apply stake_mid | apply unstake_mid | apply claim_for_mid | by apply reduce_reserves_mid
          | apply set_current_era_mid | apply set_staking_ledger_mid | apply force_set_staking_ledger_mid | idtac ];
    unfold update_reserve_factor, update_staking_ledger_cap, bond, call_bond_extra, call_unbond, call_rebond, withdraw_unbonded,
      nominate, force_set_era_start_block, force_set_current_era, force_advance_era, force_matching, cancel_unstake,
      update_commission_rate, fast_match_unstake, update_incentive, deposit_event;
    preserve ltac:(first [ mid_write | apply fast_match_mid | by apply do_bond_mid | by apply do_bond_extra_mid
      | by apply do_unbond_mid | by apply do_rebond_mid | by apply do_withdraw_unbonded_mid | by apply do_nominate_mid
      | by apply do_advance_era_mid | by apply do_matching_mid]).
Qed.
End liquid.
