(* ===== verification/LiquidSafety.v ===== *)
(** * Liquid staking: what holds of every run

    Runs start from the genesis of the pallet; between its calls, the answers of the relay chain
    and the hooks of a block, the rest of the chain may do anything that does not take from the
    pallet's account. *)

From stdpp Require Import strings.
From S2P Require Import Prelude Arith Frame XcmHelper Loans Traits LiquidTypes LiquidPool LiquidStaking LiquidProps LiquidOps.
From stdpp Require Import list relations.
Import LiquidStakingErrors LiquidTypes LiquidStaking.
#[local] Open Scope Z_scope.

Section runs.
Context {SA : SpArithmetic} {SAL : SpArithmeticLaws SA} {SI : StorageIter} {SIL : StorageIterLaws SI}.
Context {DS : DistributionStrategy} {DL : DistributionLaws DS}.
Context {X : Type} {FU : Fungibles X} {FL : FungiblesLaws X}.
Context {XH : XcmHelperTrait X} {XL : XcmHelperLaws X} {LT : LoansTrait X} {LL : LoansLaws X}.
Context (T : Config).
Implicit Types s : State X.
Abbreviation acc := (account_id T).
Abbreviation ksm := (StakingCurrency T).

(** ** Runs *)

(** The rest of the chain *)
Definition rest_step s s' : Prop := exists x b data ms,
  s' = mkState (ExchangeRate s) (CommissionRate s) (ValidationData s) (ReserveFactor s) (TotalReserves s)
    (MatchingPool s) (StakingLedgerCap s) (XcmRequests s) (FastUnstakeRequests s) (CurrentEra s)
    (EraStartBlock s) (Unlockings s) (StakingLedgers s) (IsUpdated s) (IsMatched s) (Incentive s)
    x b data ms (events s) /\
  chain_eff T 0 (chain s) x.

(** A step of a run whose calls are as [ok] says *)
Inductive staking_step (ok : RuntimeOrigin -> Call -> Prop) s : State X -> Prop :=
| stk_call o c s' : ok o c -> dispatch T o c s = Ok (tt, s') -> staking_step ok s s'
| stk_answer o q r s' : notification_received T o q r s = Ok (tt, s') -> staking_step ok s s'
| stk_initialize s' : on_initialize T s = Ok (tt, s') -> staking_step ok s s'
| stk_finalize s' : on_finalize s = Ok (tt, s') -> staking_step ok s s'
| stk_rest s' : rest_step s s' -> staking_step ok s s'.

Definition staking_genesis x b data ms rate factor : State X := build rate factor (empty_storage x b data ms).
Definition staking_reachable ok s : Prop :=
  exists x b data ms rate factor, rtc (staking_step ok) (staking_genesis x b data ms rate factor) s.

(** Something every operation keeps is kept by runs. *)
Lemma staking_steps ok (P : State X -> Prop) s s' :
  (forall o c, ok o c -> preserves P (dispatch T o c)) ->
  (forall o q r, preserves P (notification_received T o q r)) ->
  preserves P (on_initialize T) -> preserves P on_finalize -> (forall s s', P s -> rest_step s s' -> P s') ->
  P s -> rtc (staking_step ok) s s' -> P s'.
Proof.
  intros Hd Hn Hi Hf Hr Hs. induction 1 as [|s s1 s2 H1 H2 IH]; [done |]. apply IH.
  destruct H1 as [o c ? Hc H|o q r ? H|? H|? H|? H]; [by eapply Hd | by eapply Hn | by eapply Hi | by eapply Hf | by eapply Hr].
Qed.

Lemma staking_genesis_mid x b data ms rate factor : mid T 0 0 0 (staking_genesis x b data ms rate factor).
Proof.
  constructor; cbn; rewrite ?map_sum_empty; try done.
  apply (balance_range x).
Qed.
Lemma rest_mid s s' : mid T 0 0 0 s -> rest_step s s' -> mid T 0 0 0 s'.
Proof.
  intros Hm (x & b & data & ms & -> & He). pose proof (mid_chain T _ _ _ _ x s Hm He) as H.
  by eapply mid_frame; [..| exact H].
Qed.

(** A failed answer leaves the storage as it was, but for the event. *)
Lemma failed_answer_keeps o q e s u s' :
  notification_received T o q (ExecutionResult (Some e)) s = Ok (u, s') ->
  XcmRequests s' = XcmRequests s /\ MatchingPool s' = MatchingPool s /\ chain s' = chain s.
Proof.
  unfold notification_received, do_notification_received, deposit_event. intros H. minv.
  destruct (XcmRequests s !! q); by minv.
Qed.

(** A request that was carried out leaves the list, and only this one. *)
Lemma carried_out_removes o q r s u s' :
  notification_received T o q (ExecutionResult None) s = Ok (u, s') -> XcmRequests s !! q = Some r ->
  XcmRequests s' = delete q (XcmRequests s).
Proof.
  intros H Hq. unfold notification_received, do_notification_received, deposit_event in H. minv. rewrite Hq in *. minv.
  match goal with H : (match r with _ => _ end) s = Ok (_, ?s2) |- _ => rename s2 into s2', H into Hact end.
  cbn. f_equal. revert Hact.
  match goal with |- ?m s = _ -> _ => enough (preserves (fun s0 : State X => XcmRequests s0 = XcmRequests s) m) as Hp
    by (intros Hact; exact (Hp s _ s2' eq_refl Hact)) end.
  destruct r; preserve ltac:(first [ apply chain_keeps_requests | by apply preserves_modify
    | apply update_keeps_requests; intros ?; preserve ltac:(apply chain_keeps_requests)
    | by intros ? ? ? ? (? & _ & ->)%mutate_pool_Ok ]).
Qed.

(** C9: In every run the pallet can pay what it owes in the staking currency: its account holds the reserves and
    all stakes of the matching pool.  What the pool has locked for stakes and for unstakes is exactly what the
    requests in the pallet's list are about, so a lock never exceeds the amount it is part of, and nothing is locked
    when the list is empty.  A request leaves the list when it is reported to have succeeded; an answer that
    reports a failure keeps the request and its lock.  The pallet's own account signs nothing, and the currencies
    and accounts of the pallets differ ([staking_setup]). *)
Theorem stakes_and_locks_funded s :
  staking_setup T -> staking_reachable (staking_call_ok T) s ->
  TotalReserves s + total (total_stake_amount (MatchingPool s)) <= balance (chain s) ksm acc /\
  pool_ok (MatchingPool s) /\
  reserved (total_stake_amount (MatchingPool s)) = map_sum (fun _ r => stake_lock r) (XcmRequests s) /\
  reserved (total_unstake_amount (MatchingPool s)) = map_sum (fun _ r => unstake_lock r) (XcmRequests s) /\
  (forall o q e u s', notification_received T o q (ExecutionResult (Some e)) s = Ok (u, s') ->
     XcmRequests s' = XcmRequests s /\ MatchingPool s' = MatchingPool s) /\
  (forall o q r u s', notification_received T o q (ExecutionResult None) s = Ok (u, s') ->
     XcmRequests s !! q = Some r -> XcmRequests s' = delete q (XcmRequests s)).
Proof.
  intros HT (x & b & data & ms & rate & factor & Hr).
  assert (mid T 0 0 0 s) as [Hp Hs Hu _ _ Hf].
  { eapply staking_steps; [.. | apply staking_genesis_mid | exact Hr].
    - intros o c Hc. by apply dispatch_mid.
    - intros o q r. by apply notification_received_mid.
    - by apply on_initialize_mid.
    - by apply on_finalize_mid.
    - apply rest_mid. }
  split; [lia |]. split; [done |]. split; [lia |]. split; [lia |]. split.
  - intros o q e u s' H. by destruct (failed_answer_keeps o q e s u s' H) as (? & ? & _).
  - intros o q r' u s' H Hq. by eapply carried_out_removes.
Qed.

(** ** The exchange rate *)

Section rate.
Context (r : Rate).
Abbreviation above := (fun s : State X => r <= ExchangeRate s).
Lemma above_chain f : preserves above (on_chain f).
Proof. intros s u s' H (x & _ & ->)%staking_chain_Ok. done. Qed.
Lemma above_ignore f : preserves above (on_chain_ignore f).
Proof. intros s u s' H E. unfold on_chain_ignore in E. case_match; by minv. Qed.
Lemma above_query {A} (f : X -> Res (A * X)) : preserves above (on_chain_query f).
Proof. intros s u s' H (x & _ & ->)%staking_query_Ok. done. Qed.
Lemma above_pool f : preserves above (mutate_pool f).
Proof. intros s u s' H (p & _ & ->)%mutate_pool_Ok. done. Qed.
Lemma above_ledger i cb : (forall l, preserves above (cb l)) -> preserves above (do_update_ledger i cb).
Proof. intros H. by apply update_ledger_preserves. Qed.
Lemma above_update : preserves above (do_update_exchange_rate T).
Proof.
  intros s u s' H E. unfold do_update_exchange_rate, deposit_event in E. minv. case_match; minv; [done |].
  case_match; minv; [| done]. zbool. cbn. lia.
Qed.
End rate.
Ltac above := preserve ltac:(first [ apply above_chain | apply above_ignore | apply above_query | apply above_pool
  | apply ignore_error_preserves; apply above_update | apply preserves_modify; by intros ? ?]).
Lemma above_era r n : preserves (fun s : State X => r <= ExchangeRate s) (do_advance_era T n).
Proof. unfold do_advance_era, deposit_event. above. Qed.
Lemma above_matching r : preserves (fun s : State X => r <= ExchangeRate s) (do_matching T).
Proof.
  apply matching_preserves; try done; intros; unfold do_bond, do_bond_extra, do_rebond, do_unbond, do_withdraw_unbonded,
    insert_request, deposit_event; above.
Qed.
Lemma above_dispatch r o c : preserves (fun s : State X => r <= ExchangeRate s) (dispatch T o c).
Proof.
  destruct c; cbn;
    first [ apply preserves_bind_lift; intros; apply above_era | apply preserves_bind_lift; intros; apply above_matching | idtac];
    unfold stake, unstake, claim_for, reduce_reserves, set_current_era, set_staking_ledger, force_set_staking_ledger, 
      update_reserve_factor, update_staking_ledger_cap, bond, call_bond_extra, call_unbond, call_rebond, withdraw_unbonded,
      nominate, force_set_era_start_block, force_set_current_era, force_advance_era, force_matching, cancel_unstake,
      update_commission_rate, fast_match_unstake, update_incentive, do_fast_match_unstake, do_claim_for, do_loans_instant_unstake,
      collateral_for, do_bond, do_bond_extra, do_unbond, do_rebond, do_withdraw_unbonded, do_nominate, insert_request, deposit_event.
  all: try solve [above].
  all: preserve ltac:(first [apply above_era | apply above_ignore | apply above_ledger; intros ?; above]).
Qed.
Lemma above_answer r o q a : preserves (fun s : State X => r <= ExchangeRate s) (notification_received T o q a).
Proof.
  unfold notification_received, do_notification_received, deposit_event.
  preserve ltac:(first [apply above_chain | apply above_pool | apply preserves_modify; by intros ? ? | apply above_ledger; intros ?; above]).
Qed.

(** C11: The liquid currency never loses value against the staking currency: whatever happens, stakes and unstakes, rewards
    and slashes the relay chain's ledgers report, eras and matching, the exchange rate only grows. *)
Theorem exchange_rate_never_falls s s' : rtc (staking_step (fun _ _ => True)) s s' -> ExchangeRate s <= ExchangeRate s'.
Proof.
  apply (staking_steps _ (fun s0 => ExchangeRate s <= ExchangeRate s0)); [.. | done].
  - intros o c _. apply above_dispatch.
  - intros o q a. apply above_answer.
  - apply ignore_error_preserves. unfold do_on_initialize. preserve ltac:(first [apply above_matching | apply above_era]).
  - unfold on_finalize. above.
  - intros s1 s2 H (x & b & data & ms & -> & _). done.
Qed.

(** ** Staking ledgers *)

(** The storage roots of the relay chain's own blocks.  Their ledgers balance, and a storage proof against
    such a root shows nothing else; of other roots nothing is assumed. *)
Context (relay_root : Z -> Prop).
Definition relay_ledgers_balanced : Prop := forall proof root i l, relay_root root ->
  read_trie_value T proof root (get_staking_ledger_key T i) = Some (encode_ledger T l) -> ledger_ok l.
(** The validation data that collators pass in is checked by the relay chain's validators: its root is one
    of the relay chain's. *)
Definition relay_data_ok s : Prop := forall d, relay_validation_data s = Some d -> relay_root (relay_parent_storage_root d).
Definition ledger_call_ok (o : RuntimeOrigin) (c : Call) : Prop :=
  match c with
  | CallForceSetStakingLedger _ l => ledger_ok l
  | CallBond _ n _ | CallBondExtra _ n | CallUnbond _ n | CallRebond _ n => 0 <= n
  | _ => True
  end.

Definition request_positive (r : XcmRequest) : Prop :=
  match r with Bond _ n | BondExtra _ n | Unbond _ n | Rebond _ n => 0 < n | _ => True end.
Record balanced s : Prop := {
  ba_root d : ValidationData s = Some d -> relay_root (relay_parent_storage_root d);
  ba_ledgers i l : StakingLedgers s !! i = Some l -> ledger_ok l;
  ba_requests q r : XcmRequests s !! q = Some r -> request_positive r;
}.
Lemma balanced_frame s s' : ValidationData s' = ValidationData s ->
  StakingLedgers s' = StakingLedgers s -> XcmRequests s' = XcmRequests s -> balanced s -> balanced s'.
Proof. intros E0 E1 E2 []. constructor; rewrite ?E0, ?E1, ?E2; done. Qed.
Lemma balanced_chain f : preserves balanced (on_chain f).
Proof. intros s u s' H (x & _ & ->)%staking_chain_Ok. by eapply balanced_frame; [..| exact H]. Qed.
Lemma balanced_ignore f : preserves balanced (on_chain_ignore f).
Proof. intros s u s' H E. unfold on_chain_ignore in E. case_match; minv; [by eapply balanced_frame; [..| exact H] | done]. Qed.
Lemma balanced_query {A} (f : X -> Res (A * X)) : preserves balanced (on_chain_query f).
Proof. intros s u s' H (x & _ & ->)%staking_query_Ok. by eapply balanced_frame; [..| exact H]. Qed.
Lemma balanced_pool f : preserves balanced (mutate_pool f).
Proof. intros s u s' H (p & _ & ->)%mutate_pool_Ok. by eapply balanced_frame; [..| exact H]. Qed.
Lemma balanced_request q r : request_positive r -> preserves balanced (insert_request q r : M (State X) _ _).
Proof.
  intros Hr. apply preserves_modify. intros s []. constructor; [done | done |]. cbn.
  intros q' r' [[<- <-]|[_ ?]]%lookup_insert_Some; eauto.
Qed.
Lemma balanced_ledger i l m s :
  m = StakingLedgers s -> ledger_ok l -> balanced s -> balanced (set_StakingLedgers (<[i := l]> m) s).
Proof. intros -> Hl []. constructor; [done | | done]. cbn. intros j l' [[<- <-]|[_ ?]]%lookup_insert_Some; eauto. Qed.
(** What a ledger update leaves of the state it starts from *)
Lemma balanced_update_at i cb s u s' :
  balanced s -> (forall l, preserves balanced (cb l)) ->
  (forall l l' s', ledger_ok l -> cb l s = Ok (l', s') -> ledger_ok l') ->
  do_update_ledger i cb s = Ok (u, s') -> balanced s'.
Proof.
  intros Hb Hp Hl H. unfold do_update_ledger, deposit_event in H. minv.
  match goal with H1 : _ !! i = Some ?l, H2 : cb _ _ = Ok (?l', ?s1) |- _ =>
    pose proof (Hl _ _ _ (ba_ledgers s Hb _ _ H1) H2); pose proof (Hp _ _ _ _ Hb H2) end.
  apply balanced_ledger; [done | done |]. by eapply balanced_frame; [..| eassumption].
Qed.
Lemma balanced_update i cb :
  (forall l, preserves balanced (cb l)) -> (forall l s l' s', ledger_ok l -> cb l s = Ok (l', s') -> ledger_ok l') ->
  preserves balanced (do_update_ledger i cb).
Proof.
  intros Hp Hl s u s' Hb H. eapply balanced_update_at; eauto.
Qed.

Ltac balance := preserve ltac:(first
  [ apply balanced_chain | apply balanced_ignore | apply balanced_query | apply balanced_pool
  | apply balanced_request; cbn; zbool; lia || done
  | apply preserves_modify; intros ? ?; by eapply balanced_frame; [..| eassumption] ]).
Lemma balanced_bond_extra i n : 0 <= n -> preserves balanced (do_bond_extra T i n).
Proof. intros Hn. unfold do_bond_extra, deposit_event. balance. Qed.
Lemma balanced_bond i n payee : 0 <= n -> preserves balanced (do_bond T i n payee).
Proof.
  intros Hn. unfold do_bond, deposit_event. preserve ltac:(by apply balanced_bond_extra).
  all: balance.
Qed.
Lemma balanced_unbond i n : 0 <= n -> preserves balanced (do_unbond T i n).
Proof. intros Hn. unfold do_unbond, deposit_event. balance. Qed.
Lemma balanced_rebond i n : 0 <= n -> preserves balanced (do_rebond T i n).
Proof. intros Hn. unfold do_rebond, deposit_event. balance. Qed.
Lemma balanced_withdraw i n : preserves balanced (do_withdraw_unbonded T i n).
Proof. unfold do_withdraw_unbonded, deposit_event. balance. Qed.
Lemma balanced_era n : preserves balanced (do_advance_era T n).
Proof.
  unfold do_advance_era, deposit_event.
  preserve ltac:(first [ apply ignore_error_preserves; unfold do_update_exchange_rate, deposit_event; balance
    | apply preserves_modify; intros ? ?; by eapply balanced_frame; [..| eassumption] ]).
Qed.
Lemma balanced_matching : preserves balanced (do_matching T).
Proof.
  apply matching_preserves; intros; [by apply balanced_bond | by apply balanced_unbond | by apply balanced_rebond
    | apply balanced_withdraw | by eapply balanced_frame; [..| eassumption]..].
Qed.
Lemma balanced_force o i l : ledger_ok l -> preserves balanced (force_set_staking_ledger T o i l).
Proof.
  intros Hl. apply preserves_bind_lift. intros _ _. apply balanced_update; [intros l0; balance |].
  intros l0 s l' s' _ H. by minv.
Qed.
Lemma merkle_proof_read key v proof s :
  verify_merkle_proof T key v proof s = true ->
  exists d, ValidationData s = Some d /\ read_trie_value T proof (relay_parent_storage_root d) key = Some v.
Proof.
  unfold verify_merkle_proof. intros H. repeat case_match; try done. apply bool_decide_eq_true in H as ->. eauto.
Qed.
Lemma balanced_set o i l proof : relay_ledgers_balanced -> preserves balanced (set_staking_ledger T o i l proof).
Proof.
  intros Hrelay. apply preserves_bind_lift. intros who _. unfold deposit_event. intros s u s' Hb H.
  refine (balanced_update_at _ _ _ _ _ Hb _ _ H); [intros l0; balance |].
  intros l0 l' s1 _ H1. minv.
  match goal with H : verify_merkle_proof _ _ _ _ _ = true |- _ => apply merkle_proof_read in H as (d & Hd & Hroot) end.
  eapply Hrelay, Hroot. by apply (ba_root s Hb).
Qed.
Lemma balanced_dispatch o c :
  relay_ledgers_balanced -> ledger_call_ok o c -> preserves balanced (dispatch T o c).
Proof.
  intros Hrelay Hc. destruct c; cbn in *; try (by apply balanced_force); try (by apply balanced_set);
    unfold stake, unstake, claim_for, reduce_reserves, set_current_era,
      update_reserve_factor, update_staking_ledger_cap, bond, call_bond_extra, call_unbond, call_rebond, withdraw_unbonded,
      nominate, force_set_era_start_block, force_set_current_era, force_advance_era, force_matching, cancel_unstake,
      update_commission_rate, fast_match_unstake, update_incentive, do_fast_match_unstake, do_claim_for, do_loans_instant_unstake,
      collateral_for, do_nominate, deposit_event;
    preserve ltac:(first [ apply balanced_chain | apply balanced_ignore | apply balanced_query | apply balanced_pool
      | by apply balanced_request | by apply balanced_bond | by apply balanced_bond_extra | by apply balanced_unbond | by apply balanced_rebond
      | apply balanced_withdraw | apply balanced_era | apply balanced_matching
      | apply preserves_modify; intros ? ?; by eapply balanced_frame; [..| eassumption] ]).
Qed.

(** The burn that confirms a bond shows that the pallet held the amount. *)
Lemma balanced_new i a n f s a0 u s1 v s' :
  balanced s -> 0 < n ->
  mutate_pool f (set_StakingLedgers (<[i := StakingLedger_new a n]> (StakingLedgers s)) s) = Ok (u, s1) ->
  on_chain (burn_from a0 acc n) s1 = Ok (v, s') -> balanced s'.
Proof.
  intros Hb Hn (p & _ & ->)%mutate_pool_Ok (x' & Hx & ->)%staking_chain_Ok. cbn in Hx.
  pose proof (burn_from_enough _ _ _ _ _ Hx). match type of Hx with burn_from ?a ?w _ ?l = _ => pose proof (balance_range l a w) as [_ ?] end.
  match goal with |- balanced (set_chain _ (set_MatchingPool _ ?s1)) => apply (balanced_frame s1); [done | done | done |] end.
  apply balanced_ledger; [done | apply new_ledger; lia | done].
Qed.
Lemma balanced_answer o q a : preserves balanced (notification_received T o q a).
Proof.
  intros s u s' Hb H. unfold notification_received, deposit_event in H. minv. destruct a as [res|]; minv; [| done].
  match goal with |- balanced (push_event _ ?s1) => apply (balanced_frame s1); [done | done | done |] end.
  destruct (XcmRequests s !! q) as [r|] eqn:Hr; minv; [| done]. pose proof (ba_requests s Hb _ _ Hr) as Hn.
  match goal with H : do_notification_received _ _ _ _ _ = _ |- _ => unfold do_notification_received in H end.
  case_match; minv; [done |].
  match goal with H : (match r with _ => _ end) s = Ok (_, ?s2) |- balanced (set_XcmRequests _ ?s2) =>
    rename s2 into s2', H into Hact; enough (balanced s2') as [Hd Hl Hq] by (constructor; [exact Hd | exact Hl |]; cbn; intros ? ? [_ ?]%lookup_delete_Some; eauto) end.
  destruct r as [i n|i n|i n|i n|i n|i ts]; cbn in Hn; [minv; by eapply balanced_new | ..].
  all: match goal with Hact : ?m _ = Ok (_, ?s2) |- balanced ?s2 => assert (preserves balanced m) as Hp; [clear Hact | by eapply Hp] end; preserve ltac:(first [apply balanced_pool | apply balanced_chain
    | apply balanced_update; [intros ?; balance | intros l0 s0 l0' s0' Hl0 H0'; minv; first
        [ eapply bond_extra_ledger; [eassumption | done | lia] | eapply unbond_ledger; [eassumption | done | lia]
        | eapply rebond_ledger; [eassumption | done | lia] | by apply consolidate_ledger]]]).
Qed.

Lemma balanced_finalize s u s' : relay_data_ok s -> balanced s -> on_finalize s = Ok (u, s') -> balanced s'.
Proof.
  intros Hd Hb H. unfold on_finalize in H. minv. cbn in *.
  destruct (relay_validation_data s) as [d|] eqn:Ed; minv; destruct Hb; constructor; cbn; try done.
  intros d' [= <-]. by apply Hd.
Qed.

(** A run whose validation data is the relay chain's *)
Definition relay_step s s' : Prop := staking_step ledger_call_ok s s' /\ relay_data_ok s'.
Definition relay_reachable s : Prop := exists x b data ms rate factor,
  relay_data_ok (staking_genesis x b data ms rate factor) /\ rtc relay_step (staking_genesis x b data ms rate factor) s.

Lemma balanced_relay_step s s' :
  relay_ledgers_balanced -> relay_data_ok s -> balanced s -> relay_step s s' -> balanced s'.
Proof.
  intros Hrelay Hd Hb [[o c s1 Hc H|o q r s1 H|s1 H|s1 H|s1 H] _].
  - by eapply balanced_dispatch.
  - by eapply balanced_answer.
  - revert H. apply (ignore_error_preserves balanced); [| done]. unfold do_on_initialize.
    preserve ltac:(first [apply balanced_matching | apply balanced_era]).
  - by eapply balanced_finalize.
  - destruct H as (x' & b' & data' & ms' & -> & _). by eapply balanced_frame; [..| exact Hb].
Qed.

(** C10: The pallet's copies of the relay chain's staking ledgers always add up: the total of each is its active amount and
    its unlocking chunks, none of them negative, and fits 128 bits; bonds, unbonds, rebonds and withdrawals the relay chain
    confirms keep this.  So it is in every run in which administrators force only ledgers that add up, and the validation
    data handed to the chain carries storage roots of the relay chain, against which storage proofs show ledgers that add up. *)
Theorem staking_ledgers_balanced s i l :
  relay_ledgers_balanced -> relay_reachable s -> StakingLedgers s !! i = Some l -> ledger_ok l.
Proof.
  intros Hrelay (x & b & data & ms & rate & factor & Hd & Hr). apply ba_ledgers.
  assert (balanced (staking_genesis x b data ms rate factor)) as Hb by by constructor.
  induction Hr as [|s1 s2 s3 H12 _ IH]; [done |]. apply IH; [apply H12 | by eapply balanced_relay_step].
Qed.
End runs.
