(* ===== verification/LiquidUsers.v ===== *)
(** * Liquid staking: what users get

    What a claim pays, and what staking and unstaking again is worth. *)

From stdpp Require Import strings.
From S2P Require Import Prelude Arith Frame XcmHelper Loans Traits LiquidTypes LiquidPool LiquidStaking LiquidProps LiquidOps.
From stdpp Require Import list.
Import LiquidStakingErrors LiquidTypes LiquidStaking.
#[local] Open Scope Z_scope.

Section users.
Context {SA : SpArithmetic} {SAL : SpArithmeticLaws SA} {SI : StorageIter}.
Context {DS : DistributionStrategy}.
Context {X : Type} {FU : Fungibles X} {FL : FungiblesLaws X}.
Context {XH : XcmHelperTrait X} {XL : XcmHelperLaws X} {LT : LoansTrait X} {LL : LoansLaws X}.
Context (T : Config).
Implicit Types s : State X.
Abbreviation acc := (account_id T).
Abbreviation ksm := (StakingCurrency T).

(** ** Claims *)

(** The chunks of an unlocking list that may be claimed, and the others *)
Definition matured (e : EraIndex) (cs : list UnlockChunk) : list UnlockChunk := List.filter (fun c => era c <=? e) cs.
Definition unmatured (e : EraIndex) (cs : list UnlockChunk) : list UnlockChunk := List.filter (fun c => era c >? e) cs.

Lemma claimable_matured e cs n : claimable e cs = Ok n -> n = chunks_sum (matured e cs).
Proof.
  unfold claimable.
  assert (forall a : Res Balance, foldl (fun acc chunk => acc ← acc;
            if era chunk >? e then Ok acc else or_panic (checked_add acc (value chunk))) a cs = Ok n ->
          exists m, a = Ok m /\ n = m + chunks_sum (matured e cs)) as Hf.
  { induction cs as [|c cs IH]; intros a H; cbn in H; [exists n; split; [done | change (chunks_sum (matured e [])) with 0; lia] |].
    apply IH in H as (m & Hm & ->). minv. exists x. split; [done |]. unfold matured. cbn [List.filter].
    rewrite Z.gtb_ltb in *. case_match; minv; zbool.
    - rewrite (proj2 (Z.leb_gt _ _)) by lia. done.
    - rewrite (proj2 (Z.leb_le _ _)) by lia. rewrite chunks_sum_cons. unfold matured. lia. }
  intros (m & Hm & ->)%Hf. simplify_eq. lia.
Qed.
Lemma claimable_unmatured e cs : claimable e (unmatured e cs) = Ok 0.
Proof.
  unfold claimable, unmatured. induction cs as [|c cs IH]; [done |]. cbn. destruct (era c >? e) eqn:E; cbn; rewrite ?E; done.
Qed.

Lemma do_claim_user who n s u s' :
  who <> loans_account_id T -> do_claim_for T who n s = Ok (u, s') ->
  exists x, transfer ksm acc who n false (chain s) = Ok x /\ s' = set_chain x s.
Proof.
  intros Hl H. unfold do_claim_for in H. minv.
  match goal with H : staking_currency _ = Ok _ |- _ => apply staking_currency_Ok in H as -> end.
  rewrite (proj2 (Z.eqb_neq _ _) Hl) in *. by eapply staking_chain_Ok.
Qed.
Lemma unmatured_refused dest who cs o s :
  lookup T dest = Ok who -> staking_currency T = Ok ksm ->
  Unlockings s !! who = None \/ Unlockings s !! who = Some (unmatured (CurrentEra s) cs) ->
  exists e, claim_for T o dest s = Err e.
Proof.
  intros Hw Hk Hu. unfold claim_for. cbn. unfold reads, lift, mbind, M_bind, get.
  assert (ensure_automation T o s = Ok tt \/ exists e, ensure_automation T o s = Err e) as [->|[e ->]]; [| | by eexists].
  { unfold ensure_automation. case_match; [by left |]. destruct o; cbn; try (right; by eexists). case_match; [by left | right; by eexists]. }
  rewrite Hw, Hk. destruct Hu as [->| ->]; cbn; [by eexists |]. rewrite claimable_unmatured. cbn. by eexists.
Qed.

(** C37: A claim pays a user exactly the unstaked amounts whose unbonding is over, out of what the pallet holds beyond its
    reserves and stakes; the amounts still unbonding stay queued, and no one else's queue changes.  Nothing is paid twice:
    another claim in the same era is refused. *)
Theorem claim_pays_matured o dest who s u s' :
  minimum_balance ksm <= 1 -> lookup T dest = Ok who -> who <> loans_account_id T -> who <> acc ->
  claim_for T o dest s = Ok (u, s') ->
  (exists cs, let n := chunks_sum (matured (CurrentEra s) cs) in
    Unlockings s !! who = Some cs /\ n <> 0 /\ n <= get_total_unclaimed T s ksm /\
    balance (chain s') ksm who = balance (chain s) ksm who + n /\
    balance (chain s') ksm acc = balance (chain s) ksm acc - n /\
    default [] (Unlockings s' !! who) = unmatured (CurrentEra s) cs) /\
  (forall y, y <> who -> Unlockings s' !! y = Unlockings s !! y) /\
  (forall o', exists e, claim_for T o' dest s' = Err e).
Proof.
  intros Hmin Hw Hl Ha H. unfold claim_for, deposit_event in H. minv.
  match goal with H : lookup T dest = Ok ?w |- _ => assert (w = who) as -> by congruence; clear H end.
  match goal with H : Unlockings s !! _ = Some ?c |- _ => rename c into cs, H into Hcs end.
  match goal with H : claimable _ _ = Ok ?m |- _ => apply claimable_matured in H as Hn; subst m end.
  match goal with H : staking_currency _ = Ok _ |- _ => pose proof (staking_currency_Ok T _ H); subst; rename H into Hk end.
  zbool. match goal with H : do_claim_for _ _ _ _ = _ |- _ => apply do_claim_user in H as (x' & Hx & ->); [| done] end.
  cbn in Hx. unfold unmatured. remember (List.filter _ cs) as rest eqn:Er.
  assert (acc <> who) as Hne by congruence.
  pose proof (dust_free_min_one (chain s) ksm acc _ Hmin (transfer_enough _ _ _ _ _ _ _ Hx Hne)) as Hd.
  split; [| split].
  - exists cs. split_and!; [done | done | lia | cbn; by eapply transfer_dest_exact | cbn; by eapply transfer_source |].
    cbn. rewrite <- Er. destruct rest; [by rewrite lookup_delete_eq | by rewrite lookup_insert_eq].
  - intros y Hy. cbn. destruct rest; [by rewrite lookup_delete_ne | by rewrite lookup_insert_ne].
  - intros o'. eapply (unmatured_refused _ _ cs); [exact Hw | exact Hk |]. cbn. unfold unmatured. rewrite <- Er.
    destruct rest; [left; by rewrite lookup_delete_eq | right; by rewrite lookup_insert_eq].
Qed.

(** ** Staking and unstaking *)

Lemma convert_no_profit s a l m :
  is_u128 (ExchangeRate s) -> is_u128 a ->
  staking_to_liquid s a = Some l -> liquid_to_staking s l = Some m -> m <= a.
Proof.
  intros Hr Ha Hl Hm. unfold staking_to_liquid in Hl. apply bind_Some in Hl as (r & Hrec & Hl).
  pose proof (fixed_reciprocal_type _ _ Hrec) as Hr'. pose proof (fixed_checked_mul_int_type _ _ _ Hl) as Hl'.
  rewrite fixed_reciprocal_eq in Hrec by done. case_match; [done |]. zbool.
  unfold liquid_to_staking in Hm. rewrite fixed_checked_mul_int_eq in Hl, Hm by done.
  apply fit_u128_Some in Hrec as [-> _]. apply fit_u128_Some in Hl as [-> _]. apply fit_u128_Some in Hm as [-> _].
  unfold is_u128 in *. set (rate := ExchangeRate s) in *.
  assert (0 < rate) by lia. assert (0 < FIXED_DIV) by done.
  set (k := FIXED_DIV * FIXED_DIV / rate) in *. set (q := k * a / FIXED_DIV).
  assert (rate * k <= FIXED_DIV * FIXED_DIV) by (apply Z.mul_div_le; lia).
  assert (FIXED_DIV * q <= k * a) by (apply Z.mul_div_le; lia).
  apply Z.div_le_upper_bound; [done |]. 
  assert (FIXED_DIV * (rate * q) <= FIXED_DIV * (FIXED_DIV * a)) by nia. nia.
Qed.

Lemma stake_issues who n s u s' :
  StakingCurrency T <> LiquidCurrency T -> xcm_currency <> LiquidCurrency T -> stake T (Signed who) n s = Ok (u, s') ->
  exists a l, a = n - XcmFees T - permill_mul_floor (ReserveFactor s) n /\ 0 <= a /\
    staking_to_liquid s a = Some l /\ total_issuance (chain s') (LiquidCurrency T) = total_issuance (chain s) (LiquidCurrency T) + l.
Proof.
  intros Hk Hx H. unfold stake, deposit_event in H. minv.
  repeat match goal with
    | H : staking_currency _ = Ok _ |- _ => apply staking_currency_Ok in H as ->
    | H : liquid_currency _ = Ok _ |- _ => apply liquid_currency_Ok in H as ->
    | H : on_chain _ _ = _ |- _ => apply staking_chain_Ok in H as (? & ? & ->)
    | H : mutate_pool _ _ = _ |- _ => apply mutate_pool_Ok in H as (? & _ & ->) end.
  cbn in *. rewrite add_fees_transfer in *. eexists _, _. split; [done |]. split; [lia |]. split; [eassumption |].
  match goal with H : mint_into _ _ _ _ = _ |- _ => rewrite (mint_into_issuance _ _ _ _ _ H) end. f_equal.
  repeat match goal with H : transfer _ _ _ _ _ _ = Ok ?x |- context [total_issuance ?x _] =>
    rewrite (transfer_issuance_frame _ _ _ _ _ _ _ _ H) by done end. done.
Qed.
Lemma unstake_queues who l s u s' :
  unstake T (Signed who) l RelayChain s = Ok (u, s') ->
  exists m target, liquid_to_staking s l = Some m /\ target_era T s = Ok target /\
    Unlockings s' !! who = Some (add_chunk (default [] (Unlockings s !! who)) m target).
Proof.
  intros H. unfold unstake, deposit_event in H. minv.
  repeat match goal with
    | H : on_chain _ _ = _ |- _ => apply staking_chain_Ok in H as (? & ? & ->)
    | H : mutate_pool _ _ = _ |- _ => apply mutate_pool_Ok in H as (? & _ & ->) end.
  cbn in *. eexists _, _. split; [eassumption |]. split; [eassumption |]. by rewrite lookup_insert_eq.
Qed.

(** C38: Staking and unstaking again makes no profit: the liquid currency that [stake] issues is worth, at the same exchange
    rate, at most what was staked after fees and reserves, and that is the most that [unstake] of all of it queues for the
    user, to be claimed when the bonding period is over. *)
Theorem stake_unstake_no_profit who n s u s1 s2 v s3 l :
  StakingCurrency T <> LiquidCurrency T -> xcm_currency <> LiquidCurrency T ->
  is_u128 n -> 0 <= XcmFees T -> is_u128 (ExchangeRate s) ->
  stake T (Signed who) n s = Ok (u, s1) ->
  l = total_issuance (chain s1) (LiquidCurrency T) - total_issuance (chain s) (LiquidCurrency T) ->
  ExchangeRate s2 = ExchangeRate s ->
  unstake T (Signed who) l RelayChain s2 = Ok (v, s3) ->
  exists m, m <= n - XcmFees T - permill_mul_floor (ReserveFactor s) n /\
    Unlockings s3 !! who = Some (add_chunk (default [] (Unlockings s2 !! who)) m (CurrentEra s2 + BondingDuration T + 1)).
Proof.
  intros Hk Hx Hn Hf Hr H1 Hl Hs H2. apply stake_issues in H1 as (a & l' & Ea & Ha & Hl' & Hi); [| done..].
  apply unstake_queues in H2 as (m & e & Hm & He & Hu). pose proof (permill_mul_floor_type (ReserveFactor s) n) as [? _].
  exists m. split.
  - rewrite <- Ea. eapply (convert_no_profit s a l'); [done | unfold is_u128 in *; lia | done |].
    unfold liquid_to_staking in *. rewrite <- Hs. replace l' with l by lia. done.
  - rewrite Hu. unfold target_era in He. minv.
    repeat match goal with H : checked_add_to _ _ _ = Some _ |- _ => apply checked_add_to_Some in H as [-> _] end. done.
Qed.
End users.
