(* ===== verification/LiquidDemo.v ===== *)
(** * Liquid staking on a runtime

    Account 5 stakes the relay currency 1 and unstakes a tenth; the era's match bonds the rest through the derivative account of
    index 0, the relay chain confirms and pays rewards, which a storage proof reports; two eras later the
    unstaked amount is claimed.  The theorems on liquid staking are instantiated here. *)

From stdpp Require Import strings.
From S2P Require Import Prelude Arith Frame Ledger XcmHelper Loans LoansDemo Traits Provides RuntimeDemo LiquidTypes LiquidPool LiquidStaking LiquidProps LiquidOps LiquidSafety LiquidUsers.
From stdpp Require Import list relations.
Import LiquidStakingErrors LiquidTypes LiquidStaking.
#[local] Open Scope Z_scope.

#[local] Existing Instance MaxMinDistribution.
#[local] Existing Instances max_min_laws sp_reference_laws.

(** The relay chain's storage: the ledger of the first derivative account, with its rewards *)
Definition rewarded_ledger : StakingLedger := mkLedger 600 9040 9040 [] [].
Definition demo_encode (l : StakingLedger) : list Z :=
  [stash l; ledger_total l; active l; Z.of_nat (length (unlocking l))] ++
  flat_map (fun c => [value c; era c]) (unlocking l) ++ claimed_rewards l.
Definition demo_read (proof : list (list Z)) (root : Z) (key : list Z) : option (list Z) :=
  if (root =? 7) && bool_decide (key = [6; 600]) then Some (demo_encode rewarded_ledger) else None.

Definition staking_config : Config :=
  mkConfig 60 900 601 (fun i => 600 + i) [0; 1] 10 (10 ^ 16) (10 ^ 16) 1 301 302 0 100 100 2 100 100 0 10 61
    is_root is_root (fun _ => Some 12) Ok 0 demo_read (fun _ item => [Z.of_nat (String.length item)]) (fun a => [a])
    (fun e => [e]) demo_encode.

Lemma staking_config_ok : staking_setup staking_config.
Proof.
  constructor; try done.
  - intros who a f x x'. apply loans_keep_queries.
  - intros who a x v x'. apply position_keeps_queries.
Qed.
Lemma staking_relay_balanced : relay_ledgers_balanced staking_config (eq 7).
Proof.
  intros proof root i l _ H. cbn in H. unfold demo_read in H. case_match; [| done]. injection H as E1 E2 E3 E4 E5.
  destruct (unlocking l) as [|c cs] eqn:Hc; [| cbn in *; lia]. constructor; rewrite ?Hc; cbn; unfold u128_max; [lia | done | lia | lia].
Qed.

(** ** A run *)

Definition staking_ledger_funds : ledger :=
  Ledger {[(1, 99) := 10 ^ 12; (1, 5) := 10 ^ 6; (0, 60) := 10 ^ 6]} {[0 := 10 ^ 6; 1 := 10 ^ 12 + 10 ^ 6]}.
Definition stk_genesis : State chain_state :=
  staking_genesis (runtime_state staking_ledger_funds) 20 (Some (mkValidationData 20 7)) [8] (10 ^ 18) 5000.

Definition stk_run (o : RuntimeOrigin) (c : Call) (s : State chain_state) : State chain_state :=
  match dispatch staking_config o c s with Ok (_, s') => s' | _ => s end.
Definition stk_reply (q : QueryId) (s : State chain_state) : State chain_state :=
  match notification_received staking_config (ResponseOrigin parent) q (ExecutionResult None) s with Ok (_, s') => s' | _ => s end.
Definition stk_end (s : State chain_state) : State chain_state :=
  match on_finalize s with Ok (_, s') => s' | _ => s end.

Definition stk_capped : State chain_state := stk_run Root (CallUpdateStakingLedgerCap (10 ^ 9)) stk_genesis.
Definition stk_charged : State chain_state := stk_run Root (CallUpdateCommissionRate (10 ^ 17)) stk_capped.
Definition stk_staked : State chain_state := stk_run (Signed 5) (CallStake 10000) stk_charged.
Definition stk_unstaked : State chain_state := stk_run (Signed 5) (CallUnstake 1000 RelayChain) stk_staked.
Definition stk_matched : State chain_state := stk_run Root CallForceMatching stk_unstaked.
Definition stk_bonded : State chain_state := stk_reply 7 stk_matched.
Definition stk_block : State chain_state := stk_end stk_bonded.
Definition stk_rewarded : State chain_state := stk_run (Signed 8) (CallSetStakingLedger 0 rewarded_ledger []) stk_block.
Definition stk_era : State chain_state := stk_run Root (CallForceAdvanceEra 3) stk_rewarded.
Definition stk_claimed : State chain_state := stk_run (Signed 8) (CallClaimFor 5) stk_era.

Lemma stk_run_ok o c s : is_ok (dispatch staking_config o c s) = true -> dispatch staking_config o c s = Ok (tt, stk_run o c s).
Proof. unfold stk_run. destruct (dispatch staking_config o c s) as [[[] s']| |]; done. Qed.

Section steps.
(** Runs in which the validation data of the first block stays the current one *)
Definition stk_data : option PersistedValidationData := Some (mkValidationData 20 7).
Context (ok : RuntimeOrigin -> Call -> Prop) (R : State chain_state -> State chain_state -> Prop).
Context (HR : forall s s', staking_step staking_config ok s s' -> relay_validation_data s' = stk_data -> R s s').
Abbreviation steps := (rtc R).
Lemma stk_run_step o c s0 s :
  ok o c -> is_ok (dispatch staking_config o c s) = true -> relay_validation_data (stk_run o c s) = stk_data ->
  steps s0 s -> steps s0 (stk_run o c s).
Proof. intros Hc Hok Hd Hr. eapply rtc_r; [exact Hr |]. apply HR; [| done]. eapply stk_call; [exact Hc | by apply stk_run_ok]. Qed.
Lemma stk_reply_step q s0 s :
  is_ok (notification_received staking_config (ResponseOrigin parent) q (ExecutionResult None) s) = true ->
  relay_validation_data (stk_reply q s) = stk_data -> steps s0 s -> steps s0 (stk_reply q s).
Proof.
  intros Hok Hd Hr. eapply rtc_r; [exact Hr |]. apply HR; [| done]. eapply (stk_answer _ _ _ (ResponseOrigin parent) q (ExecutionResult None)).
  unfold stk_reply. destruct (notification_received _ _ _ _ s) as [[[] s']| |]; done.
Qed.
Lemma stk_end_step s0 s :
  is_ok (on_finalize s) = true -> relay_validation_data (stk_end s) = stk_data -> steps s0 s -> steps s0 (stk_end s).
Proof.
  intros Hok Hd Hr. eapply rtc_r; [exact Hr |]. apply HR; [| done]. apply stk_finalize. unfold stk_end.
  destruct (on_finalize s) as [[[] s']| |]; done.
Qed.
Lemma to_matched : ok Root (CallUpdateStakingLedgerCap (10 ^ 9)) -> ok Root (CallUpdateCommissionRate (10 ^ 17)) ->
  ok (Signed 5) (CallStake 10000) -> ok (Signed 5) (CallUnstake 1000 RelayChain) -> ok Root CallForceMatching ->
  steps stk_genesis stk_matched.
Proof.
  intros. repeat (apply stk_run_step; [done | by vm_compute | by vm_compute |]). constructor.
Qed.
Lemma to_rewarded : ok (Signed 8) (CallSetStakingLedger 0 rewarded_ledger []) -> steps stk_genesis stk_matched ->
  steps stk_genesis stk_rewarded.
Proof.
  intros Hc Hr. apply stk_run_step; [done | by vm_compute | by vm_compute |]. apply stk_end_step; [by vm_compute | by vm_compute |].
  apply stk_reply_step; [by vm_compute | by vm_compute | done].
Qed.
End steps.

(** ** Instances *)

Lemma stakes_and_locks_funded_witness :
  TotalReserves stk_matched + total (total_stake_amount (MatchingPool stk_matched)) = 9990 /\
  reserved (total_stake_amount (MatchingPool stk_matched)) = map_sum (fun _ r => stake_lock r) (XcmRequests stk_matched).
Proof.
  split; [by vm_compute |].
  destruct (stakes_and_locks_funded staking_config stk_matched staking_config_ok) as (_ & _ & H & _); [| exact H].
  exists (runtime_state staking_ledger_funds), 20, (Some (mkValidationData 20 7)), [8], (10 ^ 18), 5000.
  by apply (to_matched (staking_call_ok staking_config)).
Defined.

Lemma exchange_rate_never_falls_witness :
  ExchangeRate stk_genesis = 10 ^ 18 /\ ExchangeRate stk_era = 1010168733936752709 /\ ExchangeRate stk_genesis <= ExchangeRate stk_era.
Proof.
  split; [by vm_compute |]. split; [by vm_compute |]. apply (exchange_rate_never_falls staking_config).
  assert (forall s s', staking_step staking_config (fun _ _ => True) s s' ->
    relay_validation_data s' = stk_data -> staking_step staking_config (fun _ _ => True) s s') as HR by done.
  apply (stk_run_step _ _ HR); [done | by vm_compute | by vm_compute |].
  by apply (to_rewarded _ _ HR), (to_matched _ _ HR).
Defined.

Lemma staking_ledgers_balanced_witness : ledger_ok rewarded_ledger.
Proof.
  apply (staking_ledgers_balanced staking_config (eq 7) stk_rewarded 0 rewarded_ledger staking_relay_balanced).
  - exists (runtime_state staking_ledger_funds), 20, (Some (mkValidationData 20 7)), [8], (10 ^ 18), 5000.
    split; [by intros d [= <-] |].
    assert (forall s s', staking_step staking_config (ledger_call_ok) s s' ->
      relay_validation_data s' = stk_data -> relay_step staking_config (eq 7) s s') as HR.
    { intros s s' Hs Hd. split; [done |]. intros d E. rewrite Hd in E. by injection E as <-. }
    by apply (to_rewarded _ _ HR), (to_matched _ _ HR).
  - by vm_compute.
Defined.

Lemma claim_pays_matured_witness :
  balance (chain stk_claimed) 1 5 = balance (chain stk_era) 1 5 + 1000 /\ Unlockings stk_claimed !! 5 = None.
Proof.
  split; [| by vm_compute].
  destruct (claim_pays_matured staking_config (Signed 8) 5 5 stk_era tt stk_claimed) as [(cs & Hcs & _ & _ & Hb & _) _].
  - by vm_compute.
  - done.
  - done.
  - done.
  - refine (stk_run_ok (Signed 8) (CallClaimFor 5) stk_era _). by vm_compute.
  - assert (cs = [mkChunk 1000 3]) as E.
    { enough (Unlockings stk_era !! 5 = Some [mkChunk 1000 3]) by congruence. by vm_compute. }
    rewrite E in Hb. exact Hb.
Defined.

Lemma stake_unstake_no_profit_witness :
  exists m, m <= 9940 /\ Unlockings (stk_run (Signed 5) (CallUnstake 9940 RelayChain) stk_staked) !! 5 = Some (add_chunk [] m 3).
Proof.
  destruct (stake_unstake_no_profit staking_config 5 10000 stk_charged tt stk_staked stk_staked tt
              (stk_run (Signed 5) (CallUnstake 9940 RelayChain) stk_staked) 9940) as (m & Hm & Hu).
  - done.
  - done.
  - done.
  - done.
  - by vm_compute.
  - refine (stk_run_ok (Signed 5) (CallStake 10000) stk_charged _). by vm_compute.
  - by vm_compute.
  - by vm_compute.
  - refine (stk_run_ok (Signed 5) (CallUnstake 9940 RelayChain) stk_staked _). by vm_compute.
  - exists m. split; [| exact Hu]. exact Hm.
Defined.
