(* ===== verification/Farming.v ===== *)
(** * Farming pools (src/pallets/farming/src/lib.rs and types.rs)

    Users stake an asset in a pool and earn a reward asset, released at a constant rate until
    the end of a period and shared in proportion to the stakes through an index (the reward
    of one share).  Withdrawn stakes may have to cool down before they can be redeemed.
    [State] is the pallet's storage with the ledger, the block number and the deposited
    events; the accounts the pallet derives by hashing and the account lookup are fields of
    [Config]. *)

From S2P Require Import Prelude Arith Frame.
Import FarmingErrors.

Module Farming.

(** ** types.rs *)

Record PoolInfo := mkPoolInfo {
  is_active : bool;
  total_deposited : Balance;
  unlock_height : BlockNumber;
  cool_down_duration : BlockNumber;
  reward_duration : BlockNumber;
  period_finish : BlockNumber;
  last_update_block : BlockNumber;
  reward_rate : Balance;
  reward_per_share_stored : Balance;
}.

Definition PoolInfo_default : PoolInfo := mkPoolInfo false 0 0 0 0 0 0 0 0.

Definition pool_eta (p : PoolInfo) : PoolInfo :=
  mkPoolInfo (is_active p) (total_deposited p) (unlock_height p) (cool_down_duration p)
    (reward_duration p) (period_finish p) (last_update_block p) (reward_rate p)
    (reward_per_share_stored p).
Definition set_is_active v p : PoolInfo := ltac:(update_field pool_eta p (is_active p) v).
Definition set_total_deposited v p : PoolInfo :=
  ltac:(update_field pool_eta p (total_deposited p) v).
Definition set_unlock_height v p : PoolInfo := ltac:(update_field pool_eta p (unlock_height p) v).
Definition set_cool_down_duration v p : PoolInfo :=
  ltac:(update_field pool_eta p (cool_down_duration p) v).
Definition set_reward_duration v p : PoolInfo :=
  ltac:(update_field pool_eta p (reward_duration p) v).
Definition set_period_finish v p : PoolInfo := ltac:(update_field pool_eta p (period_finish p) v).
Definition set_last_update_block v p : PoolInfo :=
  ltac:(update_field pool_eta p (last_update_block p) v).
Definition set_reward_rate v p : PoolInfo := ltac:(update_field pool_eta p (reward_rate p) v).
Definition set_reward_per_share_stored v p : PoolInfo :=
  ltac:(update_field pool_eta p (reward_per_share_stored p) v).

Record UserPosition := mkUserPosition {
  deposit_balance : Balance;
  lock_balance_items : list (Balance * BlockNumber);
  reward_amount : Balance;
  reward_per_share_paid : Balance;
}.

Definition UserPosition_default : UserPosition := mkUserPosition 0 [] 0 0.

(** [BlockNumber] is [u32], so the conversion to a balance is the identity. *)
Definition block_to_balance (duration : BlockNumber) : Balance := duration.
Definition amount_per_share : Balance := 10 ^ 12.

Definition last_reward_block_applicable (p : PoolInfo) (current_block_number : BlockNumber)
    : BlockNumber :=
  if current_block_number >? period_finish p then period_finish p else current_block_number.

Section types.
Context {NB : NumBigint}.

Definition reward_per_share (p : PoolInfo) (current_block_number : BlockNumber) : Res Balance :=
  if total_deposited p =? 0 then Ok (reward_per_share_stored p)
  else
    let last_reward_block := last_reward_block_applicable p current_block_number in
    let block_diff := block_to_balance (saturating_sub last_reward_block (last_update_block p)) in
    reward_per_share_add ←
      ok_or (r ← big_checked_mul block_diff (reward_rate p);
             r ← big_checked_mul r amount_per_share;
             r ← big_checked_div r (total_deposited p);
             big_to_u128 r) (Arithmetic Overflow);
    ok_or (checked_add (reward_per_share_stored p) reward_per_share_add) (Arithmetic Overflow).

Definition update_reward_per_share (current_block_number : BlockNumber) (p : PoolInfo)
    : Res PoolInfo :=
  stored ← reward_per_share p current_block_number;
  let p := set_reward_per_share_stored stored p in
  Ok (set_last_update_block (last_reward_block_applicable p current_block_number) p).
End types.

(** ** The pallet *)

Record Config := mkConfig {
  UpdateOrigin : RuntimeOrigin -> bool;
  MaxUserLockItemsCount : Z;
  LockPoolMaxDuration : BlockNumber;
  CoolDownMaxDuration : BlockNumber;
  pool_account_id : CurrencyId -> Res AccountId;  (* hash of the pallet id and the asset *)
  lookup : Z -> Res AccountId;                    (* T::Lookup::lookup *)
}.

(** A pool is named by its asset, its reward asset and its lock duration. *)
Definition PoolKey : Type := CurrencyId * CurrencyId * BlockNumber.
#[global] Instance PoolKey_eq_dec : EqDecision PoolKey := _.
#[global] Instance PoolKey_countable : Countable PoolKey := _.

Inductive Event :=
| PoolAdded (pool : PoolKey)
| PoolStatusChanged (pool : PoolKey) (status : bool)
| PoolCoolDownDurationChanged (pool : PoolKey) (duration : BlockNumber)
| PoolUnlockHeightReset (pool : PoolKey) (height : BlockNumber)
| AssetsDeposited (who : AccountId) (pool : PoolKey) (amount : Balance)
| AssetsWithdrew (who : AccountId) (pool : PoolKey) (amount : Balance)
| AssetsRedeem (who : AccountId) (pool : PoolKey) (amount : Balance)
| RewardPaid (who : AccountId) (pool : PoolKey) (amount : Balance)
| RewardAdded (pool : PoolKey) (amount : Balance).

Record State (L : Type) := mkState {
  Pools : gmap PoolKey PoolInfo;
  Positions : gmap (PoolKey * AccountId) UserPosition;
  assets : L;
  block_number : BlockNumber;
  events : list Event;
}.
Arguments mkState {L}.
Arguments Pools {L}.
Arguments Positions {L}.
Arguments assets {L}.
Arguments block_number {L}.
Arguments events {L}.

Section pallet.
Context {NB : NumBigint} {L : Type} {FU : Fungibles L}.
Variable T : Config.

Abbreviation St := (State L).
Abbreviation Run := (M St DispatchError).

Definition set_pools m (s : St) : St :=
  mkState m (Positions s) (assets s) (block_number s) (events s).
Definition set_positions m (s : St) : St :=
  mkState (Pools s) m (assets s) (block_number s) (events s).
Definition set_assets l (s : St) : St :=
  mkState (Pools s) (Positions s) l (block_number s) (events s).
Definition set_block_number n (s : St) : St :=
  mkState (Pools s) (Positions s) (assets s) n (events s).

Definition deposit_event (e : Event) : Run unit := modify (fun s =>
  mkState (Pools s) (Positions s) (assets s) (block_number s) (events s ++ [e])).
Definition on_assets (f : L -> Res L) : Run unit := fun s =>
  match f (assets s) with
  | Ok l => Ok (tt, set_assets l s) | Err e => Err e | Panic => Panic
  end.
Definition insert_pool (k : PoolKey) (p : PoolInfo) : Run unit :=
  modify (fun s => set_pools (<[k := p]> (Pools s)) s).
Definition insert_position (k : PoolKey) (who : AccountId) (u : UserPosition) : Run unit :=
  modify (fun s => set_positions (<[(k, who) := u]> (Positions s)) s).
Definition position (s : St) (k : PoolKey) (who : AccountId) : UserPosition :=
  default UserPosition_default (Positions s !! (k, who)).
(** [contains_key], and [as_mut().ok_or(PoolDoesNotExist)] in the closures *)
Definition pool_info (k : PoolKey) (s : St) : Res PoolInfo :=
  ok_or (Pools s !! k) (Farming PoolDoesNotExist).

Definition update_reward (who : option AccountId) (k : PoolKey) : Run unit :=
  s ← get;
  let current_block_number := block_number s in
  p ← reads (pool_info k);
  p ← lift (update_reward_per_share current_block_number p);
  _ ← (match who with
       | None => mret tt
       | Some who =>
           let u := position s k who in
           rps ← lift (reward_per_share p current_block_number);
           diff ← lift (ok_or (checked_sub rps (reward_per_share_paid u)) (Arithmetic Overflow));
           earned ← lift (ok_or (r ← big_checked_mul (deposit_balance u) diff;
                                 r ← big_checked_div r amount_per_share;
                                 r ← big_checked_add r (reward_amount u);
                                 big_to_u128 r) (Arithmetic Overflow));
           insert_position k who
             (mkUserPosition (deposit_balance u) (lock_balance_items u) earned
                (reward_per_share_stored p))
       end);
  insert_pool k p.

Definition create (origin : RuntimeOrigin) (asset reward_asset : CurrencyId)
    (lock_duration cool_down : BlockNumber) : Run unit :=
  let k : PoolKey := (asset, reward_asset, lock_duration) in
  _ ← lift (ensure_origin (UpdateOrigin T) origin);
  s ← get;
  _ ← lift (ensure (bool_decide (Pools s !! k = None)) (Farming PoolAlreadyExists));
  _ ← lift (ensure (lock_duration <=? LockPoolMaxDuration T) (Farming ExcessMaxLockDuration));
  _ ← lift (ensure (cool_down <=? CoolDownMaxDuration T) (Farming ExcessMaxCoolDownDuration));
  _ ← insert_pool k (set_cool_down_duration cool_down PoolInfo_default);
  deposit_event (PoolAdded k).

Definition set_pool_status (origin : RuntimeOrigin) (k : PoolKey) (active : bool) : Run unit :=
  _ ← lift (ensure_origin (UpdateOrigin T) origin);
  p ← reads (pool_info k);
  _ ← lift (ensure (negb (Bool.eqb (is_active p) active)) (Farming PoolInStatus));
  _ ← deposit_event (PoolStatusChanged k active);
  insert_pool k (set_is_active active p).

Definition set_pool_cool_down_duration (origin : RuntimeOrigin) (k : PoolKey)
    (cool_down : BlockNumber) : Run unit :=
  _ ← lift (ensure_origin (UpdateOrigin T) origin);
  _ ← lift (ensure (cool_down <=? CoolDownMaxDuration T) (Farming ExcessMaxCoolDownDuration));
  p ← reads (pool_info k);
  _ ← lift (ensure (negb (cool_down_duration p =? cool_down))
              (Farming PoolIsInTargetCoolDownDuration));
  _ ← deposit_event (PoolCoolDownDurationChanged k cool_down);
  insert_pool k (set_cool_down_duration cool_down p).

Definition reset_pool_unlock_height (origin : RuntimeOrigin) (k : PoolKey) : Run unit :=
  _ ← lift (ensure_origin (UpdateOrigin T) origin);
  p ← reads (pool_info k);
  s ← get;
  let current_block_number := block_number s in
  _ ← lift (ensure (unlock_height p <? current_block_number) (Farming PoolUnderLock));
  new_unlock_height ← lift (or_panic (checked_add_to u32_max current_block_number k.2));
  _ ← deposit_event (PoolUnlockHeightReset k new_unlock_height);
  insert_pool k (set_unlock_height new_unlock_height p).

Definition deposit (origin : RuntimeOrigin) (k : PoolKey) (amount : Balance) : Run unit :=
  let asset := k.1.1 in
  who ← lift (ensure_signed origin);
  _ ← reads (pool_info k);
  _ ← lift (ensure (negb (amount =? 0)) (Farming NotAValidAmount));
  _ ← update_reward (Some who) k;
  asset_pool_account ← lift (pool_account_id T asset);
  p ← reads (pool_info k);
  _ ← lift (ensure (is_active p) (Farming PoolIsNotActive));
  _ ← on_assets (transfer asset who asset_pool_account amount false);
  total ← lift (ok_or (checked_add (total_deposited p) amount) (Arithmetic Overflow));
  s ← get;
  let u := position s k who in
  balance ← lift (ok_or (checked_add (deposit_balance u) amount) (Arithmetic Overflow));
  _ ← insert_position k who (mkUserPosition balance (lock_balance_items u) (reward_amount u)
                               (reward_per_share_paid u));
  _ ← deposit_event (AssetsDeposited who k amount);
  insert_pool k (set_total_deposited total p).

Definition withdraw (origin : RuntimeOrigin) (k : PoolKey) (amount : Balance) : Run unit :=
  let asset := k.1.1 in
  who ← lift (ensure_signed origin);
  _ ← reads (pool_info k);
  _ ← lift (ensure (negb (amount =? 0)) (Farming NotAValidAmount));
  s ← get;
  _ ← lift (ensure (deposit_balance (position s k who) >=? amount) (Farming DepositBalanceLow));
  _ ← update_reward (Some who) k;
  p ← reads (pool_info k);
  s ← get;
  let current_block_number := block_number s in
  _ ← lift (ensure (current_block_number >=? unlock_height p) (Farming PoolUnderLock));
  total ← lift (ok_or (checked_sub (total_deposited p) amount) (Arithmetic Overflow));
  let u := position s k who in
  balance ← lift (ok_or (checked_sub (deposit_balance u) amount) (Arithmetic Overflow));
  items ← (if cool_down_duration p =? 0 then
             asset_pool_account ← lift (pool_account_id T asset);
             _ ← on_assets (transfer asset asset_pool_account who amount false);
             mret (lock_balance_items u)
           else
             _ ← lift (ensure (Z.of_nat (length (lock_balance_items u)) <?
                               MaxUserLockItemsCount T) (Farming ExcessMaxUserLockItemsCount));
             mret (lock_balance_items u ++ [(amount, current_block_number)]));
  _ ← insert_position k who (mkUserPosition balance items (reward_amount u)
                               (reward_per_share_paid u));
  _ ← deposit_event (AssetsWithdrew who k amount);
  insert_pool k (set_total_deposited total p).

(** an item has cooled down *)
Definition unlocked (now : BlockNumber) (p : PoolInfo) (item : Balance * BlockNumber) : bool :=
  now >=? Z.min u32_max (item.2 + cool_down_duration p).

Definition redeem (origin : RuntimeOrigin) (k : PoolKey) : Run unit :=
  let asset := k.1.1 in
  who ← lift (ensure_signed origin);
  p ← reads (pool_info k);
  s ← get;
  let current_block_number := block_number s in
  let u := position s k who in
  total_amount ← lift (fold_res (fun total_amount item =>
      if unlocked current_block_number p item
      then ok_or (checked_add total_amount item.1) (Arithmetic Overflow)
      else Ok total_amount) (lock_balance_items u) 0);
  let items := List.filter (fun item => negb (unlocked current_block_number p item))
                 (lock_balance_items u) in
  _ ← (if total_amount >? 0 then
         asset_pool_account ← lift (pool_account_id T asset);
         on_assets (transfer asset asset_pool_account who total_amount false)
       else mret tt);
  _ ← deposit_event (AssetsRedeem who k total_amount);
  insert_position k who (mkUserPosition (deposit_balance u) items (reward_amount u)
                           (reward_per_share_paid u)).

Definition claim (origin : RuntimeOrigin) (k : PoolKey) : Run unit :=
  let reward_asset := k.1.2 in
  who ← lift (ensure_signed origin);
  _ ← reads (pool_info k);
  _ ← update_reward (Some who) k;
  asset_pool_account ← lift (pool_account_id T reward_asset);
  s ← get;
  let u := position s k who in
  let amount := reward_amount u in
  u ← (if amount >? 0 then
         _ ← on_assets (transfer reward_asset asset_pool_account who amount false);
         mret (mkUserPosition (deposit_balance u) (lock_balance_items u) 0
                 (reward_per_share_paid u))
       else mret u);
  _ ← deposit_event (RewardPaid who k amount);
  insert_position k who u.

Definition dispatch_reward (origin : RuntimeOrigin) (k : PoolKey) (payer : Z) (amount : Balance)
    (duration : BlockNumber) : Run unit :=
  let reward_asset := k.1.2 in
  _ ← lift (ensure_origin (UpdateOrigin T) origin);
  _ ← reads (pool_info k);
  _ ← lift (ensure (negb (duration =? 0)) (Farming NotAValidDuration));
  _ ← update_reward None k;
  s ← get;
  let current_block_number := block_number s in
  p ← reads (pool_info k);
  let duration_balance := block_to_balance duration in
  rate ← lift (if current_block_number >=? period_finish p then
                 ok_or (checked_div amount duration_balance) (Arithmetic Overflow)
               else
                 remaining ← ok_or (checked_sub (period_finish p) current_block_number)
                               (Arithmetic Overflow);
                 left_over ← ok_or (checked_mul (block_to_balance remaining) (reward_rate p))
                               (Arithmetic Overflow);
                 total ← ok_or (checked_add left_over amount) (Arithmetic Overflow);
                 ok_or (checked_div total duration_balance) (Arithmetic Overflow));
  new_period_finish ← lift (ok_or (checked_add_to u32_max current_block_number duration)
                              (Arithmetic Overflow));
  let p := set_reward_duration duration p in
  let p := set_period_finish new_period_finish p in
  let p := set_reward_rate rate p in
  let p := set_last_update_block current_block_number p in
  _ ← (if amount >? 0 then
         asset_pool_account ← lift (pool_account_id T reward_asset);
         payer ← lift (lookup T payer);
         on_assets (transfer reward_asset payer asset_pool_account amount false)
       else mret tt);
  _ ← deposit_event (RewardAdded k amount);
  insert_pool k p.

Inductive Call :=
| CallCreate (asset reward_asset : CurrencyId) (lock_duration cool_down : BlockNumber)
| CallSetPoolStatus (k : PoolKey) (active : bool)
| CallSetPoolCoolDownDuration (k : PoolKey) (cool_down : BlockNumber)
| CallResetPoolUnlockHeight (k : PoolKey)
| CallDeposit (k : PoolKey) (amount : Balance)
| CallWithdraw (k : PoolKey) (amount : Balance)
| CallRedeem (k : PoolKey)
| CallClaim (k : PoolKey)
| CallDispatchReward (k : PoolKey) (payer : Z) (amount : Balance) (duration : BlockNumber).

Definition dispatch (origin : RuntimeOrigin) (c : Call) : Run unit :=
  match c with
  | CallCreate asset reward_asset lock_duration cool_down =>
      create origin asset reward_asset lock_duration cool_down
  | CallSetPoolStatus k active => set_pool_status origin k active
  | CallSetPoolCoolDownDuration k cool_down => set_pool_cool_down_duration origin k cool_down
  | CallResetPoolUnlockHeight k => reset_pool_unlock_height origin k
  | CallDeposit k amount => deposit origin k amount
  | CallWithdraw k amount => withdraw origin k amount
  | CallRedeem k => redeem origin k
  | CallClaim k => claim origin k
  | CallDispatchReward k payer amount duration => dispatch_reward origin k payer amount duration
  end.
End pallet.
End Farming.
