(* ===== verification/FarmingProps.v ===== *)
(** * Properties of the farming pools

    Stakes and rewards are always covered: in every reachable state the account of an asset
    holds the stakes in it, cooling down or not, and the rewards earned in it.  The invariant
    behind it weighs, for every asset, what the positions are owed and what the pools have
    still to release against the balance of the asset's account. *)

From S2P Require Import Prelude Arith Frame Ledger Farming.
Import Farming FarmingErrors.

(** ** Specification vocabulary *)

Abbreviation SHARE := amount_per_share.

Definition locked (u : UserPosition) : Z := sum_list_Z fst (lock_balance_items u).

(** All deposits in a pool. *)
Definition deposited (k : PoolKey) (m : gmap (PoolKey * AccountId) UserPosition) : Z :=
  map_sum (fun kw u => if decide (kw.1 = k) then deposit_balance u else 0) m.

(** All stakes in an asset, and all rewards credited in it. *)
Definition stakes (a : CurrencyId) (m : gmap (PoolKey * AccountId) UserPosition) : Z :=
  map_sum (fun kw u => if decide (kw.1.1.1 = a) then deposit_balance u + locked u else 0) m.
Definition rewards (a : CurrencyId) (m : gmap (PoolKey * AccountId) UserPosition) : Z :=
  map_sum (fun kw u => if decide (kw.1.1.2 = a) then reward_amount u else 0) m.

(** What the positions and the pools weigh on the account of [a], in units of [1 / SHARE].  The
    part of the index that a position has not been paid for is counted with the pool: the index
    times the total of the deposits, less what the positions were paid at. *)
Definition position_weight (a : CurrencyId) (kw : PoolKey * AccountId) (u : UserPosition) : Z :=
  (if decide (kw.1.1.1 = a) then SHARE * (deposit_balance u + locked u) else 0) +
  (if decide (kw.1.1.2 = a)
   then SHARE * reward_amount u - deposit_balance u * reward_per_share_paid u else 0).
(** the blocks for which a pool has still to release rewards *)
Definition unreleased (p : PoolInfo) : Z := Z.max 0 (period_finish p - last_update_block p).
Definition pool_weight (a : CurrencyId) (k : PoolKey) (p : PoolInfo) : Z :=
  if decide (k.1.2 = a)
  then reward_per_share_stored p * total_deposited p + SHARE * reward_rate p * unreleased p else 0.

Record pool_ok (now : BlockNumber) (p : PoolInfo) : Prop := {
  po_total : 0 <= total_deposited p;
  po_rate : 0 <= reward_rate p;
  po_index : 0 <= reward_per_share_stored p;
  po_last : last_update_block p <= now;
  po_finish : last_update_block p <= period_finish p;
}.

Record position_ok (p : PoolInfo) (u : UserPosition) : Prop := {
  uo_deposit : 0 <= deposit_balance u;
  uo_items : Forall (fun i => 0 <= i.1) (lock_balance_items u);
  uo_reward : 0 <= reward_amount u;
  uo_paid : 0 <= reward_per_share_paid u <= reward_per_share_stored p;
}.

Record farming_inv {L} {FU : Fungibles L} (T : Config) (s : State L) : Prop := {
  fi_pool : forall k p, Pools s !! k = Some p ->
    pool_ok (block_number s) p /\ total_deposited p = deposited k (Positions s);
  fi_position : forall k w u, Positions s !! (k, w) = Some u ->
    exists p, Pools s !! k = Some p /\ position_ok p u;
  fi_cover : forall a acc, pool_account_id T a = Ok acc -> minimum_balance a <= 1 ->
    map_sum (position_weight a) (Positions s) + map_sum (pool_weight a) (Pools s)
      <= SHARE * balance (assets s) a acc;
}.

(** The arguments of a call are in range; its signer is not the account of an asset, which has no
    key, and rewards are not paid by the account that holds them to itself, which the code does not
    check (see [self_paid_rewards]). *)
Definition outsider (T : Config) (w : AccountId) : Prop :=
  forall a, pool_account_id T a <> Ok w.
Definition call_ok (T : Config) (origin : RuntimeOrigin) (c : Call) : Prop :=
  (forall w, origin = Signed w -> outsider T w) /\
  match c with
  | CallDeposit _ amount | CallWithdraw _ amount => 0 <= amount
  | CallDispatchReward k payer amount duration =>
      0 <= amount /\ 0 <= duration /\ forall w, lookup T payer = Ok w -> pool_account_id T k.1.2 <> Ok w
  | _ => True
  end.

(** A step of the chain: a successful call, or blocks passing while nobody else takes anything out
    of the accounts of the assets. *)
Inductive step {NB : NumBigint} {L} {FU : Fungibles L} (T : Config) : State L -> State L -> Prop :=
| step_call s origin c s' :
    call_ok T origin c -> dispatch T origin c s = Ok (tt, s') -> step T s s'
| step_env s n l :
    block_number s <= n ->
    (forall a acc, pool_account_id T a = Ok acc ->
       balance (assets s) a acc <= balance l a acc) ->
    step T s (set_block_number n (set_assets l s)).

Definition genesis {L} (s : State L) : Prop :=
  Pools s = ∅ /\ Positions s = ∅ /\ 0 <= block_number s.

(** ** Sums *)

(** The deposits of all positions, each with the factor of its pool, are the totals of the pools
    with their factors. *)
Lemma deposits_by_pool (c : PoolKey -> PoolInfo -> Z) (pools : gmap PoolKey PoolInfo)
    (m : gmap (PoolKey * AccountId) UserPosition) :
  (forall k w u, m !! (k, w) = Some u -> is_Some (pools !! k)) ->
  map_sum (fun kw u => from_option (c kw.1) 0 (pools !! kw.1) * deposit_balance u) m =
  map_sum (fun k p => c k p * deposited k m) pools.
Proof.
  induction m as [|[k w] u m Hk IH] using map_ind; intros Hin.
  - rewrite map_sum_empty. symmetry. apply map_sum_zero. intros k p _. unfold deposited.
    rewrite map_sum_empty. lia.
  - rewrite map_sum_insert_new by done. simpl. destruct (Hin k w u) as [p Hp]; [apply lookup_insert_eq |].
    rewrite IH.
    + rewrite Hp. simpl. rewrite <- (map_sum_single (fun k p => c k p * deposit_balance u) pools k p Hp).
      rewrite <- map_sum_add. apply map_sum_ext. intros k' p' _. unfold deposited.
      rewrite (map_sum_insert_new _ m) by done. simpl. repeat case_decide; subst; (lia || congruence).
    + intros k' w' u' Hk'. apply (Hin k' w' u'). rewrite lookup_insert_ne; [done | congruence].
Qed.

Lemma position_weight_default a kw : position_weight a kw UserPosition_default = 0.
Proof. unfold position_weight, locked. simpl. repeat case_decide; lia. Qed.

Lemma SHARE_pos : 0 < SHARE.
Proof. done. Qed.
#[global] Opaque amount_per_share.

(** ** The index of a pool *)

Section farming.
Context {NB : NumBigint} {NL : NumBigintLaws NB} {L : Type} {FU : Fungibles L} {FL : FungiblesLaws L}.
Context (T : Config).
Implicit Types (s : State L) (p : PoolInfo) (u : UserPosition) (k : PoolKey).

(** Releasing the rewards of some blocks moves at most as much weight as those blocks have. *)
Lemma update_reward_per_share_Ok now p p' :
  pool_ok now p -> update_reward_per_share now p = Ok p' ->
  exists r, p' = set_last_update_block (Z.min now (period_finish p)) (set_reward_per_share_stored r p) /\
    reward_per_share_stored p <= r /\
    r * total_deposited p + SHARE * reward_rate p * unreleased p'
      <= reward_per_share_stored p * total_deposited p + SHARE * reward_rate p * unreleased p /\
    pool_ok now p' /\ reward_per_share p' now = Ok r.
Proof.
  intros [Ht Hr Hi Hl Hf] H. unfold update_reward_per_share in H. minv.
  match goal with H : reward_per_share _ _ = Ok ?x |- _ => rename H into E; rename x into r end.
  assert (Hmin : forall q, last_reward_block_applicable q now = Z.min now (period_finish q)).
  { intros q. unfold last_reward_block_applicable. rewrite Z.gtb_ltb.
    destruct (Z.ltb_spec (period_finish q) now); lia. }
  assert (Hself : forall q r0, total_deposited q = total_deposited p -> period_finish q = period_finish p ->
    0 <= reward_rate q -> reward_per_share_stored q = r0 -> last_update_block q = Z.min now (period_finish p) ->
    r0 <= u128_max -> reward_per_share q now = Ok r0).
  { intros q r0 Eq1 Eq2 Eq3 Eq4 Eq5 Hr0. unfold reward_per_share. rewrite Eq1, Eq4. destruct (Z.eqb_spec (total_deposited p) 0); [done |].
    rewrite Hmin, Eq5, Eq2. unfold block_to_balance, saturating_sub. rewrite Z.sub_diag. simpl (Z.max 0 0).
    pose proof SHARE_pos.
    rewrite big_checked_mul_eq by lia. simpl. rewrite big_checked_mul_eq by lia. simpl.
    rewrite big_checked_div_eq, checked_div_ok by lia. simpl. rewrite Z.div_0_l by lia.
    rewrite big_to_u128_eq, fit_u128_ok by (unfold u128_max; lia). simpl.
    rewrite checked_add_ok by lia. simpl. f_equal. lia. }
  rewrite Hmin; simpl. exists r. split; [done |].
  unfold reward_per_share in E. destruct (Z.eqb_spec (total_deposited p) 0) as [E0|E0].
  - minv. split; [lia |]. pose proof SHARE_pos. split.
    { apply Z.add_le_mono_l, Z.mul_le_mono_nonneg_l; [nia |]. unfold unreleased; simpl. lia. }
    split; [constructor; simpl; lia |].
    unfold reward_per_share; simpl. rewrite E0. done.
  - rewrite Hmin in E. minv. pose proof SHARE_pos.
    unfold block_to_balance, saturating_sub in *.
    repeat match goal with
    | H : big_checked_mul _ _ = Some _ |- _ => rewrite big_checked_mul_eq in H by nia; minv
    | H : big_checked_div _ _ = Some _ |- _ => rewrite big_checked_div_eq in H by nia; minv
    end.
    match goal with H : big_to_u128 ?q = Some ?x |- _ =>
      assert (0 <= q) by (apply Z.div_pos; nia);
      rewrite big_to_u128_eq in H by done; apply fit_u128_Some in H as [-> ?] end.
    match goal with |- context [reward_per_share_stored p + ?q] => set (add := q) in * end.
    assert (add * total_deposited p <= Z.max 0 (Z.min now (period_finish p) - last_update_block p) * reward_rate p * SHARE).
    { subst add. rewrite Z.mul_comm. apply Z.mul_div_le. lia. }
    split; [lia |]. split.
    + unfold unreleased; simpl.
      replace (Z.max 0 (period_finish p - Z.min now (period_finish p)))
        with (Z.max 0 (period_finish p - last_update_block p) -
              Z.max 0 (Z.min now (period_finish p) - last_update_block p)) by lia.
      nia.
    + split; [constructor; simpl; lia |]. apply Hself; simpl; lia.
Qed.

(** ** Updates that keep the invariant *)

Lemma farming_assets_Ok (f : L -> Res L) s x s' :
  on_assets f s = Ok (x, s') -> exists l, f (assets s) = Ok l /\ s' = set_assets l s.
Proof. unfold on_assets. destruct (f (assets s)) eqn:E; intros H; minv. eauto. Qed.

Lemma pool_weight_lookup a s k p p' :
  Pools s !! k = Some p ->
  map_sum (pool_weight a) (<[k := p']> (Pools s)) =
    map_sum (pool_weight a) (Pools s) + pool_weight a k p' - pool_weight a k p.
Proof. intros E. rewrite map_sum_insert, E. done. Qed.

Lemma deposited_insert k k' w u m :
  deposited k (<[(k', w) := u]> m) = deposited k m +
    (if decide (k' = k)
     then deposit_balance u - deposit_balance (default UserPosition_default (m !! (k', w))) else 0).
Proof.
  unfold deposited. rewrite (map_sum_put _ _ _ _ UserPosition_default); simpl; case_decide; lia.
Qed.

Lemma inv_update s k p p' w u' l' ev :
  farming_inv T s -> Pools s !! k = Some p -> pool_ok (block_number s) p' -> position_ok p' u' ->
  reward_per_share_stored p <= reward_per_share_stored p' ->
  total_deposited p' - total_deposited p
    = deposit_balance u' - deposit_balance (position s k w) ->
  (forall a acc, pool_account_id T a = Ok acc -> minimum_balance a <= 1 ->
     position_weight a (k, w) u' - position_weight a (k, w) (position s k w)
       + (pool_weight a k p' - pool_weight a k p)
     <= SHARE * (balance l' a acc - balance (assets s) a acc)) ->
  farming_inv T (mkState (<[k := p']> (Pools s)) (<[(k, w) := u']> (Positions s)) l'
                   (block_number s) ev).
Proof.
  intros [Hpool Hpos Hcov] Hk Hp' Hu' Hrps Htot Hw. constructor; simpl.
  - intros k1 p1 [[<- <-]|[Hne Hk1]]%lookup_insert_Some; rewrite deposited_insert.
    + destruct (Hpool k p Hk) as [_ Et]. rewrite decide_True by done. split; [done |].
      unfold position in Htot. lia.
    + rewrite decide_False, Z.add_0_r by done. auto.
  - intros k1 w1 u1 [[E <-]|[Hne Hu1]]%lookup_insert_Some.
    + injection E as <- <-. exists p'. by rewrite lookup_insert_eq.
    + destruct (Hpos k1 w1 u1 Hu1) as (p1 & Hp1 & Hok). destruct (decide (k1 = k)) as [->|Hk1].
      * exists p'. rewrite lookup_insert_eq. split; [done |]. rewrite Hk in Hp1.
        injection Hp1 as <-. destruct Hok. constructor; lia || done.
      * exists p1. by rewrite lookup_insert_ne.
  - intros a acc Ha Hm. specialize (Hw a acc Ha Hm). specialize (Hcov a acc Ha Hm).
    rewrite (pool_weight_lookup a s k p) by done.
    rewrite (map_sum_put _ _ _ _ UserPosition_default) by apply position_weight_default.
    unfold position in Hw. lia.
Qed.

Lemma inv_pool s k p p' l' ev :
  farming_inv T s -> Pools s !! k = Some p -> pool_ok (block_number s) p' ->
  reward_per_share_stored p <= reward_per_share_stored p' ->
  total_deposited p' = total_deposited p ->
  (forall a acc, pool_account_id T a = Ok acc -> minimum_balance a <= 1 ->
     pool_weight a k p' - pool_weight a k p
     <= SHARE * (balance l' a acc - balance (assets s) a acc)) ->
  farming_inv T (mkState (<[k := p']> (Pools s)) (Positions s) l' (block_number s) ev).
Proof.
  intros [Hpool Hpos Hcov] Hk Hp' Hrps Htot Hw. constructor; simpl.
  - intros k1 p1 [[<- <-]|[Hne Hk1]]%lookup_insert_Some; [| auto].
    destruct (Hpool k p Hk) as [_ Et]. split; [done | lia].
  - intros k1 w1 u1 Hu1. destruct (Hpos k1 w1 u1 Hu1) as (p1 & Hp1 & Hok).
    destruct (decide (k1 = k)) as [->|Hk1].
    + exists p'. rewrite lookup_insert_eq. split; [done |]. rewrite Hk in Hp1.
      injection Hp1 as <-. destruct Hok. constructor; lia || done.
    + exists p1. by rewrite lookup_insert_ne.
  - intros a acc Ha Hm. specialize (Hw a acc Ha Hm). specialize (Hcov a acc Ha Hm).
    rewrite (pool_weight_lookup a s k p) by done. lia.
Qed.

(** A position, written or not, belongs to the pool. *)
Lemma position_of s k p w :
  farming_inv T s -> Pools s !! k = Some p -> position_ok p (position s k w).
Proof.
  intros Hs Hk. unfold position. destruct (Positions s !! (k, w)) as [u|] eqn:E; simpl.
  - destruct (fi_position T s Hs k w u E) as (p1 & Hp1 & Hok). congruence.
  - destruct (fi_pool T s Hs k p Hk) as [[] _]. constructor; simpl; try lia. constructor.
Qed.

(** A position settled at the index of its pool. *)
Definition settled (p : PoolInfo) (u : UserPosition) : UserPosition :=
  mkUserPosition (deposit_balance u) (lock_balance_items u)
    (reward_amount u + deposit_balance u * (reward_per_share_stored p - reward_per_share_paid u) / SHARE)
    (reward_per_share_stored p).

Lemma update_reward_Ok who k s x s' :
  farming_inv T s -> update_reward who k s = Ok (x, s') ->
  exists p p', Pools s !! k = Some p /\ Pools s' !! k = Some p' /\
    update_reward_per_share (block_number s) p = Ok p' /\
    (forall w, who = Some w -> position s' k w = settled p' (position s k w)) /\
    assets s' = assets s /\ block_number s' = block_number s /\ farming_inv T s'.
Proof.
  intros Hs H. unfold update_reward, pool_info, insert_pool, insert_position in H. minv.
  match goal with H : Pools s !! k = Some ?p |- _ => rename H into Hk; rename p into p0 end.
  destruct (fi_pool T s Hs k p0 Hk) as [Hok Ht].
  match goal with H : update_reward_per_share _ _ = Ok ?p' |- _ => rename H into Hup; rename p' into p1 end.
  destruct (update_reward_per_share_Ok _ _ _ Hok Hup) as (r & Ep & Hr & Hweight & Hok' & Hself).
  assert (Hpool : forall a, pool_weight a k p1 - pool_weight a k p0 <= 0).
  { intros a. unfold pool_weight. case_decide; [| lia]. subst p1. simpl in *. lia. }
  assert (Er : reward_per_share_stored p1 = r) by (by subst p1).
  assert (Et : total_deposited p1 = total_deposited p0) by (by subst p1).
  clear Ep Hweight. subst r. exists p0, p1. split; [done |]. destruct who as [w|]; minv.
  - rewrite Hself in *. minv. destruct (position_of s k p0 w Hs Hk) as [Hd Hi Hw Hpd].
    rewrite big_checked_mul_eq in * by lia. minv.
    pose proof SHARE_pos.
    rewrite big_checked_div_eq in * by nia. minv.
    match goal with H : big_checked_add (?a / ?b) _ = Some _ |- _ =>
      assert (0 <= a / b) by (apply Z.div_pos; nia); rewrite big_checked_add_eq in H by lia end. minv.
    match goal with H : big_to_u128 _ = Some _ |- _ =>
      rewrite big_to_u128_eq in H by lia; apply fit_u128_Some in H as [-> ?] end.
    rewrite lookup_insert_eq. split; [done |]. split; [done |]. split.
    { intros w' Ew. injection Ew as <-. unfold position at 1; simpl. rewrite lookup_insert_eq; simpl.
      unfold settled. f_equal; lia. }
    split; [done |]. split; [done |].
    apply (inv_update s k p0 p1 w _ _ _ Hs Hk Hok'); simpl; [| lia | lia |].
    { constructor; simpl; try done; lia. }
    intros a acc Ha Hm. specialize (Hpool a). rewrite Z.sub_diag, Z.mul_0_r.
    unfold position_weight; simpl. unfold locked; simpl.
    set (q := deposit_balance (position s k w) * (reward_per_share_stored p1 - reward_per_share_paid (position s k w))) in *.
    assert (SHARE * (q / SHARE) <= q) by (apply Z.mul_div_le; lia).
    repeat case_decide; subst q; nia.
  - rewrite lookup_insert_eq. repeat (split; [done |]).
    apply (inv_pool s k p0 p1 _ _ Hs Hk Hok'); try lia.
    intros a acc _ _. specialize (Hpool a). lia.
Qed.

(** ** Payments *)

Lemma stake_in asset w acc amt l l' :
  transfer asset w acc amt false l = Ok l' -> pool_account_id T asset <> Ok w -> pool_account_id T asset = Ok acc ->
  forall a acc', pool_account_id T a = Ok acc' ->
    (if decide (asset = a) then amt else 0) <= balance l' a acc' - balance l a acc'.
Proof.
  intros Ht Hw Hacc a acc' Ha. assert (w <> acc) by (intros ->; exact (Hw Hacc)).
  case_decide as E.
  - subst a. rewrite Hacc in Ha. injection Ha as <-.
    pose proof (transfer_dest _ _ _ _ _ _ _ Ht). lia.
  - rewrite (transfer_frame _ _ _ _ _ _ _ a acc' Ht) by auto. lia.
Qed.

Lemma stake_out asset w acc amt l l' :
  transfer asset acc w amt false l = Ok l' -> outsider T w -> pool_account_id T asset = Ok acc ->
  forall a acc', pool_account_id T a = Ok acc' -> minimum_balance a <= 1 ->
    - (if decide (asset = a) then amt else 0) <= balance l' a acc' - balance l a acc'.
Proof.
  intros Ht Hw Hacc a acc' Ha Hm. assert (acc <> w) by (intros ->; exact (Hw asset Hacc)).
  case_decide as E.
  - subst a. rewrite Hacc in Ha. injection Ha as <-.
    assert (dust_free l asset acc amt) as Hd.
    { apply dust_free_min_one; [done | by eapply transfer_enough]. }
    rewrite (transfer_source _ _ _ _ _ _ _ Ht) by done. lia.
  - rewrite (transfer_frame _ _ _ _ _ _ _ a acc' Ht) by auto. lia.
Qed.

(** ** The calls *)

Ltac weigh := unfold position_weight, pool_weight, unreleased, locked in *; simpl in *;
  rewrite ?sum_list_app; repeat case_decide; simplify_eq; simpl in *.

Lemma create_inv origin asset reward_asset lock cool s x s' :
  farming_inv T s -> 0 <= block_number s ->
  create T origin asset reward_asset lock cool s = Ok (x, s') -> farming_inv T s'.
Proof.
  intros [Hpool Hpos Hcov] Hn H. unfold create, insert_pool, deposit_event in H. minv.
  match goal with H : bool_decide _ = true |- _ => apply bool_decide_eq_true in H as Hk end.
  set (k := (asset, reward_asset, lock) : PoolKey) in *.
  assert (Hnone : forall w, Positions s !! (k, w) = None).
  { intros w. destruct (Positions s !! (k, w)) as [u|] eqn:E; [| done].
    destruct (Hpos k w u E) as (p & Hp & _). congruence. }
  constructor; simpl.
  - intros k1 p1 [[<- <-]|[Hne Hk1]]%lookup_insert_Some; [| auto].
    split; [constructor; simpl; lia |]. simpl. symmetry. unfold deposited.
    apply map_sum_zero. intros [k1 w1] u Hu; simpl. case_decide; [subst; by rewrite Hnone in Hu | done].
  - intros k1 w1 u1 Hu1. destruct (Hpos k1 w1 u1 Hu1) as (p1 & Hp1 & Hok).
    exists p1. rewrite lookup_insert_ne; [done | congruence].
  - intros a acc Ha Hm. rewrite map_sum_insert_new by done. specialize (Hcov a acc Ha Hm).
    unfold pool_weight at 1, unreleased; simpl. case_decide; lia.
Qed.

Lemma admin_pool_inv s k p p' ev :
  farming_inv T s -> Pools s !! k = Some p ->
  total_deposited p' = total_deposited p -> reward_rate p' = reward_rate p ->
  reward_per_share_stored p' = reward_per_share_stored p ->
  last_update_block p' = last_update_block p -> period_finish p' = period_finish p ->
  farming_inv T (mkState (<[k := p']> (Pools s)) (Positions s) (assets s) (block_number s) ev).
Proof.
  intros Hs Hk Et Er Ei El Ef. destruct (fi_pool T s Hs k p Hk) as [[] _].
  apply (inv_pool s k p); try done; try lia; [constructor; lia |].
  intros a acc _ _. unfold pool_weight, unreleased. rewrite Et, Er, Ei, El, Ef.
  case_decide; lia.
Qed.

(** Names the signer, the state after the update of the rewards and what is known of it. *)
Ltac signed who :=
  match goal with H : ensure_signed ?o = Ok ?w |- _ =>
    rename w into who; destruct o; simpl in H; try discriminate; injection H as -> end.
Ltac updated s1 p1 Hp1 Hset Hs1 :=
  match goal with H : update_reward _ _ _ = Ok (_, ?b) |- _ =>
    rename b into s1; apply update_reward_Ok in H as (? & p1 & ? & Hp1 & ? & Hset & ? & ? & Hs1); [| done] end;
  unfold pool_info, insert_position, insert_pool, deposit_event in *; minv;
  repeat match goal with H : Pools s1 !! _ = Some ?q |- _ =>
    lazymatch q with p1 => fail | _ => replace q with p1 in * by congruence; clear H q end end;
  repeat match goal with H : on_assets _ _ = Ok _ |- _ => apply farming_assets_Ok in H as (? & ? & ->) end;
  simpl in *; change (position (set_assets ?l s1)) with (position s1) in *.

Lemma deposit_inv origin k amount s x s' :
  farming_inv T s -> 0 <= amount -> (forall w, origin = Signed w -> outsider T w) ->
  deposit T origin k amount s = Ok (x, s') -> farming_inv T s'.
Proof.
  intros Hs Ha Hout H. unfold deposit in H. minv. signed who. specialize (Hout who eq_refl).
  updated s1 p1 Hp1 Hset Hs1. specialize (Hset who eq_refl).
  destruct (position_of s1 k p1 who Hs1 Hp1) as [Hd Hi Hr Hpd].
  destruct (fi_pool T s1 Hs1 k p1 Hp1) as [[] _].
  apply (inv_update s1 k p1 _ who _ _ _ Hs1 Hp1); simpl; try lia.
  - constructor; simpl; lia.
  - constructor; simpl; done || lia.
  - intros a acc Hacc _. assert (reward_per_share_paid (position s1 k who) = reward_per_share_stored p1)
      as Hpaid by (by rewrite Hset).
    match goal with H : transfer _ _ _ _ _ _ = Ok _ |- _ =>
      pose proof (stake_in _ _ _ _ _ _ H (Hout _) ltac:(eassumption) a acc Hacc) as Hin end.
    pose proof SHARE_pos. weigh; nia.
Qed.

Lemma farming_withdraw_inv origin k amount s x s' :
  farming_inv T s -> 0 <= amount -> (forall w, origin = Signed w -> outsider T w) ->
  withdraw T origin k amount s = Ok (x, s') -> farming_inv T s'.
Proof.
  intros Hs Ha Hout H. unfold withdraw in H. minv. signed who. specialize (Hout who eq_refl).
  updated s1 p1 Hp1 Hset Hs1. specialize (Hset who eq_refl).
  destruct (position_of s1 k p1 who Hs1 Hp1) as [Hd Hi Hr Hpd].
  destruct (fi_pool T s1 Hs1 k p1 Hp1) as [[] _]. zbool.
  assert (reward_per_share_paid (position s1 k who) = reward_per_share_stored p1)
      as Hpaid by (by rewrite Hset).
  pose proof SHARE_pos.
  case_match; minv.
  - match goal with H : on_assets _ _ = Ok _ |- _ => apply farming_assets_Ok in H as (? & ? & ->) end.
    simpl. apply (inv_update s1 k p1 _ who _ _ _ Hs1 Hp1); simpl; try lia.
    + constructor; simpl; lia.
    + constructor; simpl; done || lia.
    + intros a acc Hacc Hm.
      match goal with H : transfer _ _ _ _ _ _ = Ok _ |- _ =>
        pose proof (stake_out _ _ _ _ _ _ H Hout ltac:(eassumption) a acc Hacc Hm) as Hin end.
      weigh; nia.
  - apply (inv_update s1 k p1 _ who _ _ _ Hs1 Hp1); simpl; try lia.
    + constructor; simpl; lia.
    + constructor; simpl; try done; try lia. apply Forall_app. split; [done |]. by repeat constructor.
    + intros a acc Hacc Hm. weigh; nia.
Qed.

Lemma redeem_total now p items acc t :
  fold_res (fun total_amount item =>
      if unlocked now p item then ok_or (checked_add total_amount item.1) (Arithmetic Overflow)
      else Ok total_amount) items acc = Ok t ->
  t = acc + sum_list_Z fst (List.filter (unlocked now p) items).
Proof.
  revert acc. induction items as [|i items IH]; intros acc H; simpl in H.
  - injection H as <-. unfold sum_list_Z. simpl. lia.
  - apply result_bind_Ok in H as (acc' & H1 & H2). apply IH in H2. subst t. simpl.
    destruct (unlocked now p i); minv; unfold sum_list_Z; simpl; lia.
Qed.

(** What [redeem] does: it pays the items that have cooled down and keeps the others. *)
Lemma redeem_run origin k s x s' :
  redeem T origin k s = Ok (x, s') ->
  exists who p, origin = Signed who /\ Pools s !! k = Some p /\
    let ripe := unlocked (block_number s) p in
    let items := lock_balance_items (position s k who) in
    let paid := sum_list_Z fst (List.filter ripe items) in
    exists l, s' = mkState (Pools s)
       (<[(k, who) := mkUserPosition (deposit_balance (position s k who))
            (List.filter (fun i => negb (ripe i)) items)
            (reward_amount (position s k who)) (reward_per_share_paid (position s k who))]>
          (Positions s)) l (block_number s) (events s ++ [AssetsRedeem who k paid]) /\
      (paid <= 0 -> l = assets s) /\
      (0 < paid -> exists acc, pool_account_id T k.1.1 = Ok acc /\
         transfer k.1.1 acc who paid false (assets s) = Ok l).
Proof.
  intros H. unfold redeem, pool_info, insert_position, deposit_event in H. minv. signed who.
  match goal with H : Pools s !! k = Some ?p |- _ => exists who, p end.
  split; [done |]. split; [done |]. cbv zeta.
  match goal with H : fold_res _ _ _ = Ok _ |- _ => apply redeem_total in H; rewrite Z.add_0_l in H; rewrite <- H; clear H end.
  case_match eqn:Et; minv; rewrite Z.gtb_ltb in Et; zbool.
  - match goal with H : on_assets _ _ = Ok _ |- _ => apply farming_assets_Ok in H as (l & ? & ->) end.
    exists l. split; [done |]. split; [lia | eauto].
  - eexists. split; [done |]. split; [done | lia].
Qed.

Lemma redeem_inv origin k s x s' :
  farming_inv T s -> (forall w, origin = Signed w -> outsider T w) ->
  redeem T origin k s = Ok (x, s') -> farming_inv T s'.
Proof.
  intros Hs Hout H. apply redeem_run in H as (who & p & -> & Hp & l & -> & H0 & H1).
  specialize (Hout who eq_refl). destruct (position_of s k p who Hs Hp) as [Hd Hi Hr Hpd].
  destruct (fi_pool T s Hs k p Hp) as [Hok _].
  set (ripe := unlocked (block_number s) p) in *.
  rewrite <- (insert_id (Pools s) k p Hp). apply (inv_update s k p p who); simpl; try done; try lia.
  - constructor; simpl; try done. rewrite Forall_forall in *. intros i [Hin _]%filter_In. auto.
  - intros a acc Hacc Hm. rewrite Z.sub_diag, Z.add_0_r.
    pose proof (sum_list_filter fst ripe (lock_balance_items (position s k who))) as Hsplit.
    set (paid := sum_list_Z fst (List.filter ripe _)) in *.
    assert (0 <= paid).
    { apply sum_list_nonneg. rewrite Forall_forall in *. intros i [Hin _]%filter_In. auto. }
    assert (- (if decide (k.1.1 = a) then paid else 0) <= balance l a acc - balance (assets s) a acc).
    { destruct (decide (paid <= 0)) as [Hle|Hgt]; [rewrite (H0 Hle); case_decide; lia |].
      destruct H1 as (acc0 & Hacc0 & Ht); [lia |]. by eapply stake_out. }
    pose proof SHARE_pos. weigh; nia.
Qed.

Lemma claim_inv origin k s x s' :
  farming_inv T s -> (forall w, origin = Signed w -> outsider T w) ->
  claim T origin k s = Ok (x, s') -> farming_inv T s'.
Proof.
  intros Hs Hout H. unfold claim in H. minv. signed who. specialize (Hout who eq_refl).
  updated s1 p1 Hp1 Hset Hs1.
  destruct (position_of s1 k p1 who Hs1 Hp1) as [Hd Hi Hr Hpd].
  destruct (fi_pool T s1 Hs1 k p1 Hp1) as [Hok _]. pose proof SHARE_pos.
  case_match; minv.
  - match goal with H : on_assets _ _ = Ok _ |- _ => apply farming_assets_Ok in H as (? & ? & ->) end.
    unfold set_positions; simpl. rewrite <- (insert_id (Pools s1) k p1 Hp1).
    apply (inv_update s1 k p1 p1 who); simpl; try done; try lia.
    intros a acc Hacc Hm.
    match goal with H : transfer _ _ _ _ _ _ = Ok _ |- _ =>
      pose proof (stake_out _ _ _ _ _ _ H Hout ltac:(eassumption) a acc Hacc Hm) as Hin end.
    weigh; nia.
  - unfold set_positions; simpl. rewrite <- (insert_id (Pools s1) k p1 Hp1).
    apply (inv_update s1 k p1 p1 who); simpl; try done; lia.
Qed.

Lemma dispatch_reward_inv origin k payer amount duration s x s' :
  farming_inv T s -> 0 <= amount -> 0 <= duration ->
  (forall w, lookup T payer = Ok w -> pool_account_id T k.1.2 <> Ok w) ->
  dispatch_reward T origin k payer amount duration s = Ok (x, s') -> farming_inv T s'.
Proof.
  intros Hs Ha Hdur Hout H. unfold dispatch_reward in H. minv. zbool.
  match goal with H : update_reward _ _ _ = Ok (_, ?b) |- _ =>
    rename b into s1;
    apply update_reward_Ok in H as (p & p1 & Hp & Hp1 & Hup & _ & El & Eb & Hs1); [| done] end.
  destruct (fi_pool T s Hs k p Hp) as [Hok0 _].
  destruct (update_reward_per_share_Ok _ _ _ Hok0 Hup) as (r & Ep1 & _ & _ & _ & _).
  assert (Elast : last_update_block p1 = Z.min (block_number s1) (period_finish p1))
    by (subst p1; simpl; congruence).
  clear Ep1 Hup. unfold pool_info, insert_pool, deposit_event in *. minv.
  match goal with H : Pools s1 !! _ = Some ?q |- _ =>
    lazymatch q with p1 => fail | _ => replace q with p1 in * by congruence; clear H q end end.
  destruct (fi_pool T s1 Hs1 k p1 Hp1) as [[] _].
  match goal with H : checked_add_to _ _ _ = Some _ |- _ => apply checked_add_to_Some in H as [-> ?] end.
  match goal with H : (if _ >=? _ then _ else _) = Ok ?r |- _ => rename r into rate; rename H into Hrate end.
  unfold block_to_balance in *.
  assert (Hnew : 0 <= rate /\ rate * duration <= amount + reward_rate p1 * unreleased p1).
  { unfold unreleased. rewrite Elast. rewrite Z.geb_leb in Hrate.
    destruct (Z.leb_spec (period_finish p1) (block_number s1)); minv.
    - split; [apply Z.div_pos; lia |]. rewrite (Z.mul_comm (_ / _)). 
      assert (duration * (amount / duration) <= amount) by (apply Z.mul_div_le; lia).
      replace (Z.max 0 _) with 0 by lia. lia.
    - split; [apply Z.div_pos; nia |]. rewrite (Z.mul_comm (_ / _)).
      etransitivity; [apply Z.mul_div_le; lia |].
      replace (Z.max 0 (period_finish p1 - Z.min (block_number s1) (period_finish p1)))
        with (period_finish p1 - block_number s1) by lia. lia. }
  destruct Hnew as [Hr0 Hr1]. pose proof SHARE_pos.
  assert (Hw : forall a, pool_weight a k (set_last_update_block (block_number s1) (set_reward_rate rate
      (set_period_finish (block_number s1 + duration) (set_reward_duration duration p1))))
      - pool_weight a k p1 <= SHARE * (if decide (k.1.2 = a) then amount else 0)).
  { intros a. unfold pool_weight at 1, unreleased at 1; simpl.
    replace (Z.max 0 (block_number s1 + duration - block_number s1)) with duration by lia.
    unfold pool_weight. case_decide; nia. }
  match goal with H : context [if amount >? 0 then _ else _] |- _ => rename H into Hpay end.
  destruct (Z.gtb_spec amount 0) as [Hgt|Hle]; minv.
  - match goal with H : on_assets _ _ = Ok _ |- _ => apply farming_assets_Ok in H as (l & ? & ->) end.
    simpl. apply (inv_pool s1 k p1); simpl; try done; try lia; [constructor; simpl; lia |].
    intros a acc Hacc _. specialize (Hw a).
    match goal with H : transfer _ _ _ _ _ _ = Ok _, H' : lookup T payer = Ok ?w |- _ =>
      pose proof (stake_in _ _ _ _ _ _ H (Hout w H') ltac:(eassumption) a acc Hacc) as Hin end.
    nia.
  - unfold set_pools; simpl. apply (inv_pool s1 k p1); simpl; try done; try lia; [constructor; simpl; lia |].
    intros a acc Hacc _. specialize (Hw a). case_decide; lia.
Qed.

Lemma dispatch_farming_inv origin c s s' :
  farming_inv T s -> 0 <= block_number s -> call_ok T origin c ->
  dispatch T origin c s = Ok (tt, s') -> farming_inv T s'.
Proof.
  intros Hs Hn [Ho Hc] H. destruct c; simpl in *.
  - by eapply create_inv.
  - unfold set_pool_status, pool_info, insert_pool, deposit_event in H. minv.
    eapply (admin_pool_inv s); done.
  - unfold set_pool_cool_down_duration, pool_info, insert_pool, deposit_event in H. minv.
    eapply (admin_pool_inv s); done.
  - unfold reset_pool_unlock_height, pool_info, insert_pool, deposit_event in H. minv.
    eapply (admin_pool_inv s); done.
  - by eapply deposit_inv.
  - by eapply farming_withdraw_inv.
  - by eapply redeem_inv.
  - by eapply claim_inv.
  - destruct Hc as (H1 & H2 & H3). exact (dispatch_reward_inv _ _ _ _ _ _ _ _ Hs H1 H2 H3 H).
Qed.

(** ** What the invariant says *)

Lemma genesis_farming_inv s : genesis s -> farming_inv T s.
Proof.
  intros (Ep & Eu & Hn). constructor; rewrite ?Ep, ?Eu.
  - intros k p. by rewrite lookup_empty.
  - intros k w u. by rewrite lookup_empty.
  - intros a acc _ _. rewrite !map_sum_empty. pose proof SHARE_pos.
    pose proof (balance_range (assets s) a acc) as []. nia.
Qed.

Lemma step_farming_inv s s' :
  farming_inv T s /\ 0 <= block_number s -> step T s s' -> farming_inv T s' /\ 0 <= block_number s'.
Proof.
  intros [Hs Hn] Hst. destruct Hst as [s origin c s' Hc H | s n l Hle Hl].
  - split; [by eapply dispatch_farming_inv |].
    assert (preserves (fun s => 0 <= block_number s) (dispatch T origin c)) as Hp.
    { destruct c; simpl; unfold create, set_pool_status, set_pool_cool_down_duration,
        reset_pool_unlock_height, deposit, withdraw, redeem, claim, dispatch_reward, update_reward,
        insert_pool, insert_position, deposit_event; preserve ltac:(first
        [ apply preserves_modify; done
        | intros ???? (? & ? & ->)%farming_assets_Ok; done ]). }
    by eapply Hp.
  - split; [| simpl; lia]. destruct Hs as [Hpool Hpos Hcov]. constructor; simpl.
    + intros k p Hk. destruct (Hpool k p Hk) as [[] Et]. split; [constructor; lia | done].
    + done.
    + intros a acc Ha Hm. specialize (Hcov a acc Ha Hm). specialize (Hl a acc Ha).
      pose proof SHARE_pos. simpl. nia.
Qed.

Lemma steps_farming_inv s0 s : genesis s0 -> rtc (step T) s0 s -> farming_inv T s.
Proof.
  intros Hg Hsteps. assert (farming_inv T s0 /\ 0 <= block_number s0) as H0.
  { split; [by apply genesis_farming_inv | apply Hg]. }
  clear Hg. induction Hsteps as [|s0 s1 s2 H _ IH]; [apply H0 |].
  by apply IH, (step_farming_inv s0).
Qed.

(** Stakes and credited rewards weigh no more than the whole. *)
Lemma inv_covers s a :
  farming_inv T s ->
  SHARE * (stakes a (Positions s) + rewards a (Positions s))
    <= map_sum (position_weight a) (Positions s) + map_sum (pool_weight a) (Pools s).
Proof.
  intros [Hpool Hpos _].
  set (c := fun (k : PoolKey) p => if decide (k.1.2 = a) then reward_per_share_stored p else 0).
  assert (map_sum (fun k p => c k p * deposited k (Positions s)) (Pools s)
            <= map_sum (pool_weight a) (Pools s)) as H1.
  { apply map_sum_le. intros k p Hk. destruct (Hpool k p Hk) as [[] <-]. pose proof SHARE_pos.
    unfold c, pool_weight, unreleased. case_decide; nia. }
  rewrite <- deposits_by_pool in H1.
  2: { intros k w u Hu. destruct (Hpos k w u Hu) as (p & -> & _). done. }
  assert (SHARE * (stakes a (Positions s) + rewards a (Positions s)) <=
    map_sum (position_weight a) (Positions s) +
    map_sum (fun kw u => from_option (c kw.1) 0 (Pools s !! kw.1) * deposit_balance u) (Positions s)); [| lia].
  unfold stakes, rewards. rewrite <- map_sum_add, <- map_sum_scale, <- map_sum_add.
  apply map_sum_le. intros [k w] u Hu. destruct (Hpos k w u Hu) as (p & Hp & []).
  unfold position_weight, c. simpl. rewrite Hp. simpl. repeat case_decide; nia.
Qed.

(** C4: stakes and rewards are always covered: in every state that is reached from an empty pallet by
    calls and by blocks passing, the total a pool records is the sum of the deposits in it, and the account of every asset (with a minimum balance of at most one) holds at least all
    stakes in that asset, the ones that are cooling down included, and all rewards credited in it.
    The calls are anybody's but those of the pallet's own accounts, which have no key, and nobody else
    takes anything out of these accounts.  One thing
    governance can do is left out: to dispatch rewards and name as the payer the very account that
    holds them, which pays itself, so that rewards without money behind them are promised. *)
Theorem farming_always_covered s0 s :
  genesis s0 -> rtc (step T) s0 s ->
  (forall k p, Pools s !! k = Some p -> total_deposited p = deposited k (Positions s)) /\
  (forall a acc, pool_account_id T a = Ok acc -> minimum_balance a <= 1 ->
     stakes a (Positions s) + rewards a (Positions s) <= balance (assets s) a acc).
Proof.
  intros Hg Hsteps. pose proof (steps_farming_inv s0 s Hg Hsteps) as Hs. split.
  - intros k p Hk. by apply (fi_pool T s Hs).
  - intros a acc Ha Hm. pose proof (fi_cover T s Hs a acc Ha Hm). pose proof (inv_covers s a Hs).
    pose proof SHARE_pos. nia.
Qed.

(** Redeeming pays the caller exactly the withdrawn amounts that have cooled down for the pool's
    cool-down time, keeps the others waiting, and touches nothing else of the position. *)
Theorem redeem_pays_cooled origin k s x s' :
  farming_inv T s -> (forall w, origin = Signed w -> outsider T w) ->
  redeem T origin k s = Ok (x, s') ->
  exists who p, origin = Signed who /\ Pools s !! k = Some p /\
    let u := position s k who in
    let cooled i := Z.min u32_max (i.2 + cool_down_duration p) <=? block_number s in
    let paid := sum_list_Z fst (List.filter cooled (lock_balance_items u)) in
    Pools s' = Pools s /\
    position s' k who = mkUserPosition (deposit_balance u)
      (List.filter (fun i => negb (cooled i)) (lock_balance_items u)) (reward_amount u)
      (reward_per_share_paid u) /\
    (forall k' w, (k', w) <> (k, who) -> position s' k' w = position s k' w) /\
    balance (assets s) k.1.1 who + paid <= balance (assets s') k.1.1 who.
Proof.
  intros Hs Hout H. apply redeem_run in H as (who & p & -> & Hp & l & -> & H0 & H1).
  specialize (Hout who eq_refl). exists who, p. split; [done |]. split; [done |]. cbv zeta.
  assert (Hf : forall i, unlocked (block_number s) p i =
    (Z.min u32_max (i.2 + cool_down_duration p) <=? block_number s)).
  { intros i. unfold unlocked. by rewrite Z.geb_leb. }
  rewrite <- !(filter_ext _ _ Hf).
  rewrite <- (filter_ext _ _ (fun i => f_equal negb (Hf i))). simpl.
  split; [done |]. split; [unfold position; simpl; by rewrite lookup_insert_eq |]. split.
  { intros k' w Hne. unfold position; simpl. by rewrite lookup_insert_ne by congruence. }
  set (paid := sum_list_Z fst _) in *. destruct (decide (paid <= 0)) as [Hle|Hgt].
  - rewrite (H0 Hle). lia.
  - destruct H1 as (acc & Hacc & Ht); [lia |].
    apply (transfer_dest _ _ _ _ _ _ _ Ht). intros ->. by apply (Hout k.1.1).
Qed.

(** Claiming credits the caller with the growth of the pool's index since the last payment, times
    the deposit and rounded down, pays out all rewards credited so far, and leaves none. *)
Theorem claim_pays_rewards origin k s x s' :
  farming_inv T s -> (forall w, origin = Signed w -> outsider T w) ->
  claim T origin k s = Ok (x, s') ->
  exists who p p', origin = Signed who /\ Pools s !! k = Some p /\
    update_reward_per_share (block_number s) p = Ok p' /\
    let u := position s k who in
    let earned := deposit_balance u * (reward_per_share_stored p' - reward_per_share_paid u) / SHARE in
    0 <= earned /\
    position s' k who = mkUserPosition (deposit_balance u) (lock_balance_items u) 0
      (reward_per_share_stored p') /\
    balance (assets s) k.1.2 who + (reward_amount u + earned) <= balance (assets s') k.1.2 who.
Proof.
  intros Hs Hout H. unfold claim in H. minv. signed who. specialize (Hout who eq_refl).
  match goal with H : update_reward _ _ _ = Ok (_, ?b) |- _ =>
    rename b into s1;
    apply update_reward_Ok in H as (p & p1 & Hp & Hp1 & Hup & Hset & El & Eb & Hs1); [| done] end.
  specialize (Hset who eq_refl). unfold insert_position, deposit_event in *. exists who, p, p1.
  split; [done |]. split; [done |]. split; [done |]. cbv zeta.
  destruct (position_of s1 k p1 who Hs1 Hp1) as [Hd1 _ Hr1 Hpd1].
  destruct (position_of s k p who Hs Hp) as [Hd _ Hr Hpd].
  destruct (fi_pool T s Hs k p Hp) as [Hok _].
  destruct (update_reward_per_share_Ok _ _ _ Hok Hup) as (r & Ep & Hrr & _).
  assert (Er : reward_per_share_stored p <= reward_per_share_stored p1) by (by subst p1).
  clear Ep. pose proof SHARE_pos.
  split; [apply Z.div_pos; [nia | done] |].
  unfold settled in Hset. set (paid := reward_amount (position s k who) + _ / SHARE) in *.
  assert (Ea : reward_amount (position s1 k who) = paid) by (by rewrite Hset).
  rewrite Ea in *. destruct (Z.gtb_spec paid 0) as [Hgt|Hle]; minv.
  - match goal with H : on_assets _ _ = Ok _ |- _ => apply farming_assets_Ok in H as (l & Ht & ->) end.
    unfold position at 1; simpl. rewrite lookup_insert_eq; simpl. rewrite Hset; simpl.
    split; [done |]. rewrite <- El.
    apply (transfer_dest _ _ _ _ _ _ _ Ht). intros ->. by eapply Hout.
  - unfold position at 1; simpl. rewrite lookup_insert_eq; simpl. rewrite El. split; [| lia].
    rewrite Hset. f_equal; lia.
Qed.
End farming.

(** ** A run of the pallet

    Asset 10 is staked for asset 20; the pool releases 1000 in ten blocks.  Account 1 stakes 100
    of its 500 units, withdraws 40, redeems them after the cool-down of five blocks and claims. *)

Definition farm_config : Config := mkConfig (fun _ => true) 10 1000 1000 (fun a => Ok (- 1 - Z.abs a)) Ok.
Definition farm_key : PoolKey := (10, 20, 0).
Definition farm_ledger : ledger :=
  Ledger {[ (10, 1) := 500; (20, 2) := 5000 ]} {[ 10 := 500; 20 := 5000 ]}.
Definition farm_empty : State ledger := mkState ∅ ∅ farm_ledger 1 [].
Definition farm_run (origin : RuntimeOrigin) (c : Call) (s : State ledger) : State ledger :=
  match dispatch (NB := big_reference) (FU := ledger_ops) farm_config origin c s with
  | Ok (_, s') => s' | _ => s
  end.
Definition farm_wait (n : BlockNumber) (s : State ledger) : State ledger :=
  set_block_number n (set_assets (assets s) s).
Definition farm_created : State ledger := farm_run Root (CallCreate 10 20 0 5) farm_empty.
Definition farm_active : State ledger := farm_run Root (CallSetPoolStatus farm_key true) farm_created.
Definition farm_funded : State ledger :=
  farm_run Root (CallDispatchReward farm_key 2 1000 10) farm_active.
Definition farm_staked : State ledger := farm_run (Signed 1) (CallDeposit farm_key 100) farm_funded.
Definition farm_later : State ledger := farm_wait 6 farm_staked.
Definition farm_withdrawn : State ledger := farm_run (Signed 1) (CallWithdraw farm_key 40) farm_later.
Definition farm_cooled : State ledger := farm_wait 11 farm_withdrawn.
Definition farm_redeemed : State ledger := farm_run (Signed 1) (CallRedeem farm_key) farm_cooled.
Definition farm_claimed : State ledger := farm_run (Signed 1) (CallClaim farm_key) farm_redeemed.

(** The rewards are dispatched once more, now paid by the account that holds them: account 1 is
    credited with 2000 units, of which there are 1000. *)
Definition farm_self_paid : State ledger :=
  farm_run (Signed 1) (CallWithdraw farm_key 40) (farm_wait 11 (farm_run (Signed 1) (CallDeposit farm_key 100)
    (farm_run Root (CallDispatchReward farm_key (-21) 1000 10) farm_funded))).
Example self_paid_rewards :
  pool_account_id farm_config 20 = Ok (-21) /\
  rewards 20 (Positions farm_self_paid) = 2000 /\ ledger_balance (assets farm_self_paid) 20 (-21) = 1000.
Proof. vm_compute. repeat split. Qed.

Section instances.
#[local] Existing Instance ledger_ops.
#[local] Existing Instance ledger_ops_laws.
#[local] Existing Instance big_reference.
#[local] Existing Instance big_reference_laws.

(** The accounts of the assets are negative numbers in this run, those of the users are not. *)
Lemma farm_outsider w : 0 <= w -> outsider farm_config w.
Proof. intros Hw a Ha. injection Ha as Ha. lia. Qed.

Lemma farm_call s origin c s' :
  rtc (step farm_config) farm_empty s -> call_ok farm_config origin c ->
  dispatch farm_config origin c s = Ok (tt, s') -> rtc (step farm_config) farm_empty s'.
Proof. intros Hs Hc H. eapply rtc_r; [exact Hs |]. by eapply step_call. Qed.

Lemma farm_wait_step s n :
  rtc (step farm_config) farm_empty s -> block_number s <= n ->
  rtc (step farm_config) farm_empty (farm_wait n s).
Proof. intros Hs Hn. eapply rtc_r; [exact Hs |]. apply step_env; [done | intros; lia]. Qed.

Ltac farm_ok :=
  split; [intros ? Hw; inversion Hw; subst; apply farm_outsider; lia |];
  simpl; repeat split; try lia; intros ? Hw; injection Hw as <-; apply farm_outsider; lia.

Lemma farm_reach_cooled : rtc (step farm_config) farm_empty farm_cooled.
Proof.
  apply farm_wait_step; [| by_eval].
  apply (farm_call farm_later (Signed 1) (CallWithdraw farm_key 40)); [| farm_ok | by_eval].
  apply farm_wait_step; [| by_eval].
  apply (farm_call farm_funded (Signed 1) (CallDeposit farm_key 100)); [| farm_ok | by_eval].
  apply (farm_call farm_active Root (CallDispatchReward farm_key 2 1000 10)); [| farm_ok | by_eval].
  apply (farm_call farm_created Root (CallSetPoolStatus farm_key true)); [| farm_ok | by_eval].
  apply (farm_call farm_empty Root (CallCreate 10 20 0 5)); [| farm_ok | by_eval].
  apply rtc_refl.
Qed.

Lemma farm_reach_redeemed : rtc (step farm_config) farm_empty farm_redeemed.
Proof.
  apply (farm_call farm_cooled (Signed 1) (CallRedeem farm_key));
    [exact farm_reach_cooled | farm_ok | by_eval].
Qed.

Lemma farm_genesis : genesis farm_empty.
Proof. repeat split. done. Qed.

Lemma farm_users origin : origin = Signed 1 -> forall w, origin = Signed w -> outsider farm_config w.
Proof. intros -> w E. injection E as <-. by apply farm_outsider. Qed.

Lemma farming_always_covered_witness :
  stakes 10 (Positions farm_redeemed) = 60 /\ rewards 20 (Positions farm_redeemed) = 500 /\
  (forall k p, Pools farm_redeemed !! k = Some p ->
     total_deposited p = deposited k (Positions farm_redeemed)) /\
  (forall a acc, pool_account_id farm_config a = Ok acc -> minimum_balance (L := ledger) a <= 1 ->
     stakes a (Positions farm_redeemed) + rewards a (Positions farm_redeemed)
       <= balance (assets farm_redeemed) a acc).
Proof.
  split; [by_eval |]. split; [by_eval |].
  apply (farming_always_covered farm_config farm_empty farm_redeemed farm_genesis farm_reach_redeemed).
Defined.

Lemma redeem_pays_cooled_witness :
  lock_balance_items (position farm_cooled farm_key 1) = [(40, 6)] /\
  exists who p, Signed 1 = Signed who /\ Pools farm_cooled !! farm_key = Some p /\
    let u := position farm_cooled farm_key who in
    let cooled i := Z.min u32_max (i.2 + cool_down_duration p) <=? block_number farm_cooled in
    let paid := sum_list_Z fst (List.filter cooled (lock_balance_items u)) in
    Pools farm_redeemed = Pools farm_cooled /\
    position farm_redeemed farm_key who = mkUserPosition (deposit_balance u)
      (List.filter (fun i => negb (cooled i)) (lock_balance_items u)) (reward_amount u)
      (reward_per_share_paid u) /\
    (forall k' w, (k', w) <> (farm_key, who) -> position farm_redeemed k' w = position farm_cooled k' w) /\
    balance (assets farm_cooled) 10 who + paid <= balance (assets farm_redeemed) 10 who.
Proof.
  split; [by_eval |].
  apply (redeem_pays_cooled farm_config (Signed 1) farm_key farm_cooled tt farm_redeemed);
    [| by apply farm_users | by_eval].
  apply (steps_farming_inv farm_config farm_empty); [exact farm_genesis | exact farm_reach_cooled].
Defined.

Lemma claim_pays_rewards_witness :
  exists who p p', Signed 1 = Signed who /\ Pools farm_redeemed !! farm_key = Some p /\
    update_reward_per_share (block_number farm_redeemed) p = Ok p' /\
    let u := position farm_redeemed farm_key who in
    let earned := deposit_balance u * (reward_per_share_stored p' - reward_per_share_paid u) / SHARE in
    0 <= earned /\
    position farm_claimed farm_key who = mkUserPosition (deposit_balance u) (lock_balance_items u) 0
      (reward_per_share_stored p') /\
    balance (assets farm_redeemed) 20 who + (reward_amount u + earned)
      <= balance (assets farm_claimed) 20 who.
Proof.
  apply (claim_pays_rewards farm_config (Signed 1) farm_key farm_redeemed tt farm_claimed);
    [| by apply farm_users | by_eval].
  apply (steps_farming_inv farm_config farm_empty); [exact farm_genesis | exact farm_reach_redeemed].
Defined.
End instances.
