(* ===== verification/Bridge.v ===== *)
(** * The bridge (src/pallets/bridge/src/lib.rs and types.rs)

    Relayers vote on transfers that were made on other chains; an approved transfer is
    materialized (minted or paid from the pallet's account).  Transfers to other chains are
    teleported: burnt or locked, and announced under a fresh nonce.  The nonces that have been
    dealt with are kept as a list of intervals.  [State] is the pallet's storage with the
    ledger, the members of the relayers' collective, the block number and the events. *)

From stdpp Require Import sorting.
From S2P Require Import Prelude Arith Frame.
Import BridgeErrors.

Module Bridge.

(** ** types.rs *)

Abbreviation ChainId := Z (only parsing).        (* u32 *)
Abbreviation ChainNonce := Z (only parsing).     (* u64 *)
Abbreviation TeleAccount := (list Z) (only parsing).  (* Vec<u8> *)
Abbreviation BridgeInterval := (Z * Z)%type (only parsing).

Record BridgeToken := mkBridgeToken {
  id : CurrencyId;
  external : bool;
  fee : Balance;
  enable : bool;
  out_cap : Balance;
  out_amount : Balance;
  in_cap : Balance;
  in_amount : Balance;
}.
Definition BridgeToken_default : BridgeToken := mkBridgeToken 0 false 0 false 0 0 0 0.
Definition token_eta (t : BridgeToken) : BridgeToken :=
  mkBridgeToken (id t) (external t) (fee t) (enable t) (out_cap t) (out_amount t) (in_cap t)
    (in_amount t).
Definition set_fee v t : BridgeToken := ltac:(update_field token_eta t (fee t) v).
Definition set_enable v t : BridgeToken := ltac:(update_field token_eta t (enable t) v).
Definition set_out_cap v t : BridgeToken := ltac:(update_field token_eta t (out_cap t) v).
Definition set_out_amount v t : BridgeToken := ltac:(update_field token_eta t (out_amount t) v).
Definition set_in_cap v t : BridgeToken := ltac:(update_field token_eta t (in_cap t) v).
Definition set_in_amount v t : BridgeToken := ltac:(update_field token_eta t (in_amount t) v).

Inductive BridgeType := BridgeOut | BridgeIn.
Inductive ProposalStatus := Initiated | Approved | Rejected.

Record MaterializeCall := mkMaterializeCall {
  bridge_token_id : CurrencyId; to : AccountId; amount : Balance }.
#[global] Instance MaterializeCall_eq_dec : EqDecision MaterializeCall.
Proof. solve_decision. Defined.
#[global] Instance MaterializeCall_countable : Countable MaterializeCall.
Proof.
  apply (inj_countable' (fun c => (bridge_token_id c, to c, amount c))
           (fun '(i, t, a) => mkMaterializeCall i t a)). by intros [].
Defined.
#[global] Instance ProposalStatus_eq_dec : EqDecision ProposalStatus.
Proof. solve_decision. Defined.

Record Proposal := mkProposal {
  votes_for : list AccountId;
  votes_against : list AccountId;
  status : ProposalStatus;
  expiry : BlockNumber;
}.
Definition Proposal_default : Proposal := mkProposal [] [] Initiated 0.

(** [votes_against.len() as u32 + threshold] panics beyond [u32]. *)
Definition try_to_complete (threshold total : Z) (p : Proposal) : Res (ProposalStatus * Proposal) :=
  if Z.of_nat (length (votes_for p)) >=? threshold then
    Ok (Approved, mkProposal (votes_for p) (votes_against p) Approved (expiry p))
  else
    rejected ← (if total >=? threshold then
                  n ← or_panic (checked_add_to u32_max
                                  (Z.of_nat (length (votes_against p))) threshold);
                  Ok (n >? total)
                else Ok false);
    if rejected : bool then
      Ok (Rejected, mkProposal (votes_for p) (votes_against p) Rejected (expiry p))
    else Ok (Initiated, p).

Definition is_complete (p : Proposal) : bool := negb (bool_decide (status p = Initiated)).
Definition is_expired (now : BlockNumber) (p : Proposal) : bool := expiry p <=? now.
Definition can_be_cleaned_up (now : BlockNumber) (p : Proposal) : bool := is_expired now p.
Definition has_voted (who : AccountId) (p : Proposal) : bool :=
  bool_decide (who ∈ votes_for p) || bool_decide (who ∈ votes_against p).

(** ** The pallet *)

Record Config := mkConfig {
  UpdateTokenOrigin : RuntimeOrigin -> bool;
  UpdateChainOrigin : RuntimeOrigin -> bool;
  CapOrigin : RuntimeOrigin -> bool;
  RootOperatorAccountId : AccountId;
  GiftAccount : AccountId;
  GiftConvert : Balance -> CurrencyId -> option Balance;  (* BalanceConversion *)
  NativeCurrencyId : CurrencyId;
  ExistentialDeposit : Balance;
  ThisChainId : ChainId;
  account_id : AccountId;      (* PalletId::get().into_account_truncating() *)
  ProposalLifetime : BlockNumber;
  ThresholdPercentage : Z;
}.

Inductive Event :=
| VoteThresholdUpdated (threshold : Z)
| ChainRegistered (chain : ChainId)
| ChainRemoved (chain : ChainId)
| BridgeTokenRegistered (asset : CurrencyId) (token : BridgeToken)
| BridgeTokenRemoved (asset token : CurrencyId)
| BridgeTokenFeeUpdated (token : CurrencyId) (fee : Balance)
| BridgeTokenStatusUpdated (token : CurrencyId) (enabled : bool)
| BridgeTokenCapUpdated (token : CurrencyId) (t : BridgeType) (cap : Balance)
| BridgeTokenAccumulatedValueCleaned (token : CurrencyId) (t : BridgeType)
| TeleportBurned (who : AccountId) (dest : ChainId) (nonce : ChainNonce) (token : CurrencyId)
    (to : TeleAccount) (amount fee : Balance)
| MaterializeInitialized (who : AccountId) (src : ChainId) (nonce : ChainNonce)
    (call : MaterializeCall)
| MaterializeMinted (src : ChainId) (nonce : ChainNonce) (call : MaterializeCall)
| MaterializeVoteFor (src : ChainId) (nonce : ChainNonce) (who : AccountId)
    (call : MaterializeCall)
| MaterializeVoteAgainst (src : ChainId) (nonce : ChainNonce) (who : AccountId)
    (call : MaterializeCall)
| ProposalApproved (src : ChainId) (nonce : ChainNonce)
| ProposalRejected (src : ChainId) (nonce : ChainNonce).

Abbreviation Registry := (list BridgeInterval) (only parsing).
Abbreviation VoteKey := (ChainId * (ChainNonce * MaterializeCall))%type.

Record State (L : Type) := mkState {
  VoteThreshold : Z;
  ChainNonces : gmap ChainId ChainNonce;
  BridgeRegistry : gmap ChainId Registry;
  BridgeTokens : gmap CurrencyId BridgeToken;
  AssetIds : gmap CurrencyId CurrencyId;
  ProposalVotes : gmap VoteKey Proposal;
  RelayMembers : list AccountId;
  assets : L;
  block_number : BlockNumber;
  events : list Event;
}.
Arguments mkState {L}.
Arguments VoteThreshold {L}.
Arguments ChainNonces {L}.
Arguments BridgeRegistry {L}.
Arguments BridgeTokens {L}.
Arguments AssetIds {L}.
Arguments ProposalVotes {L}.
Arguments RelayMembers {L}.
Arguments assets {L}.
Arguments block_number {L}.
Arguments events {L}.

Definition state_eta {L} (s : State L) : State L :=
  mkState (VoteThreshold s) (ChainNonces s) (BridgeRegistry s) (BridgeTokens s) (AssetIds s)
    (ProposalVotes s) (RelayMembers s) (assets s) (block_number s) (events s).

Section setters.
Context {L : Type}.
Implicit Type s : State L.
Definition set_VoteThreshold v s : State L :=
  ltac:(update_field (@state_eta L) s (VoteThreshold s) v).
Definition set_ChainNonces v s : State L := ltac:(update_field (@state_eta L) s (ChainNonces s) v).
Definition set_BridgeRegistry v s : State L :=
  ltac:(update_field (@state_eta L) s (BridgeRegistry s) v).
Definition set_BridgeTokens v s : State L :=
  ltac:(update_field (@state_eta L) s (BridgeTokens s) v).
Definition set_AssetIds v s : State L := ltac:(update_field (@state_eta L) s (AssetIds s) v).
Definition set_ProposalVotes v s : State L :=
  ltac:(update_field (@state_eta L) s (ProposalVotes s) v).
Definition set_RelayMembers v s : State L :=
  ltac:(update_field (@state_eta L) s (RelayMembers s) v).
Definition set_assets v s : State L := ltac:(update_field (@state_eta L) s (assets s) v).
Definition set_block_number v s : State L :=
  ltac:(update_field (@state_eta L) s (block_number s) v).
Definition push_event (e : Event) s : State L :=
  ltac:(update_field (@state_eta L) s (events s) (events s ++ [e])).
End setters.

(** ** Intervals of nonces *)

Definition in_interval (nonce : ChainNonce) (r : BridgeInterval) : bool :=
  (nonce >=? r.1) && (nonce <=? r.2).

(** Extends an interval that ends before or starts after [nonce]; both arms of the source's
    [match] compute a neighbour of [nonce], which panics at the ends of [u64]. *)
Definition extend (nonce : ChainNonce) (x : BridgeInterval) : Res BridgeInterval :=
  next ← or_panic (checked_add_to u64_max nonce 1);
  if x.1 =? next then Ok (nonce, x.2)
  else
    prev ← or_panic (checked_sub nonce 1);
    if x.2 =? prev then Ok (x.1, nonce) else Ok x.

Definition by_start (a b : BridgeInterval) : Prop := a.1 <= b.1.
#[global] Instance by_start_dec : RelDecision by_start.
Proof. intros a b. unfold by_start. apply _. Defined.
(** [sort_unstable_by(|a, b| a.0.cmp(&b.0))] *)
Definition sort_intervals (registry : Registry) : Registry := merge_sort by_start registry.

(** One step of the loop; [merged] is kept newest first. *)
Definition merge_step (merged : Registry) (r : BridgeInterval) : Registry :=
  match merged with
  | [] => [r]
  | last_merged :: rest =>
      if r.1 >? last_merged.2 then r :: last_merged :: rest
      else (last_merged.1, Z.max r.2 last_merged.2) :: rest
  end.
Definition merge_overlapping_intervals (registry : Registry) : Registry :=
  reverse (foldl merge_step [] (sort_intervals registry)).

(** What [update_bridge_registry] does to the intervals of a chain. *)
Definition record_nonce (nonce : ChainNonce) (registry : Registry) : Res Registry :=
  registry ← fold_res (fun acc x => x' ← extend nonce x; Ok (acc ++ [x'])) registry [];
  let registry := merge_overlapping_intervals registry in
  let registry := if existsb (in_interval nonce) registry then registry
                  else registry ++ [(nonce, nonce)] in
  Ok (sort_intervals registry).

Section pallet.
Context {SA : SpArithmetic} {L : Type} {FU : Fungibles L}.
Variable T : Config.

Abbreviation St := (State L).
Abbreviation Run := (M St DispatchError).

Definition deposit_event (e : Event) : Run unit := modify (push_event e).
Definition on_assets (f : L -> Res L) : Run unit := fun s =>
  match f (assets s) with
  | Ok l => Ok (tt, set_assets l s) | Err e => Err e | Panic => Panic
  end.

(** [ensure_signed_or_root] *)
Definition ensure_relay_member (s : St) (origin : RuntimeOrigin) : Res AccountId :=
  match origin with
  | Root => Ok (RootOperatorAccountId T)
  | Signed who =>
      _ ← ensure (bool_decide (who ∈ RelayMembers s)) (Bridge OriginNoPermission); Ok who
  | Unsigned => Err (Bridge OriginNoPermission)
  end.

Definition chain_registered (s : St) (chain_id : ChainId) : bool :=
  bool_decide (is_Some (ChainNonces s !! chain_id)).
Definition ensure_chain_registered (chain_id : ChainId) (s : St) : Res unit :=
  ensure (chain_registered s chain_id) (Bridge ChainIdNotRegistered).

Definition has_bridged (s : St) (chain_id : ChainId) (chain_nonce : ChainNonce) : bool :=
  match BridgeRegistry s !! chain_id with
  | None => false
  | Some registry => existsb (in_interval chain_nonce) registry
  end.
Definition ensure_chain_nonce_valid (chain_id : ChainId) (chain_nonce : ChainNonce) (s : St)
    : Res unit :=
  ensure (negb (has_bridged s chain_id chain_nonce)) (Bridge ProposalAlreadyComplete).

Definition ensure_amount_valid (amount : Balance) : Res unit :=
  ensure (amount >? 0) (Bridge BridgingAmountTooLow).
Definition ensure_bridge_token_registered (bridge_token_id : CurrencyId) (s : St) : Res unit :=
  ensure (bool_decide (is_Some (AssetIds s !! bridge_token_id))) (Bridge BridgeTokenNotRegistered).

Definition asset_id (s : St) (bridge_token_id : CurrencyId) : CurrencyId :=
  default 0 (AssetIds s !! bridge_token_id).
Definition bridge_token (s : St) (asset_id : CurrencyId) : BridgeToken :=
  default BridgeToken_default (BridgeTokens s !! asset_id).

Definition get_members_count (s : St) : Z := Z.of_nat (length (RelayMembers s)).

Definition ensure_valid_threshold (threshold total : Z) : Res unit :=
  ensure ((permill_from_rational threshold total >=?
             permill_from_percent (ThresholdPercentage T)) &&
          (threshold >? 0) && (threshold <=? total)) (Bridge InvalidVoteThreshold).

Definition ensure_under_bridge_cap (token : BridgeToken) (amount : Balance) (t : BridgeType)
    : Res Balance :=
  match t with
  | BridgeOut =>
      new_out_amount ← ok_or (checked_add (out_amount token) amount) (Arithmetic Overflow);
      _ ← ensure (new_out_amount <=? out_cap token) (Bridge BridgeOutCapExceeded);
      Ok new_out_amount
  | BridgeIn =>
      new_in_amount ← ok_or (checked_add (in_amount token) amount) (Arithmetic Overflow);
      _ ← ensure (new_in_amount <=? in_cap token) (Bridge BridgeInCapExceeded);
      Ok new_in_amount
  end.

Definition materialize_allowed (token_id : CurrencyId) (amount : Balance) (s : St) : Res unit :=
  _ ← ensure_bridge_token_registered token_id s;
  let token := bridge_token s (asset_id s token_id) in
  _ ← ensure (enable token) (Bridge BridgeTokenDisabled);
  _ ← ensure_under_bridge_cap token amount BridgeIn;
  ensure_amount_valid amount.

Definition change_vote_threshold : Run unit :=
  s ← get;
  let new_threshold := permill_mul_ceil (permill_from_percent (ThresholdPercentage T))
                         (get_members_count s) in
  _ ← lift (ensure_valid_threshold new_threshold (get_members_count s));
  _ ← modify (set_VoteThreshold new_threshold);
  deposit_event (VoteThresholdUpdated new_threshold).

Definition bump_nonce (chain_id : ChainId) : Run ChainNonce :=
  s ← get;
  nonce ← lift (or_panic (checked_add_to u64_max (default 0 (ChainNonces s !! chain_id)) 1));
  _ ← modify (set_ChainNonces (<[chain_id := nonce]> (ChainNonces s)));
  mret nonce.

Definition update_bridge_registry (chain_id : ChainId) (nonce : ChainNonce) : Run unit :=
  s ← get;
  match BridgeRegistry s !! chain_id with
  | None => mret tt
  | Some registry =>
      registry ← lift (record_nonce nonce registry);
      modify (set_BridgeRegistry (<[chain_id := registry]> (BridgeRegistry s)))
  end.

Definition insert_token (asset : CurrencyId) (token : BridgeToken) : Run unit :=
  modify (fun s => set_BridgeTokens (<[asset := token]> (BridgeTokens s)) s).

Definition update_bridge_token_cap (asset : CurrencyId) (amount : Balance) (t : BridgeType)
    : Run unit :=
  s ← get;
  let token := bridge_token s asset in
  new_amount ← lift (ensure_under_bridge_cap token amount t);
  insert_token asset (match t with
                      | BridgeOut => set_out_amount new_amount token
                      | BridgeIn => set_in_amount new_amount token
                      end).

(** [op] changes the token and deposits an event *)
Definition try_mutate_bridge_token (token_id : CurrencyId) (op : BridgeToken -> BridgeToken)
    (e : Event) : Run unit :=
  _ ← reads (ensure_bridge_token_registered token_id);
  s ← get;
  let asset := asset_id s token_id in
  let token := bridge_token s asset in
  _ ← deposit_event e;
  insert_token asset (op token).

Definition teleport_internal (ori_address : AccountId) (dest_id : ChainId)
    (token_id : CurrencyId) (dst_address : TeleAccount) (amount fee : Balance) : Run unit :=
  nonce ← bump_nonce dest_id;
  deposit_event (TeleportBurned ori_address dest_id nonce token_id dst_address amount fee).

Definition grant_incentive_bonus (who : AccountId) (asset : CurrencyId) (amount : Balance)
    : Run unit :=
  s ← get;
  let gift_account := GiftAccount T in
  let native_currency_id := NativeCurrencyId T in
  let gift_amount := default 0 (GiftConvert T amount asset) in
  let beneficiary_native_balance := reducible_balance (assets s) native_currency_id who true in
  let gift_balance := reducible_balance (assets s) native_currency_id gift_account false in
  if negb (gift_amount =? 0) && (gift_balance >=? gift_amount)
     && (beneficiary_native_balance <? gift_amount) then
    sum ← lift (or_panic (checked_add (ExistentialDeposit T) gift_amount));
    diff ← lift (or_panic (checked_sub sum beneficiary_native_balance));
    on_assets (transfer native_currency_id gift_account who diff false)
  else mret tt.

Definition execute_materialize (src_id : ChainId) (src_nonce : ChainNonce)
    (call : MaterializeCall) : Run unit :=
  _ ← reads (ensure_chain_registered src_id);
  _ ← reads (ensure_bridge_token_registered (bridge_token_id call));
  s ← get;
  let asset := asset_id s (bridge_token_id call) in
  _ ← update_bridge_token_cap asset (amount call) BridgeIn;
  _ ← deposit_event (ProposalApproved src_id src_nonce);
  s ← get;
  _ ← (if external (bridge_token s asset)
       then on_assets (mint_into asset (to call) (amount call))
       else on_assets (transfer asset (account_id T) (to call) (amount call) true));
  _ ← grant_incentive_bonus (to call) asset (amount call);
  _ ← update_bridge_registry src_id src_nonce;
  deposit_event (MaterializeMinted src_id src_nonce call).

Definition cancel_materialize (src_id : ChainId) (src_nonce : ChainNonce) : Run unit :=
  _ ← update_bridge_registry src_id src_nonce;
  deposit_event (ProposalRejected src_id src_nonce).

Definition insert_votes (k : VoteKey) (p : Proposal) : Run unit :=
  modify (fun s => set_ProposalVotes (<[k := p]> (ProposalVotes s)) s).

Definition resolve_proposal (src_id : ChainId) (src_nonce : ChainNonce) (call : MaterializeCall)
    : Run unit :=
  s ← get;
  match ProposalVotes s !! (src_id, (src_nonce, call)) with
  | None => lift (Err (Bridge ProposalDoesNotExist))
  | Some proposal =>
      let now := block_number s in
      _ ← lift (ensure (negb (is_complete proposal)) (Bridge ProposalAlreadyComplete));
      _ ← lift (ensure (negb (is_expired now proposal)) (Bridge ProposalExpired));
      '(st, proposal) ← lift (try_to_complete (VoteThreshold s) (get_members_count s) proposal);
      _ ← insert_votes (src_id, (src_nonce, call)) proposal;
      match st with
      | Approved => execute_materialize src_id src_nonce call
      | Rejected => cancel_materialize src_id src_nonce
      | Initiated => mret tt
      end
  end.

(** ** Extrinsics *)

Definition register_chain (origin : RuntimeOrigin) (chain_id : ChainId) : Run unit :=
  _ ← lift (ensure_origin (UpdateChainOrigin T) origin);
  s ← get;
  _ ← lift (ensure (negb (chain_id =? ThisChainId T) && negb (chain_registered s chain_id))
              (Bridge ChainIdAlreadyRegistered));
  _ ← modify (fun s => set_ChainNonces (<[chain_id := 0]> (ChainNonces s)) s);
  _ ← modify (fun s => set_BridgeRegistry (<[chain_id := []]> (BridgeRegistry s)) s);
  deposit_event (ChainRegistered chain_id).

Definition unregister_chain (origin : RuntimeOrigin) (chain_id : ChainId) : Run unit :=
  _ ← lift (ensure_origin (UpdateChainOrigin T) origin);
  _ ← reads (ensure_chain_registered chain_id);
  _ ← modify (fun s => set_ChainNonces (delete chain_id (ChainNonces s)) s);
  _ ← modify (fun s => set_BridgeRegistry (delete chain_id (BridgeRegistry s)) s);
  deposit_event (ChainRemoved chain_id).

Definition register_bridge_token (origin : RuntimeOrigin) (asset : CurrencyId)
    (token : BridgeToken) : Run unit :=
  _ ← lift (ensure_origin (UpdateTokenOrigin T) origin);
  s ← get;
  _ ← lift (ensure (bool_decide (BridgeTokens s !! asset = None) &&
                    bool_decide (AssetIds s !! id token = None))
              (Bridge BridgeTokenAlreadyRegistered));
  _ ← insert_token asset token;
  _ ← modify (fun s => set_AssetIds (<[id token := asset]> (AssetIds s)) s);
  deposit_event (BridgeTokenRegistered asset token).

Definition unregister_bridge_token (origin : RuntimeOrigin) (token_id : CurrencyId) : Run unit :=
  _ ← lift (ensure_origin (UpdateTokenOrigin T) origin);
  _ ← reads (ensure_bridge_token_registered token_id);
  s ← get;
  let asset := asset_id s token_id in
  _ ← modify (fun s => set_BridgeTokens (delete asset (BridgeTokens s)) s);
  _ ← modify (fun s => set_AssetIds (delete token_id (AssetIds s)) s);
  deposit_event (BridgeTokenRemoved asset token_id).

Definition set_bridge_token_fee (origin : RuntimeOrigin) (token_id : CurrencyId)
    (new_fee : Balance) : Run unit :=
  _ ← lift (ensure_origin (UpdateTokenOrigin T) origin);
  try_mutate_bridge_token token_id (set_fee new_fee) (BridgeTokenFeeUpdated token_id new_fee).

Definition set_bridge_token_status (origin : RuntimeOrigin) (token_id : CurrencyId)
    (enabled : bool) : Run unit :=
  _ ← lift (ensure_origin (UpdateTokenOrigin T) origin);
  try_mutate_bridge_token token_id (set_enable enabled)
    (BridgeTokenStatusUpdated token_id enabled).

Definition set_bridge_token_cap (origin : RuntimeOrigin) (token_id : CurrencyId)
    (t : BridgeType) (new_cap : Balance) : Run unit :=
  _ ← lift (ensure_origin (UpdateTokenOrigin T) origin);
  try_mutate_bridge_token token_id
    (match t with BridgeOut => set_out_cap new_cap | BridgeIn => set_in_cap new_cap end)
    (BridgeTokenCapUpdated token_id t new_cap).

Definition clean_cap_accumulated_value (origin : RuntimeOrigin) (token_id : CurrencyId)
    (t : BridgeType) : Run unit :=
  _ ← lift (ensure_origin (CapOrigin T) origin);
  try_mutate_bridge_token token_id
    (match t with BridgeIn => set_in_amount 0 | BridgeOut => set_out_amount 0 end)
    (BridgeTokenAccumulatedValueCleaned token_id t).

Definition teleport (origin : RuntimeOrigin) (dest_id : ChainId) (token_id : CurrencyId)
    (to : TeleAccount) (amount : Balance) : Run unit :=
  who ← lift (ensure_signed origin);
  _ ← reads (ensure_chain_registered dest_id);
  _ ← reads (ensure_bridge_token_registered token_id);
  _ ← lift (ensure_amount_valid amount);
  s ← get;
  let asset := asset_id s token_id in
  let token := bridge_token s asset in
  _ ← lift (ensure (enable token) (Bridge BridgeTokenDisabled));
  _ ← update_bridge_token_cap asset amount BridgeOut;
  _ ← (if external token then
         _ ← on_assets (burn_from asset who amount);
         on_assets (mint_into asset (account_id T) (fee token))
       else on_assets (transfer asset who (account_id T) amount false));
  actual_amount ← lift (ok_or (checked_sub amount (fee token)) (Bridge BridgingAmountTooLow));
  teleport_internal who dest_id token_id to actual_amount (fee token).

Definition materialize (origin : RuntimeOrigin) (src_id : ChainId) (src_nonce : ChainNonce)
    (token_id : CurrencyId) (to : AccountId) (amount : Balance) (favour : bool) : Run unit :=
  who ← reads (fun s => ensure_relay_member s origin);
  _ ← reads (ensure_chain_registered src_id);
  _ ← reads (ensure_chain_nonce_valid src_id src_nonce);
  _ ← reads (materialize_allowed token_id amount);
  let call := mkMaterializeCall token_id to amount in
  s ← get;
  let now := block_number s in
  proposal ←
    (match ProposalVotes s !! (src_id, (src_nonce, call)) with
     | Some p => mret p
     | None =>
         _ ← deposit_event (MaterializeInitialized who src_id src_nonce call);
         expiry ← lift (or_panic (checked_add_to u32_max now (ProposalLifetime T)));
         mret (mkProposal [] [] Initiated expiry)
     end);
  _ ← lift (ensure (negb (is_complete proposal)) (Bridge ProposalAlreadyComplete));
  _ ← lift (ensure (negb (is_expired now proposal)) (Bridge ProposalExpired));
  _ ← lift (ensure (negb (has_voted who proposal)) (Bridge MemberAlreadyVoted));
  proposal ←
    (if favour then
       _ ← deposit_event (MaterializeVoteFor src_id src_nonce who call);
       mret (mkProposal (votes_for proposal ++ [who]) (votes_against proposal) (status proposal)
               (expiry proposal))
     else
       _ ← deposit_event (MaterializeVoteAgainst src_id src_nonce who call);
       mret (mkProposal (votes_for proposal) (votes_against proposal ++ [who]) (status proposal)
               (expiry proposal)));
  _ ← insert_votes (src_id, (src_nonce, call)) proposal;
  resolve_proposal src_id src_nonce call.

(** [Hooks::on_initialize]: expired proposals are dropped *)
Definition on_initialize (n : BlockNumber) (s : St) : St :=
  set_ProposalVotes (filter (fun kp => can_be_cleaned_up n kp.2 = false) (ProposalVotes s)) s.

Inductive Call :=
| CallRegisterChain (chain : ChainId)
| CallUnregisterChain (chain : ChainId)
| CallRegisterBridgeToken (asset : CurrencyId) (token : BridgeToken)
| CallUnregisterBridgeToken (token : CurrencyId)
| CallSetBridgeTokenFee (token : CurrencyId) (fee : Balance)
| CallSetBridgeTokenStatus (token : CurrencyId) (enabled : bool)
| CallSetBridgeTokenCap (token : CurrencyId) (t : BridgeType) (cap : Balance)
| CallCleanCapAccumulatedValue (token : CurrencyId) (t : BridgeType)
| CallTeleport (dest : ChainId) (token : CurrencyId) (to : TeleAccount) (amount : Balance)
| CallMaterialize (src : ChainId) (nonce : ChainNonce) (token : CurrencyId) (to : AccountId)
    (amount : Balance) (favour : bool).

Definition dispatch (origin : RuntimeOrigin) (c : Call) : Run unit :=
  match c with
  | CallRegisterChain chain => register_chain origin chain
  | CallUnregisterChain chain => unregister_chain origin chain
  | CallRegisterBridgeToken asset token => register_bridge_token origin asset token
  | CallUnregisterBridgeToken token => unregister_bridge_token origin token
  | CallSetBridgeTokenFee token fee => set_bridge_token_fee origin token fee
  | CallSetBridgeTokenStatus token enabled => set_bridge_token_status origin token enabled
  | CallSetBridgeTokenCap token t cap => set_bridge_token_cap origin token t cap
  | CallCleanCapAccumulatedValue token t => clean_cap_accumulated_value origin token t
  | CallTeleport dest token to amount => teleport origin dest token to amount
  | CallMaterialize src nonce token to amount favour =>
      materialize origin src nonce token to amount favour
  end.
End pallet.
End Bridge.
