(* ===== verification/BridgeProps.v ===== *)
(** * Properties of the bridge

    The intervals of the registry implement a set of nonces; no transfer of a chain is
    materialized twice; a transfer is materialized only with the votes of as many relayers as
    the threshold asks for and within the token's cap; what teleporting and materializing do
    to the ledger; the vote threshold follows the number of relayers. *)

From S2P Require Import Prelude Arith Frame Ledger Bridge.
From stdpp Require Import sorting list.
#[local] Open Scope Z_scope.
Import Bridge BridgeErrors.

(** ** Registries as sets of nonces *)

Definition covers (l : list (Z * Z)) (n : Z) : Prop := Exists (fun r => r.1 <= n <= r.2) l.

(** Intervals in order, apart from each other, with no two that could be one. *)
Record canonical (l : list (Z * Z)) : Prop := {
  can_valid : Forall (fun r => r.1 <= r.2) l;
  can_sorted : StronglySorted (fun a b => a.2 < b.1) l;
  can_gap : forall x y, x ∈ l -> y ∈ l -> x.2 + 1 <> y.1;
}.

Lemma covers_existsb l n : existsb (in_interval n) l = true <-> covers l n.
Proof.
  unfold covers, in_interval. rewrite existsb_exists, Exists_exists.
  split; intros (r & Hr & H); exists r; (split; [by apply list_elem_of_In |]);
    rewrite andb_true_iff, Z.geb_leb, !Z.leb_le in *; lia.
Qed.

Lemma covers_perm l l' n : l ≡ₚ l' -> covers l n <-> covers l' n.
Proof. intros E. unfold covers. by rewrite E. Qed.

(** Two intervals that do not meet, in either order *)
Definition apart (a b : Z * Z) : Prop := a.2 < b.1 \/ b.2 < a.1.

Lemma apart_perm l l' : l ≡ₚ l' -> StronglySorted apart l -> StronglySorted apart l'.
Proof.
  induction 1 as [|x l l' E IH|x y l|l l' l'' _ IH1 _ IH2]; intros H; auto.
  - apply StronglySorted_cons in H as [Hx H]. apply StronglySorted_cons. split; [by rewrite <- E | auto].
  - rewrite !StronglySorted_cons, !Forall_cons in H |- *. destruct H as [[H1 H2] [H3 H4]].
    unfold apart in *. repeat split; try done. lia.
Qed.

Lemma sort_intervals_perm l : sort_intervals l ≡ₚ l.
Proof. apply merge_sort_Permutation. Qed.

Lemma sort_intervals_sorted l : StronglySorted by_start (sort_intervals l).
Proof. apply StronglySorted_merge_sort; unfold by_start; red; intros; lia. Qed.

Lemma sorted_apart l :
  Forall (fun r => r.1 <= r.2) l -> StronglySorted by_start l -> StronglySorted apart l ->
  StronglySorted (fun a b => a.2 < b.1) l.
Proof.
  induction l as [|x l IH]; intros Hv Hs Ha; [constructor |].
  rewrite StronglySorted_cons in *. destruct Hs as [Hs1 Hs2], Ha as [Ha1 Ha2].
  apply Forall_cons in Hv as [Hv1 Hv2]. split; [| auto].
  rewrite !Forall_forall in *. intros y Hy. specialize (Hs1 y Hy). specialize (Ha1 y Hy).
  specialize (Hv2 y Hy). unfold by_start, apart in *. lia.
Qed.

(** The loop that merges intervals: [acc] holds separate intervals, the last one first, covers
    what [src] covers and takes its bounds from the intervals of [src]. *)
Record merged_from (src acc : list (Z * Z)) : Prop := {
  mf_valid : Forall (fun r => r.1 <= r.2) acc;
  mf_apart : StronglySorted apart acc;
  mf_head : forall h t, acc = h :: t -> Forall (fun r => r.1 <= h.1 /\ r.2 <= h.2) t;
  mf_covers : forall n, covers acc n <-> covers src n;
  mf_bounds : forall x, x ∈ acc -> exists y z, y ∈ src /\ z ∈ src /\ x.1 = y.1 /\ x.2 = z.2;
}.

Lemma merge_step_from src acc r :
  merged_from src acc -> r.1 <= r.2 -> (forall h t, acc = h :: t -> h.1 <= r.1) ->
  merged_from (src ++ [r]) (merge_step acc r) /\
  (forall h t, merge_step acc r = h :: t -> h.1 <= r.1).
Proof.
  intros [Hv Ha Hh Hc Hb] Hr Hstart.
  assert (Hb' : forall x, x ∈ acc -> exists y z, y ∈ src ++ [r] /\ z ∈ src ++ [r] /\ x.1 = y.1 /\ x.2 = z.2).
  { intros x Hx. destruct (Hb x Hx) as (y & z & ? & ? & ? & ?). exists y, z.
    repeat split; try done; apply elem_of_app; auto. }
  assert (Hin : r ∈ src ++ [r]) by (apply elem_of_app; right; apply list_elem_of_singleton; done).
  assert (Hcr : forall n, covers (src ++ [r]) n <-> covers acc n \/ r.1 <= n <= r.2).
  { intros n. unfold covers. rewrite Exists_app, Exists_cons, Exists_nil. fold (covers src n).
    rewrite <- Hc. unfold covers. tauto. }
  destruct acc as [|h t]; simpl.
  - split; [| intros h t E; injection E as <- <-; lia]. constructor.
    + by constructor.
    + repeat constructor.
    + intros h t E. injection E as <- <-. constructor.
    + intros n. rewrite Hcr. unfold covers. rewrite Exists_cons, Exists_nil. tauto.
    + intros x Hx%list_elem_of_singleton. subst x. exists r, r. auto.
  - specialize (Hstart h t eq_refl). specialize (Hh h t eq_refl).
    apply Forall_cons in Hv as [Hvh Hvt]. apply StronglySorted_cons in Ha as [Hah Hat].
    rewrite Z.gtb_ltb. destruct (Z.ltb_spec h.2 r.1) as [Hlt|Hge].
    + split; [| intros h' t' E; injection E as <- <-; lia]. constructor.
      * by repeat constructor.
      * rewrite !StronglySorted_cons, !Forall_cons. repeat split; try done; [right; lia |].
        rewrite Forall_forall in *. intros y Hy. specialize (Hh y Hy). right. lia.
      * intros h' t' E. injection E as <- <-. apply Forall_cons. split; [lia |].
        rewrite Forall_forall in *. intros y Hy. specialize (Hh y Hy). lia.
      * intros n. rewrite Hcr. unfold covers. rewrite !Exists_cons. tauto.
      * intros x [->|Hx]%elem_of_cons; [exists r, r; auto | auto].
    + split; [| intros h' t' E; injection E as <- <-; simpl; lia]. constructor; simpl.
      * constructor; simpl; [lia | done].
      * rewrite StronglySorted_cons. split; [| done]. rewrite Forall_forall in *. intros y Hy.
        specialize (Hh y Hy). specialize (Hah y Hy). specialize (Hvt y Hy).
        unfold apart in *; simpl. right. lia.
      * intros h' t' E. injection E as <- <-; simpl. rewrite Forall_forall in *. intros y Hy.
        specialize (Hh y Hy). lia.
      * intros n. rewrite Hcr. unfold covers. rewrite !Exists_cons; simpl.
        split; [intros [|]; [| tauto] | intros [[|]|]; [| tauto |]]; try lia; left; lia.
      * intros x [->|Hx]%elem_of_cons; [| apply Hb'; by right].
        destruct (Hb' h) as (y & z & Hy & Hz & Ey & Ez); [by left |]. simpl.
        destruct (Z.max_spec r.2 h.2) as [[_ ->]|[_ ->]]; [exists y, z | exists y, r]; auto.
Qed.

Lemma merge_fold l : forall src acc,
  merged_from src acc -> StronglySorted by_start l -> Forall (fun r => r.1 <= r.2) l ->
  (forall h t, acc = h :: t -> Forall (by_start h) l) ->
  merged_from (src ++ l) (foldl merge_step acc l).
Proof.
  induction l as [|r l IH]; intros src acc Hm Hs Hv Hh; simpl; [by rewrite app_nil_r |].
  apply StronglySorted_cons in Hs as [Hr Hs]. apply Forall_cons in Hv as [Hv1 Hv2].
  destruct (merge_step_from src acc r Hm Hv1) as [Hm' Hstart].
  { intros h t E. specialize (Hh h t E). by apply Forall_cons in Hh as [? _]. }
  rewrite cons_middle, app_assoc. apply IH; try done.
  intros h t E. specialize (Hstart h t E). rewrite Forall_forall in *. intros y Hy.
  specialize (Hr y Hy). unfold by_start in *. lia.
Qed.

(** An interval with [nonce] added at its end or at its start, where it borders on it *)
Definition extended (nonce : Z) (x : Z * Z) : Z * Z :=
  if x.1 =? nonce + 1 then (nonce, x.2) else if x.2 =? nonce - 1 then (x.1, nonce) else x.

Lemma extend_Ok nonce x y : extend nonce x = Ok y -> y = extended nonce x.
Proof.
  unfold extend, extended. destruct x as [a b]. intros H. minv.
  match goal with H : checked_add_to _ _ _ = _ |- _ => apply checked_add_to_Some in H as [-> _] end.
  destruct (a =? nonce + 1); minv; [done |]. by destruct (b =? nonce - 1); minv.
Qed.

Lemma extend_total nonce x : 0 < nonce < u64_max -> is_ok (extend nonce x) = true.
Proof.
  intros Hn. unfold extend. rewrite checked_sub_ok by lia.
  rewrite (proj2 (checked_add_to_Some u64_max nonce 1 _)) by (split; [reflexivity | lia]).
  simpl. by destruct (x.1 =? nonce + 1), (x.2 =? nonce - 1).
Qed.

Lemma extend_all_Ok nonce l : forall acc r,
  fold_res (fun acc x => x' ← extend nonce x; Ok (acc ++ [x'])) l acc = Ok r ->
  r = acc ++ map (extended nonce) l.
Proof.
  induction l as [|x l IH]; intros acc r H; simpl in *; [minv; by rewrite app_nil_r |].
  apply result_bind_Ok in H as (acc' & (x' & ->%extend_Ok & [= <-])%result_bind_Ok & ->%IH).
  by rewrite <- app_assoc.
Qed.

Lemma extend_all_total nonce l : 0 < nonce < u64_max -> forall acc,
  is_ok (fold_res (fun acc x => x' ← extend nonce x; Ok (acc ++ [x'])) l acc) = true.
Proof.
  intros Hn. induction l as [|x l IH]; intros acc; simpl; [done |].
  pose proof (extend_total nonce x Hn) as Hx. destruct (extend nonce x); try done. apply IH.
Qed.

Section extended.
Context (nonce : Z) (l : list (Z * Z)) (Hl : canonical l).

Lemma extended_valid : Forall (fun r => r.1 <= r.2) (map (extended nonce) l).
Proof.
  apply Forall_map, (Forall_impl _ _ _ (can_valid _ Hl)). intros x Hx. unfold extended.
  destruct (Z.eqb_spec x.1 (nonce + 1)), (Z.eqb_spec x.2 (nonce - 1)); simpl; lia.
Qed.

Lemma extended_covers n :
  covers (map (extended nonce) l) n <->
  covers l n \/ (n = nonce /\ covers (map (extended nonce) l) n).
Proof.
  assert (Hext : forall x, x.1 <= x.2 -> forall n,
    (extended nonce x).1 <= n <= (extended nonce x).2 <->
    x.1 <= n <= x.2 \/ (n = nonce /\ (extended nonce x).1 <= n <= (extended nonce x).2)).
  { intros x Hx m. unfold extended.
    destruct (Z.eqb_spec x.1 (nonce + 1)), (Z.eqb_spec x.2 (nonce - 1)); simpl; lia. }
  pose proof (can_valid _ Hl) as Hv. rewrite Forall_forall in Hv.
  unfold covers. rewrite !Exists_exists. split.
  - intros (y & (x & -> & Hx)%list_elem_of_fmap & H). destruct (proj1 (Hext x (Hv x Hx) n) H); eauto.
    right. split; [tauto |]. exists (extended nonce x). split; [by apply list_elem_of_fmap_2 | done].
  - intros [(x & Hx & H) | [_ ?]]; [| done]. exists (extended nonce x).
    split; [by apply list_elem_of_fmap_2 |]. apply Hext; auto.
Qed.

(** The bounds are those of [l] that do not border on [nonce], or [nonce] itself. *)
Definition start_clear (x : Z * Z) : Prop :=
  x.1 = nonce \/ (x.1 <> nonce + 1 /\ exists y, y ∈ l /\ x.1 = y.1).
Definition end_clear (x : Z * Z) : Prop :=
  x.2 = nonce \/ (x.2 <> nonce - 1 /\ exists y, y ∈ l /\ x.2 = y.2).

Lemma clear_gap x y : end_clear x -> start_clear y -> x.2 + 1 <> y.1.
Proof.
  intros [Bx|(Bx & z & Hz & Ez)] [By|(By & w & Hw & Ew)]; try lia.
  pose proof (can_gap _ Hl z w Hz Hw). lia.
Qed.

Lemma extended_clear x : x ∈ map (extended nonce) l -> start_clear x /\ end_clear x.
Proof.
  unfold start_clear, end_clear.
  intros (y & -> & Hy)%list_elem_of_fmap. pose proof (can_valid _ Hl) as Hv.
  rewrite Forall_forall in Hv. specialize (Hv y Hy). unfold extended.
  destruct (Z.eqb_spec y.1 (nonce + 1)), (Z.eqb_spec y.2 (nonce - 1)); simpl;
    split; try (by left); right; (split; [lia | eauto]).
Qed.
End extended.

(** What merging makes of the extended intervals *)
Lemma merged_extended nonce l :
  canonical l ->
  merged_from (sort_intervals (map (extended nonce) l))
    (foldl merge_step [] (sort_intervals (map (extended nonce) l))).
Proof.
  intros Hl. apply (merge_fold _ []); try done; [| apply sort_intervals_sorted |].
  - constructor; try constructor; try done. by intros x ?%elem_of_nil.
  - rewrite sort_intervals_perm. by apply extended_valid.
Qed.

Lemma insert_apart nonce l :
  StronglySorted apart l -> ~ covers l nonce -> Forall (fun r => r.1 <= r.2) l ->
  StronglySorted apart ((nonce, nonce) :: l).
Proof.
  intros Ha Hc Hv. apply StronglySorted_cons. split; [| done]. rewrite Forall_forall in *.
  intros y Hy. specialize (Hv y Hy). unfold apart; simpl.
  destruct (decide (y.1 <= nonce <= y.2)); [| lia]. destruct Hc. unfold covers.
  apply Exists_exists. eauto.
Qed.

(** Separate valid intervals that do not border on each other are canonical once sorted. *)
Lemma canonical_sorted l :
  Forall (fun r => r.1 <= r.2) l -> StronglySorted apart l ->
  (forall x y, x ∈ l -> y ∈ l -> x.2 + 1 <> y.1) -> canonical (sort_intervals l).
Proof.
  intros Hv Ha Hg. pose proof (sort_intervals_perm l) as E. constructor.
  - by rewrite E.
  - apply sorted_apart; [by rewrite E | apply sort_intervals_sorted |].
    by apply (apart_perm l); [symmetry |].
  - intros x y Hx Hy. rewrite E in Hx, Hy. auto.
Qed.

(** The registry after the merge, with the nonce put in where nothing covers it *)
Lemma merged_clear nonce l x :
  canonical l -> x ∈ foldl merge_step [] (sort_intervals (map (extended nonce) l)) ->
  start_clear nonce l x /\ end_clear nonce l x.
Proof.
  intros Hl Hx. destruct (mf_bounds _ _ (merged_extended nonce l Hl) x Hx) as (y & z & Hy & Hz & E1 & E2).
  rewrite sort_intervals_perm in Hy, Hz. unfold start_clear, end_clear. rewrite E1, E2.
  split; [exact (proj1 (extended_clear nonce l Hl y Hy)) | exact (proj2 (extended_clear nonce l Hl z Hz))].
Qed.

Lemma add_nonce_cases nonce r m :
  r ≡ₚ m ->
  let r' := if existsb (in_interval nonce) r then r else r ++ [(nonce, nonce)] in
  (r' ≡ₚ m /\ covers m nonce) \/ (r' ≡ₚ (nonce, nonce) :: m /\ ~ covers m nonce).
Proof.
  intros Er r'. unfold r'. destruct (existsb (in_interval nonce) r) eqn:He.
  - left. split; [done |]. apply covers_existsb in He. by rewrite covers_perm in He by exact Er.
  - right. split; [rewrite Er; symmetry; apply Permutation_cons_append |].
    rewrite <- (covers_perm _ _ _ Er), <- covers_existsb. congruence.
Qed.

Lemma record_nonce_Ok nonce l l' :
  canonical l -> record_nonce nonce l = Ok l' ->
  canonical l' /\ forall n, covers l' n <-> n = nonce \/ covers l n.
Proof.
  intros Hl H. unfold record_nonce in H. minv.
  match goal with H : fold_res _ _ _ = _ |- _ => apply extend_all_Ok in H; subst; clear H end.
  simpl. unfold merge_overlapping_intervals.
  pose proof (merged_extended nonce l Hl) as [Hv Ha _ Hc _].
  pose proof (fun x => merged_clear nonce l x Hl) as Hclear.
  set (m := foldl merge_step [] _) in *.
  assert (Hc' : forall n, covers m n <-> covers l n \/ (n = nonce /\ covers m n)).
  { intros n. rewrite Hc, (covers_perm _ _ n (sort_intervals_perm _)). by apply extended_covers. }
  pose proof (add_nonce_cases nonce (reverse m) m (reverse_Permutation m)) as Hr'. simpl in Hr'.
  set (r' := if existsb _ _ then _ else _) in *.
  assert (Hm : forall x, x ∈ r' -> start_clear nonce l x /\ end_clear nonce l x).
  { intros x Hx. destruct Hr' as [[E _]|[E _]]; rewrite E in Hx; [auto |].
    apply elem_of_cons in Hx as [->|Hx]; [by split; left | auto]. }
  split; [apply canonical_sorted |].
  - destruct Hr' as [[-> _]|[-> _]]; [done |]. constructor; [simpl; lia | done].
  - destruct Hr' as [[E _]|[E Hnc]]; (eapply apart_perm; [symmetry; exact E |]);
      [done | by apply insert_apart].
  - intros x y Hx Hy. apply (clear_gap nonce l Hl); by apply Hm.
  - intros n. rewrite (covers_perm _ _ n (sort_intervals_perm r')).
    destruct Hr' as [[E Hcn]|[E Hcn]]; rewrite (covers_perm _ _ n E).
    + rewrite Hc'. split; [tauto |]. intros [->|?]; [| tauto]. right. done.
    + unfold covers at 1. rewrite Exists_cons. simpl. fold (covers m n). rewrite Hc'.
      split; [intros [?|[?|[-> ?]]]; [left; lia | tauto | tauto] |].
      intros [->|?]; [left; lia | tauto].
Qed.

(** C19: The intervals that the bridge keeps for a chain implement a set of nonces.  From a
    registry in canonical form (valid intervals, in order, separate, no two of which border on
    each other) recording a nonce that is neither 0 nor the largest [u64] succeeds, gives a
    registry in canonical form again, and the nonces it covers, those for which the lookup of
    [has_bridged] answers yes, are the nonces covered before and the new one. *)
Theorem registry_refines_set nonce l :
  canonical l -> 0 < nonce < u64_max ->
  exists l', record_nonce nonce l = Ok l' /\ canonical l' /\
    forall n, existsb (in_interval n) l' = true <-> n = nonce \/ existsb (in_interval n) l = true.
Proof.
  intros Hl Hn. destruct (record_nonce nonce l) as [l'|e|] eqn:H.
  - exists l'. destruct (record_nonce_Ok nonce l l' Hl H) as [Hc Hcov]. split; [done |]. split; [done |].
    intros n. rewrite !covers_existsb. apply Hcov.
  - unfold record_nonce in H. pose proof (extend_all_total nonce l Hn []) as E.
    by destruct (fold_res _ _ _).
  - unfold record_nonce in H. pose proof (extend_all_total nonce l Hn []) as E.
    by destruct (fold_res _ _ _).
Qed.

Lemma canonical_nil : canonical [].
Proof. constructor; [constructor | constructor |]. by intros x y ?%elem_of_nil. Qed.

(** Recording 7 after 1, 3, 5 and 6 *)
Lemma registry_refines_set_witness :
  canonical [(1, 1); (3, 3); (5, 6)] /\ record_nonce 7 [(1, 1); (3, 3); (5, 6)] = Ok [(1, 1); (3, 3); (5, 7)] /\
  exists l', record_nonce 7 [(1, 1); (3, 3); (5, 6)] = Ok l' /\ canonical l' /\
    forall n, existsb (in_interval n) l' = true <->
              n = 7 \/ existsb (in_interval n) [(1, 1); (3, 3); (5, 6)] = true.
Proof.
  assert (Hc : canonical [(1, 1); (3, 3); (5, 6)]).
  { constructor; [repeat constructor; simpl; lia | repeat constructor; simpl; lia |].
    intros x y. rewrite !elem_of_cons, !elem_of_nil.
    intros [->|[->|[->|[]]]] [->|[->|[->|[]]]]; simpl; lia. }
  split; [exact Hc |]. split; [vm_compute; reflexivity |].
  apply (registry_refines_set 7 _ Hc). by_eval.
Defined.

(** ** Nothing is materialized twice *)

(** How often a transfer has been materialized, counted from the last removal of its chain. *)
Definition mint_count (c n : Z) (k : Z) (e : Event) : Z :=
  match e with
  | MaterializeMinted c' n' _ => if decide (c' = c /\ n' = n) then k + 1 else k
  | ChainRemoved c' => if decide (c' = c) then 0 else k
  | _ => k
  end.
Definition mints (c n : Z) (es : list Event) : Z := foldl (mint_count c n) 0 es.

Lemma mints_snoc c n es e : mints c n (es ++ [e]) = mint_count c n (mints c n es) e.
Proof. unfold mints. by rewrite foldl_app. Qed.

Section bridge.
Context {SA : SpArithmetic} {L : Type} {FU : Fungibles L} (T : Config).
Implicit Types s : State L.

Record registry_inv s : Prop := {
  ri_dom : forall c, is_Some (ChainNonces s !! c) <-> is_Some (BridgeRegistry s !! c);
  ri_canonical : forall c l, BridgeRegistry s !! c = Some l -> canonical l;
  ri_once : forall c n, mints c n (events s) = 0 \/
                        (mints c n (events s) = 1 /\ has_bridged s c n = true);
}.

(** [s'] has the chains, registries and materializations of [s]. *)
Record quiet s s' : Prop := {
  qu_chains : forall c, is_Some (ChainNonces s' !! c) <-> is_Some (ChainNonces s !! c);
  qu_registry : BridgeRegistry s' = BridgeRegistry s;
  qu_mints : forall c n, mints c n (events s') = mints c n (events s);
}.

Lemma quiet_refl s : quiet s s.
Proof. done. Qed.

Lemma quiet_inv s s' : registry_inv s -> quiet s s' -> registry_inv s'.
Proof.
  intros [Hd Hc Ho] [Qc Qr Qm]. constructor.
  - intros c. by rewrite Qc, Qr.
  - intros c l. rewrite Qr. apply Hc.
  - intros c n. unfold has_bridged. rewrite Qm, Qr. apply Ho.
Qed.

(** Events other than those that [mints] counts, and writes to the other fields *)
Definition counted (e : Event) : bool :=
  match e with MaterializeMinted _ _ _ | ChainRemoved _ => true | _ => false end.

Lemma quiet_event s0 e : counted e = false -> preserves (quiet s0) (deposit_event (L := L) e).
Proof.
  intros He. apply preserves_modify. intros s [Qc Qr Qm]. constructor; try done. intros c n.
  simpl. rewrite mints_snoc, <- Qm. by destruct e.
Qed.

Lemma quiet_assets s0 f : preserves (quiet s0) (on_assets f).
Proof.
  intros s u s' Hq H. unfold on_assets in H. destruct (f (assets s)); minv.
  by destruct Hq.
Qed.

Lemma quiet_insert_token s0 a t : preserves (quiet s0) (insert_token (L := L) a t).
Proof. apply preserves_modify. by intros s []. Qed.
Lemma quiet_insert_votes s0 k p : preserves (quiet s0) (insert_votes (L := L) k p).
Proof. apply preserves_modify. by intros s []. Qed.

Ltac quiet_step := first
  [ by apply quiet_event | apply quiet_assets | apply quiet_insert_token | apply quiet_insert_votes
  | by apply preserves_modify; intros ? [] ].

Lemma quiet_cap s0 a amt t : preserves (quiet s0) (update_bridge_token_cap (L := L) a amt t).
Proof. unfold update_bridge_token_cap. preserve quiet_step. Qed.
Lemma quiet_bonus s0 w a amt : preserves (quiet s0) (grant_incentive_bonus T w a amt).
Proof. unfold grant_incentive_bonus. preserve quiet_step. Qed.
Lemma quiet_try_mutate s0 tok op e :
  counted e = false -> preserves (quiet s0) (try_mutate_bridge_token (L := L) tok op e).
Proof. intros He. unfold try_mutate_bridge_token. preserve quiet_step. Qed.

Lemma quiet_teleport_internal s0 who dest tok dst amt fee :
  is_Some (ChainNonces s0 !! dest) ->
  preserves (quiet s0) (teleport_internal (L := L) who dest tok dst amt fee).
Proof.
  intros Hd. unfold teleport_internal. apply preserves_bind; [| intros; by apply quiet_event].
  intros s u s' [Qc Qr Qm] H. unfold bump_nonce in H. minv. constructor; simpl; try done.
  intros c. rewrite <- Qc. destruct (decide (dest = c)) as [->|Hne].
  - rewrite lookup_insert_eq, Qc. split; [done | by eexists].
  - by rewrite lookup_insert_ne.
Qed.

Ltac quiet_op := first
  [ quiet_step | apply quiet_cap | apply quiet_bonus | by apply quiet_try_mutate
  | by apply quiet_teleport_internal ].

Lemma quiet_teleport s origin dest tok to amt s' :
  teleport T origin dest tok to amt s = Ok (tt, s') -> quiet s s'.
Proof.
  unfold teleport. intros (who & s1 & [_ ->]%lift_Ok & H)%M_bind_Ok.
  apply M_bind_Ok in H as (u & s1 & [Hc ->]%reads_Ok & H).
  apply ensure_Ok, bool_decide_eq_true in Hc. revert H. generalize (quiet_refl s).
  apply preserves_bind; [apply preserves_reads | intros]. preserve quiet_op.
Qed.

(** A chain with a transfer that has not been materialized *)
Definition fresh (c n : Z) s : Prop :=
  registry_inv s /\ mints c n (events s) = 0 /\ is_Some (ChainNonces s !! c).

Lemma fresh_quiet {A} c n (m : M (State L) DispatchError A) :
  (forall s0, preserves (quiet s0) m) -> preserves (fresh c n) m.
Proof.
  intros Hm s a s' (Hi & Hn & Hc) H. pose proof (Hm s s a s' (quiet_refl s) H) as Hq.
  split; [by eapply quiet_inv |]. destruct Hq as [Qc _ Qm]. by rewrite Qm, Qc.
Qed.

Lemma has_bridged_covers s c l n : BridgeRegistry s !! c = Some l -> has_bridged s c n = true <-> covers l n.
Proof. intros E. unfold has_bridged. rewrite E. apply covers_existsb. Qed.

(** Recording the nonce of a transfer *)
Lemma record_fresh c n s u s' :
  fresh c n s -> update_bridge_registry c n s = Ok (u, s') ->
  fresh c n s' /\ has_bridged s' c n = true.
Proof.
  intros ([Hd Hc Ho] & Hn & Hs) H. pose proof (proj1 (Hd c) Hs) as [l Hl].
  unfold update_bridge_registry in H. apply M_bind_Ok in H as (s1 & s3 & H1 & H).
  injection H1 as <- <-. rewrite Hl in H. apply M_bind_Ok in H as (l' & s2 & [Hr ->]%lift_Ok & H).
  injection H as <- <-. destruct (record_nonce_Ok n l l' (Hc c l Hl) Hr) as [Hcan Hcov].
  set (s' := set_BridgeRegistry _ _).
  assert (Hself : BridgeRegistry s' !! c = Some l') by apply lookup_insert_eq.
  assert (Hother : forall c', c <> c' -> BridgeRegistry s' !! c' = BridgeRegistry s !! c')
    by (intros; by apply lookup_insert_ne).
  split; [split; [constructor | done] |].
  - intros c'. destruct (decide (c = c')) as [<-|Hne]; [| by rewrite Hother].
    rewrite Hself. simpl. split; [done | by intros _].
  - intros c' k. destruct (decide (c = c')) as [<-|Hne]; [rewrite Hself; congruence | rewrite Hother by done; apply Hc].
  - intros c' n'. simpl. destruct (Ho c' n') as [?|[? Hb]]; [by left | right]. split; [done |].
    destruct (decide (c = c')) as [<-|Hne].
    + rewrite (has_bridged_covers s' c l' n' Hself), Hcov. right. by apply (has_bridged_covers s c l n' Hl).
    + unfold has_bridged. by rewrite Hother.
  - apply (has_bridged_covers s' c l' n Hself), Hcov. by left.
Qed.

(** A transfer whose nonce is recorded can be reported as materialized. *)
Lemma minted_inv c n call s :
  fresh c n s -> has_bridged s c n = true ->
  registry_inv (push_event (MaterializeMinted c n call) s).
Proof.
  intros ([Hd Hc Ho] & Hn & Hs) Hb. constructor; [done | done |].
  intros c' n'. simpl. rewrite mints_snoc. simpl. case_decide as E.
  - destruct E as [-> ->]. right. rewrite Hn. done.
  - apply Ho.
Qed.

Lemma execute_materialize_inv c n call :
  leads (fresh c n) (execute_materialize T c n call) registry_inv.
Proof.
  unfold execute_materialize.
  do 8 (apply leads_bind; [apply fresh_quiet; intros; preserve quiet_op | intros]).
  intros s u s' Hf ([] & s1 & H1 & H2)%M_bind_Ok. unfold deposit_event, modify in H2. injection H2 as <- <-.
  destruct (record_fresh c n s tt s1 Hf H1). by apply minted_inv.
Qed.

Lemma cancel_materialize_inv c n : leads (fresh c n) (cancel_materialize (L := L) c n) registry_inv.
Proof.
  intros s u s' Hf ([] & s1 & H1 & H2)%M_bind_Ok. destruct (record_fresh c n s tt s1 Hf H1) as [[Hi _] _].
  eapply quiet_inv; [exact Hi |]. by eapply quiet_event, H2.
Qed.

Lemma resolve_proposal_inv c n call : leads (fresh c n) (resolve_proposal T c n call) registry_inv.
Proof.
  unfold resolve_proposal. apply leads_bind; [apply preserves_get | intros s].
  destruct (ProposalVotes s !! _) as [p|]; [| by intros ????[?]%lift_Ok].
  do 3 (apply leads_bind; [apply fresh_quiet; intros; preserve quiet_op | intros]).
  match goal with |- leads _ (let '(_, _) := ?x in _) _ => destruct x as [[] p'] end;
    (apply leads_bind; [apply fresh_quiet; intros; preserve quiet_op | intros]).
  - apply leads_weaken; [apply preserves_mret | by intros ? []].
  - apply execute_materialize_inv.
  - apply cancel_materialize_inv.
Qed.
Lemma materialize_inv s origin c n tok to amt favour s' :
  registry_inv s -> materialize T origin c n tok to amt favour s = Ok (tt, s') -> registry_inv s'.
Proof.
  intros Hi. unfold materialize. intros (who & s1 & [_ ->]%reads_Ok & H)%M_bind_Ok.
  apply M_bind_Ok in H as (u & s1 & [Hc ->]%reads_Ok & H).
  apply M_bind_Ok in H as (u' & s1 & [Hn ->]%reads_Ok & H).
  apply ensure_Ok, bool_decide_eq_true in Hc. apply ensure_Ok, negb_true_iff in Hn.
  assert (Hf : fresh c n s) by (split; [done |]; destruct (ri_once s Hi c n) as [?|[? ?]]; [done | congruence]).
  revert H. match goal with |- ?m s = _ -> _ => cut (leads (fresh c n) m registry_inv) end;
    [intros Hl; exact (Hl s tt s' Hf) |].
  do 2 (apply leads_bind; [apply fresh_quiet; intros; preserve quiet_op | intros ?]).
  do 6 (apply leads_bind; [apply fresh_quiet; intros; preserve quiet_op | intros ?]).
  apply resolve_proposal_inv.
Qed.

(** ** Steps of the chain

    A call, the hook of a new block, a change of the relayers, which is followed by
    [change_vote_threshold], and what the rest of the chain does to the ledger. *)
Inductive step : State L -> State L -> Prop :=
| step_call s origin c s' : dispatch T origin c s = Ok (tt, s') -> step s s'
| step_block s n : step s (on_initialize n (set_block_number n s))
| step_members s members s' :
    change_vote_threshold T (set_RelayMembers members s) = Ok (tt, s') -> step s s'
| step_ledger s l : step s (set_assets l s).

Definition genesis s : Prop :=
  ChainNonces s = ∅ /\ BridgeRegistry s = ∅ /\ BridgeTokens s = ∅ /\ AssetIds s = ∅ /\
  ProposalVotes s = ∅ /\ events s = [].

Definition reachable s : Prop := exists s0, genesis s0 /\ rtc step s0 s.

Lemma registry_genesis s : genesis s -> registry_inv s.
Proof.
  intros (E1 & E2 & _ & _ & _ & E3). constructor.
  - intros c. rewrite E1, E2, !lookup_empty. split; by intros [].
  - intros c l. by rewrite E2, lookup_empty.
  - intros c n. rewrite E3. by left.
Qed.

Lemma register_chain_inv s origin c s' :
  registry_inv s -> register_chain T origin c s = Ok (tt, s') -> registry_inv s'.
Proof.
  intros [Hd Hc Ho] H. unfold register_chain, deposit_event in H. minv.
  assert (Hn : BridgeRegistry s !! c = None).
  { match goal with H : chain_registered _ _ = false |- _ => apply bool_decide_eq_false in H as Hs end.
    destruct (BridgeRegistry s !! c) as [l|] eqn:E; [| done]. destruct Hs. apply Hd. by rewrite E. }
  constructor; simpl.
  - intros c'. destruct (decide (c = c')) as [<-|Hne]; [by rewrite !lookup_insert_eq |].
    by rewrite !lookup_insert_ne.
  - intros c' l. rewrite lookup_insert_Some. intros [[-> <-]|[_ ?]]; [apply canonical_nil | eauto].
  - intros c' n. rewrite mints_snoc. simpl. unfold has_bridged; simpl.
    destruct (Ho c' n) as [?|[? Hb]]; [by left | right]. split; [done |]. unfold has_bridged in Hb.
    destruct (decide (c = c')) as [<-|Hne]; [by rewrite Hn in Hb | by rewrite lookup_insert_ne].
Qed.

Lemma unregister_chain_inv s origin c s' :
  registry_inv s -> unregister_chain T origin c s = Ok (tt, s') -> registry_inv s'.
Proof.
  intros [Hd Hc Ho] H. unfold unregister_chain, deposit_event in H. minv. constructor; simpl.
  - intros c'. destruct (decide (c = c')) as [<-|Hne]; [by rewrite !lookup_delete_eq; split; intros [] |].
    by rewrite !lookup_delete_ne.
  - intros c' l. rewrite lookup_delete_Some. intros [_ ?]. eauto.
  - intros c' n. rewrite mints_snoc. simpl. case_decide as E; [by left |].
    destruct (Ho c' n) as [?|[? Hb]]; [by left | right]. split; [done |].
    unfold has_bridged in *; simpl. by rewrite lookup_delete_ne.
Qed.

Lemma dispatch_registry s origin c s' :
  registry_inv s -> dispatch T origin c s = Ok (tt, s') -> registry_inv s'.
Proof.
  intros Hi H. destruct c; simpl in H;
    [by eapply register_chain_inv | by eapply unregister_chain_inv
    | | | | | | | eapply quiet_inv, quiet_teleport; eauto | by eapply materialize_inv].
  all: apply (quiet_inv _ _ Hi), (preserves_run _ _ _ _ _ (quiet_refl _) H).
  - unfold register_bridge_token. preserve quiet_op.
  - unfold unregister_bridge_token. preserve quiet_op.
  - unfold set_bridge_token_fee. preserve quiet_op.
  - unfold set_bridge_token_status. preserve quiet_op.
  - unfold set_bridge_token_cap. preserve quiet_op.
  - unfold clean_cap_accumulated_value. preserve quiet_op.
Qed.

Lemma change_vote_threshold_quiet s0 : preserves (quiet s0) (change_vote_threshold (L := L) T).
Proof. unfold change_vote_threshold. preserve quiet_op. Qed.

Lemma step_registry s s' : registry_inv s -> step s s' -> registry_inv s'.
Proof.
  intros Hi Hs. destruct Hs as [s origin c s' H | s n | s ms s' H | s l].
  - by eapply dispatch_registry.
  - by eapply quiet_inv.
  - assert (Hi' : registry_inv (set_RelayMembers ms s)) by by eapply quiet_inv.
    eapply quiet_inv; [exact Hi' |]. eapply change_vote_threshold_quiet, H. apply quiet_refl.
  - by eapply quiet_inv.
Qed.

Lemma reachable_registry s : reachable s -> registry_inv s.
Proof.
  intros (s0 & H0 & Hs). apply registry_genesis in H0.
  induction Hs; eauto using step_registry.
Qed.

(** ** Votes *)

(** Nothing but a vote and the clean-up of a block touches the votes. *)
Section untouched_votes.
Context (P : gmap VoteKey Proposal -> Prop).
Abbreviation votes_are := (fun s : State L => P (ProposalVotes s)).

Lemma votes_assets f : preserves votes_are (on_assets (L := L) f).
Proof. intros s u s' Hv H. unfold on_assets in H. destruct (f (assets s)); by minv. Qed.

Ltac votes_step := first
  [ apply votes_assets | by apply preserves_modify | by unfold insert_token; apply preserves_modify
  | by unfold deposit_event; apply preserves_modify ].

Lemma execute_materialize_votes c n call : preserves votes_are (execute_materialize T c n call).
Proof.
  unfold execute_materialize, update_bridge_token_cap, grant_incentive_bonus, update_bridge_registry.
  preserve votes_step.
Qed.
Lemma cancel_materialize_votes c n : preserves votes_are (cancel_materialize (L := L) c n).
Proof. unfold cancel_materialize, update_bridge_registry. preserve votes_step. Qed.

Lemma other_calls_votes origin c :
  (forall src n tok to amt favour, c <> CallMaterialize src n tok to amt favour) ->
  preserves votes_are (dispatch T origin c).
Proof.
  intros Hc. destruct c; simpl; [.. | by edestruct Hc].
  - unfold register_chain. preserve votes_step.
  - unfold unregister_chain. preserve votes_step.
  - unfold register_bridge_token. preserve votes_step.
  - unfold unregister_bridge_token. preserve votes_step.
  - unfold set_bridge_token_fee, try_mutate_bridge_token. preserve votes_step.
  - unfold set_bridge_token_status, try_mutate_bridge_token. preserve votes_step.
  - unfold set_bridge_token_cap, try_mutate_bridge_token. preserve votes_step.
  - unfold clean_cap_accumulated_value, try_mutate_bridge_token. preserve votes_step.
  - unfold teleport, update_bridge_token_cap, teleport_internal, bump_nonce. preserve votes_step.
Qed.
End untouched_votes.

(** Nobody votes twice on a proposal. *)
Definition votes_ok s : Prop :=
  forall k p, ProposalVotes s !! k = Some p -> NoDup (votes_for p ++ votes_against p).

Lemma try_to_complete_votes threshold total p st p' :
  try_to_complete threshold total p = Ok (st, p') ->
  votes_for p' = votes_for p /\ votes_against p' = votes_against p /\
  (st = Approved -> status p' = Approved /\ threshold <= Z.of_nat (length (votes_for p))).
Proof.
  unfold try_to_complete. intros H. case_match eqn:Ht; [by minv; zbool |].
  apply result_bind_Ok in H as (b & _ & H). destruct b; minv; done.
Qed.

(** The votes on a proposal, one vote added *)
Definition voted (favour : bool) (who : AccountId) (p : Proposal) : Proposal :=
  if favour then mkProposal (votes_for p ++ [who]) (votes_against p) (status p) (expiry p)
  else mkProposal (votes_for p) (votes_against p ++ [who]) (status p) (expiry p).

Lemma voted_nodup favour who p :
  has_voted who p = false -> NoDup (votes_for p ++ votes_against p) ->
  NoDup (votes_for (voted favour who p) ++ votes_against (voted favour who p)).
Proof.
  unfold has_voted. rewrite orb_false_iff, !bool_decide_eq_false. intros [H1 H2] Hd.
  assert (E : votes_for (voted favour who p) ++ votes_against (voted favour who p)
              ≡ₚ who :: votes_for p ++ votes_against p).
  { destruct favour; simpl; [by rewrite <- app_assoc; simpl; rewrite <- Permutation_middle |].
    rewrite app_assoc. symmetry. apply Permutation_cons_append. }
  rewrite E. apply NoDup_cons. rewrite elem_of_app. tauto.
Qed.

(** A successful vote: the relayer [who] had not voted on the open proposal [p]; the proposal with
    the vote is stored and then resolved. *)
Lemma materialize_Ok s origin c n tok to amt favour s' :
  materialize T origin c n tok to amt favour s = Ok (tt, s') ->
  let call := mkMaterializeCall tok to amt in
  exists who p s1,
    ensure_relay_member T s origin = Ok who /\ is_Some (ChainNonces s !! c) /\
    has_bridged s c n = false /\ materialize_allowed tok amt s = Ok tt /\
    (ProposalVotes s !! (c, (n, call)) = Some p \/
     ProposalVotes s !! (c, (n, call)) = None /\ votes_for p = [] /\ votes_against p = []) /\
    has_voted who p = false /\ assets s1 = assets s /\ BridgeTokens s1 = BridgeTokens s /\
    AssetIds s1 = AssetIds s /\ VoteThreshold s1 = VoteThreshold s /\ quiet s s1 /\
    ProposalVotes s1 = <[(c, (n, call)) := voted favour who p]> (ProposalVotes s) /\
    resolve_proposal T c n call s1 = Ok (tt, s').
Proof.
  intros H call. unfold materialize in H. apply M_bind_Ok in H as (who & s1 & [Hw ->]%reads_Ok & H).
  apply M_bind_Ok in H as ([] & s1 & [Hc ->]%reads_Ok & H).
  apply M_bind_Ok in H as ([] & s1 & [Hn ->]%reads_Ok & H).
  apply M_bind_Ok in H as ([] & s1 & [Ha ->]%reads_Ok & H).
  apply ensure_Ok, bool_decide_eq_true in Hc. apply ensure_Ok, negb_true_iff in Hn.
  cbv zeta in H. fold call in H. apply M_bind_Ok in H as (x & y & Hg & H). injection Hg as <- <-.
  apply M_bind_Ok in H as (p & s1 & Hp & H).
  apply M_bind_Ok in H as ([] & s2 & [_ ->]%lift_Ok & H).
  apply M_bind_Ok in H as ([] & s2 & [_ ->]%lift_Ok & H).
  apply M_bind_Ok in H as ([] & s2 & [Hv%ensure_Ok%negb_true_iff ->]%lift_Ok & H).
  apply M_bind_Ok in H as (p' & s2 & Hp' & H). apply M_bind_Ok in H as ([] & s3 & Hi & H).
  unfold insert_votes, modify in Hi. injection Hi as <-.
  assert (E1 : (s1 = s \/ exists e, counted e = false /\ s1 = push_event e s) /\
    (ProposalVotes s !! (c, (n, call)) = Some p \/
     ProposalVotes s !! (c, (n, call)) = None /\ votes_for p = [] /\ votes_against p = [])).
  { destruct (ProposalVotes s !! _) as [q|]; unfold deposit_event in Hp; minv; [split; by left |].
    split; [right; eexists; by split; [| reflexivity] | auto]. }
  assert (E2 : p' = voted favour who p /\ exists e, counted e = false /\ s2 = push_event e s1).
  { unfold deposit_event in Hp'. destruct favour; minv; (split; [done |]; eexists; by split; [| reflexivity]). }
  destruct E1 as [E1 E1'], E2 as [-> (e2 & He2 & ->)].
  assert (Q : quiet s (push_event e2 s1)).
  { eapply quiet_event; [exact He2 | | reflexivity].
    destruct E1 as [->|(e1 & He1 & ->)]; [done |]. by eapply quiet_event; [exact He1 | | reflexivity]. }
  match type of H with resolve_proposal _ _ _ _ ?s4 = _ => exists who, p, s4 end.
  repeat (split; [eassumption |]).
  assert (E3 : ProposalVotes s1 = ProposalVotes s /\ assets s1 = assets s /\
    BridgeTokens s1 = BridgeTokens s /\ AssetIds s1 = AssetIds s /\
    VoteThreshold s1 = VoteThreshold s) by by destruct E1 as [->|(e1 & He1 & ->)].
  destruct E3 as (V & E3 & E4 & E5 & E6).
  rewrite <- V, <- E3, <- E4, <- E5, <- E6. repeat (split; [done |]).
  split; [by destruct Q |]. split; [| exact H]. done.
Qed.

Lemma resolve_proposal_Ok s c n call s' :
  resolve_proposal T c n call s = Ok (tt, s') ->
  exists p st p', ProposalVotes s !! (c, (n, call)) = Some p /\
    try_to_complete (VoteThreshold s) (get_members_count s) p = Ok (st, p') /\
    let s1 := set_ProposalVotes (<[(c, (n, call)) := p']> (ProposalVotes s)) s in
    match st with
    | Approved => execute_materialize T c n call s1 = Ok (tt, s')
    | Rejected => cancel_materialize c n s1 = Ok (tt, s')
    | Initiated => s' = s1
    end.
Proof.
  unfold resolve_proposal. intros (x & y & [= <- <-] & H)%M_bind_Ok.
  destruct (ProposalVotes s !! _) as [p|]; [| by apply lift_Ok in H as [? _]].
  apply M_bind_Ok in H as ([] & s1 & [_ ->]%lift_Ok & H).
  apply M_bind_Ok in H as ([] & s1 & [_ ->]%lift_Ok & H).
  apply M_bind_Ok in H as ([st p'] & s1 & [Ht ->]%lift_Ok & H).
  apply M_bind_Ok in H as ([] & s2 & Hi & H). unfold insert_votes, modify in Hi. injection Hi as <-.
  exists p, st, p'. split; [done |]. split; [done |]. destruct st; [by minv | exact H | exact H].
Qed.

(** What a vote does to the votes *)
Lemma materialize_adds s origin c n tok to amt favour s' :
  materialize T origin c n tok to amt favour s = Ok (tt, s') ->
  let k := (c, (n, mkMaterializeCall tok to amt)) in
  exists who p p', ensure_relay_member T s origin = Ok who /\ has_voted who p = false /\
    (ProposalVotes s !! k = Some p \/ ProposalVotes s !! k = None /\ votes_for p = [] /\ votes_against p = []) /\
    ProposalVotes s' = <[k := p']> (ProposalVotes s) /\
    votes_for p' = votes_for (voted favour who p) /\ votes_against p' = votes_against (voted favour who p).
Proof.
  intros (who & p & s1 & Hw & _ & _ & _ & Hp & Hv & _ & _ & _ & _ & _ & E & H)%materialize_Ok k.
  apply resolve_proposal_Ok in H as (q & st & p' & Hq & Ht & H). cbv zeta in H. change (c, (n, mkMaterializeCall tok to amt)) with k in Hp, E, Hq, H.
  rewrite E, lookup_insert_eq in Hq. injection Hq as <-.
  destruct (try_to_complete_votes _ _ _ _ _ Ht) as (E1 & E2 & _).
  exists who, p, p'. do 3 (split; [done |]). split; [| done].
  transitivity (ProposalVotes (set_ProposalVotes (<[k := p']> (ProposalVotes s1)) s1)).
  - destruct st; [by rewrite H | ..]; symmetry;
      [apply (execute_materialize_votes (eq _) _ _ _ _ _ _ eq_refl H) | apply (cancel_materialize_votes (eq _) _ _ _ _ _ eq_refl H)].
  - simpl. by rewrite E, insert_insert_eq.
Qed.

Lemma materialize_votes s origin c n tok to amt favour s' :
  votes_ok s -> materialize T origin c n tok to amt favour s = Ok (tt, s') -> votes_ok s'.
Proof.
  intros Hv (who & p & p' & _ & Hw & Hp & E & E1 & E2)%materialize_adds. intros k q. rewrite E, lookup_insert_Some.
  intros [[_ <-]|[_ ?]]; [| eauto]. rewrite E1, E2. apply voted_nodup; [done |].
  destruct Hp as [Hp | (_ & -> & ->)]; [eauto | constructor].
Qed.

Lemma materialize_or_not (c : Call) :
  (exists src n tok to amt favour, c = CallMaterialize src n tok to amt favour) \/
  forall src n tok to amt favour, c <> CallMaterialize src n tok to amt favour.
Proof. destruct c; [by right .. | left; eauto 7]. Qed.

Lemma dispatch_votes s origin c s' :
  votes_ok s -> dispatch T origin c s = Ok (tt, s') -> votes_ok s'.
Proof.
  intros Hv H. destruct (materialize_or_not c) as [(src & n & tok & to & amt & favour & ->)|Hc].
  - by eapply materialize_votes.
  - intros k p. rewrite <- (other_calls_votes (eq (ProposalVotes s)) origin c Hc s _ s' eq_refl H). apply Hv.
Qed.

Lemma step_votes s s' : votes_ok s -> step s s' -> votes_ok s'.
Proof.
  intros Hv Hs. destruct Hs as [s origin c s' H | s n | s ms s' H | s l]; [| | | done].
  - by eapply dispatch_votes.
  - intros k p. simpl. rewrite map_lookup_filter_Some. intros [? _]. eauto.
  - unfold change_vote_threshold, deposit_event in H. minv. done.
Qed.

Lemma reachable_votes s : reachable s -> votes_ok s.
Proof.
  intros (s0 & (_ & _ & _ & _ & E & _) & Hs).
  assert (Hv : votes_ok s0) by (intros k p; by rewrite E, lookup_empty).
  clear E. induction Hs; eauto using step_votes.
Qed.

(** Who voted when: in the run from [s0] to [s] the account [who] has voted this way on the transfer
    [call] with the nonce [n] of the chain [c], and was a relayer at that time (or root voted, for
    whom an account is configured). *)
Definition cast s0 s c n (call : MaterializeCall) favour (who : AccountId) : Prop :=
  exists origin s1 s2, rtc step s0 s1 /\
    materialize T origin c n (bridge_token_id call) (to call) (amount call) favour s1 = Ok (tt, s2) /\ rtc step s2 s /\
    (origin = Signed who /\ who ∈ RelayMembers s1 \/ origin = Root /\ who = RootOperatorAccountId T).

Lemma cast_later s0 s s' c n call favour who :
  cast s0 s c n call favour who -> rtc step s s' -> cast s0 s' c n call favour who.
Proof. intros (o & s1 & s2 & H1 & H2 & H3 & H4) H. exists o, s1, s2. do 2 (split; [done |]). split; [by etrans | done]. Qed.

(** Every vote that is stored was cast. *)
Definition votes_cast s0 s : Prop := forall c n call p, ProposalVotes s !! (c, (n, call)) = Some p ->
  (forall who, who ∈ votes_for p -> cast s0 s c n call true who) /\
  (forall who, who ∈ votes_against p -> cast s0 s c n call false who).

Lemma relay_member_Ok s origin who : ensure_relay_member T s origin = Ok who ->
  origin = Signed who /\ who ∈ RelayMembers s \/ origin = Root /\ who = RootOperatorAccountId T.
Proof.
  unfold ensure_relay_member. destruct origin as [|w|]; intros H; minv; [by right |].
  match goal with H : bool_decide _ = true |- _ => apply bool_decide_eq_true in H end. by left.
Qed.

Lemma materialize_cast s0 s origin c n tok to amt favour s' :
  rtc step s0 s -> votes_cast s0 s -> materialize T origin c n tok to amt favour s = Ok (tt, s') -> votes_cast s0 s'.
Proof.
  intros Hr Hv H. assert (Hs : rtc step s s') by (by apply rtc_once, (step_call s origin (CallMaterialize c n tok to amt favour))).
  pose proof H as (who & p & p' & Hw%relay_member_Ok & _ & Hp & E & E1 & E2)%materialize_adds.
  assert (Hnew : cast s0 s' c n (mkMaterializeCall tok to amt) favour who) by (exists origin, s, s'; auto using rtc_refl).
  intros c' n' call' q. rewrite E, lookup_insert_Some. intros [[[= <- <- <-] <-]|[_ Hq]].
  - rewrite E1, E2.
    assert (Hold : (forall w, w ∈ votes_for p -> cast s0 s' c n (mkMaterializeCall tok to amt) true w) /\
                   (forall w, w ∈ votes_against p -> cast s0 s' c n (mkMaterializeCall tok to amt) false w)).
    { destruct Hp as [Hp | (_ & -> & ->)]; [| split; intros w Hw'; by apply elem_of_nil in Hw'].
      destruct (Hv _ _ _ _ Hp) as [Hf Ha]. split; intros w Hw'; eapply cast_later; eauto. }
    destruct Hold as [Hf Ha]. destruct favour; simpl; (split; intros w); rewrite ?elem_of_app, ?list_elem_of_singleton; naive_solver.
  - destruct (Hv _ _ _ _ Hq) as [Hf Ha]. split; intros w Hw'; eapply cast_later; eauto.
Qed.

Lemma step_cast s0 s s' : rtc step s0 s -> votes_cast s0 s -> step s s' -> votes_cast s0 s'.
Proof.
  intros Hr Hv Hs. assert (Hsub : (forall k p, ProposalVotes s' !! k = Some p -> ProposalVotes s !! k = Some p) -> votes_cast s0 s').
  { intros Hsub c n call p Hp. destruct (Hv _ _ _ _ (Hsub _ _ Hp)) as [Hf Ha].
    split; intros w Hw; eapply cast_later; eauto using rtc_once. }
  destruct Hs as [s origin c s' H | s n | s ms s' H | s l].
  - destruct (materialize_or_not c) as [(src & n & tok & to & amt & favour & ->)|Hc]; [by eapply materialize_cast |].
    apply Hsub. by rewrite <- (other_calls_votes (eq (ProposalVotes s)) origin c Hc s _ s' eq_refl H).
  - apply Hsub. intros k p. simpl. rewrite map_lookup_filter_Some. by intros [? _].
  - apply Hsub. unfold change_vote_threshold, deposit_event in H. minv. done.
  - by apply Hsub.
Qed.

Lemma reachable_cast s0 s : genesis s0 -> rtc step s0 s -> votes_cast s0 s.
Proof.
  intros (_ & _ & _ & _ & E & _) Hr. revert s Hr. apply (rtc_ind_r (votes_cast s0)).
  - intros c n call p. by rewrite E, lookup_empty.
  - intros s s' Hr Hs IH. by eapply step_cast.
Qed.

(** ** Materialization *)

Context {FL : FungiblesLaws L}.

Lemma on_assets_Ok f s s' : on_assets f s = Ok (tt, s') -> exists l, f (assets s) = Ok l /\ s' = set_assets l s.
Proof. unfold on_assets. destruct (f (assets s)); intros H; minv; eauto. Qed.

(** The bonus of native currency does not lower a balance of the one who gets it. *)
Lemma bonus_Ok who a amt s s' :
  grant_incentive_bonus T who a amt s = Ok (tt, s') ->
  exists l, s' = set_assets l s /\ forall b, balance (assets s) b who <= balance l b who.
Proof.
  unfold grant_incentive_bonus. intros (x & y & [= <- <-] & H)%M_bind_Ok. cbv zeta in H.
  case_match; [| minv; exists (assets s); split; [by destruct s | done]].
  apply M_bind_Ok in H as (sum & s1 & [_ ->]%lift_Ok & H).
  apply M_bind_Ok in H as (diff & s1 & [Hd ->]%lift_Ok & H). minv.
  apply on_assets_Ok in H as (l & Ht & ->). exists l. split; [done |]. intros b.
  destruct (decide (GiftAccount T = who)) as [E|E].
  - rewrite E in Ht. destruct (decide (b = NativeCurrencyId T)) as [->|Hb].
    + rewrite (transfer_self _ _ _ _ _ _ Ht). lia.
    + rewrite (transfer_frame _ _ _ _ _ _ _ b who Ht) by auto. lia.
  - pose proof (pay_in _ _ _ _ _ _ _ Ht E b). case_decide; lia.
Qed.

Lemma update_in_cap_Ok a amt s s' :
  update_bridge_token_cap a amt BridgeIn s = Ok (tt, s') ->
  let token := bridge_token s a in
  in_amount token + amt <= in_cap token /\
  s' = set_BridgeTokens (<[a := set_in_amount (in_amount token + amt) token]> (BridgeTokens s)) s.
Proof.
  unfold update_bridge_token_cap, insert_token. intros H. cbv zeta in H. minv. by zbool.
Qed.

Lemma update_out_cap_Ok a amt s s' :
  update_bridge_token_cap a amt BridgeOut s = Ok (tt, s') ->
  let token := bridge_token s a in
  out_amount token + amt <= out_cap token /\
  s' = set_BridgeTokens (<[a := set_out_amount (out_amount token + amt) token]> (BridgeTokens s)) s.
Proof.
  unfold update_bridge_token_cap, insert_token. intros H. cbv zeta in H. minv. by zbool.
Qed.

(** The registry is the only field that recording a nonce writes. *)
Lemma update_bridge_registry_frame c n s s' :
  update_bridge_registry c n s = Ok (tt, s') -> exists r, s' = set_BridgeRegistry r s.
Proof.
  unfold update_bridge_registry. intros (x & y & [= <- <-] & H)%M_bind_Ok.
  destruct (BridgeRegistry s !! c); minv; [by eexists | exists (BridgeRegistry s); by destruct s].
Qed.

Lemma execute_materialize_Ok c n call s s' :
  execute_materialize T c n call s = Ok (tt, s') ->
  let a := asset_id s (bridge_token_id call) in
  let token := bridge_token s a in
  in_amount token + amount call <= in_cap token /\
  bridge_token s' a = set_in_amount (in_amount token + amount call) token /\
  ProposalVotes s' = ProposalVotes s /\
  (external token = true \/ to call <> account_id T ->
   balance (assets s) a (to call) + amount call <= balance (assets s') a (to call)).
Proof.
  unfold execute_materialize. intros ([] & s1 & [_ ->]%reads_Ok & H)%M_bind_Ok.
  apply M_bind_Ok in H as ([] & s1 & [_ ->]%reads_Ok & H).
  apply M_bind_Ok in H as (x & y & [= <- <-] & H). cbv zeta in *.
  set (a := asset_id s (bridge_token_id call)) in *.
  apply M_bind_Ok in H as ([] & s1 & [Hcap ->]%update_in_cap_Ok & H).
  apply M_bind_Ok in H as ([] & s2 & [= <-] & H). apply M_bind_Ok in H as (x & y & [= <- <-] & H).
  apply M_bind_Ok in H as ([] & s2 & Hpay & H).
  apply M_bind_Ok in H as ([] & s3 & (l2 & -> & Hb)%bonus_Ok & H).
  apply M_bind_Ok in H as ([] & s4 & (r & ->)%update_bridge_registry_frame & H).
  unfold deposit_event, modify in H. injection H as <-. split; [done |].
  set (token := bridge_token s a) in *.
  assert (Hext : forall s0, BridgeTokens s0 = <[a:=set_in_amount (in_amount token + amount call) token]> (BridgeTokens s) ->
    bridge_token s0 a = set_in_amount (in_amount token + amount call) token).
  { intros s0 E. unfold bridge_token. by rewrite E, lookup_insert_eq. }
  rewrite Hext in Hpay by done. simpl in Hpay. destruct (external token) eqn:Ex;
    apply on_assets_Ok in Hpay as (l1 & Hl & ->); (split; [by rewrite Hext |]); (split; [done |]).
  - intros _. simpl in *. specialize (Hb a). rewrite (mint_into_balance _ _ _ _ _ Hl) in Hb. lia.
  - intros [?|Hne]; [done |]. simpl in *. specialize (Hb a).
    pose proof (transfer_dest _ _ _ _ _ _ _ Hl (fun E => Hne (eq_sym E))). lia.
Qed.

Lemma mints_cancel c n s s' c' n' :
  cancel_materialize c n s = Ok (tt, s') -> mints c' n' (events s') = mints c' n' (events s).
Proof.
  intros ([] & s1 & (r & ->)%update_bridge_registry_frame & H)%M_bind_Ok.
  unfold deposit_event, modify in H. injection H as <-. simpl. by rewrite mints_snoc.
Qed.

(** C5: In every reachable state of the bridge (calls, blocks that drop expired proposals, changes
    of the relayers and any change of the ledger by the rest of the chain) a transfer, that is a
    source chain with a nonce, has been materialized at most once since the chain was last
    removed; and once it has been, every further vote on that nonce, for whatever token,
    recipient or amount, is refused and changes nothing. *)
Theorem never_materialized_twice s c n :
  reachable s ->
  mints c n (events s) <= 1 /\
  (mints c n (events s) = 1 -> forall origin tok to amt favour s',
     materialize T origin c n tok to amt favour s <> Ok (tt, s')).
Proof.
  intros Hr. destruct (ri_once s (reachable_registry s Hr) c n) as [E|[E Hb]]; [rewrite E; split; [lia | done] |].
  split; [lia |]. intros _ origin tok to amt favour s' H.
  apply materialize_Ok in H as (who & p & s1 & _ & _ & Hn & _). congruence.
Qed.

(** C18: A vote materializes a transfer only if a quorum of distinct relayers stands behind it: the
    vote comes from a current relayer (or root), the stored proposal is approved, nobody is counted
    twice among its votes in favour, they are at least as many as the threshold, and each of them was
    cast in this run by a call for this very transfer, of an account that was a relayer at that time
    (or by root).  The token is enabled, its amounts stay within the cap on what comes in, and the
    recipient is credited with at least the amount that was voted on (more when a bonus is granted in
    the same currency); this last point is not claimed of a token of this chain that is sent to the
    bridge's own account, which holds it already. *)
Theorem materialization_needs_quorum s0 s origin c n tok to amt favour s' :
  genesis s0 -> rtc step s0 s -> materialize T origin c n tok to amt favour s = Ok (tt, s') ->
  mints c n (events s) < mints c n (events s') ->
  let a := asset_id s tok in
  let token := bridge_token s a in
  (origin = Root \/ exists who, origin = Signed who /\ who ∈ RelayMembers s) /\
  (exists p, ProposalVotes s' !! (c, (n, mkMaterializeCall tok to amt)) = Some p /\
     status p = Approved /\ NoDup (votes_for p) /\
     VoteThreshold s <= Z.of_nat (length (votes_for p)) /\
     forall who, who ∈ votes_for p -> cast s0 s' c n (mkMaterializeCall tok to amt) true who) /\
  enable token = true /\ 0 < amt /\ in_amount token + amt <= in_cap token /\
  in_amount (bridge_token s' a) = in_amount token + amt /\
  (external token = true \/ to <> account_id T ->
   balance (assets s) a to + amt <= balance (assets s') a to).
Proof.
  intros H0 Hr Hm Hmint a token.
  pose proof (materialize_votes _ _ _ _ _ _ _ _ _ (reachable_votes s (ex_intro _ s0 (conj H0 Hr))) Hm) as Hv.
  pose proof (materialize_cast _ _ _ _ _ _ _ _ _ _ Hr (reachable_cast s0 s H0 Hr) Hm) as Hcast.
  apply materialize_Ok in Hm as (who & p & s1 & Hwho & _ & _ & Hok & _ & _ & E1 & E2 & E3 & E4 & Q & _ & H).
  split; [apply relay_member_Ok in Hwho; naive_solver |]. apply resolve_proposal_Ok in H as (q & st & q' & _ & Ht & H). cbv zeta in H.
  destruct (try_to_complete_votes _ _ _ _ _ Ht) as (Ef & _ & Happ).
  rewrite <- (qu_mints _ _ Q) in Hmint. destruct st; [rewrite H in Hmint; simpl in Hmint; lia | |].
  2: { rewrite (mints_cancel _ _ _ _ _ _ H) in Hmint. simpl in Hmint. lia. }
  destruct (Happ eq_refl) as [Hs Hq]. apply execute_materialize_Ok in H as (Hcap & Htok & Hvotes & Hpay).
  assert (Ea : forall s2, AssetIds s2 = AssetIds s -> asset_id s2 tok = a) by (intros s2 E; unfold asset_id; by rewrite E).
  assert (Et : forall s2, BridgeTokens s2 = BridgeTokens s -> bridge_token s2 a = token)
    by (intros s2 E; unfold bridge_token; by rewrite E).
  simpl in *. rewrite !Ea in * by done. rewrite !Et in * by done. rewrite E1 in Hpay.
  assert (Hin : ProposalVotes s' !! (c, (n, mkMaterializeCall tok to amt)) = Some q')
    by (rewrite Hvotes; apply lookup_insert_eq).
  split.
  { exists q'. split; [done |]. split; [done |]. destruct (Hcast _ _ _ _ Hin) as [Hfor _].
    apply Hv, NoDup_app in Hin as [Hin _]. split; [done |]. split; [by rewrite Ef, <- E4 | done]. }
  unfold materialize_allowed, ensure_amount_valid in Hok. cbv zeta in Hok. fold a in Hok.
  fold token in Hok. clearbody a token. minv. zbool. rewrite Htok, Et by done. do 4 (split; [done |]). exact Hpay.
Qed.

(** ** Teleports *)

(** A teleport takes the whole amount from the sender and announces it, less the fee, under
    the next nonce of the destination chain, exactly one event.  It needs an enabled token, an
    amount above zero that covers the fee, and room under the cap on what goes out, which counts
    the amount with its fee.  A token of another chain is burnt and the fee minted to the account
    of the bridge, so that the issuance falls by what leaves; a token of this chain is moved to
    that account (the minimum balance of the currency being at most 1). *)
Theorem teleport_accounts s origin dest tok dst amt s' :
  teleport T origin dest tok dst amt s = Ok (tt, s') ->
  minimum_balance (asset_id s tok) <= 1 -> origin <> Signed (account_id T) ->
  let a := asset_id s tok in
  let token := bridge_token s a in
  let nonce := default 0 (ChainNonces s !! dest) + 1 in
  exists who, origin = Signed who /\ enable token = true /\ 0 < amt /\ fee token <= amt /\
    out_amount token + amt <= out_cap token /\
    out_amount (bridge_token s' a) = out_amount token + amt /\
    ChainNonces s' = <[dest := nonce]> (ChainNonces s) /\
    events s' = events s ++ [TeleportBurned who dest nonce tok dst (amt - fee token) (fee token)] /\
    balance (assets s') a who = balance (assets s) a who - amt /\
    balance (assets s') a (account_id T) =
      balance (assets s) a (account_id T) + (if external token then fee token else amt) /\
    total_issuance (assets s') a =
      total_issuance (assets s) a - (if external token then amt - fee token else 0).
Proof.
  intros H Hmin Ho a token nonce. unfold teleport in H.
  apply M_bind_Ok in H as (who & s1 & [Hs ->]%lift_Ok & H). exists who.
  assert (origin = Signed who) as -> by (destruct origin; naive_solver).
  assert (Hne : who <> account_id T) by congruence. split; [done |].
  apply M_bind_Ok in H as ([] & s1 & [_ ->]%reads_Ok & H).
  apply M_bind_Ok in H as ([] & s1 & [_ ->]%reads_Ok & H).
  apply M_bind_Ok in H as ([] & s1 & [Hamt%ensure_Ok ->]%lift_Ok & H).
  apply M_bind_Ok in H as (x & y & [= <- <-] & H). cbv zeta in H. fold a in H. fold token in H.
  apply M_bind_Ok in H as ([] & s1 & [Hen%ensure_Ok ->]%lift_Ok & H).
  apply M_bind_Ok in H as ([] & s1 & [Hcap ->]%update_out_cap_Ok & H). fold token in Hcap, H.
  apply M_bind_Ok in H as ([] & s2 & Hpay & H).
  apply M_bind_Ok in H as (actual & s3 & [Hact ->]%lift_Ok & H). minv. zbool.
  unfold teleport_internal, bump_nonce, deposit_event in H. do 4 (split; [done |]).
  assert (Hl : exists l, s2 = set_assets l (set_BridgeTokens (<[a:=set_out_amount (out_amount token + amt) token]> (BridgeTokens s)) s) /\
    balance l a who = balance (assets s) a who - amt /\
    balance l a (account_id T) =
      balance (assets s) a (account_id T) + (if external token then fee token else amt) /\
    total_issuance l a = total_issuance (assets s) a - (if external token then amt - fee token else 0)).
  { destruct (external token).
    - apply M_bind_Ok in Hpay as ([] & s3 & (l1 & Hb & ->)%on_assets_Ok & (l2 & Hm & ->)%on_assets_Ok).
      exists l2. split; [done |]. simpl in *.
      pose proof (dust_free_min_one _ _ _ _ Hmin (burn_from_enough _ _ _ _ _ Hb)) as Hd.
      rewrite (mint_into_frame _ _ _ _ _ a who Hm) by auto. rewrite (mint_into_balance _ _ _ _ _ Hm).
      rewrite (mint_into_issuance _ _ _ _ _ Hm), (burn_from_balance _ _ _ _ _ Hb Hd).
      rewrite (burn_from_issuance _ _ _ _ _ Hb Hd), (burn_from_frame _ _ _ _ _ a (account_id T) Hb) by auto. lia.
    - apply on_assets_Ok in Hpay as (l1 & Ht & ->). exists l1. split; [done |]. simpl in *.
      pose proof (dust_free_min_one _ _ _ _ Hmin (transfer_enough _ _ _ _ _ _ _ Ht Hne)) as Hd.
      rewrite (transfer_source _ _ _ _ _ _ _ Ht Hne Hd), (transfer_dest_exact _ _ _ _ _ _ _ Ht Hne Hd).
      rewrite (transfer_issuance _ _ _ _ _ _ _ Ht Hd). lia. }
  destruct Hl as (l & -> & Hl). clear Hpay. minv.
  match goal with H : checked_add_to _ _ _ = _ |- _ => apply checked_add_to_Some in H as [-> _] end.
  split; [unfold bridge_token; simpl; by rewrite lookup_insert_eq |]. done.
Qed.

(** ** The vote threshold *)

(** After a change of the relayers' collective the new threshold can always be set, whatever
    the number of members is as long as there is one: for a percentage from 1 to 100,
    [change_vote_threshold] succeeds, and the threshold is the least number of votes that is at
    least that percentage of the members, at least 1 and at most all of them. *)
Theorem change_vote_threshold_succeeds {SL : SpArithmeticLaws SA} s :
  1 <= ThresholdPercentage T <= 100 -> 0 < get_members_count s <= u32_max ->
  exists t,
    change_vote_threshold T s =
      Ok (tt, push_event (VoteThresholdUpdated t) (set_VoteThreshold t s)) /\
    1 <= t <= get_members_count s /\
    ThresholdPercentage T * get_members_count s <= 100 * t
      < ThresholdPercentage T * get_members_count s + 100.
Proof.
  intros Hp Hm. set (m := get_members_count s) in *. set (p := ThresholdPercentage T) in *.
  assert (Epct : permill_from_percent p = p * 10000).
  { rewrite permill_from_percent_eq by lia. rewrite Z.min_r by lia. done. }
  assert (Hperm : is_permill (p * 10000)) by (unfold is_permill, PERMILL_ONE; lia).
  set (t := div_ceil (p * 10000 * m) PERMILL_ONE).
  assert (Et : permill_mul_ceil (p * 10000) m = t).
  { apply permill_mul_ceil_eq; [done |]. unfold is_u128, u32_max, u128_max in *. lia. }
  assert (Ht : p * m <= 100 * t < p * m + 100).
  { unfold t, div_ceil, PERMILL_ONE. pose proof (Z.div_mod (p * 10000 * m + 10 ^ 6 - 1) (10 ^ 6)).
    pose proof (Z.mod_pos_bound (p * 10000 * m + 10 ^ 6 - 1) (10 ^ 6)). nia. }
  assert (Ht' : 1 <= t <= m) by nia. exists t. split; [| done].
  unfold change_vote_threshold. unfold mbind at 1, M_bind at 1, get. cbv zeta.
  fold m. fold p. rewrite Epct, Et.
  assert (ensure_valid_threshold T t m = Ok tt) as ->; [| done].
  unfold ensure_valid_threshold. fold p. rewrite Epct, permill_from_rational_eq by lia.
  apply ensure_Ok. rewrite !andb_true_iff, Z.geb_leb, Z.gtb_ltb, !Z.leb_le, Z.ltb_lt.
  split; [split |]; try lia. apply Z.div_le_lower_bound; unfold PERMILL_ONE; nia.
Qed.
End bridge.

(** ** A run

    Chain 1 and an external token (asset 100, known as 10 on the other chains); relayers 1, 2 and
    3, half of whom must agree.  The transfer with nonce 5 is voted for by two of them; account 7
    then sends some of what it received back. *)

Definition bridge_config : Config :=
  mkConfig (fun o => match o with Root => true | _ => false end)
    (fun o => match o with Root => true | _ => false end)
    (fun o => match o with Root => true | _ => false end)
    99 98 (fun _ _ => None) 0 1 0 (-1) 100 50.
Definition bridge_token_10 : BridgeToken := mkBridgeToken 10 true 2 true 500 0 1000 0.
Definition bridge_empty : State ledger :=
  mkState 0 ∅ ∅ ∅ ∅ ∅ [] (Ledger ∅ ∅) 1 [].
Definition bridge_exec (m : M (State ledger) DispatchError unit) (s : State ledger) : State ledger :=
  match m s with Ok (_, s') => s' | _ => s end.
Definition bridge_run (o : RuntimeOrigin) (c : Call) (s : State ledger) : State ledger :=
  bridge_exec (dispatch (FU := ledger_ops) bridge_config o c) s.
Definition bridge_members : State ledger :=
  bridge_exec (change_vote_threshold (SA := sp_reference) bridge_config)
    (set_RelayMembers [1; 2; 3] bridge_empty).
Definition bridge_chain : State ledger := bridge_run Root (CallRegisterChain 1) bridge_members.
Definition bridge_open : State ledger :=
  bridge_run Root (CallRegisterBridgeToken 100 bridge_token_10) bridge_chain.
Definition bridge_voted : State ledger :=
  bridge_run (Signed 1) (CallMaterialize 1 5 10 7 300 true) bridge_open.
Definition bridge_minted : State ledger :=
  bridge_run (Signed 2) (CallMaterialize 1 5 10 7 300 true) bridge_voted.
Definition bridge_sent : State ledger :=
  bridge_run (Signed 7) (CallTeleport 1 10 [1; 2] 40) bridge_minted.

Section instances.
#[local] Existing Instance ledger_ops.
#[local] Existing Instance ledger_ops_laws.
#[local] Existing Instance sp_reference.
#[local] Existing Instance sp_reference_laws.

Lemma bridge_step s o c s' :
  reachable bridge_config s -> dispatch bridge_config o c s = Ok (tt, s') ->
  reachable bridge_config s'.
Proof.
  intros (s0 & H0 & Hs) H. exists s0. split; [done |]. eapply rtc_r; [exact Hs |]. by eapply step_call.
Qed.

Lemma bridge_steps_voted : rtc (step bridge_config) bridge_empty bridge_voted.
Proof.
  apply (rtc_r _ bridge_open); [| by apply (step_call _ _ (Signed 1) (CallMaterialize 1 5 10 7 300 true)); by_eval].
  apply (rtc_r _ bridge_chain); [| by apply (step_call _ _ Root (CallRegisterBridgeToken 100 bridge_token_10)); by_eval].
  apply (rtc_r _ bridge_members); [| by apply (step_call _ _ Root (CallRegisterChain 1)); by_eval].
  apply rtc_once, (step_members bridge_config bridge_empty [1; 2; 3]). by_eval.
Qed.
Lemma bridge_reach_voted : reachable bridge_config bridge_voted.
Proof. exists bridge_empty. split; [by repeat split | exact bridge_steps_voted]. Qed.

Lemma bridge_reach_minted : reachable bridge_config bridge_minted.
Proof.
  apply (bridge_step bridge_voted (Signed 2) (CallMaterialize 1 5 10 7 300 true));
    [exact bridge_reach_voted | by_eval].
Qed.

Lemma never_materialized_twice_witness :
  mints 1 5 (events bridge_minted) = 1 /\
  mints 1 5 (events bridge_minted) <= 1 /\
  (mints 1 5 (events bridge_minted) = 1 -> forall origin tok to amt favour s',
     materialize bridge_config origin 1 5 tok to amt favour bridge_minted <> Ok (tt, s')).
Proof.
  split; [by_eval |]. apply (never_materialized_twice bridge_config bridge_minted 1 5 bridge_reach_minted).
Defined.

Lemma materialization_needs_quorum_witness :
  VoteThreshold bridge_voted = 2 /\
  exists p, ProposalVotes bridge_minted !! (1, (5, mkMaterializeCall 10 7 300)) = Some p /\
    status p = Approved /\ NoDup (votes_for p) /\ 2 <= Z.of_nat (length (votes_for p)) /\
    forall who, who ∈ votes_for p -> cast bridge_config bridge_empty bridge_minted 1 5 (mkMaterializeCall 10 7 300) true who.
Proof.
  split; [by_eval |].
  destruct (materialization_needs_quorum bridge_config bridge_empty bridge_voted (Signed 2) 1 5 10 7 300 true bridge_minted)
    as (_ & Hp & _); [by repeat split | exact bridge_steps_voted | by_eval | by_eval | exact Hp].
Defined.

Lemma teleport_accounts_witness :
  let a := asset_id bridge_minted 10 in
  let token := bridge_token bridge_minted a in
  let nonce := default 0 (ChainNonces bridge_minted !! 1) + 1 in
  exists who, Signed 7 = Signed who /\ enable token = true /\ 0 < 40 /\ fee token <= 40 /\
    out_amount token + 40 <= out_cap token /\
    out_amount (bridge_token bridge_sent a) = out_amount token + 40 /\
    ChainNonces bridge_sent = <[1 := nonce]> (ChainNonces bridge_minted) /\
    events bridge_sent =
      events bridge_minted ++ [TeleportBurned who 1 nonce 10 [1; 2] (40 - fee token) (fee token)] /\
    balance (assets bridge_sent) a who = balance (assets bridge_minted) a who - 40 /\
    balance (assets bridge_sent) a (account_id bridge_config) =
      balance (assets bridge_minted) a (account_id bridge_config) + (if external token then fee token else 40) /\
    total_issuance (assets bridge_sent) a =
      total_issuance (assets bridge_minted) a - (if external token then 40 - fee token else 0).
Proof.
  assert (H1 : teleport bridge_config (Signed 7) 1 10 [1; 2] 40 bridge_minted = Ok (tt, bridge_sent))
    by (vm_compute; reflexivity).
  assert (H2 : minimum_balance (L := ledger) (asset_id bridge_minted 10) <= 1) by (vm_compute; discriminate).
  assert (H3 : Signed 7 <> Signed (account_id bridge_config)) by discriminate.
  exact (teleport_accounts bridge_config bridge_minted (Signed 7) 1 10 [1; 2] 40 bridge_sent H1 H2 H3).
Defined.

Lemma change_vote_threshold_succeeds_witness :
  exists t,
    change_vote_threshold bridge_config bridge_minted =
      Ok (tt, push_event (VoteThresholdUpdated t) (set_VoteThreshold t bridge_minted)) /\
    1 <= t <= 3 /\ 50 * 3 <= 100 * t < 50 * 3 + 100.
Proof.
  apply (change_vote_threshold_succeeds bridge_config bridge_minted); by_eval.
Defined.
End instances.

(** Nonce 0, once the registry holds an interval it does not border on, is not recorded: the
    subtraction [nonce - 1] underflows. *)
Lemma nonce_zero_panics a b : 1 < a -> extend 0 (a, b) = Panic.
Proof.
  intros Ha. unfold extend. simpl.
  rewrite (proj2 (checked_add_to_Some u64_max 0 1 1)), checked_sub_none by (vm_compute; intuition discriminate).
  simpl. destruct (Z.eqb_spec a 1); [lia | done].
Qed.
