(* ===== verification/CurrencyAdapter.v ===== *)
(** * The currency adapter (src/pallets/currency-adapter/src/lib.rs)

    One ledger in front of two: [pallet_balances] for the native currency and [pallet_assets] for
    all others.  Both are outside the repository: the first is the class [Fungible] (one currency,
    with locks), the second the class [Fungibles] of Frame.v.  The adapter is an instance of
    [Fungibles] again, the one that the runtimes give to the pallets as [T::Assets]; [adapter_laws]
    shows that it has the behaviour which the theorems about the pallets ask of it. *)

From S2P Require Import Prelude Arith Frame Ledger.
Import CurrencyAdapterErrors.

(** ** [T::Balances]: fungible's [Inspect], [Mutate] and [Transfer], and [LockableCurrency] *)

Abbreviation LockIdentifier := Z (only parsing).

Class Fungible (B : Type) := {
  f_total_issuance : B -> Balance;
  f_minimum_balance : Balance;
  f_balance : B -> AccountId -> Balance;
  f_reducible_balance : B -> AccountId -> bool -> Balance;
  f_can_deposit : B -> AccountId -> Balance -> bool -> DepositConsequence;
  f_can_withdraw : B -> AccountId -> Balance -> WithdrawConsequence;
  f_transfer : AccountId -> AccountId -> Balance -> bool -> B -> Res B;
  f_mint_into : AccountId -> Balance -> B -> Res B;
  f_burn_from : AccountId -> Balance -> B -> Res B;
  f_locked : B -> AccountId -> Balance;  (* the largest of the locks on an account *)
  set_lock : LockIdentifier -> AccountId -> Balance -> B -> B;
  remove_lock : LockIdentifier -> AccountId -> B -> B;
}.

Definition f_dust_free {B} `{Fungible B} (b : B) (who : AccountId) (amt : Balance) : Prop :=
  amt = 0 \/ f_balance b who - amt = 0 \/ f_minimum_balance <= f_balance b who - amt.

Class FungibleLaws (B : Type) `{F : Fungible B} : Prop := {
  f_balance_range b x : is_u128 (f_balance b x);
  f_total_issuance_range b : is_u128 (f_total_issuance b);
  f_reducible_balance_range b x k : 0 <= f_reducible_balance b x k <= f_balance b x;
  f_transfer_enough f t amt k b b' :
    f_transfer f t amt k b = Ok b' -> f <> t -> amt <= f_balance b f;
  f_transfer_dest f t amt k b b' :
    f_transfer f t amt k b = Ok b' -> f <> t -> f_balance b t + amt <= f_balance b' t;
  f_transfer_exact f t amt k b b' :
    f_transfer f t amt k b = Ok b' -> f <> t -> f_dust_free b f amt ->
    f_balance b' t = f_balance b t + amt /\ f_balance b' f = f_balance b f - amt;
  f_transfer_self f amt k b b' :
    f_transfer f f amt k b = Ok b' -> f_balance b' f = f_balance b f;
  f_transfer_frame f t amt k b b' x :
    f_transfer f t amt k b = Ok b' -> x <> f /\ x <> t -> f_balance b' x = f_balance b x;
  f_transfer_issuance f t amt k b b' :
    f_transfer f t amt k b = Ok b' -> f_dust_free b f amt ->
    f_total_issuance b' = f_total_issuance b;
  f_transfer_keep_alive f t amt b b' :
    f_transfer f t amt true b = Ok b' -> f <> t -> f_dust_free b f amt;
  f_mint_into_balance w amt b b' :
    f_mint_into w amt b = Ok b' -> f_balance b' w = f_balance b w + amt;
  f_mint_into_frame w amt b b' x :
    f_mint_into w amt b = Ok b' -> x <> w -> f_balance b' x = f_balance b x;
  f_mint_into_issuance w amt b b' :
    f_mint_into w amt b = Ok b' -> f_total_issuance b' = f_total_issuance b + amt;
  f_burn_from_enough w amt b b' : f_burn_from w amt b = Ok b' -> amt <= f_balance b w;
  f_burn_from_exact w amt b b' :
    f_burn_from w amt b = Ok b' -> f_dust_free b w amt ->
    f_balance b' w = f_balance b w - amt /\ f_total_issuance b' = f_total_issuance b - amt;
  f_burn_from_frame w amt b b' x :
    f_burn_from w amt b = Ok b' -> x <> w -> f_balance b' x = f_balance b x;
  (* locks: no operation moves them, and what is paid comes from what lies above them *)
  f_transfer_locked f t amt k b b' x :
    f_transfer f t amt k b = Ok b' -> f_locked b' x = f_locked b x;
  f_mint_into_locked w amt b b' x : f_mint_into w amt b = Ok b' -> f_locked b' x = f_locked b x;
  f_burn_from_locked w amt b b' x : f_burn_from w amt b = Ok b' -> f_locked b' x = f_locked b x;
  f_transfer_above f t amt k b b' :
    f_transfer f t amt k b = Ok b' -> f <> t -> amt = 0 \/ f_locked b f <= f_balance b' f;
  f_burn_from_above w amt b b' :
    f_burn_from w amt b = Ok b' -> amt = 0 \/ f_locked b w <= f_balance b' w;
  f_mint_into_nonneg w amt b b' : f_mint_into w amt b = Ok b' -> 0 <= amt;
  f_transfer_nonneg f t amt k b b' : f_transfer f t amt k b = Ok b' -> 0 <= amt;
  set_lock_locked i w amt b : amt <= f_locked (set_lock i w amt b) w;
  set_lock_other i w amt b x : x <> w -> f_locked (set_lock i w amt b) x = f_locked b x;
  set_lock_balance i w amt b x : f_balance (set_lock i w amt b) x = f_balance b x;
  set_lock_issuance i w amt b : f_total_issuance (set_lock i w amt b) = f_total_issuance b;
  remove_lock_other i w b x : x <> w -> f_locked (remove_lock i w b) x = f_locked b x;
  remove_lock_balance i w b x : f_balance (remove_lock i w b) x = f_balance b x;
  remove_lock_issuance i w b : f_total_issuance (remove_lock i w b) = f_total_issuance b;
}.

(** What else [T::Assets] answers *)
Class FungiblesQueries (L : Type) := {
  a_can_deposit : L -> CurrencyId -> AccountId -> Balance -> bool -> DepositConsequence;
  a_can_withdraw : L -> CurrencyId -> AccountId -> Balance -> WithdrawConsequence;
  a_asset_exists : L -> CurrencyId -> bool;
}.

(** ** The pallet *)

Module CurrencyAdapter.

Record Config := mkConfig {
  GetNativeCurrencyId : CurrencyId;
  LockOrigin : RuntimeOrigin -> bool;
}.

(** The storage behind the adapter; the pallet has none of its own. *)
Record State (L B : Type) := mkState { Assets : L; Balances : B }.
Arguments mkState {L B}.
Arguments Assets {L B}.
Arguments Balances {L B}.

(** [*b"cadapter"] *)
Definition CURRENCY_ADAPTER_ID : LockIdentifier := 0x6361646170746572.

Section pallet.
Context {L B : Type} {FU : Fungibles L} {FQ : FungiblesQueries L} {FB : Fungible B}.
Variable T : Config.

Abbreviation St := (State L B).
Definition native (asset : CurrencyId) : bool := asset =? GetNativeCurrencyId T.

Definition on_assets (f : L -> Res L) (s : St) : Res St :=
  l ← f (Assets s); Ok (mkState l (Balances s)).
Definition on_balances (f : B -> Res B) (s : St) : Res St :=
  b ← f (Balances s); Ok (mkState (Assets s) b).

(** [Inspects] *)
Definition total_issuance (s : St) (asset : CurrencyId) : Balance :=
  if native asset then f_total_issuance (Balances s) else Frame.total_issuance (Assets s) asset.
Definition minimum_balance (asset : CurrencyId) : Balance :=
  if native asset then f_minimum_balance else Frame.minimum_balance asset.
Definition balance (s : St) (asset : CurrencyId) (who : AccountId) : Balance :=
  if native asset then f_balance (Balances s) who else Frame.balance (Assets s) asset who.
Definition reducible_balance (s : St) (asset : CurrencyId) (who : AccountId) (keep_alive : bool)
    : Balance :=
  if native asset then f_reducible_balance (Balances s) who keep_alive
  else Frame.reducible_balance (Assets s) asset who keep_alive.
Definition can_deposit (s : St) (asset : CurrencyId) (who : AccountId) (amount : Balance)
    (mint : bool) : DepositConsequence :=
  if native asset then f_can_deposit (Balances s) who amount mint
  else a_can_deposit (Assets s) asset who amount mint.
Definition can_withdraw (s : St) (asset : CurrencyId) (who : AccountId) (amount : Balance)
    : WithdrawConsequence :=
  if native asset then f_can_withdraw (Balances s) who amount
  else a_can_withdraw (Assets s) asset who amount.
Definition asset_exists (s : St) (asset : CurrencyId) : bool :=
  if native asset then true else a_asset_exists (Assets s) asset.

(** [Mutates] and [Transfers] *)
Definition mint_into (asset : CurrencyId) (who : AccountId) (amount : Balance) : St -> Res St :=
  if native asset then on_balances (f_mint_into who amount)
  else on_assets (Frame.mint_into asset who amount).
Definition burn_from (asset : CurrencyId) (who : AccountId) (amount : Balance) : St -> Res St :=
  if native asset then on_balances (f_burn_from who amount)
  else on_assets (Frame.burn_from asset who amount).
Definition transfer (asset : CurrencyId) (source dest : AccountId) (amount : Balance)
    (keep_alive : bool) : St -> Res St :=
  if native asset then on_balances (f_transfer source dest amount keep_alive)
  else on_assets (Frame.transfer asset source dest amount keep_alive).

Definition adapter : Fungibles St := {|
  Frame.total_issuance := total_issuance;
  Frame.minimum_balance := minimum_balance;
  Frame.balance := balance;
  Frame.reducible_balance := reducible_balance;
  Frame.transfer := transfer;
  Frame.mint_into := mint_into;
  Frame.burn_from := burn_from;
|}.

(** Extrinsics *)
Definition force_set_lock (origin : RuntimeOrigin) (asset : CurrencyId) (who : AccountId)
    (amount : Balance) (s : St) : Res St :=
  _ ← ensure_origin (LockOrigin T) origin;
  _ ← ensure (asset =? GetNativeCurrencyId T) (CurrencyAdapter NotANativeToken);
  Ok (mkState (Assets s) (set_lock CURRENCY_ADAPTER_ID who amount (Balances s))).

Definition force_remove_lock (origin : RuntimeOrigin) (asset : CurrencyId) (who : AccountId)
    (s : St) : Res St :=
  _ ← ensure_origin (LockOrigin T) origin;
  _ ← ensure (asset =? GetNativeCurrencyId T) (CurrencyAdapter NotANativeToken);
  Ok (mkState (Assets s) (remove_lock CURRENCY_ADAPTER_ID who (Balances s))).
End pallet.
End CurrencyAdapter.
Import CurrencyAdapter.

(** ** The adapter is a ledger *)

Section adapter.
Context {L B : Type} {FU : Fungibles L} {FL : FungiblesLaws L} {FB : Fungible B} {BL : FungibleLaws B}.
Context (T : Config).
#[local] Existing Instance adapter.
Implicit Types s : State L B.

Lemma adapter_assets_Ok (f : L -> Res L) s s' :
  on_assets f s = Ok s' -> exists l, f (Assets s) = Ok l /\ s' = mkState l (Balances s).
Proof. unfold on_assets. intros H. minv. eauto. Qed.
Lemma adapter_balances_Ok (f : B -> Res B) s s' :
  on_balances f s = Ok s' -> exists b, f (Balances s) = Ok b /\ s' = mkState (Assets s) b.
Proof. unfold on_balances. intros H. minv. eauto. Qed.

Lemma native_spec a : native T a = true /\ a = GetNativeCurrencyId T \/ native T a = false /\ a <> GetNativeCurrencyId T.
Proof. unfold native. destruct (Z.eqb_spec a (GetNativeCurrencyId T)); auto. Qed.

(** Splits a law on the currencies it names and inverts the operation. *)
Ltac split_native := repeat match goal with
  | |- context [native T ?a] =>
      let E := fresh in destruct (native_spec a) as [[E ?]|[E ?]]; rewrite ?E in *; clear E
  end.
Ltac invert_op := match goal with
  | H : on_assets _ _ = Ok _ |- _ => apply adapter_assets_Ok in H as (? & H & ->)
  | H : on_balances _ _ = Ok _ |- _ => apply adapter_balances_Ok in H as (? & H & ->)
  end.
Ltac adapter_law :=
  unfold dust_free; simpl;
  unfold CurrencyAdapter.transfer, CurrencyAdapter.mint_into, CurrencyAdapter.burn_from,
    CurrencyAdapter.balance, CurrencyAdapter.total_issuance, CurrencyAdapter.reducible_balance,
    CurrencyAdapter.minimum_balance;
  intros *; split_native; intros; try invert_op; simpl in *; try congruence.

#[local] Hint Resolve balance_range f_balance_range total_issuance_range f_total_issuance_range
  reducible_balance_range f_reducible_balance_range transfer_enough f_transfer_enough transfer_dest
  f_transfer_dest transfer_dest_exact transfer_source transfer_self f_transfer_self
  transfer_frame transfer_issuance f_transfer_issuance transfer_issuance_frame transfer_keep_alive
  f_transfer_keep_alive mint_into_balance f_mint_into_balance mint_into_frame mint_into_issuance
  f_mint_into_issuance mint_into_issuance_frame burn_from_enough f_burn_from_enough burn_from_balance
  burn_from_frame burn_from_issuance burn_from_issuance_frame : pallets.

(** C20: The currency adapter implements the ledger which the pallets are verified against.
    Whenever [T::Balances] keeps the documented behaviour of one currency and [T::Assets] that of
    many, the adapter that sends the native currency to the first and every other one to the
    second satisfies every law of [FungiblesLaws]: ranges, what a transfer, a mint and a burn do
    to the accounts they name and to the issuance, and that they leave every other account and
    every other currency, on either side, as it was. *)
Theorem adapter_laws : FungiblesLaws (State L B) (F := adapter T).
Proof.
  split; adapter_law; eauto with pallets.
  - eapply f_transfer_exact; eauto.
  - eapply f_transfer_exact; eauto.
  - eapply f_transfer_frame; [eassumption |]. destruct_or!; [congruence | done].
  - eapply f_transfer_keep_alive; eauto.
  - eapply transfer_keep_alive; eauto.
  - eapply f_mint_into_frame; [eassumption |]. destruct_or!; [congruence | done].
  - eapply f_burn_from_exact; eauto.
  - eapply f_burn_from_frame; [eassumption |]. destruct_or!; [congruence | done].
  - eapply f_burn_from_exact; eauto.
Qed.

(** ** Locks *)

(** Operations on the ledger through the adapter by anyone, and locks set on, or taken from,
    accounts other than [who] *)
Inductive op_step (who : AccountId) : State L B -> State L B -> Prop :=
| op_transfer s a f t amt k s' : CurrencyAdapter.transfer T a f t amt k s = Ok s' -> op_step who s s'
| op_mint s a w amt s' : CurrencyAdapter.mint_into T a w amt s = Ok s' -> op_step who s s'
| op_burn s a w amt s' : CurrencyAdapter.burn_from T a w amt s = Ok s' -> op_step who s s'
| op_lock s origin a x amt s' :
    x <> who -> force_set_lock T origin a x amt s = Ok s' -> op_step who s s'
| op_unlock s origin a x s' : x <> who -> force_remove_lock T origin a x s = Ok s' -> op_step who s s'.

Definition held (who : AccountId) (amt : Balance) s : Prop :=
  amt <= f_locked (Balances s) who /\ amt <= f_balance (Balances s) who.

Lemma f_transfer_held f t amt k b b' who h :
  f_transfer f t amt k b = Ok b' -> h <= f_locked b who -> h <= f_balance b who -> h <= f_balance b' who.
Proof.
  intros H Hl Hb. pose proof (f_transfer_nonneg _ _ _ _ _ _ H) as Hn.
  destruct (decide (f = t)) as [->|Hne].
  { destruct (decide (who = t)) as [->|Hw]; [by rewrite (f_transfer_self _ _ _ _ _ H) |].
    by rewrite (f_transfer_frame _ _ _ _ _ _ who H). }
  destruct (decide (who = f)) as [->|Hf].
  - destruct (f_transfer_above _ _ _ _ _ _ H Hne) as [->|?]; [| lia].
    destruct (f_transfer_exact _ _ _ _ _ _ H Hne) as [_ ->]; [by left | lia].
  - destruct (decide (who = t)) as [->|Ht]; [pose proof (f_transfer_dest _ _ _ _ _ _ H Hne); lia |].
    by rewrite (f_transfer_frame _ _ _ _ _ _ who H).
Qed.

Lemma f_burn_held w amt b b' who h :
  f_burn_from w amt b = Ok b' -> h <= f_locked b who -> h <= f_balance b who -> h <= f_balance b' who.
Proof.
  intros H Hl Hb. destruct (decide (who = w)) as [->|Hw]; [| by rewrite (f_burn_from_frame _ _ _ _ _ H)].
  destruct (f_burn_from_above _ _ _ _ H) as [->|?]; [| lia].
  destruct (f_burn_from_exact _ _ _ _ H) as [-> _]; [by left | lia].
Qed.

Lemma op_step_held who h s s' : held who h s -> op_step who s s' -> held who h s'.
Proof.
  intros [Hl Hb] H. unfold held. inversion H as [? a f t amt k ? Ho | ? a w amt ? Ho | ? a w amt ? Ho
    | ? origin a x amt ? Hx Ho | ? origin a x ? Hx Ho]; subst; clear H.
  - unfold CurrencyAdapter.transfer in Ho. destruct (native T a); invert_op; simpl; [| done].
    rewrite (f_transfer_locked _ _ _ _ _ _ who Ho). eauto using f_transfer_held.
  - unfold CurrencyAdapter.mint_into in Ho. destruct (native T a); invert_op; simpl; [| done].
    rewrite (f_mint_into_locked _ _ _ _ who Ho). split; [done |].
    pose proof (f_mint_into_nonneg _ _ _ _ Ho).
    destruct (decide (who = w)) as [->|Hw]; [rewrite (f_mint_into_balance _ _ _ _ Ho); lia |].
    by rewrite (f_mint_into_frame _ _ _ _ who Ho).
  - unfold CurrencyAdapter.burn_from in Ho. destruct (native T a); invert_op; simpl; [| done].
    rewrite (f_burn_from_locked _ _ _ _ who Ho). eauto using f_burn_held.
  - unfold force_set_lock in Ho. minv. rewrite set_lock_other, set_lock_balance by congruence. done.
  - unfold force_remove_lock in Ho. minv. rewrite remove_lock_other, remove_lock_balance by congruence. done.
Qed.

(** Native funds under the adapter's lock stay where they are.  After [force_set_lock] has put
    a lock on an account, no sequence of transfers, mints and burns through the adapter, in
    whatever currency and whether or not the account may die, and no locks set on or removed from
    other accounts, takes the account's native balance below the locked amount (or below what it
    had, if that was less). *)
Theorem locked_native_stays origin a who amt s0 s1 s2 :
  force_set_lock T origin a who amt s0 = Ok s1 -> rtc (op_step who) s1 s2 ->
  a = GetNativeCurrencyId T /\
  Z.min amt (CurrencyAdapter.balance T s0 a who) <= CurrencyAdapter.balance T s2 a who.
Proof.
  intros H Hs. unfold force_set_lock in H. minv. zbool. subst a. split; [done |].
  unfold CurrencyAdapter.balance, native. rewrite Z.eqb_refl.
  assert (Hh : held who (Z.min amt (f_balance (Balances s0) who))
                 (mkState (Assets s0) (set_lock CURRENCY_ADAPTER_ID who amt (Balances s0)))).
  { split; simpl; [pose proof (set_lock_locked CURRENCY_ADAPTER_ID who amt (Balances s0)); lia |].
    rewrite set_lock_balance. lia. }
  assert (Hh2 : held who (Z.min amt (f_balance (Balances s0) who)) s2);
    [| by destruct Hh2]. induction Hs; eauto using op_step_held.
Qed.
End adapter.

(** ** One currency with locks, kept in a ledger *)

Record bank := Bank { bank_ledger : ledger; bank_locks : gmap AccountId (gmap LockIdentifier Balance) }.

Definition bank_locked (b : bank) (x : AccountId) : Balance :=
  map_fold (fun _ v m => Z.max v m) 0 (default ∅ (bank_locks b !! x)).
Definition bank_pay (x : AccountId) (amt : Balance) (b : bank) (l : Res ledger) : Res bank :=
  l' ← l;
  _ ← ensure ((amt =? 0) || (bank_locked b x <=? ledger_balance l' 0 x)) (Token Frozen);
  Ok (Bank l' (bank_locks b)).
Definition bank_transfer (f t : AccountId) (amt : Balance) (k : bool) (b : bank) : Res bank :=
  if decide (f = t) then l ← ledger_transfer 0 f t amt k (bank_ledger b); Ok (Bank l (bank_locks b))
  else bank_pay f amt b (ledger_transfer 0 f t amt k (bank_ledger b)).

Definition bank_ops : Fungible bank := {|
  f_total_issuance b := ledger_total (bank_ledger b) 0;
  f_minimum_balance := 1;
  f_balance b := ledger_balance (bank_ledger b) 0;
  f_reducible_balance b x _ := Z.max 0 (ledger_balance (bank_ledger b) 0 x - bank_locked b x);
  f_can_deposit b x amt _ :=
    if ledger_balance (bank_ledger b) 0 x + amt <=? u128_max then DepSuccess else DepOverflow;
  f_can_withdraw b x amt :=
    if amt + bank_locked b x <=? ledger_balance (bank_ledger b) 0 x then WdSuccess else WdNoFunds;
  f_transfer := bank_transfer;
  f_mint_into w amt b := l ← ledger_mint 0 w amt (bank_ledger b); Ok (Bank l (bank_locks b));
  f_burn_from w amt b := bank_pay w amt b (ledger_burn 0 w amt (bank_ledger b));
  f_locked := bank_locked;
  set_lock i w amt b :=
    Bank (bank_ledger b) (<[w := <[i := amt]> (default ∅ (bank_locks b !! w))]> (bank_locks b));
  remove_lock i w b :=
    Bank (bank_ledger b) (<[w := delete i (default ∅ (bank_locks b !! w))]> (bank_locks b));
|}.

Lemma locks_max (m : gmap LockIdentifier Balance) :
  0 <= map_fold (fun _ v n => Z.max v n) 0 m /\
  forall i v, m !! i = Some v -> v <= map_fold (fun _ v n => Z.max v n) 0 m.
Proof.
  induction m as [|i v m Hi [IH1 IH2]] using map_ind.
  - rewrite map_fold_empty. split; [done |]. by intros i v.
  - rewrite (map_fold_insert_L (fun _ v n => Z.max v n)) by (done || lia). split; [lia |].
    intros j w. rewrite lookup_insert_Some. intros [[_ ->]|[_ H]]; [lia |]. specialize (IH2 j w H). lia.
Qed.

Lemma bank_pay_Ok x amt b l b' :
  bank_pay x amt b l = Ok b' -> l = Ok (bank_ledger b') /\ bank_locks b' = bank_locks b /\
  (amt = 0 \/ bank_locked b x <= ledger_balance (bank_ledger b') 0 x).
Proof.
  unfold bank_pay. intros H. minv. split; [done |]. split; [done |].
  match goal with H : (_ || _)%bool = true |- _ => apply orb_true_iff in H as [?|?] end; zbool; auto.
Qed.

Lemma bank_locked_same b b' x : bank_locks b' = bank_locks b -> bank_locked b' x = bank_locked b x.
Proof. unfold bank_locked. by intros ->. Qed.

Section bank.
#[local] Existing Instance bank_ops.
#[local] Existing Instance ledger_ops.
#[local] Existing Instance ledger_ops_laws.

Lemma bank_transfer_Ok f t amt k b b' :
  bank_transfer f t amt k b = Ok b' ->
  ledger_transfer 0 f t amt k (bank_ledger b) = Ok (bank_ledger b') /\ bank_locks b' = bank_locks b /\
  (f <> t -> amt = 0 \/ bank_locked b f <= ledger_balance (bank_ledger b') 0 f).
Proof.
  unfold bank_transfer. case_decide as E; intros H; [by minv |].
  by apply bank_pay_Ok in H as (-> & -> & ?).
Qed.

Ltac bank_law := intros *; intros H; intros;
  repeat match goal with
  | H : bank_transfer _ _ _ _ _ = Ok _ |- _ => apply bank_transfer_Ok in H as (H & ? & ?)
  | H : bank_pay _ _ _ _ = Ok _ |- _ => apply bank_pay_Ok in H as (H & ? & ?)
  | H : (_ ≫= _) = Ok _ |- _ => apply result_bind_Ok in H as (? & H & [= <-])
  end; simpl in *;
  try change ledger_transfer with (Frame.transfer (L := ledger)) in H;
  try change ledger_mint with (Frame.mint_into (L := ledger)) in H;
  try change ledger_burn with (Frame.burn_from (L := ledger)) in H.

Lemma bank_ops_laws : FungibleLaws bank.
Proof.
  split; simpl.
  - intros. apply ledger_balance_u128.
  - intros. apply ledger_total_u128.
  - intros. pose proof (ledger_balance_u128 (bank_ledger b) 0 x).
    pose proof (locks_max (default ∅ (bank_locks b !! x))) as [? _]. fold (bank_locked b x) in *.
    unfold is_u128 in *. lia.
  - bank_law. by apply (transfer_enough _ _ _ _ _ _ _ H).
  - bank_law. by apply (transfer_dest _ _ _ _ _ _ _ H).
  - bank_law. split; [by apply (transfer_dest_exact _ _ _ _ _ _ _ H) | by apply (transfer_source _ _ _ _ _ _ _ H)].
  - bank_law. apply (transfer_self _ _ _ _ _ _ H).
  - bank_law. apply (transfer_frame _ _ _ _ _ _ _ _ _ H). auto.
  - bank_law. by apply (transfer_issuance _ _ _ _ _ _ _ H).
  - bank_law. by apply (transfer_keep_alive _ _ _ _ _ _ H).
  - bank_law. apply (mint_into_balance _ _ _ _ _ H).
  - bank_law. apply (mint_into_frame _ _ _ _ _ _ _ H). auto.
  - bank_law. apply (mint_into_issuance _ _ _ _ _ H).
  - bank_law. apply (burn_from_enough _ _ _ _ _ H).
  - bank_law. split; [by apply (burn_from_balance _ _ _ _ _ H) | by apply (burn_from_issuance _ _ _ _ _ H)].
  - bank_law. apply (burn_from_frame _ _ _ _ _ _ _ H). auto.
  - bank_law. by apply bank_locked_same.
  - bank_law. by apply bank_locked_same.
  - bank_law. by apply bank_locked_same.
  - bank_law. auto.
  - bank_law. auto.
  - bank_law. cbv [Frame.mint_into ledger_ops] in H. unfold ledger_mint in H. minv. by zbool.
  - bank_law. cbv [Frame.transfer ledger_ops] in H. unfold ledger_transfer in H. minv. by zbool.
  - intros. unfold bank_locked; simpl. rewrite lookup_insert_eq; simpl.
    eapply locks_max. apply lookup_insert_eq.
  - intros. unfold bank_locked; simpl. by rewrite lookup_insert_ne.
  - done.
  - done.
  - intros. unfold bank_locked; simpl. by rewrite lookup_insert_ne.
  - done.
  - done.
Qed.
End bank.

(** ** An instance: currency 0 is native, account 1 is locked and then pays *)

Definition adapter_config : Config := mkConfig 0 (fun o => match o with Root => true | _ => false end).
Definition adapter_state : State ledger bank :=
  mkState (Ledger {[ (5, 1) := 70 ]} {[ 5 := 70 ]}) (Bank (Ledger {[ (0, 1) := 100 ]} {[ 0 := 100 ]}) ∅).
Definition adapter_locked : State ledger bank :=
  mkState (Assets adapter_state) (set_lock (Fungible := bank_ops) CURRENCY_ADAPTER_ID 1 60 (Balances adapter_state)).
Definition adapter_paid : State ledger bank :=
  match CurrencyAdapter.transfer (FU := ledger_ops) (FB := bank_ops) adapter_config 0 1 2 40 false adapter_locked with
  | Ok s => s | _ => adapter_locked
  end.

Section instances.
#[local] Existing Instance bank_ops.
#[local] Existing Instance bank_ops_laws.
#[local] Existing Instance ledger_ops.
#[local] Existing Instance ledger_ops_laws.

Example locked_funds_refused :
  CurrencyAdapter.transfer adapter_config 0 1 2 41 false adapter_locked = Err (Token Frozen).
Proof. vm_compute. reflexivity. Qed.

Lemma adapter_laws_witness : FungiblesLaws (State ledger bank) (F := adapter adapter_config).
Proof. exact (adapter_laws adapter_config). Defined.

Lemma locked_native_stays_witness :
  CurrencyAdapter.balance adapter_config adapter_paid 0 1 = 60 /\
  0 = GetNativeCurrencyId adapter_config /\
  Z.min 60 (CurrencyAdapter.balance adapter_config adapter_state 0 1)
    <= CurrencyAdapter.balance adapter_config adapter_paid 0 1.
Proof.
  split; [vm_compute; reflexivity |].
  apply (locked_native_stays adapter_config Root 0 1 60 adapter_state adapter_locked adapter_paid); [by_eval |].
  apply rtc_once. apply (op_transfer adapter_config 1 _ 0 1 2 40 false). by_eval.
Defined.
End instances.
