(* ===== verification/EmergencyShutdown.v ===== *)
(** * The emergency shutdown (src/pallets/emergency-shutdown/src/lib.rs)

    Whole pallets, or single calls of them, can be switched off and on again; the runtimes ask
    [contains] before they dispatch a call.  The overarching call type belongs to a runtime: it is a
    parameter with its SCALE encoding. *)

From S2P Require Import Prelude Arith Frame.

Module EmergencyShutdown.

Record Config := mkConfig {
  RuntimeCall : Type;
  encode : RuntimeCall -> list Z;       (* the bytes of [Encode] *)
  Whitelist : RuntimeCall -> bool;
  ShutdownOrigin : RuntimeOrigin -> bool;
}.

Inductive Event := ToggledPallet (flag : bool) | ToggledCall (flag : bool).

Record State := mkState {
  DisabledPallets : gmap Z bool;
  DisabledCalls : gmap (Z * Z) bool;
  events : list Event;
}.

Definition disabled_pallets (s : State) (pallet_idx : Z) : bool :=
  default false (DisabledPallets s !! pallet_idx).
Definition disabled_calls (s : State) (pallet_idx call_idx : Z) : bool :=
  default false (DisabledCalls s !! (pallet_idx, call_idx)).

Section pallet.
Variable T : Config.

Definition toggle_pallet (origin : RuntimeOrigin) (pallet_idx : Z) (s : State) : Res State :=
  _ ← ensure_origin (ShutdownOrigin T) origin;
  let updated_flag := negb (disabled_pallets s pallet_idx) in
  Ok (mkState (<[pallet_idx := updated_flag]> (DisabledPallets s)) (DisabledCalls s)
        (events s ++ [ToggledPallet updated_flag])).

Definition toggle_call (origin : RuntimeOrigin) (pallet_idx call_idx : Z) (s : State) : Res State :=
  _ ← ensure_origin (ShutdownOrigin T) origin;
  let updated_flag := negb (disabled_calls s pallet_idx call_idx) in
  Ok (mkState (DisabledPallets s) (<[(pallet_idx, call_idx) := updated_flag]> (DisabledCalls s))
        (events s ++ [ToggledCall updated_flag])).

(** Decoding a pair of [u8] takes the first two bytes; [expect] panics when there are fewer. *)
Definition decode_index (bytes : list Z) : option (Z * Z) :=
  match bytes with pallet_idx :: call_idx :: _ => Some (pallet_idx, call_idx) | _ => None end.

Definition contains (call : RuntimeCall T) (s : State) : Res bool :=
  '(pallet_idx, call_idx) ← or_panic (decode_index (encode T call));
  Ok (Whitelist T call ||
      (negb (disabled_pallets s pallet_idx) && negb (disabled_calls s pallet_idx call_idx))).
End pallet.
End EmergencyShutdown.
Import EmergencyShutdown.

(** ** What the filter lets through *)

Inductive Toggle := TogglePallet (pallet_idx : Z) | ToggleOne (pallet_idx call_idx : Z).
Definition apply_toggle (T : Config) (origin : RuntimeOrigin) (t : Toggle) : State -> Res State :=
  match t with
  | TogglePallet p => toggle_pallet T origin p
  | ToggleOne p c => toggle_call T origin p c
  end.
(** The toggles in order, the ones from an origin that may not shut down being refused *)
Fixpoint apply_toggles (T : Config) (ts : list (RuntimeOrigin * Toggle)) (s : State) : State :=
  match ts with
  | [] => s
  | (o, t) :: ts' =>
      apply_toggles T ts' (match apply_toggle T o t s with Ok s' => s' | _ => s end)
  end.

(** Whether a pallet, or a call of it, has been toggled an odd number of times by the origins that
    may do so *)
Definition odd_pallet (T : Config) (p : Z) (ts : list (RuntimeOrigin * Toggle)) : bool :=
  foldr (fun ot b => match ot.2 with
                     | TogglePallet q => xorb (ShutdownOrigin T ot.1 && (q =? p)) b
                     | _ => b end) false ts.
Definition odd_call (T : Config) (p c : Z) (ts : list (RuntimeOrigin * Toggle)) : bool :=
  foldr (fun ot b => match ot.2 with
                     | ToggleOne q d => xorb (ShutdownOrigin T ot.1 && (q =? p) && (d =? c)) b
                     | _ => b end) false ts.

Lemma toggles_flags T ts : forall s p c,
  disabled_pallets (apply_toggles T ts s) p = xorb (odd_pallet T p ts) (disabled_pallets s p) /\
  disabled_calls (apply_toggles T ts s) p c = xorb (odd_call T p c ts) (disabled_calls s p c).
Proof.
  induction ts as [|[o t] ts IH]; intros s p c; simpl; [by destruct (disabled_pallets s p), (disabled_calls s p c) |].
  destruct (IH (match apply_toggle T o t s with Ok s' => s' | _ => s end) p c) as [-> ->]. clear IH.
  destruct t as [q | q d]; simpl; unfold toggle_pallet, toggle_call, ensure_origin, ensure;
    destruct (ShutdownOrigin T o); simpl; unfold disabled_pallets, disabled_calls; simpl; try done.
  - split; [| done]. destruct (Z.eqb_spec q p) as [->|Hne]; [rewrite lookup_insert_eq | rewrite lookup_insert_ne by done]; simpl;
      by destruct (odd_pallet T p ts), (default false (DisabledPallets s !! _)).
  - split; [done |]. destruct (decide ((q, d) = (p, c))) as [E|Hne].
    + injection E as -> ->. rewrite !Z.eqb_refl, lookup_insert_eq; simpl.
      by destruct (odd_call T p c ts), (default false (DisabledCalls s !! _)).
    + rewrite lookup_insert_ne by done. destruct (Z.eqb_spec q p), (Z.eqb_spec d c); simpl; (congruence || by destruct (odd_call T p c ts)).
Qed.

(** After any sequence of attempted toggles from the initial storage, by whatever origins, the
    filter refuses a call exactly when it is not on the whitelist and its pallet, or the call
    itself, has been toggled an odd number of times by origins that may shut down: the switches of
    other pallets and calls have no effect on it, an unauthorised toggle has none at all, and a
    second toggle undoes the first. *)
Theorem contains_parity T ts call p c rest :
  encode T call = p :: c :: rest ->
  contains T call (apply_toggles T ts (mkState ∅ ∅ [])) =
    Ok (Whitelist T call || (negb (odd_pallet T p ts) && negb (odd_call T p c ts))).
Proof.
  intros He. unfold contains. rewrite He. simpl.
  destruct (toggles_flags T ts (mkState ∅ ∅ []) p c) as [-> ->].
  unfold disabled_pallets, disabled_calls; simpl. by rewrite !xorb_false_r.
Qed.

(** Pallet 6 is off, then its call 1 is toggled by someone without the right; pallet 9 is toggled
    twice. *)
Definition shutdown_config : Config :=
  mkConfig (Z * Z) (fun c => [c.1; c.2; 0]) (fun c => c.2 =? 7)
    (fun o => match o with Root => true | _ => false end).
Definition shutdown_toggles : list (RuntimeOrigin * Toggle) :=
  [(Root, TogglePallet 6); (Root, TogglePallet 9); (Signed 1, TogglePallet 6); (Root, TogglePallet 9)].
Lemma contains_parity_witness :
  contains shutdown_config (6, 1) (apply_toggles shutdown_config shutdown_toggles (mkState ∅ ∅ [])) = Ok false /\
  contains shutdown_config (6, 1) (apply_toggles shutdown_config shutdown_toggles (mkState ∅ ∅ [])) =
    Ok (Whitelist shutdown_config (6, 1) ||
        (negb (odd_pallet shutdown_config 6 shutdown_toggles) && negb (odd_call shutdown_config 6 1 shutdown_toggles))).
Proof.
  split; [vm_compute; reflexivity |].
  exact (contains_parity shutdown_config shutdown_toggles (6, 1) 6 1 [0] eq_refl).
Defined.
