(* ===== verification/EvmSignatures.v ===== *)
(** * Calls signed with Ethereum keys (src/pallets/evm-signatures/src)

    An unsigned extrinsic that carries a call, its signer, an Ethereum signature and a nonce: the
    call is dispatched as the signer.  The system pallet, the currencies, the hash and the
    recovery of keys are parameters. *)

From stdpp Require Import strings.
From S2P Require Import Prelude Arith Frame EmergencyShutdown.
From stdpp Require Import list.
Import EvmSignaturesErrors.
#[local] Open Scope Z_scope.

Module EvmSignatures.

(** ** Ethereum signatures (ethereum.rs) *)

(** What is taken from [sp_io] and [sp_runtime] *)
Class Crypto := {
  keccak_256 : list Z -> list Z;
  secp256k1_ecdsa_recover_compressed : list Z -> list Z -> option (list Z);
  (** [MultiSigner::from(ecdsa::Public)] as an account *)
  into_account : list Z -> AccountId;
}.

Record EthereumSignature := mkSignature { signature_bytes : list Z }.
Definition try_from (data : list Z) : option EthereumSignature :=
  if (length data =? 65)%nat then Some (mkSignature data) else None.
(** The bytes of [\x19Ethereum Signed Message:\n32] *)
Definition message_prefix : list Z :=
  [25] ++ map (fun c => Z.of_nat (Ascii.nat_of_ascii c)) (String.list_ascii_of_string "Ethereum Signed Message:") ++ [10; 51; 50].
Definition signable_message {X : Crypto} (what : list Z) : list Z := message_prefix ++ keccak_256 what.
Definition verify {X : Crypto} (sig : EthereumSignature) (msg : list Z) (account : AccountId) : bool :=
  match secp256k1_ecdsa_recover_compressed (signature_bytes sig) (keccak_256 (signable_message msg)) with
  | Some public => bool_decide (account = into_account public)
  | None => false
  end.

(** ** The pallet *)

Record Config := mkConfig {
  CallFee : Balance;
  CallMagicNumber : Z;
  UnsignedPriority : Z;
  VerifySignature : bool;
  GetNativeCurrencyId : CurrencyId;
  WithdrawOrigin : list Z -> RuntimeOrigin -> option AccountId;
  AddressMapping : list Z -> AccountId;
}.

(** The chain: nonces, the fee, calls of the runtime and its currencies *)
Class Chain (L C : Type) := {
  account_nonce : L -> AccountId -> Z;
  inc_account_nonce : AccountId -> L -> L;
  (** [Currency::withdraw] for a fee, with [AllowDeath], which goes to [OnChargeTransaction] *)
  charge_fee : AccountId -> Balance -> L -> Res L;
  (** [dispatch_bypass_filter]; a call that fails changes nothing *)
  dispatch_bypass_filter : RuntimeOrigin -> C -> L -> Res L;
  (** [(magic, nonce, call).encode()] *)
  encode_payload : Z -> Z -> C -> list Z;
  currency_transfer : AccountId -> AccountId -> Balance -> bool -> L -> Res L;
  assets_transfer : CurrencyId -> AccountId -> AccountId -> Balance -> bool -> L -> Res L;
}.

Inductive Event := Executed (signer : AccountId) (res : Res unit).
Record State (L : Type) := mkState { chain : L; events : list Event }.
Arguments mkState {L}.
Arguments chain {L}.
Arguments events {L}.

Section pallet.
Context {L C : Type} {X : Crypto} {CH : Chain L C}.
Variable T : Config.
Abbreviation St := (State L).

Definition ensure_none (origin : RuntimeOrigin) : Res unit := match origin with Unsigned => Ok tt | _ => Err BadOrigin end.
Definition valid_signature (call : C) (signer : AccountId) (sig : EthereumSignature) (nonce : Z) : bool :=
  let payload := encode_payload (L := L) (CallMagicNumber T) nonce call in
  if VerifySignature T then verify sig payload signer else true.

Definition call (origin : RuntimeOrigin) (c : C) (signer : AccountId) (signature : list Z) (nonce : Z) (s : St) : Res St :=
  _ ← ensure_none origin;
  _ ← ensure (nonce =? account_nonce (chain s) signer) (EvmSignatures BadNonce);
  sig ← ok_or (try_from signature) (EvmSignatures DecodeFailure);
  _ ← ensure (valid_signature c signer sig nonce) (EvmSignatures InvalidSignature);
  l ← charge_fee signer (CallFee T) (inc_account_nonce signer (chain s));
  match dispatch_bypass_filter (Signed signer) c l with
  | Ok l' => Ok (mkState l' (events s ++ [Executed signer (Ok tt)]))
  | Err e => Ok (mkState l (events s ++ [Executed signer (Err e)]))
  | Panic => Panic
  end.

Definition transfer (asset : CurrencyId) (source dest : AccountId) (amount : Balance) (l : L) : Res L :=
  if asset =? GetNativeCurrencyId T then currency_transfer source dest amount true l
  else assets_transfer asset source dest amount true l.
Definition withdraw (origin : RuntimeOrigin) (asset : CurrencyId) (address : list Z) (value : Balance) (s : St) : Res St :=
  destination ← ok_or (WithdrawOrigin T address origin) BadOrigin;
  let address_account_id := AddressMapping T address in
  l ← transfer asset address_account_id destination value (chain s);
  Ok (mkState l (events s)).

(** ** Validation in the pool *)

Inductive Call := CallCall (c : C) (signer : AccountId) (signature : list Z) (nonce : Z) | CallWithdraw (asset : CurrencyId) (address : list Z) (value : Balance).
Inductive InvalidTransaction := InvalidCall | Stale | BadProof | Custom (code : Z).
(** [ValidTransaction]: the tag it provides is the prefix with the call, the signer and the nonce. *)
Record ValidTransaction := mkValid { priority : Z; provides : string * C * AccountId * Z; longevity : Z; propagate : bool }.
Definition SIGNATURE_DECODE_FAILURE : Z := 1.
Definition validate_unsigned (call : Call) (s : St) : result InvalidTransaction ValidTransaction :=
  match call with
  | CallCall c signer signature nonce =>
      if negb (nonce =? account_nonce (chain s) signer) then Err Stale
      else match try_from signature with
           | Some sig =>
               if valid_signature c signer sig nonce
               then Ok (mkValid (UnsignedPriority T) ("EVMSignatures", c, signer, nonce) 64 true)
               else Err BadProof
           | None => Err (Custom SIGNATURE_DECODE_FAILURE)
           end
  | _ => Err InvalidCall
  end.
Definition pre_dispatch (call : Call) : result InvalidTransaction unit := Ok tt.
Definition dispatch (origin : RuntimeOrigin) (c : Call) (s : St) : Res St :=
  match c with
  | CallCall c signer signature nonce => call origin c signer signature nonce s
  | CallWithdraw asset address value => withdraw origin asset address value s
  end.
End pallet.
End EvmSignatures.
Import EvmSignatures.

(** ** Signed calls *)

Class ChainLaws (L C : Type) {CH : Chain L C} : Prop :=
  nonce_incremented who l : account_nonce (inc_account_nonce who l) who = account_nonce l who + 1.

Section props.
Context {L C : Type} {X : Crypto} {CH : Chain L C} {CL : ChainLaws L C}.
Variable T : Config.
Implicit Types (s : State L) (c : C) (signer : AccountId) (nonce : Z).

(** The owner of [signer] signed the call for this nonce. *)
Definition signed_by signer c nonce (signature : list Z) : Prop :=
  length signature = 65%nat /\
  exists public, secp256k1_ecdsa_recover_compressed signature
      (keccak_256 (signable_message (encode_payload (L := L) (CallMagicNumber T) nonce c))) = Some public /\
    into_account public = signer.

Lemma try_from_Some data sig : try_from data = Some sig <-> length data = 65%nat /\ sig = mkSignature data.
Proof. unfold try_from. destruct (Nat.eqb_spec (length data) 65); naive_solver. Qed.
Lemma valid_signature_signed c signer sig nonce : VerifySignature T = true -> length (signature_bytes sig) = 65%nat ->
  valid_signature (L := L) T c signer sig nonce = true -> signed_by signer c nonce (signature_bytes sig).
Proof.
  unfold valid_signature, verify. intros -> Hl Hv. split; [done |]. destruct (secp256k1_ecdsa_recover_compressed _ _) as [public|]; [| done].
  exists public. split; [done |]. by apply bool_decide_eq_true in Hv.
Qed.

(** The pool and the runtime check the same, with matching errors. *)
Definition pool_error (e : InvalidTransaction) : DispatchError :=
  match e with
  | Stale => EvmSignatures BadNonce
  | Custom _ => EvmSignatures DecodeFailure
  | BadProof => EvmSignatures InvalidSignature
  | InvalidCall => BadOrigin
  end.
(** What remains of a call that is accepted *)
Definition run_call c signer s : Res (State L) :=
  l ← charge_fee signer (CallFee T) (inc_account_nonce signer (chain s));
  match dispatch_bypass_filter (Signed signer) c l with
  | Ok l' => Ok (mkState l' (events s ++ [Executed signer (Ok tt)]))
  | Err e => Ok (mkState l (events s ++ [Executed signer (Err e)]))
  | Panic => Panic
  end.
Lemma call_as_validated c signer signature nonce s :
  call T Unsigned c signer signature nonce s =
  match validate_unsigned T (CallCall c signer signature nonce) s with
  | Ok _ => run_call c signer s
  | Err e => Err (pool_error e)
  | Panic => Panic
  end.
Proof.
  unfold call, validate_unsigned. cbn. destruct (nonce =? _); cbn; [| done]. destruct (try_from signature) as [sig|]; cbn; [| done].
  by destruct (valid_signature _ _ _ _ _).
Qed.
Lemma validated c signer signature nonce s v : validate_unsigned T (CallCall c signer signature nonce) s = Ok v ->
  nonce = account_nonce (chain s) signer /\ length signature = 65%nat /\ valid_signature (L := L) T c signer (mkSignature signature) nonce = true.
Proof.
  cbn. destruct (Z.eqb_spec nonce (account_nonce (chain s) signer)) as [->|]; cbn; [| done].
  destruct (try_from signature) as [sig|] eqn:E; [| done]. apply try_from_Some in E as [Hl ->]. by destruct (valid_signature _ _ _ _ _).
Qed.

(** C15: A signed call runs once and for its signer: if an extrinsic with a call is applied successfully, the pool would have
    let it in, its nonce is the signer's and, where signatures are verified, the signer's key signed the call with this
    nonce; the signer's nonce is incremented and the fee paid before the call is dispatched as the signer; and from then on,
    as long as the nonce does not go back, the same extrinsic is stale in the pool and fails in a block. *)
Theorem signed_calls_run_once origin c signer signature nonce s s' :
  call T origin c signer signature nonce s = Ok s' ->
  origin = Unsigned /\ nonce = account_nonce (chain s) signer /\
  is_ok (validate_unsigned T (CallCall c signer signature nonce) s) = true /\
  (VerifySignature T = true -> signed_by signer c nonce signature) /\
  (exists l, charge_fee signer (CallFee T) (inc_account_nonce signer (chain s)) = Ok l /\
     (dispatch_bypass_filter (Signed signer) c l = Ok (chain s') \/
      chain s' = l /\ exists e, dispatch_bypass_filter (Signed signer) c l = Err e)) /\
  (account_nonce (inc_account_nonce signer (chain s)) signer = nonce + 1) /\
  forall s2, account_nonce (inc_account_nonce signer (chain s)) signer <= account_nonce (chain s2) signer ->
    call T origin c signer signature nonce s2 = Err (EvmSignatures BadNonce) /\
    validate_unsigned T (CallCall c signer signature nonce) s2 = Err Stale.
Proof.
  intros H. assert (origin = Unsigned) as -> by (by destruct origin; apply result_bind_Ok in H as (? & ? & _)).
  rewrite call_as_validated in H. destruct (validate_unsigned _ _ s) as [v| |] eqn:Ev; [| done | done].
  apply validated in Ev as (Hn & Hl & Hs). split; [done |]. split; [done |]. split; [done |]. split; [| split; [| split]].
  - intros Hv. by apply (valid_signature_signed c signer (mkSignature signature) nonce Hv Hl Hs).
  - apply result_bind_Ok in H as (l & Hf & H). exists l. split; [done |].
    destruct (dispatch_bypass_filter _ _ _) as [l'|e|]; [| | done]; injection H as <-; [by left | right; split; [done |]; by exists e].
  - rewrite nonce_incremented. lia.
  - intros s2 Hs2. rewrite nonce_incremented in Hs2. rewrite call_as_validated. cbn.
    rewrite (proj2 (Z.eqb_neq _ _)) by lia. done.
Qed.

(** Without verification a call passes for any signer, whoever sends it, with any 65 bytes for a signature. *)
Lemma unverified_call_passes c signer signature s :
  VerifySignature T = false -> length signature = 65%nat ->
  call T Unsigned c signer signature (account_nonce (chain s) signer) s = run_call c signer s.
Proof.
  intros Hv Hl. rewrite call_as_validated. cbn. rewrite Z.eqb_refl. cbn. unfold try_from. rewrite Hl. cbn.
  unfold valid_signature. by rewrite Hv.
Qed.
End props.

(** ** A concrete chain

    One kind of call, a payment, in pallet 20; signatures that carry the signer's key and the message. *)

Inductive demo_call := Pay (to : AccountId) (v : Balance).
Record demo_chain := mkChain { demo_nonces : gmap AccountId Z; demo_coins : gmap AccountId Balance }.
Definition coins (l : demo_chain) (x : AccountId) : Balance := default 0 (demo_coins l !! x).
Definition demo_pay (from to : AccountId) (v : Balance) (l : demo_chain) : Res demo_chain :=
  _ ← ensure ((0 <=? v) && (v <=? coins l from)) (Token NoFunds);
  let m := <[from := coins l from - v]> (demo_coins l) in
  Ok (mkChain (demo_nonces l) (<[to := default 0 (m !! to) + v]> m)).
#[local] Instance demo_crypto : Crypto := {|
  keccak_256 bs := take 32 (reverse bs ++ repeat 0 32);
  secp256k1_ecdsa_recover_compressed sig msg := if bool_decide (drop 33 sig = msg) then Some (take 33 sig) else None;
  into_account public := default 0 (head public) |}.
#[local] Instance demo_chain_ops : Chain demo_chain demo_call := {|
  account_nonce l x := default 0 (demo_nonces l !! x);
  inc_account_nonce x l := mkChain (<[x := default 0 (demo_nonces l !! x) + 1]> (demo_nonces l)) (demo_coins l);
  charge_fee x fee l := demo_pay x 99 fee l;
  dispatch_bypass_filter o c l := match o, c with Signed who, Pay to v => demo_pay who to v l | _, _ => Err BadOrigin end;
  encode_payload magic nonce c := match c with Pay to v => [magic; nonce; 20; 0; to; v] end;
  currency_transfer from to v _ l := demo_pay from to v l;
  assets_transfer _ from to v _ l := demo_pay from to v l |}.
#[local] Instance demo_chain_laws : ChainLaws demo_chain demo_call.
Proof. intros who l. cbn. by rewrite lookup_insert_eq. Qed.
Definition demo_config (verify : bool) : Config := mkConfig 3 7 1 verify 1 (fun _ o => match o with Signed x => Some x | _ => None end) (fun _ => 0).
Definition demo_state : State demo_chain := mkState (mkChain ∅ {[ 5 := 100 ]}) [].
(** Account 5 signs [c] for a nonce. *)
Definition sign (nonce : Z) (c : demo_call) : list Z :=
  (5 :: repeat 0 32) ++ keccak_256 (signable_message (encode_payload (L := demo_chain) 7 nonce c)).

Lemma signed_calls_run_once_witness :
  exists s', call (demo_config true) Unsigned (Pay 6 40) 5 (sign 0 (Pay 6 40)) 0 demo_state = Ok s' /\
    coins (chain s') 5 = 57 /\ coins (chain s') 6 = 40 /\
    call (demo_config true) Unsigned (Pay 6 40) 5 (sign 0 (Pay 6 40)) 0 s' = Err (EvmSignatures BadNonce) /\
    signed_by (L := demo_chain) (demo_config true) 5 (Pay 6 40) 0 (sign 0 (Pay 6 40)).
Proof.
  assert (match call (demo_config true) Unsigned (Pay 6 40) 5 (sign 0 (Pay 6 40)) 0 demo_state with
          | Ok s' => (coins (chain s') 5 =? 57) && (coins (chain s') 6 =? 40) && (account_nonce (C := demo_call) (chain s') 5 =? 1)
          | _ => false end = true) as Hc by (vm_compute; reflexivity).
  destruct (call (demo_config true) Unsigned (Pay 6 40) 5 (sign 0 (Pay 6 40)) 0 demo_state) as [s'| |] eqn:E; [| discriminate Hc | discriminate Hc].
  apply andb_true_iff in Hc as [[H5%Z.eqb_eq H6%Z.eqb_eq]%andb_true_iff Hn%Z.eqb_eq].
  destruct (signed_calls_run_once (demo_config true) Unsigned (Pay 6 40) 5 (sign 0 (Pay 6 40)) 0 demo_state s' E)
    as (_ & _ & _ & Hs & _ & _ & Hr).
  exists s'. split; [reflexivity |]. split; [exact H5 |]. split; [exact H6 |]. split; [| apply Hs; reflexivity].
  apply Hr. rewrite Hn. vm_compute. congruence.
Defined.
Example forged_call_refused :
  call (demo_config true) Unsigned (Pay 6 41) 5 (sign 0 (Pay 6 40)) 0 demo_state = Err (EvmSignatures InvalidSignature).
Proof. vm_compute. reflexivity. Qed.
(** Without verification, anybody pays from account 5. *)
Example unverified_call_spends :
  match call (demo_config false) Unsigned (Pay 6 90) 5 (repeat 0 65) 0 demo_state with Ok s' => coins (chain s') 6 | _ => 0 end = 90.
Proof. vm_compute. reflexivity. Qed.

(** A pallet that is shut down is still called: the dispatch does not ask the filter. *)
Definition demo_shutdown : EmergencyShutdown.Config :=
  EmergencyShutdown.mkConfig demo_call (fun c => match c with Pay to v => [20; 0; to; v] end) (fun _ => false) (fun _ => true).
Definition pallet_20_off : EmergencyShutdown.State := EmergencyShutdown.mkState {[ 20 := true ]} ∅ [].
Example shutdown_bypassed :
  EmergencyShutdown.contains demo_shutdown (Pay 6 40) pallet_20_off = Ok false /\
  match call (demo_config true) Unsigned (Pay 6 40) 5 (sign 0 (Pay 6 40)) 0 demo_state with
  | Ok s' => events s' = [Executed 5 (Ok tt)] | _ => False end.
Proof. split; vm_compute; reflexivity. Qed.
