(* ===== verification/RuntimeCalls.v ===== *)
(** * The runtime's call filters (src/runtime/parallel/src/lib.rs)

    Which calls may be dispatched at all, which of them survive an emergency shutdown, and which a
    proxy may make.  A call is its pallet, the name of the function and the encoded arguments; the
    indices that the pallets give their functions are a parameter. *)

From stdpp Require Import strings.
From S2P Require Import Prelude Arith Frame EmergencyShutdown.
From stdpp Require Import list.
#[local] Open Scope Z_scope.

Module RuntimeCalls.

(** [construct_runtime!]: the pallets with calls, and their indices *)
Inductive Pallet :=
| System | Timestamp | Utility | Multisig | Balances | Assets | Proxy | Identity
| Democracy | GeneralCouncil | TechnicalCommittee | Treasury | Scheduler | Preimage
| ParachainSystem | XcmpQueue | DmpQueue | PolkadotXcm | CumulusXcm
| CollatorSelection | Session
| Oracle | XTokens | OrmlXcm | Vesting
| Loans | Prices | Crowdloans | LiquidStaking
| GeneralCouncilMembership | TechnicalCommitteeMembership | OracleMembership | LiquidStakingAgentsMembership
| BridgeMembership | CrowdloansAutomatorsMembership
| AMM | AMMRoute | CurrencyAdapter
| Bridge | EmergencyShutdown | Farming | XcmHelper | Streaming | AssetRegistry
| EVM | Ethereum | BaseFee | EVMSignatureCall.
#[global] Instance Pallet_eq_dec : EqDecision Pallet.
Proof. solve_decision. Defined.
Definition pallet_index (p : Pallet) : Z :=
  match p with
  | System => 0 | Timestamp => 1 | Utility => 2 | Multisig => 3 | Balances => 4 | Assets => 6 | Proxy => 7 | Identity => 8
  | Democracy => 11 | GeneralCouncil => 12 | TechnicalCommittee => 13 | Treasury => 14 | Scheduler => 15 | Preimage => 16
  | ParachainSystem => 20 | XcmpQueue => 22 | DmpQueue => 23 | PolkadotXcm => 24 | CumulusXcm => 25
  | CollatorSelection => 31 | Session => 32
  | Oracle => 42 | XTokens => 43 | OrmlXcm => 45 | Vesting => 46
  | Loans => 50 | Prices => 51 | Crowdloans => 52 | LiquidStaking => 60
  | GeneralCouncilMembership => 70 | TechnicalCommitteeMembership => 71 | OracleMembership => 72
  | LiquidStakingAgentsMembership => 73 | BridgeMembership => 74 | CrowdloansAutomatorsMembership => 75
  | AMM => 80 | AMMRoute => 81 | CurrencyAdapter => 82
  | Bridge => 90 | EmergencyShutdown => 91 | Farming => 92 | XcmHelper => 93 | Streaming => 94 | AssetRegistry => 95
  | EVM => 110 | Ethereum => 111 | BaseFee => 112 | EVMSignatureCall => 113
  end.

Record RuntimeCall := mkCall { pallet : Pallet; function : string; arguments : list Z }.
(** [matches!] of one function, or of several *)
Definition is_call (p : Pallet) (names : list string) (c : RuntimeCall) : bool :=
  bool_decide (pallet c = p) && bool_decide (function c ∈ names).
Definition is_pallet (ps : list Pallet) (c : RuntimeCall) : bool := bool_decide (pallet c ∈ ps).

Definition WhiteListFilter (call : RuntimeCall) : bool :=
  is_pallet [System; Timestamp] call ||
  is_call Assets ["force_create"; "force_set_metadata"; "force_asset_status"; "force_clear_metadata"; "force_cancel_approval"; "force_transfer"] call ||
  is_pallet [Democracy; GeneralCouncil; TechnicalCommittee; Treasury; Scheduler; Preimage; ParachainSystem; XcmpQueue; DmpQueue] call ||
  is_call PolkadotXcm ["force_xcm_version"; "force_default_xcm_version"; "force_subscribe_version_notify"; "force_unsubscribe_version_notify"] call ||
  is_pallet [CumulusXcm; Session; Utility; Multisig; Proxy; Identity; EmergencyShutdown; XcmHelper; OracleMembership; GeneralCouncilMembership;
             TechnicalCommitteeMembership; LiquidStakingAgentsMembership; CrowdloansAutomatorsMembership; BridgeMembership] call.
(** The calls of the base filter that are not on the white list *)
Definition listed (call : RuntimeCall) : bool :=
  is_pallet [Balances] call ||
  is_call Assets ["mint"; "transfer"; "transfer_keep_alive"; "freeze"; "thaw"; "freeze_asset"; "thaw_asset"; "burn"] call ||
  is_pallet [CurrencyAdapter; Oracle; XTokens; OrmlXcm; Vesting; Loans; Prices; LiquidStaking; AMM; AMMRoute; Crowdloans; Bridge; Farming;
             Streaming; AssetRegistry; EVM; Ethereum; BaseFee; EVMSignatureCall] call.

Section filter.
(** [#[pallet::call_index]] of a function, and the origins that may shut down *)
Context (call_index : RuntimeCall -> Z) (shutdown_origin : RuntimeOrigin -> bool).
Definition shutdown_config : EmergencyShutdown.Config :=
  EmergencyShutdown.mkConfig RuntimeCall (fun c => [pallet_index (pallet c); call_index c] ++ arguments c) WhiteListFilter shutdown_origin.
Definition BaseCallFilter (call : RuntimeCall) (s : EmergencyShutdown.State) : Res bool :=
  if WhiteListFilter call || listed call then EmergencyShutdown.contains shutdown_config call s else Ok false.
End filter.

(** ** Proxies *)

Inductive ProxyType := Any | PLoans | PStaking | PCrowdloans | PFarming | PStreaming | PGovernance | PAMM | PEVM.
#[global] Instance ProxyType_eq_dec : EqDecision ProxyType.
Proof. solve_decision. Defined.
Definition proxy_default : ProxyType := Any.
Definition proxy_filter (t : ProxyType) (c : RuntimeCall) : bool :=
  match t with
  | Any => true
  | PLoans => is_call Loans ["mint"; "redeem"; "redeem_all"; "borrow"; "repay_borrow"; "repay_borrow_all"; "collateral_asset";
                             "liquidate_borrow"; "add_reward"; "claim_reward"; "claim_reward_for_market"] c
  | PStaking => is_call LiquidStaking ["stake"; "unstake"; "cancel_unstake"] c
  | PCrowdloans => is_call Crowdloans ["contribute"; "claim"; "claim_for"; "withdraw"; "withdraw_for"; "redeem"] c
  | PFarming => is_call Farming ["deposit"; "claim"; "withdraw"; "redeem"] c
  | PStreaming => is_call Streaming ["create"; "cancel"; "withdraw"] c
  | PGovernance => is_pallet [Democracy; Preimage; GeneralCouncil; TechnicalCommittee; Treasury; Utility] c
  | PAMM => is_call AMM ["add_liquidity"; "remove_liquidity"] c ||
            is_call AMMRoute ["swap_tokens_for_exact_tokens"; "swap_exact_tokens_for_tokens"] c
  | PEVM => is_pallet [Ethereum; EVM; BaseFee; EVMSignatureCall] c
  end.
Definition is_superset (t o : ProxyType) : bool :=
  match t, o with Any, _ => true | _, Any => false | _, _ => false end.
End RuntimeCalls.
Import RuntimeCalls.

(** ** What passes *)

Lemma is_call_pallet p names c : is_call p names c = true -> pallet c = p.
Proof. unfold is_call. intros [H _]%andb_true_iff. by apply bool_decide_eq_true in H. Qed.
Lemma pallet_index_inj p q : pallet_index p = pallet_index q -> p = q.
Proof. by destruct p, q. Qed.

Section filter.
Context (call_index : RuntimeCall -> Z) (shutdown_origin : RuntimeOrigin -> bool).
Abbreviation filter := (BaseCallFilter call_index shutdown_origin).
Abbreviation config := (shutdown_config call_index shutdown_origin).
Implicit Types (s : EmergencyShutdown.State) (c : RuntimeCall).

Lemma filter_value c s :
  filter c s =
  Ok (WhiteListFilter c ||
      listed c && negb (EmergencyShutdown.disabled_pallets s (pallet_index (pallet c))) &&
      negb (EmergencyShutdown.disabled_calls s (pallet_index (pallet c)) (call_index c))).
Proof.
  unfold BaseCallFilter, EmergencyShutdown.contains. cbn. destruct (WhiteListFilter c); [done |]. cbn. by destruct (listed c).
Qed.

(** A shutdown can be undone: in any state of the shutdown, the call that toggles a pallet passes the filter, and if
    the pallet was shut down and an entitled origin makes the call, every listed call of the pallet that is not shut
    down itself passes again, while what else is shut down stays so. *)
Theorem shutdown_reversible origin c s args :
  shutdown_origin origin = true -> listed c = true ->
  EmergencyShutdown.disabled_pallets s (pallet_index (pallet c)) = true ->
  EmergencyShutdown.disabled_calls s (pallet_index (pallet c)) (call_index c) = false ->
  BaseCallFilter call_index shutdown_origin (mkCall EmergencyShutdown "toggle_pallet" args) s = Ok true /\
  exists s', EmergencyShutdown.toggle_pallet config origin (pallet_index (pallet c)) s = Ok s' /\
    BaseCallFilter call_index shutdown_origin c s' = Ok true /\
    forall c', pallet c' <> pallet c -> BaseCallFilter call_index shutdown_origin c' s' = BaseCallFilter call_index shutdown_origin c' s.
Proof.
  intros Ho Hl Hd Hc. split; [by rewrite filter_value |].
  unfold EmergencyShutdown.toggle_pallet, ensure_origin. cbn. rewrite Ho. cbn. eexists. split; [reflexivity |]. rewrite Hd. cbn. split.
  - rewrite filter_value. cbn. unfold EmergencyShutdown.disabled_pallets. cbn. rewrite lookup_insert_eq. cbn.
    change (EmergencyShutdown.disabled_calls _ _ _) with (EmergencyShutdown.disabled_calls s (pallet_index (pallet c)) (call_index c)).
    rewrite Hl, Hc. cbn. by rewrite orb_true_r.
  - intros c' Hne. rewrite !filter_value. unfold EmergencyShutdown.disabled_pallets at 1. cbn.
    rewrite lookup_insert_ne; [done |]. intros E. by apply Hne, eq_sym, pallet_index_inj.
Qed.
End filter.

(** ** Proxies *)

(** A proxy type that is taken for a superset of another may make all of its calls. *)
Lemma superset_sound t o c : is_superset t o = true -> proxy_filter o c = true -> proxy_filter t c = true.
Proof. by destruct t, o. Qed.
Ltac split_calls :=
  repeat match goal with
  | H : _ || _ = true |- _ => apply orb_true_iff in H as [H|H]
  | H : is_call _ _ _ = true |- _ => apply is_call_pallet in H
  | H : is_pallet _ _ = true |- _ => apply bool_decide_eq_true in H
  | H : _ ∈ _ :: _ |- _ => apply elem_of_cons in H as [H|H]
  | H : _ ∈ [] |- _ => by apply not_elem_of_nil in H
  end.
(** The types other than [Any] have no call in common. *)
Lemma proxies_disjoint t o c : t <> Any -> o <> Any -> t <> o -> proxy_filter t c = true -> proxy_filter o c = false.
Proof.
  intros Ht Ho Hne H1. apply not_true_is_false. intros H2. destruct t, o; try done; unfold proxy_filter in *; split_calls; congruence.
Qed.
(** What a proxy may call is on the base filter's lists, so no type is without effect. *)
Lemma proxy_calls_listed t c : t <> Any -> proxy_filter t c = true -> WhiteListFilter c || listed c = true.
Proof.
  intros Ht H. unfold WhiteListFilter, listed, is_pallet. destruct c as [p f args]. destruct t; try done; unfold proxy_filter in H; split_calls; cbn in H; subst p;
    vm_compute; reflexivity.
Qed.

(** ** The money market shut down and opened again *)

Definition loans_off : EmergencyShutdown.State := EmergencyShutdown.mkState {[ 50 := true ]} ∅ [].
Definition mint_call : RuntimeCall := mkCall Loans "mint" [101; 5].
Definition root_only (o : RuntimeOrigin) : bool := match o with Root => true | _ => false end.
Lemma shutdown_reversible_witness :
  BaseCallFilter (fun _ => 0) root_only mint_call loans_off = Ok false /\
  exists s', EmergencyShutdown.toggle_pallet (shutdown_config (fun _ => 0) root_only) Root 50 loans_off = Ok s' /\
    BaseCallFilter (fun _ => 0) root_only mint_call s' = Ok true.
Proof.
  split; [reflexivity |].
  destruct (shutdown_reversible (fun _ => 0) root_only Root mint_call loans_off [50]) as (_ & s' & H1 & H2 & _); try reflexivity.
  exists s'. split; [exact H1 | exact H2].
Defined.
