(* ===== verification/RuntimeErc20.v ===== *)
(** * The ERC-20 view of assets behind the runtime's call filter

    The precompile dispatches calls of [pallet_assets] as their signer, so the runtime's base filter
    applies to them.  Transfers, mints and burns are on its list; the calls about approvals are not. *)

From stdpp Require Import strings.
From S2P Require Import Prelude Arith Frame EmergencyShutdown EvmData EvmAbi Precompile Erc20Assets Erc20AssetsProps RuntimeCalls EvmDemo AssetsDemo.
From stdpp Require Import list relations.
Import EvmData Precompile Erc20Assets.
#[local] Open Scope Z_scope.

(** The call of the runtime; its arguments do not matter to the filter. *)
Definition runtime_call (c : AssetsCall) : RuntimeCalls.RuntimeCall :=
  RuntimeCalls.mkCall RuntimeCalls.Assets
    (match c with
     | CancelApproval _ _ => "cancel_approval"
     | ApproveTransfer _ _ _ => "approve_transfer"
     | AssetTransfer _ _ _ => "transfer"
     | TransferApproved _ _ _ _ => "transfer_approved"
     | AssetMint _ _ _ => "mint"
     | AssetBurn _ _ _ => "burn"
     end) [].

(** [Dispatchable::dispatch] of a signed origin asks the base filter. *)
Class Filtered (W L : Type) {D : Dispatchable W L AssetsCall} := {
  call_index : RuntimeCalls.RuntimeCall -> Z;
  shutdown_origin : RuntimeOrigin -> bool;
  shutdown : L -> EmergencyShutdown.State;
  dispatch_filtered o c l r : dispatch (Signed o) c l = Ok r ->
    RuntimeCalls.BaseCallFilter call_index shutdown_origin (runtime_call c) (shutdown l) = Ok true;
}.

Section filtered.
Context {W H L : Type} {R : EvmRuntime W} {P : PrecompileHandle H} {PL : PrecompileHandleLaws H}.
Context {A : AssetsRuntime L} {D : Dispatchable W L AssetsCall} {F : Filtered W L}.
Implicit Types (h : H) (s : Storage L).
Hint Resolve keeps_asset_storage keeps_asset_log : keeps.

Lemma approve_filtered id d v ci so st : RuntimeCalls.BaseCallFilter ci so (runtime_call (ApproveTransfer id d v)) st = Ok false.
Proof. reflexivity. Qed.
Lemma transfer_approved_filtered id o d v ci so st : RuntimeCalls.BaseCallFilter ci so (runtime_call (TransferApproved id o d v)) st = Ok false.
Proof. reflexivity. Qed.
Lemma filtered_dispatch o c h s u w : try_dispatch (Signed o) c (mkWorld h s) = Ok (u, w) ->
  RuntimeCalls.BaseCallFilter call_index shutdown_origin (runtime_call c) (shutdown (chain s)) = Ok true.
Proof.
  intros (used & h' & s' & Hd & _)%try_dispatch_Ok. apply result_bind_Ok in Hd as (r & Hd & _). by eapply dispatch_filtered.
Qed.
Lemma approve_inner_fails id owner spender value h s r : approve_inner id owner spender value (mkWorld h s) <> Ok r.
Proof.
  destruct r as [u w]. unfold approve_inner. cbv zeta. intros Hr. peel Hr. apply M_bind_Ok in Hr as (? & ? & [= <- <-] & Hr).
  apply M_bind_Ok in Hr as (? & [h1 s1] & _ & Hr). by apply filtered_dispatch in Hr.
Qed.

(** C28: Behind the runtime's filter no approval of an asset is ever given or spent: a call of an asset's contract that succeeds is no [approve] and no [permit], and a
    [transferFrom] only if the caller transfers from its own account. *)
Theorem no_asset_approvals h s out w :
  execute (mkWorld h s) = Some (Ok (out, w)) ->
  action_of (frame h) <> Some Approve /\ action_of (frame h) <> Some Eip2612Permit /\
  (action_of (frame h) = Some TransferFrom ->
   exists (from to : Address) (amount : Uint 16), parsed (frame h) = Ok (from, (to, (amount, tt))) /\
     into_account_id (address_bytes from) = into_account_id (caller (context (frame h)))).
Proof.
  intros (id & a & _ & _ & Ha & _ & Hr)%execute_Ok. rewrite Ha. split; [| split].
  - intros [= ->]. cbn [run_action] in Hr. unfold approve in Hr. do 4 peel Hr. destruct a2 as [spender [amount []]]. peel Hr.
    apply M_bind_Ok in Hr as (? & ? & Hi & _). by apply approve_inner_fails in Hi.
  - intros [= ->]. cbn [run_action] in Hr. unfold permit in Hr. do 3 peel Hr. destruct a1 as (owner & spender & value & deadline & v & r & sg & []).
    do 7 peel Hr. apply M_bind_Ok in Hr as (? & ? & [= _ <-] & Hr). apply M_bind_Ok in Hr as (? & ? & Hi & _). by apply approve_inner_fails in Hi.
  - intros [= ->]. cbn [run_action] in Hr. unfold transfer_from in Hr. do 4 peel Hr. destruct a2 as [from [to [amount []]]].
    peel Hr. injection E3 as <- _. cbv zeta in Hr. case_bool_decide as Hc.
    + exists from, to, amount. split; [rewrite <- F0; exact (arguments_parsed _ _ _ _ _ _ _ E0 E2) |].
      rewrite <- Hc. do 3 f_equal. congruence.
    + apply M_bind_Ok in Hr as (? & ? & Hd & _). by apply filtered_dispatch in Hd.
Qed.
End filtered.

(** ** On the concrete chain *)

Definition filter_demo (c : AssetsCall) : Res bool :=
  RuntimeCalls.BaseCallFilter (fun _ => 0) (fun _ => false) (runtime_call c) (EmergencyShutdown.mkState ∅ ∅ []).
#[local] Instance filtered_assets : Dispatchable Z demo_chain AssetsCall := {|
  get_dispatch_info _ := 7000;
  dispatch o c l :=
    match filter_demo c with
    | Ok true => AssetsDemo.demo_assets_dispatch.(dispatch) o c l
    | _ => Err (Other "CallFiltered")
    end |}.
#[local] Instance filtered_assets_laws : Filtered Z demo_chain.
Proof.
  refine {| call_index _ := 0; shutdown_origin _ := false; shutdown _ := EmergencyShutdown.mkState ∅ ∅ [] |}.
  intros o c l r Hd. cbn -[RuntimeCalls.BaseCallFilter] in Hd. unfold filter_demo in Hd. by destruct (RuntimeCalls.BaseCallFilter _ _ _ _) as [[]| |].
Defined.
Definition alice_sends : demo_handle :=
  asset_call 1 (encode_asset TransferFrom (mkAddress (addr 1), (mkAddress (addr 3), (mkU256 5, tt)))) false.
Lemma no_asset_approvals_witness :
  exists out w, execute (D := filtered_assets) (mkWorld alice_sends alice_assets) = Some (Ok (out, w)) /\
    action_of (frame alice_sends) <> Some Approve /\ action_of (frame alice_sends) <> Some Eip2612Permit /\
    (action_of (frame alice_sends) = Some TransferFrom ->
     exists (from to : Address) (amount : Uint 16), parsed (frame alice_sends) = Ok (from, (to, (amount, tt))) /\
       from_be (address_bytes from) = from_be (caller (context (frame alice_sends)))).
Proof.
  destruct (execute (D := filtered_assets) (mkWorld alice_sends alice_assets)) as [[[out w]| |]|] eqn:E;
    [| vm_compute in E; discriminate E | vm_compute in E; discriminate E | vm_compute in E; discriminate E].
  exists out, w. split; [reflexivity |]. exact (no_asset_approvals alice_sends alice_assets out w E).
Defined.
Example alice_cannot_approve :
  execute (D := filtered_assets) (mkWorld alice_lowers alice_assets) = Some (Err (Revert "Dispatched call failed with error: ")).
Proof. vm_compute. reflexivity. Qed.
