(* ===== verification/Prices.v ===== *)
(** * The price feed (src/pallets/prices/src/lib.rs)

    [get_price] gives the other pallets one format of price for every asset: the price set in an
    emergency, else the price of a derived asset (liquid staking token, crowdloan vault token, LP
    token of such a vault token) computed from the price of the relay currency, else the oracle's
    price.  The oracle, the exchange rates, the pools and the decimals come from elsewhere: they are
    fields of [Config].  A missing price is [Err tt]. *)

From S2P Require Import Prelude Arith Frame.
From stdpp Require Import list.
#[local] Open Scope Z_scope.

(** sp_core's U256, as far as the pallet uses it *)
Class U256Arith := {
  u256_saturating_mul : Z -> Z -> Z;
  u256_checked_mul : Z -> Z -> option Z;
  u256_integer_sqrt : Z -> Z;
  u256_to_u128 : Z -> option Z;
}.

Module Prices.

Abbreviation Price := Z (only parsing).      (* FixedU128 *)
Abbreviation PriceDetail := (Price * Timestamp)%type (only parsing).
Record TimeStampedPrice := mkTimeStampedPrice { value : Price; timestamp : Timestamp }.

(** src/primitives/src/tokens.rs *)
Definition SKSM : CurrencyId := 1000.
Definition SDOT : CurrencyId := 1001.
Definition is_vault_token (asset_id : CurrencyId) : bool :=
  (asset_id >? 100000000) && (asset_id <? 300000000).
Definition is_lf_lp_token (asset_id : CurrencyId) : bool :=
  ((asset_id >? 5003) && (asset_id <? 6000)) || ((asset_id >? 6003) && (asset_id <? 7000)).
Definition is_ls_token (asset_id : CurrencyId) : bool := (asset_id =? SKSM) || (asset_id =? SDOT).
Definition is_auxiliary_token (asset_id : CurrencyId) : bool := asset_id >=? u32_max - 10000.

Record Config := mkConfig {
  Source_get : CurrencyId -> option TimeStampedPrice;
  Source_get_no_op : CurrencyId -> option TimeStampedPrice;
  Source_get_all_values : list (CurrencyId * option TimeStampedPrice);
  FeederOrigin : RuntimeOrigin -> bool;
  UpdateOrigin : RuntimeOrigin -> bool;
  get_liquid_currency : option CurrencyId;
  LiquidStaking_get_exchange_rate : CurrencyId -> option Rate;
  VaultTokenCurrenciesFilter : CurrencyId -> bool;
  VaultToken_get_exchange_rate : CurrencyId -> Rate -> option Rate;
  get_full_interest_rate : CurrencyId -> option Rate;
  (* base asset, quote asset, base amount, quote amount *)
  get_pool_by_lp_asset : CurrencyId -> option (CurrencyId * CurrencyId * (Balance * Balance));
  Assets_total_issuance : CurrencyId -> Balance;
  RelayCurrency : CurrencyId;
  get_decimal : CurrencyId -> option Z;   (* u8 *)
}.

Inductive Event := SetPrice (asset : CurrencyId) (price : Price) | ResetPrice (asset : CurrencyId).

Record State := mkState {
  EmergencyPrice : gmap CurrencyId Price;
  ForeignToNativeAsset : gmap CurrencyId CurrencyId;
  events : list Event;
}.

(** [Option]s with panics *)
Abbreviation Opt := (result unit).
Definition opt {A} (o : option A) : Opt A := ok_or o tt.
Definition or_else {A} (a b : Opt A) : Opt A := match a with Err _ => b | _ => a end.

Section pallet.
Context {SA : SpArithmetic} {U : U256Arith}.
Variable T : Config.

(** [10u128.checked_pow(d)] *)
Definition checked_pow10 (d : Z) : option Z := fit_u128 (10 ^ d).

Definition get_asset_mantissa (asset_id : CurrencyId) : option Z :=
  d ← get_decimal T asset_id; checked_pow10 d.

Definition get_emergency_price (asset_id : CurrencyId) (s : State) : option PriceDetail :=
  p ← EmergencyPrice s !! asset_id;
  mantissa ← get_asset_mantissa asset_id;
  price ← fixed_checked_div p mantissa;
  Some (price, 0).

Definition normalize_detail_price (price : TimeStampedPrice) (mantissa : Z) : option PriceDetail :=
  v ← fixed_checked_div (value price) mantissa; Some (v, timestamp price).

Definition scale_timestamped_price (base_price : TimeStampedPrice) (rate : Rate)
    : option TimeStampedPrice :=
  price ← fixed_checked_mul (value base_price) rate;
  Some (mkTimeStampedPrice price (timestamp base_price)).

Definition get_staking_asset_price (asset_id : CurrencyId) (base_price : TimeStampedPrice)
    : option TimeStampedPrice :=
  liquid_currency ← get_liquid_currency T;
  if liquid_currency =? asset_id then
    rate ← LiquidStaking_get_exchange_rate T liquid_currency;
    scale_timestamped_price base_price rate
  else None.

Definition get_vault_asset_price (asset_id : CurrencyId) (base_price : TimeStampedPrice)
    : option TimeStampedPrice :=
  implied_yield_rate ← get_full_interest_rate T asset_id;
  if VaultTokenCurrenciesFilter T asset_id then
    rate ← VaultToken_get_exchange_rate T asset_id implied_yield_rate;
    scale_timestamped_price base_price rate
  else None.

(** [saturating_from_rational] panics when the LP token has no supply. *)
Definition get_lp_vault_asset_price (asset_id : CurrencyId) (base_price : TimeStampedPrice)
    : Opt TimeStampedPrice :=
  mantissa ← opt (get_asset_mantissa asset_id);
  '(base_asset, quote_asset, (base_amount, quote_amount)) ← opt (get_pool_by_lp_asset T asset_id);
  _ ← ensure ((quote_asset =? RelayCurrency T) && VaultTokenCurrenciesFilter T base_asset) tt;
  base_asset_mantissa ← opt (get_asset_mantissa base_asset);
  diff_mantissa ← opt (checked_div mantissa base_asset_mantissa);
  let lp_asset_total_supply := Assets_total_issuance T asset_id in
  r ← opt (u256_checked_mul (u256_integer_sqrt (u256_saturating_mul base_amount quote_amount)) 2);
  lp_asset_liquidity ← opt (u256_to_u128 r);
  lp_asset_rate ← or_panic (fixed_saturating_from_rational lp_asset_liquidity lp_asset_total_supply);
  vault_asset_price ← opt (get_vault_asset_price base_asset base_price);
  v ← opt (fixed_checked_mul (value vault_asset_price) lp_asset_rate);
  lp_asset_price ← opt (fixed_checked_mul v (fixed_saturating_from_integer diff_mantissa));
  Ok (mkTimeStampedPrice lp_asset_price (timestamp vault_asset_price)).

(** The recursion through [ForeignToNativeAsset] has no bound in the source.  [None]: not finished
    after [fuel] calls. *)
Fixpoint get_special_asset_price (fuel : nat) (s : State) (asset_id : CurrencyId)
    (base_price : TimeStampedPrice) : option (Opt TimeStampedPrice) :=
  match fuel with
  | O => None
  | S fuel' =>
      if is_ls_token asset_id then Some (opt (get_staking_asset_price asset_id base_price))
      else if is_vault_token asset_id then Some (opt (get_vault_asset_price asset_id base_price))
      else if is_lf_lp_token asset_id then Some (get_lp_vault_asset_price asset_id base_price)
      else if is_auxiliary_token asset_id then Some (Ok base_price)
      else match ForeignToNativeAsset s !! asset_id with
           | Some native_asset_id => get_special_asset_price fuel' s native_asset_id base_price
           | None => Some (Err tt)
           end
  end.

(** [PriceFeeder] *)
Definition get_price (fuel : nat) (asset_id : CurrencyId) (s : State) : option (Opt PriceDetail) :=
  match get_emergency_price asset_id s with
  | Some p => Some (Ok p)
  | None =>
      match get_asset_mantissa asset_id with
      | None => Some (Err tt)
      | Some mantissa =>
          special ← (match Source_get T (RelayCurrency T) with
                     | Some base_price => get_special_asset_price fuel s asset_id base_price
                     | None => Some (Err tt)
                     end);
          Some (price ← or_else special (opt (Source_get T asset_id));
                opt (normalize_detail_price price mantissa))
      end
  end.

(** [DataProviderExtended] *)
Definition get_no_op (fuel : nat) (asset_id : CurrencyId) (s : State)
    : option (Opt TimeStampedPrice) :=
  match get_asset_mantissa asset_id with
  | None => Some (Err tt)
  | Some _ =>
      special ← (match Source_get_no_op T (RelayCurrency T) with
                 | Some base_price => get_special_asset_price fuel s asset_id base_price
                 | None => Some (Err tt)
                 end);
      Some (or_else special (opt (Source_get_no_op T asset_id)))
  end.
Definition get_all_values : list (CurrencyId * option TimeStampedPrice) := Source_get_all_values T.

(** [EmergencyPriceFeeder] *)
Definition set_emergency_price (asset_id : CurrencyId) (price : Price) (s : State) : State :=
  mkState (<[asset_id := price]> (EmergencyPrice s)) (ForeignToNativeAsset s)
    (events s ++ [SetPrice asset_id price]).
Definition reset_emergency_price (asset_id : CurrencyId) (s : State) : State :=
  mkState (delete asset_id (EmergencyPrice s)) (ForeignToNativeAsset s)
    (events s ++ [ResetPrice asset_id]).

(** Extrinsics *)
Definition set_price (origin : RuntimeOrigin) (asset_id : CurrencyId) (price : Price) (s : State)
    : Res State :=
  _ ← ensure_origin (FeederOrigin T) origin; Ok (set_emergency_price asset_id price s).
Definition reset_price (origin : RuntimeOrigin) (asset_id : CurrencyId) (s : State) : Res State :=
  _ ← ensure_origin (FeederOrigin T) origin; Ok (reset_emergency_price asset_id s).
Definition set_foreign_asset (origin : RuntimeOrigin) (foreign_asset_id asset_id : CurrencyId)
    (s : State) : Res State :=
  _ ← ensure_origin (UpdateOrigin T) origin;
  Ok (mkState (EmergencyPrice s) (<[foreign_asset_id := asset_id]> (ForeignToNativeAsset s)) (events s)).
End pallet.
End Prices.
Import Prices.

(** ** Following foreign assets *)

(** An asset that is priced in its own right *)
Definition special (a : CurrencyId) : bool :=
  is_ls_token a || is_vault_token a || is_lf_lp_token a || is_auxiliary_token a.
(** The recursion goes from [a] to [b]. *)
Definition forwards (s : State) (a b : CurrencyId) : Prop :=
  special a = false /\ ForeignToNativeAsset s !! a = Some b.

(** The number of steps it takes. *)
Inductive dist (s : State) : nat -> CurrencyId -> Prop :=
| dist_here a : (forall b, ~ forwards s a b) -> dist s 0 a
| dist_next n a b : forwards s a b -> dist s n b -> dist s (S n) a.

Section foreign.
Context {SA : SpArithmetic} {U : U256Arith} (T : Config) (s : State).

Lemma dist_functional a n : dist s n a -> forall m, dist s m a -> m = n.
Proof.
  induction 1 as [a H | n a b H _ IH]; intros m Hm; inversion Hm as [? H' | k ? b' H' Hk]; subst; try done.
  - by destruct (H b').
  - by destruct (H' b).
  - f_equal. apply IH. destruct H as [_ H], H' as [_ H']. congruence.
Qed.

(** The assets on the way are mapped, and all different. *)
Lemma dist_path n a : dist s n a -> exists l, length l = n /\ NoDup l /\
  forall x, x ∈ l -> x ∈ dom (ForeignToNativeAsset s) /\ exists m, (m <= n)%nat /\ dist s m x.
Proof.
  induction 1 as [a H | n a b H Hd (l & Hl & Hnd & Hx)].
  - exists []. split; [done |]. split; [constructor |]. by intros x ?%elem_of_nil.
  - exists (a :: l). split; [simpl; lia |]. split.
    + apply NoDup_cons. split; [| done]. intros Ha. destruct (Hx a Ha) as (_ & m & Hm & Hda).
      pose proof (dist_functional a (S n) (dist_next s n a b H Hd) m Hda). lia.
    + intros x [->|Hin]%elem_of_cons.
      * split; [apply elem_of_dom; by destruct H as [_ ->] |]. exists (S n). split; [lia |].
        by eapply dist_next.
      * destruct (Hx x Hin) as (? & m & ? & ?). split; [done |]. exists m. split; [lia | done].
Qed.

Lemma dist_bound n a : dist s n a -> (n <= size (ForeignToNativeAsset s))%nat.
Proof.
  intros (l & <- & Hnd & Hx)%dist_path. rewrite <- (size_list_to_set (C := gset Z) l Hnd), <- size_dom.
  apply subseteq_size. intros x Hin%elem_of_list_to_set. by apply Hx.
Qed.

(** With more calls than steps the recursion returns, and the answer does not depend on the
    number of calls; with fewer it does not return. *)
Lemma special_step fuel a base :
  get_special_asset_price T (S fuel) s a base =
    match (if special a then None else ForeignToNativeAsset s !! a) with
    | Some b => get_special_asset_price T fuel s b base
    | None => get_special_asset_price T 1 s a base
    end.
Proof.
  unfold special. simpl. destruct (is_ls_token a), (is_vault_token a), (is_lf_lp_token a), (is_auxiliary_token a); try done.
  simpl. by destruct (ForeignToNativeAsset s !! a).
Qed.

Lemma special_here a base : (forall b, ~ forwards s a b) -> get_special_asset_price T 1 s a base <> None.
Proof.
  intros H. simpl. unfold forwards, special in H.
  destruct (is_ls_token a), (is_vault_token a), (is_lf_lp_token a), (is_auxiliary_token a); try done.
  destruct (ForeignToNativeAsset s !! a) as [b|]; [by destruct (H b) | done].
Qed.

Lemma special_dist n a base : dist s n a -> forall fuel, (n < fuel)%nat ->
  get_special_asset_price T fuel s a base = get_special_asset_price T (S n) s a base /\
  get_special_asset_price T fuel s a base <> None.
Proof.
  induction 1 as [a H | n a b [Hs Hb] Hd IH]; intros fuel Hf; (destruct fuel as [|fuel]; [lia |]).
  - rewrite special_step. pose proof (special_here a base H) as Hret.
    destruct (special a) eqn:Hs; [done |]. destruct (ForeignToNativeAsset s !! a) as [b|] eqn:E; [| done].
    by destruct (H b).
  - rewrite (special_step fuel), (special_step (S n)), Hs, Hb. apply IH. lia.
Qed.

Lemma special_returns_dist fuel : forall a base,
  get_special_asset_price T fuel s a base <> None -> exists n, dist s n a /\ (n < fuel)%nat.
Proof.
  induction fuel as [|fuel IH]; intros a base H; [done |]. rewrite special_step in H.
  destruct (special a) eqn:Hs; [| destruct (ForeignToNativeAsset s !! a) as [b|] eqn:Hb].
  - exists 0%nat. split; [constructor; intros b [? _]; congruence | lia].
  - destruct (IH b base H) as (n & Hn & ?). exists (S n). split; [by eapply dist_next | lia].
  - exists 0%nat. split; [constructor; intros b [_ ?]; congruence | lia].
Qed.

Lemma dist_acc a : Acc (fun b a => forwards s a b) a <-> exists n, dist s n a.
Proof.
  split.
  - induction 1 as [a _ IH]. destruct (special a) eqn:Hs; [| destruct (ForeignToNativeAsset s !! a) as [b|] eqn:Hb].
    + exists 0%nat. constructor. intros b [? _]. congruence.
    + destruct (IH b) as [n Hn]; [done |]. exists (S n). by eapply dist_next.
    + exists 0%nat. constructor. intros b [_ ?]. congruence.
  - intros [n Hd]. induction Hd as [a H | n a b H _ IH]; constructor; intros b' H'; [by destruct (H b') |].
    destruct H as [_ H], H' as [_ H']. by replace b' with b by congruence.
Qed.

(** The recursion of [get_special_asset_price] through the mapping of foreign assets returns
    exactly when no infinite chain of mapped assets starts at the asset.  One call more than there
    are entries in the mapping decides it: if that many calls do not return, no number of calls
    does, and if any number of calls returns, the answer is the one that this many calls give. *)
Theorem special_price_terminates a base :
  let n := S (size (ForeignToNativeAsset s)) in
  (get_special_asset_price T n s a base <> None <-> Acc (fun b a => forwards s a b) a) /\
  (forall fuel, get_special_asset_price T fuel s a base <> None ->
     get_special_asset_price T fuel s a base = get_special_asset_price T n s a base).
Proof.
  intros n. assert (Hd : forall k, dist s k a -> forall fuel, (k < fuel)%nat ->
    get_special_asset_price T fuel s a base = get_special_asset_price T n s a base /\
    get_special_asset_price T n s a base <> None).
  { intros k Hk fuel Hf. pose proof (dist_bound k a Hk).
    destruct (special_dist k a base Hk fuel Hf) as [-> _]. destruct (special_dist k a base Hk n) as [-> ?]; [unfold n; lia | done]. }
  split; [split |].
  - intros (k & Hk & _)%special_returns_dist. apply dist_acc. eauto.
  - intros [k Hk]%dist_acc. apply (Hd k Hk (S k)). lia.
  - intros fuel (k & Hk & Hf)%special_returns_dist. by apply (Hd k).
Qed.

(** An asset mapped to itself, which [set_foreign_asset] does not refuse, is never priced. *)
Lemma self_mapping_never_returns fuel a base :
  special a = false -> ForeignToNativeAsset s !! a = Some a -> get_special_asset_price T fuel s a base = None.
Proof.
  intros Hs Ha. induction fuel as [|fuel IH]; [done |]. by rewrite special_step, Hs, Ha.
Qed.
End foreign.

(** ** The uniform format *)

Section format.
Context {SA : SpArithmetic} {SL : SpArithmeticLaws SA} {U : U256Arith} (T : Config).

Lemma pow10_u128 d : 0 <= d <= 18 -> checked_pow10 d = Some (10 ^ d) /\ is_u128 (10 ^ d) /\ 0 < 10 ^ d.
Proof.
  intros Hd. assert (H : 0 < 10 ^ d <= 10 ^ 18) by (split; [lia | apply Z.pow_le_mono_r; lia]).
  unfold checked_pow10, fit_u128, is_u128, u128_max.
  destruct (Z.leb_spec (10 ^ d) (2 ^ 128 - 1)); [| lia]. split; [done | lia].
Qed.

(** Dividing by the mantissa moves the decimal point. *)
Lemma div_mantissa p d :
  is_u128 p -> 0 <= d <= 18 -> fixed_checked_div p (10 ^ d) = fit_u128 (p * 10 ^ (18 - d)).
Proof.
  intros Hp Hd. destruct (pow10_u128 d Hd) as (_ & Hu & Hpos). rewrite fixed_checked_div_eq by done.
  destruct (Z.eqb_spec (10 ^ d) 0); [lia |]. f_equal. unfold FIXED_DIV.
  replace (10 ^ 18) with (10 ^ (18 - d) * 10 ^ d) by (rewrite <- Z.pow_add_r by lia; f_equal; lia).
  rewrite Z.mul_assoc. apply Z.div_mul. lia.
Qed.

(** [get_price] answers in the documented format: a price [p] of an asset with [d] decimals (at
    most 18) comes out as [p * 10^(18 - d)], or as no price if that does not fit.  An emergency
    price, once it is set and fits, is what every caller gets, with the timestamp zero and whatever
    the oracle, the exchange rates or the mapping of foreign assets say; without one, an asset that
    is neither derived nor mapped has the oracle's price with the oracle's timestamp. *)
Theorem get_price_format fuel a s d :
  get_decimal T a = Some d -> 0 <= d <= 18 ->
  (forall p, EmergencyPrice s !! a = Some p -> is_u128 p -> p * 10 ^ (18 - d) <= u128_max ->
     get_price T fuel a s = Some (Ok (p * 10 ^ (18 - d), 0))) /\
  (forall p, EmergencyPrice s !! a = None -> special a = false -> ForeignToNativeAsset s !! a = None ->
     Source_get T a = Some p -> is_u128 (value p) -> (0 < fuel)%nat ->
     get_price T fuel a s =
       Some (if value p * 10 ^ (18 - d) <=? u128_max
             then Ok (value p * 10 ^ (18 - d), timestamp p) else Err tt)).
Proof.
  intros Hdec Hd. destruct (pow10_u128 d Hd) as (E10 & _ & _).
  assert (Em : get_asset_mantissa T a = Some (10 ^ d)) by (unfold get_asset_mantissa; by rewrite Hdec).
  split.
  - intros p He Hp Hfit. unfold get_price, get_emergency_price. rewrite He. simpl. rewrite Em. simpl.
    rewrite div_mantissa by done. unfold fit_u128. destruct (Z.leb_spec (p * 10 ^ (18 - d)) u128_max); [done | lia].
  - intros p He Hs Hf Hsrc Hp Hfuel. destruct fuel as [|fuel]; [lia |].
    assert (En : get_emergency_price T a s = None) by (unfold get_emergency_price; by rewrite He).
    unfold get_price. rewrite En, Em, Hsrc.
    assert (Hsp : forall base, get_special_asset_price T (S fuel) s a base = Some (Err tt)).
    { intros base. rewrite special_step, Hs, Hf. unfold special in Hs. simpl.
      destruct (is_ls_token a), (is_vault_token a), (is_lf_lp_token a), (is_auxiliary_token a); try done.
      by rewrite Hf. }
    assert (Hend : (special ← Some (Err tt);
                    Some (price ← or_else special (opt (Some p)); opt (normalize_detail_price price (10 ^ d)))) =
      Some (if value p * 10 ^ (18 - d) <=? u128_max
            then Ok (value p * 10 ^ (18 - d), timestamp p) else Err tt)).
    { simpl. unfold normalize_detail_price. rewrite div_mantissa by done. unfold fit_u128.
      by destruct (value p * 10 ^ (18 - d) <=? u128_max). }
    destruct (Source_get T (RelayCurrency T)) as [base|]; [rewrite (Hsp base) |]; exact Hend.
Qed.
End format.

(** ** An instance *)

Definition u256_max : Z := 2 ^ 256 - 1.
Definition u256_reference : U256Arith := {|
  u256_saturating_mul a b := Z.min u256_max (a * b);
  u256_checked_mul := checked_mul_to u256_max;
  u256_integer_sqrt := Z.sqrt;
  u256_to_u128 := fit_u128;
|}.
(** Asset 7 has 12 decimals and a price of 40; asset 8 is another name of asset 7. *)
Definition prices_config : Config :=
  mkConfig (fun a => if a =? 7 then Some (mkTimeStampedPrice (40 * FIXED_DIV) 99) else None)
    (fun _ => None) [] (fun _ => true) (fun _ => true) None (fun _ => None) (fun _ => false)
    (fun _ _ => None) (fun _ => None) (fun _ => None) (fun _ => 0) 0 (fun _ => Some 12).
Definition prices_state : State := mkState {[ 7 := 3 * FIXED_DIV ]} {[ 8 := 7 ]} [].

Section instances.
#[local] Existing Instance sp_reference.
#[local] Existing Instance sp_reference_laws.
#[local] Existing Instance u256_reference.

Lemma get_price_format_witness :
  get_price prices_config 1 7 prices_state = Some (Ok (3 * FIXED_DIV * 10 ^ (18 - 12), 0)) /\
  get_price prices_config 1 7 (reset_emergency_price 7 prices_state) =
    Some (Ok (40 * FIXED_DIV * 10 ^ (18 - 12), 99)).
Proof.
  split.
  - apply (get_price_format prices_config 1 7 prices_state 12); by_eval.
  - assert (H := get_price_format prices_config 1 7 (reset_emergency_price 7 prices_state) 12 eq_refl ltac:(lia)).
    destruct H as [_ H]. rewrite (H (mkTimeStampedPrice (40 * FIXED_DIV) 99)); by_eval.
Defined.
End instances.
