(* ===== verification/Router.v ===== *)
(** * The router (src/pallets/router/src/lib.rs)

    Trades along a route of pools, and the search for the best route.  The router knows the exchange
    through the trait [AMM] of src/pallets/traits/src/lib.rs, the class [AMM] here: its operations
    read or change a state [S] that holds the ledger [L].  [AMMLaws] states what the exchange
    promises to the router; RouterProps.v discharges it for the exchange of Amm.v. *)

From S2P Require Import Prelude Arith Frame.
From stdpp Require Import sorting list.
#[local] Open Scope Z_scope.
Import RouterErrors.

(** ** The exchange *)

Class AMM (S L : Type) := {
  amm_assets : S -> L;
  amm_get_amounts_out : S -> Balance -> list CurrencyId -> Res (list Balance);
  amm_get_amounts_in : S -> Balance -> list CurrencyId -> Res (list Balance);
  amm_swap : AccountId -> CurrencyId * CurrencyId -> Balance -> S -> Res S;
  amm_get_pools : S -> Res (list (CurrencyId * CurrencyId));
}.

(** Whether two pairs name the same pool. *)
Definition same_pool (p q : CurrencyId * CurrencyId) : Prop := p = q \/ p = (q.2, q.1).

(** [amm_quote s a b x] is what the exchange gives in [b] for [x] of [a]; [amm_ok] holds of the
    states, [amm_account] is where the exchange keeps its funds.  A swap leaves the state good,
    takes the input from the trader, gives what was quoted, touches no other balance of the trader
    and does not change what the other pools quote. *)
Class AMMLaws (S L : Type) {A : AMM S L} {FU : Fungibles L} (amm_ok : S -> Prop)
    (amm_account : AccountId) (amm_quote : S -> CurrencyId -> CurrencyId -> Balance -> Res Balance)
    : Prop := {
  amounts_out_head s x path v :
    amm_get_amounts_out s x path = Ok v -> length v = length path /\ v !! 0%nat = Some x;
  amounts_out_hop s x path v i a b :
    amm_get_amounts_out s x path = Ok v -> path !! i = Some a -> path !! (i + 1)%nat = Some b ->
    exists y z, v !! i = Some y /\ v !! (i + 1)%nat = Some z /\ amm_quote s a b y = Ok z;
  amounts_in_last s y path v :
    amm_get_amounts_in s y path = Ok v -> length v = length path /\ last v = Some y;
  swap_trade who a b x s s' :
    amm_swap who (a, b) x s = Ok s' -> amm_ok s -> who <> amm_account ->
    minimum_balance a <= 1 -> minimum_balance b <= 1 ->
    a <> b /\ amm_ok s' /\
    (exists y, amm_quote s a b x = Ok y /\
       balance (amm_assets s') a who = balance (amm_assets s) a who - x /\
       balance (amm_assets s') b who = balance (amm_assets s) b who + y) /\
    (forall c, c <> a -> c <> b -> balance (amm_assets s') c who = balance (amm_assets s) c who) /\
    (forall c d z, ~ same_pool (c, d) (a, b) -> amm_quote s' c d z = amm_quote s c d z);
}.

Module Router.

Record Config := mkConfig { MaxLengthRoute : Z; GetNativeCurrencyId : CurrencyId }.

Inductive Event :=
| Traded (who : AccountId) (amount_in : Balance) (route : list CurrencyId) (amount_out : Balance).

(** [v[i]] panics out of range. *)
Definition index {A} (v : list A) (i : nat) : Res A := or_panic (v !! i).
(** [v[v.len() - 1]], where the subtraction panics on an empty vector *)
Definition index_last {A} (v : list A) : Res A := or_panic (last v).

(** [(1..len).any(|i| route[i..].contains(&route[i - 1]))] *)
Definition contains_duplicate (route : list CurrencyId) : bool :=
  existsb (fun i => match route !! (i - 1)%nat with
                    | Some x => bool_decide (x ∈ drop i route)
                    | None => false
                    end) (seq 1 (length route - 1)).

(** ** The graph of the pools *)

Abbreviation Graph := (gmap Z (list Z)) (only parsing).

Definition push_edge (graph : Graph) (a b : CurrencyId) : Graph :=
  <[a := default [] (graph !! a) ++ [b]]> graph.
Definition build_graph (pools : list (CurrencyId * CurrencyId)) : Graph :=
  foldl (fun graph ab => push_edge (push_edge graph ab.1 ab.2) ab.2 ab.1) ∅ pools.

(** What is left after [queue.swap_remove(0)]: the last element takes the place of the first. *)
Definition swap_remove_rest {A} (rest : list A) : list A :=
  match reverse rest with [] => [] | l :: r => l :: reverse r end.

(** The loop [while !queue.is_empty()]; [None]: not finished after [fuel] rounds. *)
Fixpoint search (fuel : nat) (graph : Graph) (queue : list (Z * Z * list Z))
    (paths : list (list Z)) : option (Res (list (list Z))) :=
  match queue with
  | [] => Some (Ok paths)
  | (start, end_, path) :: rest =>
      match fuel with
      | O => None
      | S fuel' =>
          let queue := swap_remove_rest rest in
          let path := path ++ [start] in
          let paths := if start =? end_ then paths ++ [path] else paths in
          match graph !! start with
          | None => Some Panic
          | Some adjacents =>
              let difference := List.filter (fun item => negb (bool_decide (item ∈ path))) adjacents in
              search fuel' graph (queue ++ map (fun node => (node, end_, path)) difference) paths
          end
      end
  end.

(** [sort_by_key(|k| Reverse(k.1))] *)
Definition by_amount (a b : list CurrencyId * Balance) : Prop := b.2 <= a.2.
#[global] Instance by_amount_dec : RelDecision by_amount.
Proof. intros a b. unfold by_amount. apply _. Defined.

Section pallet.
Context {S L : Type} {FU : Fungibles L} {A : AMM S L}.
Variable T : Config.

Record State := mkState { amm : S; events : list Event }.

Definition route_checks (route : list CurrencyId) : Res unit :=
  _ ← ensure (negb (bool_decide (route = []))) (Router EmptyRoute);
  _ ← ensure (Z.of_nat (length route) <=? MaxLengthRoute T) (Router ExceedMaxLengthRoute);
  ensure (negb (contains_duplicate route)) (Router DuplicatedRoute).

Definition get_output_routes (s : S) (amount : Balance) (routes : list (list CurrencyId))
    (reversed : bool) : Res (list (list CurrencyId * Balance)) :=
  fold_res (fun output_routes route =>
    if reversed then
      match amm_get_amounts_in s amount route with
      | Ok amounts => x ← index amounts 0; Ok (output_routes ++ [(route, x)])
      | Err _ => Ok output_routes
      | Panic => Panic
      end
    else
      match amm_get_amounts_out s amount route with
      | Ok amounts => x ← index_last amounts; Ok (output_routes ++ [(route, x)])
      | Err _ => Ok output_routes
      | Panic => Panic
      end) routes [].

Definition get_all_routes (fuel : nat) (s : S) (amount : Balance) (token_in token_out : CurrencyId)
    (reversed : bool) : option (Res (list (list CurrencyId * Balance))) :=
  match amm_get_pools s with
  | Err e => Some (Err e)
  | Panic => Some Panic
  | Ok pools =>
      let graph := build_graph pools in
      if bool_decide (graph !! token_in = None) then Some (Err (Router TokenDoesNotExists))
      else if bool_decide (graph !! token_out = None) then Some (Err (Router TokenDoesNotExists))
      else
        r ← search fuel graph [(token_in, token_out, [])] [];
        Some (paths ← r;
              output_routes ← get_output_routes s amount paths reversed;
              Ok (merge_sort by_amount output_routes))
  end.

Definition get_best_route (fuel : nat) (s : S) (amount : Balance) (token_in token_out : CurrencyId)
    (reversed : bool) : option (Res (list CurrencyId * Balance)) :=
  r ← get_all_routes fuel s amount token_in token_out reversed;
  Some (all_routes ← r;
        _ ← ensure (negb (bool_decide (all_routes = []))) (Router NoPossibleRoute);
        if reversed then index_last all_routes else index all_routes 0).

(** The loop over the hops of both extrinsics *)
Definition swap_route (trader : AccountId) (route : list CurrencyId) (amounts : list Balance) (s : S)
    : Res S :=
  fold_res (fun s i =>
    a ← index route i;
    b ← index route (i + 1);
    x ← index amounts i;
    amm_swap trader (a, b) x s) (seq 0 (length route - 1)) s.

Definition swap_exact_tokens_for_tokens (origin : RuntimeOrigin) (route : list CurrencyId)
    (amount_in min_amount_out : Balance) (s : State) : Res State :=
  trader ← ensure_signed origin;
  _ ← route_checks route;
  _ ← ensure ((amount_in >? 0) && (min_amount_out >=? 0)) (Router ZeroBalance);
  from_currency_id ← index route 0;
  _ ← ensure (reducible_balance (amm_assets (amm s)) from_currency_id trader
                (from_currency_id =? GetNativeCurrencyId T) >=? amount_in)
        (Router InsufficientBalance);
  amounts ← amm_get_amounts_out (amm s) amount_in route;
  out ← index_last amounts;
  _ ← ensure (out >=? min_amount_out) (Router MinimumAmountOutViolated);
  s' ← swap_route trader route amounts (amm s);
  amount0 ← index amounts 0;
  Ok (mkState s' (events s ++ [Traded trader amount0 route out])).

Definition swap_tokens_for_exact_tokens (origin : RuntimeOrigin) (route : list CurrencyId)
    (amount_out max_amount_in : Balance) (s : State) : Res State :=
  trader ← ensure_signed origin;
  _ ← route_checks route;
  _ ← ensure ((amount_out >? 0) && (max_amount_in >=? 0)) (Router ZeroBalance);
  amounts ← amm_get_amounts_in (amm s) amount_out route;
  from_currency_id ← index route 0;
  amount0 ← index amounts 0;
  _ ← ensure (reducible_balance (amm_assets (amm s)) from_currency_id trader
                (from_currency_id =? GetNativeCurrencyId T) >? amount0)
        (Router InsufficientBalance);
  _ ← ensure (max_amount_in >=? amount0) (Router MaximumAmountInViolated);
  s' ← swap_route trader route amounts (amm s);
  out ← index_last amounts;
  Ok (mkState s' (events s ++ [Traded trader amount0 route out])).
End pallet.
#[global] Arguments State : clear implicits.
#[global] Arguments mkState {S}.
#[global] Arguments amm {S}.
#[global] Arguments events {S}.
End Router.
