(* ===== verification/RouterProps.v ===== *)
(** * Properties of the router

    What a trade along a route does to the trader, proved against [AMMLaws]; the exchange of Amm.v
    satisfies them; the search finds exactly the routes without repetition and the best route is
    the best of them. *)

From S2P Require Import Prelude Arith Frame Ledger Amm AmmProps Router.
From stdpp Require Import sorting list.
#[local] Open Scope Z_scope.
Import Router RouterErrors.

(** ** Routes *)

Lemma contains_duplicate_NoDup route : contains_duplicate route = false -> NoDup route.
Proof.
  intros H. unfold contains_duplicate in H. rewrite <- not_true_iff_false, existsb_exists in H.
  induction route as [|a route IH]; [constructor |]. apply NoDup_cons. split.
  - intros Ha. apply H. exists 1%nat. split; [| simpl; by apply bool_decide_eq_true].
    apply in_seq. destruct route; [by apply elem_of_nil in Ha | simpl; lia].
  - apply IH. intros (i & Hi%in_seq & Hx). apply H. exists (S i).
    split; [apply in_seq; simpl; lia |]. replace (S i - 1)%nat with (S (i - 1)) by lia. simpl.
    destruct i as [|i]; [lia |]. done.
Qed.

Lemma fold_res_map {E A B C} (f : B -> A -> result E B) (g : C -> A) l acc :
  fold_res f (map g l) acc = fold_res (fun acc x => f acc (g x)) l acc.
Proof.
  revert acc. induction l as [|x l IH]; intros acc; simpl; [done |].
  by destruct (f acc (g x)); simpl.
Qed.

Lemma fold_res_ext {E A B} (f g : B -> A -> result E B) l acc :
  (forall b x, f b x = g b x) -> fold_res f l acc = fold_res g l acc.
Proof.
  intros H. revert acc. induction l as [|x l IH]; intros acc; simpl; [done |].
  rewrite H. by destruct (g acc x); simpl.
Qed.

(** ** Trades *)

Section trades.
Context {S L : Type} {A : AMM S L} {FU : Fungibles L}.
Context (amm_ok : S -> Prop) (acc : AccountId)
  (amm_quote : S -> CurrencyId -> CurrencyId -> Balance -> Res Balance).
Context {AL : AMMLaws S L amm_ok acc amm_quote}.
Context (T : Config).
Implicit Types (s : S) (route : list CurrencyId).

Lemma swap_route_cons who a b route x xs s :
  swap_route who (a :: b :: route) (x :: xs) s =
    (s1 ← amm_swap who (a, b) x s; swap_route who (b :: route) xs s1).
Proof.
  unfold swap_route. cbn [length Nat.sub seq fold_res]. rewrite Nat.sub_0_r. simpl.
  destruct (amm_swap who (a, b) x s) as [s1| |]; simpl; [| done | done].
  rewrite <- seq_shift, fold_res_map. apply fold_res_ext. intros s2 i. done.
Qed.

(** What the hops quote in the state [s], one after the other. *)
Fixpoint quotes s route (amounts outs : list Balance) : Prop :=
  match route, amounts, outs with
  | a :: (b :: _) as r, x :: xs, y :: ys => amm_quote s a b x = Ok y /\ quotes s r xs ys
  | [_], _, [] => True
  | _, _, _ => False
  end.
(** What a trader gains in [c] by paying [amounts] and receiving [outs]. *)
Fixpoint net route (amounts outs : list Balance) (c : CurrencyId) : Z :=
  match route, amounts, outs with
  | a :: (b :: _) as r, x :: xs, y :: ys =>
      (if decide (c = b) then y else 0) - (if decide (c = a) then x else 0) + net r xs ys c
  | _, _, _ => 0
  end.

Lemma net_cons a b route x xs y ys c :
  net (a :: b :: route) (x :: xs) (y :: ys) c =
    (if decide (c = b) then y else 0) - (if decide (c = a) then x else 0) + net (b :: route) xs ys c.
Proof. done. Qed.

Lemma quotes_frame s s' a route amounts outs b :
  (forall c d z, ~ same_pool (c, d) (a, b) -> amm_quote s' c d z = amm_quote s c d z) ->
  a ∉ route -> quotes s' route amounts outs -> quotes s route amounts outs.
Proof.
  intros Hf. revert amounts outs. induction route as [|c [|d route] IH]; intros amounts outs Ha H; [done | done |].
  destruct amounts as [|x xs], outs as [|y ys]; try done. destruct H as [H1 H2].
  rewrite !elem_of_cons in Ha. split; [| apply IH; [| done]; rewrite elem_of_cons; tauto].
  rewrite <- (Hf c d x); [done |]. intros [E|E]; injection E as ? ?; subst; tauto.
Qed.

Lemma swap_route_trade who route : forall amounts s s',
  NoDup route -> route <> [] -> length amounts = length route ->
  swap_route who route amounts s = Ok s' -> amm_ok s -> who <> acc ->
  (forall a, a ∈ route -> minimum_balance a <= 1) ->
  exists outs, quotes s route amounts outs /\
    forall c, balance (amm_assets s') c who = balance (amm_assets s) c who + net route amounts outs c.
Proof.
  induction route as [|a [|b route] IH]; intros amounts s s' Hnd Hne Hlen H Hok Hwho Hmin; [done | |].
  - injection H as <-. exists []. split; [by destruct amounts |]. intros c.
    replace (net [a] amounts [] c) with 0 by by destruct amounts. lia.
  - destruct amounts as [|x xs]; [done |]. rewrite swap_route_cons in H.
    apply result_bind_Ok in H as (s1 & Hs & H). apply NoDup_cons in Hnd as [Ha Hnd].
    destruct (swap_trade who a b x s s1 Hs Hok Hwho) as (Hab & Hok1 & (y & Hy & Ba & Bb) & Bf & Qf).
    { apply Hmin. by left. }
    { apply Hmin. right. by left. }
    destruct (IH xs s1 s' Hnd ltac:(done) ltac:(simpl in *; lia) H Hok1 Hwho) as (ys & Hq & HB).
    { intros c Hc. apply Hmin. by right. }
    exists (y :: ys). split; [split; [done | by eapply quotes_frame] |].
    intros c. rewrite HB. rewrite net_cons. repeat case_decide; subst; rewrite ?Ba, ?Bb, ?Bf by done; (done || lia).
Qed.

(** When every hop delivers what the next one pays, only the two ends of the route move. *)
Lemma net_telescope route : forall x xs a b out c,
  length (x :: xs) = length route -> route !! 0%nat = Some a -> last route = Some b ->
  last (x :: xs) = Some out ->
  net route (x :: xs) xs c = (if decide (c = b) then out else 0) - (if decide (c = a) then x else 0).
Proof.
  induction route as [|a0 [|b0 route] IH]; intros x xs a b out c Hlen Ha Hb Hout; [done | |].
  - destruct xs; [| done]. simpl in *. simplify_eq. case_decide; lia.
  - destruct xs as [|y ys]; [done |]. rewrite net_cons. simpl in Ha. injection Ha as ->.
    rewrite (IH y ys b0 b out c); [| simpl in *; lia | done | by rewrite last_cons_cons in Hb | by rewrite last_cons_cons in Hout].
    repeat case_decide; lia.
Qed.

Lemma quotes_hops s route : forall x xs,
  (forall i a b, route !! i = Some a -> route !! (i + 1)%nat = Some b ->
     exists y z, (x :: xs) !! i = Some y /\ (x :: xs) !! (i + 1)%nat = Some z /\ amm_quote s a b y = Ok z) ->
  length (x :: xs) = length route ->
  forall outs, quotes s route (x :: xs) outs -> outs = xs.
Proof.
  induction route as [|a [|b route] IH]; intros x xs Hv Hlen outs Hq; [done | |].
  - destruct xs; [| done]. by destruct outs.
  - destruct outs as [|y ys]; [done |]. destruct Hq as [Hq1 Hq2]. destruct xs as [|x2 xs]; [done |].
    destruct (Hv 0%nat a b eq_refl eq_refl) as (y0 & z0 & [= <-] & [= <-] & Hz). rewrite Hz in Hq1. injection Hq1 as <-.
    f_equal. apply (IH x2 xs); [| simpl in *; lia | done].
    intros i c d Hc Hd. apply (Hv (Datatypes.S i) c d Hc Hd).
Qed.

Lemma route_checks_Ok route u : route_checks T route = Ok u ->
  route <> [] /\ Z.of_nat (length route) <= MaxLengthRoute T /\ NoDup route.
Proof.
  unfold route_checks. intros H. minv. zbool. split; [by eapply bool_decide_eq_false |].
  split; [done |]. by apply contains_duplicate_NoDup.
Qed.

(** A trade of an exact input delivers what it announces.  If the extrinsic succeeds for a trader
    who is not the exchange itself (and the currencies of the route have a minimum balance of at
    most 1), then the route has no repeated currency, the output is at least the minimum that the
    trader asked for, the one event reports the input and that output, and, whatever the number of
    hops, the trader has paid exactly the input in the first currency and received exactly the
    output in the last; no other balance of the trader, those of the currencies in between
    included, has changed. *)
Theorem exact_input_delivers origin route amount_in min_amount_out st st' :
  swap_exact_tokens_for_tokens T origin route amount_in min_amount_out st = Ok st' ->
  amm_ok (amm st) -> origin <> Signed acc -> (forall a, a ∈ route -> minimum_balance a <= 1) ->
  exists who a b out, origin = Signed who /\ NoDup route /\ route !! 0%nat = Some a /\
    last route = Some b /\ 0 < amount_in /\ min_amount_out <= out /\
    events st' = events st ++ [Traded who amount_in route out] /\
    forall c, balance (amm_assets (amm st')) c who =
      balance (amm_assets (amm st)) c who
      + (if decide (c = b) then out else 0) - (if decide (c = a) then amount_in else 0).
Proof.
  unfold swap_exact_tokens_for_tokens, index, index_last. intros H Hok Ho Hmin. minv. zbool.
  match goal with H : ensure_signed _ = Ok ?w |- _ => rename H into Hs; rename w into who end.
  assert (origin = Signed who) as -> by (destruct origin; naive_solver).
  match goal with H : route_checks _ _ = _ |- _ => apply route_checks_Ok in H as (Hne & _ & Hnd) end.
  match goal with H : amm_get_amounts_out _ _ _ = Ok ?v |- _ => rename H into Hv; rename v into amounts end.
  match goal with H : route !! _ = Some ?a |- _ => rename H into Ha; rename a into a0 end.
  match goal with H : swap_route _ _ _ _ = _ |- _ => rename H into Hswap end.
  destruct (amounts_out_head _ _ _ _ Hv) as [Hlen Hhd].
  destruct amounts as [|x xs]; [done |]. simpl in Hhd. injection Hhd as ->. simpl in *.
  repeat match goal with H : Some amount_in = Some _ |- _ => injection H as <- end.
  destruct (last route) as [b|] eqn:Hb; [| by apply last_None in Hb].
  destruct (swap_route_trade who route (amount_in :: xs) (amm st) _ Hnd Hne Hlen Hswap Hok ltac:(congruence) Hmin)
    as (outs & Hq & HB).
  assert (outs = xs) as ->.
  { apply (quotes_hops (amm st) route amount_in xs); [| done | done].
    intros i c d Hc Hd. by apply (amounts_out_hop _ _ _ _ _ _ _ Hv). }
  do 4 eexists. repeat (split; [done |]). intros c. rewrite HB.
  rewrite (net_telescope route amount_in xs a0 b _ c Hlen Ha Hb) by eassumption. lia.
Qed.

(** The last currency receives what the last hop quotes; a quote at or above what the next hop
    pays leaves the trader nothing to add. *)
Lemma net_at_least route : forall x xs outs b out,
  NoDup route -> length (x :: xs) = length route -> last route = Some b ->
  last (x :: xs) = Some out -> (1 < length route)%nat ->
  Forall2 Z.le xs outs -> out <= net route (x :: xs) outs b.
Proof.
  induction route as [|a0 [|b0 route] IH]; intros x xs outs b out Hnd Hlen Hb Hout Hlong Hle; [done | simpl in *; lia |].
  destruct Hle as [|y y' ys outs Hy Hle]; [done |]. rewrite net_cons. rewrite last_cons_cons in Hb, Hout.
  apply NoDup_cons in Hnd as [Ha Hnd]. assert (Hba : b <> a0).
  { intros ->. apply Ha, list_elem_of_In. apply last_Some in Hb as [l' ->]. apply in_app_iff. right. by left. }
  rewrite (decide_False (P := b = a0)) by done. destruct route as [|c route].
  - injection Hb as <-. destruct ys; [| done]. injection Hout as <-. rewrite decide_True by done.
    destruct outs; simpl; lia.
  - specialize (IH y ys outs b out Hnd ltac:(simpl in *; lia) Hb Hout ltac:(simpl; lia) Hle).
    assert (b <> b0); [| rewrite decide_False by done; lia].
    apply NoDup_cons in Hnd as [Hb0 _]. intros ->. apply Hb0. rewrite last_cons_cons in Hb.
    apply last_Some in Hb as [l' ->]. apply elem_of_app. right. by left.
Qed.

(** A trade for an exact output never costs more than the trader allowed.  If it succeeds, the
    first amount that [get_amounts_in] computed is at most the maximum, and for every currency the
    trader's balance moves by what the hops paid and received: hop [i] is paid the computed amount
    [i] and gives what its pool quotes for it.  If no hop gives less than the next amount, the
    trader receives at least the output asked for. *)
Theorem exact_output_costs origin route amount_out max_amount_in st st' :
  swap_tokens_for_exact_tokens T origin route amount_out max_amount_in st = Ok st' ->
  amm_ok (amm st) -> origin <> Signed acc -> (forall a, a ∈ route -> minimum_balance a <= 1) ->
  exists who a b x amounts outs, origin = Signed who /\ NoDup route /\ route !! 0%nat = Some a /\
    last route = Some b /\ amm_get_amounts_in (amm st) amount_out route = Ok (x :: amounts) /\
    x <= max_amount_in /\ quotes (amm st) route (x :: amounts) outs /\
    events st' = events st ++ [Traded who x route amount_out] /\
    (forall c, balance (amm_assets (amm st')) c who =
       balance (amm_assets (amm st)) c who + net route (x :: amounts) outs c) /\
    ((1 < length route)%nat -> Forall2 Z.le amounts outs ->
     balance (amm_assets (amm st)) b who + amount_out <= balance (amm_assets (amm st')) b who).
Proof.
  unfold swap_tokens_for_exact_tokens, index, index_last. intros H Hok Ho Hmin. minv. zbool.
  match goal with H : ensure_signed _ = Ok ?w |- _ => rename H into Hs; rename w into who end.
  assert (origin = Signed who) as -> by (destruct origin; naive_solver).
  match goal with H : route_checks _ _ = _ |- _ => apply route_checks_Ok in H as (Hne & _ & Hnd) end.
  match goal with H : amm_get_amounts_in _ _ _ = Ok ?v |- _ => rename H into Hv; rename v into amounts end.
  match goal with H : route !! _ = Some ?a |- _ => rename H into Ha; rename a into a0 end.
  match goal with H : swap_route _ _ _ _ = _ |- _ => rename H into Hswap end.
  destruct (amounts_in_last _ _ _ _ Hv) as [Hlen Hlast].
  destruct amounts as [|x xs]; [done |]. simpl in *.
  repeat match goal with
  | H : Some x = Some _ |- _ => injection H as <-
  | H : ?l = Some amount_out, H' : ?l = Some ?z |- _ => rewrite H in H'; injection H' as <-
  end.
  destruct (last route) as [b|] eqn:Hb; [| by apply last_None in Hb].
  destruct (swap_route_trade who route (x :: xs) (amm st) _ Hnd Hne Hlen Hswap Hok ltac:(congruence) Hmin)
    as (outs & Hq & HB).
  exists who, a0, b, x, xs, outs. repeat (split; [done |]). intros Hlong Hle. rewrite HB.
  pose proof (net_at_least route x xs outs b amount_out Hnd Hlen Hb Hlast Hlong Hle). lia.
Qed.
End trades.

(** ** The exchange of Amm.v keeps its promises *)

Section exchange.
Context {SA : SpArithmetic} {NB : NumBigint} {SL : SpArithmeticLaws SA} {NL : NumBigintLaws NB}.
Context {L : Type} {FU : Fungibles L} {FL : FungiblesLaws L}.
Context (X : Amm.Config) (iter : gmap (CurrencyId * CurrencyId) Amm.Pool -> list (CurrencyId * CurrencyId * Amm.Pool)).

Definition exchange : AMM (Amm.State L) L := {|
  amm_assets := Amm.assets;
  amm_get_amounts_out := Amm.get_amounts_out X;
  amm_get_amounts_in := Amm.get_amounts_in X;
  amm_swap who pair x s := '(_, s') ← Amm.swap X who pair x s; Ok s';
  amm_get_pools := Amm.get_pools iter;
|}.
Definition exchange_quote (s : Amm.State L) (a b : CurrencyId) (x : Balance) : Res Balance :=
  '(reserve_in, reserve_out) ← Amm.get_reserves s a b; Amm.get_amount_out X x reserve_in reserve_out.
#[local] Existing Instance exchange.

Lemma path_quote_hop (s : Amm.State L) path : forall x v i a b,
  path_quote X s x path = Ok v -> path !! i = Some a -> path !! (i + 1)%nat = Some b ->
  exists y z, v !! i = Some y /\ v !! (i + 1)%nat = Some z /\ exchange_quote s a b y = Ok z.
Proof.
  induction path as [|c [|d path] IH]; intros x v i a b H Ha Hb; [done | by destruct i |].
  change (path_quote X s x (c :: d :: path)) with
    ('(reserve_in, reserve_out) ← Amm.get_reserves s c d;
     out ← Amm.get_amount_out X x reserve_in reserve_out;
     amounts ← path_quote X s out (d :: path); Ok (E := DispatchError) (x :: amounts)) in H.
  apply result_bind_Ok in H as ([rin rout] & Hr & H). apply result_bind_Ok in H as (out & Ho & H).
  apply result_bind_Ok in H as (v' & Hv & [= <-]). destruct i as [|i].
  - injection Ha as ->. injection Hb as ->. destruct (path_quote_shape _ _ _ _ _ Hv) as [_ Hh].
    destruct v' as [|z v']; [done |]. injection Hh as ->. exists x, out. split; [done |]. split; [done |].
    unfold exchange_quote. by rewrite Hr.
  - exact (IH out v' i a b Hv Ha Hb).
Qed.

Lemma fold_res_inv_in {E B C} (P : B -> Prop) (f : B -> C -> result E B) l acc r :
  (forall b x b', x ∈ l -> P b -> f b x = Ok b' -> P b') -> P acc -> fold_res f l acc = Ok r -> P r.
Proof.
  revert acc. induction l as [|x l IH]; intros acc Hf Hacc H; simpl in H; [by injection H as <- |].
  apply result_bind_Ok in H as (b & Hb & H). apply (IH b); [| | done].
  - intros b0 x0 b0' Hx. apply Hf. by right.
  - apply (Hf acc x); [by left | done | done].
Qed.

(** The loop of [get_amounts_in] leaves the last entry as it set it first. *)
Lemma get_amounts_in_last (s : Amm.State L) y path v :
  Amm.get_amounts_in X s y path = Ok v -> length v = length path /\ last v = Some y.
Proof.
  unfold Amm.get_amounts_in. intros H. apply result_bind_Ok in H as (v0 & H0 & H).
  rewrite length_replicate in H0. case_decide as Hn; [done |]. unfold Amm.vec_set in H0.
  rewrite length_replicate in H0. case_decide as Hl; [| done]. injection H0 as <-.
  revert H. apply (fold_res_inv_in (fun v => length v = length path /\ last v = Some y)).
  - intros v1 i v2 Hi [Hv1 Hv2] H. rewrite elem_of_reverse, list_elem_of_In, in_seq in Hi.
    apply result_bind_Ok in H as (p0 & _ & H). apply result_bind_Ok in H as (p1 & _ & H).
    apply result_bind_Ok in H as ([rin rout] & _ & H). apply result_bind_Ok in H as (x & _ & H).
    apply result_bind_Ok in H as (z & _ & H). unfold Amm.vec_set in H. case_decide; [| done].
    injection H as <-. rewrite length_insert. split; [done |].
    rewrite last_lookup in *. rewrite length_insert. rewrite list_lookup_insert_ne by lia. done.
  - rewrite length_insert, length_replicate. split; [done |]. rewrite last_lookup, length_insert, length_replicate.
    rewrite <- Nat.sub_1_r. apply list_lookup_insert_eq. by rewrite length_replicate.
Qed.

Lemma get_reserves_frame (s : Amm.State L) a b inv x y p c d :
  Amm.sort_assets (a, b) = Ok (inv, x, y) -> ~ same_pool (c, d) (a, b) ->
  forall s' : Amm.State L, Amm.Pools s' = <[(x, y) := p]> (Amm.Pools s) ->
  Amm.get_reserves s' c d = Amm.get_reserves s c d.
Proof.
  intros Hs Hn s' E. unfold Amm.get_reserves. destruct (Amm.sort_assets (c, d)) as [[[inv' x'] y']| |] eqn:Hs'; [simpl | done | done].
  rewrite E, lookup_insert_ne; [done |]. intros Exy. injection Exy as -> ->. apply Hn.
  apply sort_assets_Ok in Hs as [_ Hs], Hs' as [_ Hs']. unfold same_pool; simpl.
  destruct Hs as [(_ & -> & ->)|(_ & -> & ->)], Hs' as [(_ & -> & ->)|(_ & -> & ->)]; auto.
Qed.

Lemma exchange_laws : AMMLaws (Amm.State L) L (fun _ => True) (Amm.account_id X) exchange_quote.
Proof.
  split; simpl.
  - intros s x path v H. rewrite get_amounts_out_path_quote in H. apply path_quote_shape in H as [? Hh].
    split; [done |]. by destruct v.
  - intros s x path v i a b H. rewrite get_amounts_out_path_quote in H. by apply (path_quote_hop s path x).
  - intros s y path v. apply get_amounts_in_last.
  - intros who a b x s s' H _ Hwho Hma Hmb. unfold Amm.swap in H.
    apply result_bind_Ok in H as ([u s1] & H & [= <-]).
    apply M_bind_Ok in H as (out & s2 & H & [= <- <-]).
    apply do_swap_Ok in H as (inv & k1 & k2 & p & p' & l1 & l2 & Hsort & Hp & _ & Hout & _ & _ & _ & Ht1 & Ht2 & ->).
    assert (Hab : a <> b) by (apply sort_assets_Ok in Hsort as [? [(_ & -> & ->)|(_ & -> & ->)]]; lia).
    assert (Hd1 : dust_free (Amm.assets s) a who x) by (apply dust_free_min_one; [done | by eapply transfer_enough]).
    assert (Hne : Amm.account_id X <> who) by congruence.
    assert (Hd2 : dust_free l1 b (Amm.account_id X) out) by (apply dust_free_min_one; [done | by eapply transfer_enough]).
    split; [done |]. split; [done |]. simpl. split; [| split].
    + exists out. split; [| split].
      * unfold exchange_quote, Amm.get_reserves. rewrite Hsort; simpl. rewrite Hp; simpl. destruct inv; exact Hout.
      * rewrite (transfer_frame _ _ _ _ _ _ _ a who Ht2) by auto. by apply (transfer_source _ _ _ _ _ _ _ Ht1).
      * rewrite (transfer_dest_exact _ _ _ _ _ _ _ Ht2 Hne Hd2).
        by rewrite (transfer_frame _ _ _ _ _ _ _ b who Ht1) by auto.
    + intros c Hca Hcb. rewrite (transfer_frame _ _ _ _ _ _ _ c who Ht2) by auto.
      by rewrite (transfer_frame _ _ _ _ _ _ _ c who Ht1) by auto.
    + intros c d z Hn. unfold exchange_quote. by rewrite (get_reserves_frame s a b inv k1 k2 p' c d Hsort Hn).
Qed.
End exchange.
