(* ===== verification/RouterSearch.v ===== *)
(** * The search for routes

    The loop over the queue of partial routes terminates and finds exactly the routes from one
    currency to another that use existing pools and visit no currency twice; the best route is the
    best of those that the exchange can quote. *)

From S2P Require Import Prelude Arith Frame Ledger Amm AmmProps Router RouterProps.
From stdpp Require Import sorting list.
#[local] Open Scope Z_scope.
Import Router RouterErrors.

(** ** Routes in a graph *)

Abbreviation Graph := (gmap Z (list Z)).

Definition neighbours (g : Graph) (a : Z) : list Z := default [] (g !! a).
Fixpoint chain (g : Graph) (a : Z) (l : list Z) : Prop :=
  match l with [] => True | b :: l' => b ∈ neighbours g a /\ chain g b l' end.
(** The edges of the graph lead to nodes of the graph. *)
Definition closed (g : Graph) : Prop := forall a b, b ∈ neighbours g a -> b ∈ dom g.

(** A route of pools from [a] to [b] without repetition. *)
Definition linked (pools : list (CurrencyId * CurrencyId)) (a b : CurrencyId) : Prop :=
  (a, b) ∈ pools \/ (b, a) ∈ pools.
Fixpoint hops (pools : list (CurrencyId * CurrencyId)) (a : CurrencyId) (l : list CurrencyId) : Prop :=
  match l with [] => True | b :: l' => linked pools a b /\ hops pools b l' end.
Definition simple_route (pools : list (CurrencyId * CurrencyId)) (a b : CurrencyId)
    (p : list CurrencyId) : Prop :=
  exists l, p = a :: l /\ hops pools a l /\ NoDup p /\ last p = Some b.

Lemma push_edge_neighbours g a b x y :
  y ∈ neighbours (push_edge g a b) x <-> y ∈ neighbours g x \/ (x = a /\ y = b).
Proof.
  unfold neighbours, push_edge. destruct (decide (a = x)) as [->|Hne].
  - rewrite lookup_insert_eq; simpl. rewrite elem_of_app, list_elem_of_singleton. tauto.
  - rewrite lookup_insert_ne by done. split; [tauto | intros [?|[-> _]]; [done | congruence]].
Qed.

Lemma push_edge_dom g a b x : x ∈ dom (push_edge g a b) <-> x ∈ dom g \/ x = a.
Proof. unfold push_edge. rewrite dom_insert. set_solver. Qed.

Lemma build_graph_spec pools :
  (forall a b, b ∈ neighbours (build_graph pools) a <-> linked pools a b) /\
  (forall a, a ∈ dom (build_graph pools) <-> exists b, linked pools a b).
Proof.
  unfold build_graph. induction pools as [|[c d] pools IH] using rev_ind.
  - cbn [foldl]. split; [| intros a; rewrite dom_empty, elem_of_empty; split; [done |]].
    + intros a b. unfold linked, neighbours. simpl. rewrite lookup_empty. simpl. set_solver.
    + intros [b [H|H]]; by apply elem_of_nil in H.
  - destruct IH as [IH1 IH2]. rewrite foldl_app. simpl.
    assert (Hl : forall a b, linked (pools ++ [(c, d)]) a b <-> linked pools a b \/ (a = c /\ b = d) \/ (a = d /\ b = c)).
    { intros a b. unfold linked. rewrite !elem_of_app, !list_elem_of_singleton.
      split; [intros [[?|E]|[?|E]]; try injection E as -> ->; tauto | intros [[?|?]|[[-> ->]|[-> ->]]]; tauto]. }
    split.
    + intros a b. rewrite !push_edge_neighbours, IH1, Hl. tauto.
    + intros a. rewrite !push_edge_dom, IH2. setoid_rewrite Hl. split.
      * intros [[[b ?]| ->]| ->]; eauto.
      * intros [b [?|[[-> ->]|[-> ->]]]]; eauto.
Qed.

Lemma build_graph_closed pools : closed (build_graph pools).
Proof.
  intros a b. destruct (build_graph_spec pools) as [H1 H2]. rewrite H1, H2. intros Hl. exists a.
  destruct Hl; [by right | by left].
Qed.

Lemma chain_hops pools a l : chain (build_graph pools) a l <-> hops pools a l.
Proof.
  revert a. induction l as [|b l IH]; intros a; simpl; [done |].
  by rewrite (proj1 (build_graph_spec pools)), IH.
Qed.

(** ** The tree that the loop walks *)

(** Extensions of [path] by [start] and then by unvisited neighbours *)
Definition unvisited (g : Graph) (path : list Z) (start : Z) : list Z :=
  List.filter (fun item => negb (bool_decide (item ∈ path))) (neighbours g start).
Fixpoint walks (d : nat) (g : Graph) (path : list Z) (start : Z) : list (list Z) :=
  match d with
  | O => []
  | S d' => (path ++ [start]) ::
      flat_map (walks d' g (path ++ [start])) (unvisited g (path ++ [start]) start)
  end.
(** The number of nodes that are not on [path] yet *)
Definition room (g : Graph) (path : list Z) : nat := size (dom g ∖ list_to_set path).

Definition entry_ok (g : Graph) (end_ : Z) (e : Z * Z * list Z) : Prop :=
  e.1.1 ∈ dom g /\ e.1.1 ∉ e.2 /\ e.1.2 = end_ /\ NoDup e.2.
Definition entry_walks (g : Graph) (e : Z * Z * list Z) : list (list Z) :=
  walks (room g e.2) g e.2 e.1.1.

Lemma unvisited_spec g path start x :
  x ∈ unvisited g path start <-> x ∈ neighbours g start /\ x ∉ path.
Proof.
  unfold unvisited. rewrite list_elem_of_In, filter_In, negb_true_iff, bool_decide_eq_false.
  by rewrite <- list_elem_of_In.
Qed.

Lemma room_step g path start :
  start ∈ dom g -> start ∉ path -> room g path = S (room g (path ++ [start])).
Proof.
  intros Hd Hp. unfold room. rewrite list_to_set_app_L. simpl. rewrite union_empty_r_L.
  assert (E : dom g ∖ list_to_set path = {[start]} ∪ (dom g ∖ (list_to_set path ∪ {[start]}))).
  { apply set_eq. intros x. rewrite elem_of_union, !elem_of_difference, elem_of_union, elem_of_list_to_set, elem_of_singleton.
    destruct (decide (x = start)) as [->|]; tauto. }
  rewrite E at 1. rewrite size_union by set_solver. rewrite size_singleton. done.
Qed.

Lemma snoc_nodup (path : list Z) x : NoDup path -> x ∉ path -> NoDup (path ++ [x]).
Proof.
  intros Hn Hx. apply NoDup_app. split; [done |]. split; [| apply NoDup_singleton].
  intros y Hy ->%list_elem_of_singleton. done.
Qed.

(** The walks are the extensions along edges that visit nothing twice. *)
Lemma walks_spec d g : forall path start p,
  (room g path <= d)%nat -> closed g -> start ∈ dom g -> start ∉ path -> NoDup path ->
  p ∈ walks d g path start <-> exists l, p = path ++ start :: l /\ chain g start l /\ NoDup p.
Proof.
  induction d as [|d IH]; intros path start p Hr Hc Hd Hp Hn.
  { rewrite (room_step g path start Hd Hp) in Hr. lia. }
  pose proof (snoc_nodup path start Hn Hp) as Hn'.
  assert (Hr' : (room g (path ++ [start]) <= d)%nat) by (rewrite (room_step g path start Hd Hp) in Hr; lia).
  simpl. rewrite elem_of_cons, (list_elem_of_In (flat_map _ _)), in_flat_map. split.
  - intros [->|(x & Hx & H)]; [by exists [] |]. apply list_elem_of_In, unvisited_spec in Hx as [Hx1 Hx2].
    apply list_elem_of_In in H. apply IH in H; [| done | done | by eapply Hc | done | done].
    destruct H as (l & -> & Hl & Hnd). exists (x :: l). rewrite <- app_assoc in *. done.
  - intros ([|x l] & -> & Hl & Hnd); [by left | right]. destruct Hl as [Hx Hl]. exists x.
    assert (E : path ++ start :: x :: l = (path ++ [start]) ++ x :: l) by by rewrite <- app_assoc.
    rewrite E in *. apply NoDup_app in Hnd as Hnd'. destruct Hnd' as (_ & Hx' & _).
    assert (Hxp : x ∉ path ++ [start]) by (intros Hin; apply (Hx' x Hin); by left).
    split; [by apply list_elem_of_In, unvisited_spec |]. apply list_elem_of_In, IH; try done; [by eapply Hc |].
    by exists l.
Qed.

Lemma entry_walks_step g end_ start path :
  entry_ok g end_ (start, end_, path) -> closed g ->
  entry_walks g (start, end_, path) = (path ++ [start]) ::
    flat_map (entry_walks g) (map (fun node => (node, end_, path ++ [start])) (unvisited g (path ++ [start]) start)) /\
  Forall (entry_ok g end_) (map (fun node => (node, end_, path ++ [start])) (unvisited g (path ++ [start]) start)).
Proof.
  intros (Hd & Hp & _ & Hn) Hc. split.
  - unfold entry_walks at 1. simpl in *. rewrite (room_step g path start Hd Hp). simpl. f_equal.
    generalize (unvisited g (path ++ [start]) start). intros l. by induction l as [|x l IH]; simpl; [| rewrite IH].
  - apply Forall_map, Forall_forall. intros x [Hx1 Hx2]%unvisited_spec. simpl in *.
    split; [by eapply Hc |]. split; [done |]. split; [done |]. by apply snoc_nodup.
Qed.

Lemma swap_remove_perm {A} (l : list A) : swap_remove_rest l ≡ₚ l.
Proof.
  unfold swap_remove_rest. rewrite <- (reverse_involutive l) at 2. destruct (reverse l) as [|x r]; [done |].
  rewrite reverse_cons. apply Permutation_cons_append.
Qed.

Lemma list_filter_perm {A} (f : A -> bool) l l' : l ≡ₚ l' -> List.filter f l ≡ₚ List.filter f l'.
Proof.
  induction 1 as [|x l l' _ IH|x y l|l l' l'' _ IH1 _ IH2]; simpl; [done | | | by rewrite IH1].
  - destruct (f x); by rewrite IH.
  - destruct (f x), (f y); try done. apply Permutation_swap.
Qed.

Definition ends (b : Z) (p : list Z) : bool := bool_decide (last p = Some b).

Lemma search_complete fuel g end_ : closed g -> forall queue paths,
  Forall (entry_ok g end_) queue -> (length (flat_map (entry_walks g) queue) <= fuel)%nat ->
  exists r, search fuel g queue paths = Some (Ok r) /\
    r ≡ₚ paths ++ List.filter (ends end_) (flat_map (entry_walks g) queue).
Proof.
  intros Hc. induction fuel as [|fuel IH]; intros [|[[start e] path] rest] paths Hok Hf;
    try (by exists paths; simpl; rewrite app_nil_r).
  - apply Forall_cons in Hok as [He _]. assert (e = end_) as -> by apply He.
    destruct (entry_walks_step g end_ start path He Hc) as [E _]. cbn [flat_map] in Hf. rewrite E in Hf. simpl in Hf. lia.
  - apply Forall_cons in Hok as [He Hok]. assert (e = end_) as -> by apply He.
    destruct (entry_walks_step g end_ start path He Hc) as [E Hnew].
    destruct (proj1 (elem_of_dom g start) (proj1 He)) as [adj Hadj].
    set (new := map _ _) in *. cbn [search]. rewrite Hadj.
    assert (Enew : map (fun node => (node, end_, path ++ [start]))
      (List.filter (fun item => negb (bool_decide (item ∈ path ++ [start]))) adj) = new).
    { unfold new, unvisited, neighbours. by rewrite Hadj. }
    rewrite Enew. clear Enew.
    assert (Hperm : flat_map (entry_walks g) (swap_remove_rest rest ++ new) ≡ₚ
                    flat_map (entry_walks g) rest ++ flat_map (entry_walks g) new).
    { rewrite <- flat_map_app. apply Permutation_flat_map. by rewrite swap_remove_perm. }
    cbn [flat_map] in Hf. rewrite E in Hf.
    destruct (IH (swap_remove_rest rest ++ new) (if start =? end_ then paths ++ [path ++ [start]] else paths)) as (r & Hr & Hp).
    { apply Forall_app. split; [by rewrite swap_remove_perm | done]. }
    { rewrite Hperm, length_app. cbn [app length] in Hf. rewrite length_app in Hf. lia. }
    exists r. split; [exact Hr |]. rewrite Hp. cbn [flat_map]. rewrite E.
    rewrite (list_filter_perm _ _ _ Hperm). cbn [app List.filter]. rewrite !List.filter_app.
    unfold ends at 3. rewrite last_snoc.
    rewrite (Permutation_app_comm (List.filter (ends end_) (flat_map (entry_walks g) rest))).
    destruct (Z.eqb_spec start end_) as [->|Hne].
    + rewrite bool_decide_true by done. rewrite <- app_assoc. done.
    + rewrite bool_decide_false by congruence. done.
Qed.

(** ** The search *)

Lemma search_mono fuel g : forall queue paths r k,
  search fuel g queue paths = Some r -> search (fuel + k) g queue paths = Some r.
Proof.
  induction fuel as [|fuel IH]; intros [|[[start e] path] rest] paths r k H; try done.
  - by destruct k.
  - simpl in *. destruct (g !! start); [by apply IH | done].
Qed.

Lemma search_routes pools a b :
  (exists c, linked pools a c) ->
  exists n paths,
    (forall fuel, (n <= fuel)%nat -> search fuel (build_graph pools) [(a, b, [])] [] = Some (Ok paths)) /\
    forall p, p ∈ paths <-> simple_route pools a b p.
Proof.
  intros Ha. pose proof (build_graph_closed pools) as Hc. set (g := build_graph pools) in *.
  assert (Hd : a ∈ dom g) by (by apply build_graph_spec).
  assert (He : entry_ok g b (a, b, [])) by (repeat split; [done | apply not_elem_of_nil | constructor]).
  pose (n := length (flat_map (entry_walks g) [(a, b, [])])).
  destruct (search_complete n g b Hc [(a, b, [])] []) as (paths & Hs & Hp); [by constructor | done |].
  exists n, paths. split.
  - intros fuel Hf. replace fuel with (n + (fuel - n))%nat by lia. by apply search_mono.
  - intros p. rewrite Hp. simpl. rewrite app_nil_r, list_elem_of_In, filter_In, <- list_elem_of_In.
    unfold entry_walks, ends; simpl. rewrite bool_decide_eq_true.
    rewrite walks_spec; [| lia | done | done | apply not_elem_of_nil | constructor].
    unfold simple_route. setoid_rewrite <- (chain_hops pools). fold g. naive_solver.
Qed.

(** C24: The search for routes terminates and is exhaustive.  For every list of pools and every
    currency that some pool trades there is a number of rounds after which the loop over the queue
    of partial routes has ended, without the look-up of a neighbour ever panicking; the routes it
    has collected are exactly the routes from the one currency to the other along existing pools,
    in either direction, that visit no currency twice. *)
Theorem search_finds_all_routes pools a b :
  (exists c, linked pools a c) ->
  exists n paths,
    (forall fuel, (n <= fuel)%nat -> search fuel (build_graph pools) [(a, b, [])] [] = Some (Ok paths)) /\
    forall p, p ∈ paths <-> simple_route pools a b p.
Proof. apply search_routes. Qed.

(** ** The best route *)

Section best.
Context {S L : Type} {A : AMM S L}.
Implicit Types s : S.

(** What the exchange quotes for a route: the output, or the input when [reversed]. *)
Definition quote_of s (amount : Balance) (reversed : bool) (route : list CurrencyId) : Res Balance :=
  if reversed then v ← amm_get_amounts_in s amount route; index v 0
  else v ← amm_get_amounts_out s amount route; index_last v.

Lemma quote_step s amount (reversed : bool) route (acc : list (list CurrencyId * Balance)) :
  (if reversed then
     match amm_get_amounts_in s amount route with
     | Ok amounts => x ← index amounts 0; Ok (acc ++ [(route, x)])
     | Err _ => Ok acc
     | Panic => Panic
     end
   else
     match amm_get_amounts_out s amount route with
     | Ok amounts => x ← index_last amounts; Ok (acc ++ [(route, x)])
     | Err _ => Ok acc
     | Panic => Panic
     end : Res (list (list CurrencyId * Balance))) =
  match quote_of s amount reversed route with
  | Ok x => Ok (E := DispatchError) (acc ++ [(route, x)])
  | Err _ => Ok acc
  | Panic => Panic
  end.
Proof.
  unfold quote_of. destruct reversed.
  - destruct (amm_get_amounts_in s amount route) as [v| |]; simpl; [| done | done].
    unfold index. by destruct (v !! 0%nat).
  - destruct (amm_get_amounts_out s amount route) as [v| |]; simpl; [| done | done].
    unfold index_last. by destruct (last v).
Qed.

Lemma get_output_routes_spec s amount (reversed : bool) routes :
  match get_output_routes s amount routes reversed with
  | Ok out => forall r x, (r, x) ∈ out <-> r ∈ routes /\ quote_of s amount reversed r = Ok x
  | Err _ => False
  | Panic => exists r, r ∈ routes /\ quote_of s amount reversed r = Panic
  end.
Proof.
  unfold get_output_routes. rewrite (fold_res_ext _ _ routes [] (fun acc route => quote_step s amount reversed route acc)).
  assert (G : forall acc, match fold_res (fun acc route => match quote_of s amount reversed route with
      | Ok x => Ok (E := DispatchError) (acc ++ [(route, x)]) | Err _ => Ok acc | Panic => Panic end) routes acc with
    | Ok out => forall r x, (r, x) ∈ out <-> (r, x) ∈ acc \/ (r ∈ routes /\ quote_of s amount reversed r = Ok x)
    | Err _ => False
    | Panic => exists r, r ∈ routes /\ quote_of s amount reversed r = Panic
    end).
  { induction routes as [|r0 routes IH]; intros acc; simpl.
    - intros r x. rewrite elem_of_nil. tauto.
    - destruct (quote_of s amount reversed r0) as [x0|e|] eqn:Hq; simpl.
      + specialize (IH (acc ++ [(r0, x0)])). case_match; [| done |].
        * intros r x. rewrite IH, elem_of_app, list_elem_of_singleton, elem_of_cons.
          split; [intros [[?|E]|?]; [| injection E as -> -> |]; tauto |].
          intros [?|[[->|?] Hx]]; [tauto | | tauto]. left. right. congruence.
        * destruct IH as (r & ? & ?). exists r. split; [by right | done].
      + specialize (IH acc). case_match; [| done |].
        * intros r x. rewrite IH, elem_of_cons. split; [tauto |]. intros [?|[[->|?] Hx]]; [tauto | congruence | tauto].
        * destruct IH as (r & ? & ?). exists r. split; [by right | done].
      + exists r0. split; [by left | done]. }
  specialize (G []). case_match; [| done | done]. intros r x. rewrite G, elem_of_nil. tauto.
Qed.

Lemma sorted_last (l : list (list CurrencyId * Balance)) z x :
  StronglySorted by_amount l -> last l = Some z -> x ∈ l -> z.2 <= x.2.
Proof.
  intros Hs. revert z. induction Hs as [|y l Hs IH Hy]; intros z Hl Hx; [done |].
  destruct l as [|y' l].
  - injection Hl as <-. apply list_elem_of_singleton in Hx. by subst.
  - rewrite last_cons_cons in Hl. apply elem_of_cons in Hx as [->|Hx]; [| by apply IH].
    rewrite Forall_forall in Hy. apply (Hy z). apply last_Some in Hl as [l' ->].
    apply elem_of_app. right. by left.
Qed.

Lemma by_amount_sorted l : StronglySorted by_amount (merge_sort by_amount l).
Proof. apply StronglySorted_merge_sort; unfold by_amount; red; intros; lia. Qed.

Lemma get_all_routes_spec s amount a b reversed pools :
  amm_get_pools s = Ok pools -> (exists c, linked pools a c) -> (exists c, linked pools b c) ->
  exists n paths,
    (forall fuel, (n <= fuel)%nat -> get_all_routes fuel s amount a b reversed =
       Some (output_routes ← get_output_routes s amount paths reversed; Ok (merge_sort by_amount output_routes))) /\
    forall p, p ∈ paths <-> simple_route pools a b p.
Proof.
  intros Hp Ha Hb. destruct (search_routes pools a b Ha) as (n & paths & Hs & Hpaths). exists n, paths.
  split; [| done]. intros fuel Hf. unfold get_all_routes. rewrite Hp, (Hs fuel Hf).
  apply (build_graph_spec pools), elem_of_dom in Ha as [? Ha]. apply (build_graph_spec pools), elem_of_dom in Hb as [? Hb].
  by rewrite Ha, Hb, !bool_decide_false.
Qed.

(** C25: [get_best_route] terminates and its answer is the best one.  After some number of rounds it
    answers the same for ever.  An answer is a route from the one currency to the other along
    existing pools without repetition, with the amount that the exchange quotes for it, and no
    other such route is quoted a larger output, or a smaller input when the search is reversed;
    the answer is [NoPossibleRoute] exactly when the exchange quotes no such route; and it panics
    only if the quote of such a route does. *)
Theorem best_route_is_best s amount a b (reversed : bool) pools :
  amm_get_pools s = Ok pools -> (exists c, linked pools a c) -> (exists c, linked pools b c) ->
  exists n res,
    (forall fuel, (n <= fuel)%nat -> get_best_route fuel s amount a b reversed = Some res) /\
    match res with
    | Ok (r, x) => simple_route pools a b r /\ quote_of s amount reversed r = Ok x /\
        forall r' x', simple_route pools a b r' -> quote_of s amount reversed r' = Ok x' ->
          if reversed then x <= x' else x' <= x
    | Err e => e = Router NoPossibleRoute /\
        forall r x, simple_route pools a b r -> quote_of s amount reversed r <> Ok x
    | Panic => exists r, simple_route pools a b r /\ quote_of s amount reversed r = Panic
    end.
Proof.
  intros Hp Ha Hb. destruct (get_all_routes_spec s amount a b reversed pools Hp Ha Hb) as (n & paths & Hall & Hpaths).
  pose proof (get_output_routes_spec s amount reversed paths) as Hout. exists n. eexists.
  split; [intros fuel Hf; unfold get_best_route; rewrite (Hall fuel Hf); simpl; reflexivity |].
  destruct (get_output_routes s amount paths reversed) as [out|e|]; simpl; [| done | by setoid_rewrite Hpaths in Hout].
  setoid_rewrite Hpaths in Hout. pose proof (by_amount_sorted out) as Hsort.
  assert (Hin : forall rx, rx ∈ merge_sort by_amount out <-> rx ∈ out) by (intros; by rewrite merge_sort_Permutation).
  destruct (merge_sort by_amount out) as [|[r x] l] eqn:El; simpl.
  - split; [done |]. intros r x Hr Hx. assert (Hrx : (r, x) ∈ out) by by apply Hout.
    apply Hin in Hrx. by apply elem_of_nil in Hrx.
  - assert (Hbest : forall r1 x1, (r1, x1) ∈ (r, x) :: l -> simple_route pools a b r1 /\ quote_of s amount reversed r1 = Ok x1)
      by (intros r1 x1 H1; by apply Hout, Hin).
    destruct reversed; simpl.
    + unfold index_last. destruct (last ((r, x) :: l)) as [[r1 x1]|] eqn:Hl; [simpl | by apply last_None in Hl].
      destruct (Hbest r1 x1) as [H1 H2]; [apply last_Some in Hl as [l' ->]; apply elem_of_app; right; by left |].
      split; [done |]. split; [done |]. intros r' x' Hr' Hx'.
      apply (sorted_last _ (r1, x1) (r', x') Hsort Hl), Hin, Hout. done.
    + destruct (Hbest r x) as [H1 H2]; [by left |]. split; [done |]. split; [done |]. intros r' x' Hr' Hx'.
      assert (Hrx : (r', x') ∈ (r, x) :: l) by (apply Hin, Hout; done).
      apply elem_of_cons in Hrx as [[= -> ->]|Hrx]; [done |].
      apply StronglySorted_cons in Hsort as [Hhd _]. rewrite Forall_forall in Hhd. exact (Hhd _ Hrx).
Qed.
End best.

(** ** Runs on the exchange of Amm.v

    Pools between the currencies 10, 20 and 30, and a nearly empty one between 40 and 50; trader 1. *)

Definition run_pool (base quote : Balance) (lp : CurrencyId) : Amm.Pool := Amm.mkPool base quote 0 0 lp 7 0 0.
Definition run_exchange : Amm.State ledger :=
  Amm.mkState
    (<[(20, 10) := run_pool 4000000 1000000 500]> (<[(30, 20) := run_pool 9000000 4000000 501]>
       (<[(30, 10) := run_pool 5000 100000 502]> (<[(50, 40) := run_pool 3 1995 503]> ∅)))) 0 None
    (Ledger (<[(10, 1000) := 1100000]> (<[(20, 1000) := 8000000]> (<[(30, 1000) := 9005000]>
       (<[(40, 1000) := 1995]> (<[(50, 1000) := 3]>
       (<[(10, 1) := 600000]> (<[(40, 1) := 5000]> ∅))))))) ∅) 7 [].
Definition run_state : State (Amm.State ledger) := mkState run_exchange [].
Definition run_config : Config := mkConfig 5 0.

Section instances.
#[local] Existing Instances sp_reference big_reference ledger_ops.
#[local] Existing Instances sp_reference_laws big_reference_laws ledger_ops_laws.
#[local] Instance run_amm : AMM (Amm.State ledger) ledger := exchange demo_config map_to_list.
#[local] Instance run_laws :
  AMMLaws (Amm.State ledger) ledger (fun _ => True) 1000 (exchange_quote demo_config) :=
  exchange_laws demo_config map_to_list.

Definition traded_in : State (Amm.State ledger) :=
  match swap_exact_tokens_for_tokens run_config (Signed 1) [10; 20; 30] 50000 1 run_state with Ok s => s | _ => run_state end.
Definition traded_out : State (Amm.State ledger) :=
  match swap_tokens_for_exact_tokens run_config (Signed 1) [10; 20; 30] 300000 50000 run_state with Ok s => s | _ => run_state end.
Definition traded_short : State (Amm.State ledger) :=
  match swap_tokens_for_exact_tokens run_config (Signed 1) [40; 50] 1 2000 run_state with Ok s => s | _ => run_state end.

Lemma run_minimum (route : list Z) a : a ∈ route -> minimum_balance (L := ledger) a <= 1.
Proof. done. Qed.

Lemma exact_input_delivers_witness :
  exists who a b out, Signed 1 = Signed who /\ NoDup [10; 20; 30] /\ [10; 20; 30] !! 0%nat = Some a /\
    last [10; 20; 30] = Some b /\ 0 < 50000 /\ 1 <= out /\
    events traded_in = events run_state ++ [Traded who 50000 [10; 20; 30] out] /\
    forall c, balance (amm_assets (amm traded_in)) c who =
      balance (amm_assets (amm run_state)) c who
      + (if decide (c = b) then out else 0) - (if decide (c = a) then 50000 else 0).
Proof.
  apply (exact_input_delivers (fun _ => True) 1000 (exchange_quote demo_config) run_config
           (Signed 1) [10; 20; 30] 50000 1 run_state traded_in);
    [vm_compute; reflexivity | done | discriminate | apply run_minimum].
Defined.

Lemma exact_output_costs_witness :
  exists who a b x amounts outs, Signed 1 = Signed who /\ NoDup [10; 20; 30] /\ [10; 20; 30] !! 0%nat = Some a /\
    last [10; 20; 30] = Some b /\ amm_get_amounts_in (amm run_state) 300000 [10; 20; 30] = Ok (x :: amounts) /\
    x <= 50000 /\ quotes (exchange_quote demo_config) (amm run_state) [10; 20; 30] (x :: amounts) outs /\
    events traded_out = events run_state ++ [Traded who x [10; 20; 30] 300000] /\
    (forall c, balance (amm_assets (amm traded_out)) c who =
       balance (amm_assets (amm run_state)) c who + net [10; 20; 30] (x :: amounts) outs c) /\
    ((1 < length [10; 20; 30])%nat -> Forall2 Z.le amounts outs ->
     balance (amm_assets (amm run_state)) b who + 300000 <= balance (amm_assets (amm traded_out)) b who).
Proof.
  apply (exact_output_costs (fun _ => True) 1000 (exchange_quote demo_config) run_config
           (Signed 1) [10; 20; 30] 300000 50000 run_state traded_out);
    [vm_compute; reflexivity | done | discriminate | apply run_minimum].
Defined.

(** An exact output that is not delivered: the trader pays 1001 units for one unit, gets none, and the
    event reports one. *)
Example exact_output_short :
  swap_tokens_for_exact_tokens run_config (Signed 1) [40; 50] 1 2000 run_state = Ok traded_short /\
  events traded_short = [Traded 1 1001 [40; 50] 1] /\
  balance (amm_assets (amm traded_short)) 40 1 = balance (amm_assets (amm run_state)) 40 1 - 1001 /\
  balance (amm_assets (amm traded_short)) 50 1 = balance (amm_assets (amm run_state)) 50 1.
Proof. vm_compute. repeat split. Qed.

Definition run_pools : list (CurrencyId * CurrencyId) := [(20, 10); (30, 20); (30, 10)].
Lemma search_finds_all_routes_witness :
  search 10 (build_graph run_pools) [(10, 30, [])] [] = Some (Ok [[10; 30]; [10; 20; 30]]) /\
  exists n paths,
    (forall fuel, (n <= fuel)%nat -> search fuel (build_graph run_pools) [(10, 30, [])] [] = Some (Ok paths)) /\
    forall p, p ∈ paths <-> simple_route run_pools 10 30 p.
Proof.
  split; [vm_compute; reflexivity |]. apply (search_finds_all_routes run_pools 10 30).
  exists 20. right. by left.
Defined.

Definition run_pool_keys : list (CurrencyId * CurrencyId) :=
  match amm_get_pools run_exchange with Ok pools => pools | _ => [] end.
Lemma best_route_is_best_witness :
  get_best_route 20 run_exchange 1000 10 30 false = Some (Ok ([10; 20; 30], 8928)) /\
  exists n res,
    (forall fuel, (n <= fuel)%nat -> get_best_route fuel run_exchange 1000 10 30 false = Some res) /\
    match res with
    | Ok (r, x) => simple_route run_pool_keys 10 30 r /\ quote_of run_exchange 1000 false r = Ok x /\
        forall r' x', simple_route run_pool_keys 10 30 r' -> quote_of run_exchange 1000 false r' = Ok x' ->
          x' <= x
    | Err e => e = Router NoPossibleRoute /\
        forall r x, simple_route run_pool_keys 10 30 r -> quote_of run_exchange 1000 false r <> Ok x
    | Panic => exists r, simple_route run_pool_keys 10 30 r /\ quote_of run_exchange 1000 false r = Panic
    end.
Proof.
  split; [vm_compute; reflexivity |].
  assert (Hin : (20, 10) ∈ run_pool_keys /\ (30, 20) ∈ run_pool_keys)
    by (split; apply (bool_decide_unpack _); vm_compute; exact I).
  apply (best_route_is_best run_exchange 1000 10 30 false run_pool_keys); [vm_compute; reflexivity | |].
  - exists 20. right. apply Hin.
  - exists 20. left. apply Hin.
Defined.
End instances.
