(* ===== verification/Stableswap.v ===== *)
(** * The stable exchange (src/pallets/stableswap/src/lib.rs, helpers.rs and types.rs)

    Pools of two assets that are meant to trade near parity, on the StableSwap curve.  The two
    iterations of helpers.rs compute with sp_arithmetic's [BigUint], the class [SpBigUint]; the rest
    of the pallet mirrors the exchange of Amm.v, whose [Pool] has the fields of types.rs. *)

From S2P Require Import Prelude Arith Frame Amm.
From stdpp Require Import strings list.
#[local] Open Scope Z_scope.
Import StableSwapErrors.

(** sp_arithmetic's [BigUint]: unbounded, [sub] fails below zero *)
Class SpBigUint := {
  spb_add : Z -> Z -> Z;
  spb_sub : Z -> Z -> option Z;
  spb_mul : Z -> Z -> Z;
  spb_to_u128 : Z -> option Z;   (* u128::try_from *)
}.
Class SpBigUintLaws (SB : SpBigUint) : Prop := {
  spb_add_eq a b : 0 <= a -> 0 <= b -> spb_add a b = a + b;
  spb_sub_eq a b : 0 <= a -> 0 <= b -> spb_sub a b = checked_sub a b;
  spb_mul_eq a b : 0 <= a -> 0 <= b -> spb_mul a b = a * b;
  spb_to_u128_eq a : 0 <= a -> spb_to_u128 a = fit_u128 a;
}.
Definition spb_reference : SpBigUint := {|
  spb_add := Z.add; spb_sub := checked_sub; spb_mul := Z.mul; spb_to_u128 := fit_u128 |}.
Lemma spb_reference_laws : SpBigUintLaws spb_reference.
Proof. by split. Qed.

Module Stableswap.

(** types.rs: the same struct as the exchange's, with the same [new] and [is_empty] *)
Abbreviation Pool := Amm.Pool (only parsing).
Import Amm(Pool_new, is_empty, base_amount, quote_amount, base_amount_last, quote_amount_last, lp_token_id,
  block_timestamp_last, price_0_cumulative_last, price_1_cumulative_last, get_big_uint,
  set_amounts, set_last, set_oracle).

(** [r.unwrap()] *)
Definition unwrap {A} (r : Res A) : Res A := match r with Err _ => Panic | _ => r end.

(** ** helpers.rs *)

Section helpers.
Context {NB : NumBigint} {SB : SpBigUint}.

Definition div (a b : Z) : Res Z :=
  let _nu := default 0 (spb_to_u128 a) in
  let _de := default 0 (spb_to_u128 b) in
  if _de =? 0 then Ok 0 else
  x ← ok_or (big_checked_div (get_big_uint _nu) (get_big_uint _de)) (Arithmetic Underflow);
  x ← or_panic (big_to_u128 x);
  Ok x.

(** The test at the end of a round: the last two values differ by at most one. *)
Definition converged (x prev : Z) : bool := if x >? prev then x - prev <=? 1 else prev - x <=? 1.

Fixpoint compute_d_loop (rounds : nat) (ann sum base_n quote_n d : Z) : Res Z :=
  match rounds with
  | O => Err (Other "could not compute d")
  | S rounds' =>
      let ann_d := spb_mul ann d in
      d_p ← div (spb_mul d d) base_n;
      d_p ← div (spb_mul d_p d) quote_n;
      let numerator := spb_mul (spb_add (spb_mul ann sum) (spb_mul d_p 2)) d in
      denominator ← ok_or (spb_sub (spb_add ann_d (spb_mul (spb_add 2 1) d_p)) d)
                      (Arithmetic Underflow);
      d' ← div numerator denominator;
      if converged d' d then ok_or (spb_to_u128 d') (Arithmetic Overflow)
      else compute_d_loop rounds' ann sum base_n quote_n d'
  end.

Definition compute_d (base_asset_aum quote_asset_aum amp_coeff : Z) : Res Z :=
  let sum := spb_add base_asset_aum quote_asset_aum in
  if sum =? 0 then Ok 0 else
  let ann := spb_mul (spb_mul amp_coeff 2) 2 in
  compute_d_loop 255 ann sum (spb_mul base_asset_aum 2) (spb_mul quote_asset_aum 2) sum.

Fixpoint compute_base_loop (rounds : nat) (ann s d term1 y : Z) : Res Z :=
  match rounds with
  | O => Err (Other "Error computing d")
  | S rounds' =>
      term2 ← ok_or (spb_sub (spb_add (spb_mul 2 y) s) d) (Arithmetic Underflow);
      let numerator := spb_add (spb_mul (spb_mul ann y) y) term1 in
      let denominator := spb_add (spb_mul ann term2) d in
      y' ← div numerator denominator;
      if converged y' y then ok_or (spb_to_u128 y') (Arithmetic Overflow)
      else compute_base_loop rounds' ann s d term1 y'
  end.

Definition compute_base (new_quote amp_coeff d : Z) : Res Z :=
  let ann := spb_mul (spb_mul amp_coeff 2) 2 in
  d_n ← div d 2;
  term1 ← div (spb_mul (spb_mul d_n d_n) d) new_quote;
  compute_base_loop 255 ann new_quote d term1 d.
End helpers.

(** ** The pallet *)

Record Config := mkConfig {
  account_id : AccountId;
  ProtocolFeeReceiver : AccountId;
  LpFee : Ratio;
  LockAccountId : AccountId;
  ProtocolFee : Ratio;
  MinimumLiquidity : Balance;
  NumTokens : Z;
  Precision : Z;
  AmplificationCoefficient : Z;
  CreatePoolOrigin : RuntimeOrigin -> bool;
}.

Inductive Event :=
| DeltaCalculated (asset_in asset_out : CurrencyId) (d : Z)
| Traded (who : AccountId) (asset_in asset_out : CurrencyId) (amount_in amount_out : Balance)
    (lp : CurrencyId) (new_quote new_base : Balance)
| PoolCreated (who : AccountId) (base quote lp : CurrencyId)
| LiquidityAdded (who : AccountId) (base quote : CurrencyId) (base_added quote_added : Balance)
    (lp : CurrencyId) (new_base new_quote : Balance)
| LiquidityRemoved (who : AccountId) (base quote : CurrencyId) (liquidity : Balance)
    (base_removed quote_removed : Balance) (lp : CurrencyId) (new_base new_quote : Balance).

Record State (L : Type) := mkState {
  Pools : gmap (CurrencyId * CurrencyId) Pool;
  assets : L;
  block_number : BlockNumber;
  events : list Event;
}.
Arguments mkState {L}.
Arguments Pools {L}.
Arguments assets {L}.
Arguments block_number {L}.
Arguments events {L}.

Section pallet.
Context {SA : SpArithmetic} {NB : NumBigint} {SB : SpBigUint} {L : Type} {FU : Fungibles L}.
Variable T : Config.

Abbreviation St := (State L).
Abbreviation Run := (M St DispatchError).

Definition set_assets (l : L) (s : St) : St := mkState (Pools s) l (block_number s) (events s).
Definition insert_pool (k : CurrencyId * CurrencyId) (p : Pool) (s : St) : St :=
  mkState (<[k := p]> (Pools s)) (assets s) (block_number s) (events s).
Definition push_event (e : Event) (s : St) : St :=
  mkState (Pools s) (assets s) (block_number s) (events s ++ [e]).
Definition deposit_event (e : Event) : Run unit := modify (push_event e).
Definition on_assets (f : L -> Res L) : Run unit := fun s =>
  match f (assets s) with
  | Ok l => Ok (tt, set_assets l s) | Err e => Err e | Panic => Panic
  end.
(** [.unwrap()] of a call that writes the storage *)
Definition unwrap_run {A} (m : Run A) : Run A := fun s =>
  match m s with Err _ => Panic | r => r end.

(** [o.ok_or(ConversionToU128Failed)?.to_u128().ok_or(e)?] *)
Definition convert (o : option Z) (e : ArithmeticError) : Res Z :=
  r ← ok_or o (StableSwap ConversionToU128Failed);
  ok_or (big_to_u128 r) (Arithmetic e).

Definition delta_util (tot_base_amount tot_quote_amount : Balance) : Res Balance :=
  compute_d tot_base_amount tot_quote_amount (AmplificationCoefficient T).
Definition get_base (new_quote amp_coeff d : Balance) : Res Balance :=
  compute_base new_quote amp_coeff d.

Definition sort_assets (pair : CurrencyId * CurrencyId) : Res (bool * CurrencyId * CurrencyId) :=
  let '(curr_a, curr_b) := pair in
  if curr_a >? curr_b then Ok (false, curr_a, curr_b)
  else if curr_a <? curr_b then Ok (true, curr_b, curr_a)
  else Err (StableSwap IdenticalAssets).

Definition get_reserves (s : St) (asset_in asset_out : CurrencyId) : Res (Balance * Balance) :=
  '(is_inverted, base_asset, quote_asset) ← sort_assets (asset_in, asset_out);
  pool ← ok_or (Pools s !! (base_asset, quote_asset)) (StableSwap PoolDoesNotExist);
  if is_inverted : bool then Ok (quote_amount pool, base_amount pool)
  else Ok (base_amount pool, quote_amount pool).

Definition get_amount_out (amount_in pool_base_aum pool_quote_aum : Balance) : Res Balance :=
  fees ← ok_or (r ← permill_checked_add (LpFee T) (ProtocolFee T);
                Some (permill_mul_floor r amount_in)) (Arithmetic Overflow);
  amount_in ← ok_or (checked_sub amount_in fees) (Arithmetic Underflow);
  let amp := AmplificationCoefficient T in
  d ← delta_util pool_base_aum pool_quote_aum;
  new_quote_amount ← ok_or (checked_add pool_quote_aum amount_in) (Arithmetic Overflow);
  new_base_amount ← get_base new_quote_amount amp d;
  ok_or (checked_sub pool_base_aum new_base_amount) (Arithmetic Underflow).

Definition get_amount_out_1 (amount_in reserve_in reserve_out : Balance) : Res Balance :=
  fees ← ok_or (r ← permill_checked_add (LpFee T) (ProtocolFee T);
                Some (permill_mul_floor r amount_in)) (Arithmetic Overflow);
  amount_in ← ok_or (checked_sub amount_in fees) (Arithmetic Underflow);
  numerator ← ok_or (checked_mul amount_in reserve_out) (Arithmetic Overflow);
  denominator ← ok_or (checked_add reserve_in amount_in) (Arithmetic Overflow);
  ok_or (checked_div numerator denominator) (Arithmetic Underflow).

Definition get_amount_in (amount_out reserve_in reserve_out : Balance) : Res Balance :=
  _ ← ensure (amount_out <? reserve_out) (StableSwap InsufficientSupplyOut);
  numerator ← ok_or (checked_mul reserve_in amount_out) (Arithmetic Overflow);
  denominator ← ok_or (checked_sub reserve_out amount_out) (Arithmetic Underflow);
  amount_in ← ok_or (checked_div numerator denominator) (Arithmetic Underflow);
  fee_percent ← ok_or (r ← permill_checked_add (LpFee T) (ProtocolFee T);
                       permill_checked_sub (permill_from_percent 100) r) (Arithmetic Underflow);
  ok_or (checked_add (permill_saturating_reciprocal_mul_floor fee_percent amount_in) 1)
    (Arithmetic Overflow).

Definition get_amounts_out (s : St) (amount_in : Balance) (path : list CurrencyId)
    : Res (list Balance) :=
  let amounts_out := replicate (length path) 0 in
  amounts_out ← Amm.vec_set amounts_out 0 amount_in;
  fold_res (fun amounts_out i =>
    path_i ← Amm.vec_get path i;
    path_i1 ← Amm.vec_get path (i + 1);
    '(reserve_in, reserve_out) ← get_reserves s path_i path_i1;
    amount ← Amm.vec_get amounts_out i;
    amount_out ← get_amount_out amount reserve_in reserve_out;
    Amm.vec_set amounts_out (i + 1) amount_out)
    (seq 0 (length path - 1)) amounts_out.

Definition get_amounts_in (s : St) (amount_out : Balance) (path : list CurrencyId)
    : Res (list Balance) :=
  let amounts_in := replicate (length path) 0 in
  let amount_len := length amounts_in in
  amounts_in ← (if decide (amount_len = 0)%nat then Panic
                else Amm.vec_set amounts_in (amount_len - 1) amount_out);
  fold_res (fun amounts_in i =>
    path_i0 ← Amm.vec_get path (i - 1);
    path_i ← Amm.vec_get path i;
    '(reserve_in, reserve_out) ← get_reserves s path_i0 path_i;
    amount ← Amm.vec_get amounts_in i;
    amount_in ← get_amount_in amount reserve_in reserve_out;
    Amm.vec_set amounts_in (i - 1) amount_in)
    (reverse (seq 1 (length path - 1))) amounts_in.

Definition quote (base_amount base_pool quote_pool : Balance) : Res Balance :=
  ok_or (r ← checked_mul base_amount quote_pool; checked_div r base_pool) (Arithmetic Underflow).

Definition get_ideal_amounts (pool : Pool) (amounts : Balance * Balance) : Res (Balance * Balance) :=
  let '(b_amount, q_amount) := amounts in
  if is_empty pool then Ok (b_amount, q_amount) else
  ideal_quote_amount ← quote b_amount (base_amount pool) (quote_amount pool);
  if ideal_quote_amount <=? q_amount then Ok (b_amount, ideal_quote_amount) else
  ideal_base_amount ← quote q_amount (quote_amount pool) (base_amount pool);
  Ok (ideal_base_amount, q_amount).

Definition protocol_fee_on : bool := negb (ProtocolFee T =? 0).

Definition get_protocol_fee_reciprocal_proportion : Res Balance :=
  ok_or (r ← permill_checked_add (ProtocolFee T) (LpFee T);
         Some (permill_saturating_reciprocal_mul_floor (permill_div (ProtocolFee T) r) 1))
    (Arithmetic Underflow).

Definition do_update_oracle (now : BlockNumber) (pool : Pool) : Res Pool :=
  if block_timestamp_last pool =? now then Ok pool else
  let time_elapsed := saturating_sub now (block_timestamp_last pool) in
  n0 ← convert (big_checked_mul (get_big_uint time_elapsed) (get_big_uint (quote_amount pool))) Overflow;
  price0_fraction ← or_panic (fixed_saturating_from_rational n0 (base_amount pool));
  n1 ← convert (big_checked_mul (get_big_uint time_elapsed) (get_big_uint (base_amount pool))) Overflow;
  price1_fraction ← or_panic (fixed_saturating_from_rational n1 (quote_amount pool));
  p0 ← ok_or (fixed_checked_add (price_0_cumulative_last pool) price0_fraction) (Arithmetic Overflow);
  p1 ← ok_or (fixed_checked_add (price_1_cumulative_last pool) price1_fraction) (Arithmetic Overflow);
  Ok (set_oracle p0 p1 now pool).

Definition share_of (x supply reserve : Balance) : Res Balance :=
  convert (r ← big_checked_mul (get_big_uint x) (get_big_uint supply);
           big_checked_div r (get_big_uint reserve)) Underflow.

Definition do_get_liquidity (total_supply : Balance) (pool : Pool) (ideal : Balance * Balance)
    : Run Balance :=
  let '(ideal_base_amount, ideal_quote_amount) := ideal in
  if total_supply =? 0 then
    _ ← on_assets (mint_into (lp_token_id pool) (LockAccountId T) (MinimumLiquidity T));
    lift (convert (r ← big_checked_mul (get_big_uint ideal_base_amount) (get_big_uint ideal_quote_amount);
                   big_checked_sub (big_sqrt r) (get_big_uint (MinimumLiquidity T))) Underflow)
  else
    l0 ← lift (share_of ideal_base_amount total_supply (base_amount pool));
    l1 ← lift (share_of ideal_quote_amount total_supply (quote_amount pool));
    mret (Z.min l0 l1).

Definition do_get_delta_on_the_fly (amounts : Balance * Balance) : Res Balance :=
  unwrap (delta_util amounts.1 amounts.2).

(** [liquidity + liquidity * (d1 - d0) / d0]; the operators panic out of range and on [d0 = 0]. *)
Definition scale_liquidity (liquidity d0 d1 : Balance) : Res Balance :=
  diff ← or_panic (checked_sub d1 d0);
  r ← or_panic (checked_mul liquidity diff);
  r ← or_panic (checked_div r d0);
  or_panic (checked_add liquidity r).

Definition do_add_liquidity (who : AccountId) (pool : Pool) (ideal : Balance * Balance)
    (pair : CurrencyId * CurrencyId) : Run Pool :=
  let '(ideal_base_amount, ideal_quote_amount) := ideal in
  let '(base_asset, quote_asset) := pair in
  s ← get;
  let contains_key := bool_decide (is_Some (Pools s !! (base_asset, quote_asset))) in
  d0 ← lift (if contains_key then
               '(tot_base_amount, tot_quote_amount) ← unwrap (get_reserves s base_asset quote_asset);
               unwrap (delta_util tot_base_amount tot_quote_amount)
             else Ok 0);
  let total_supply := total_issuance (assets s) (lp_token_id pool) in
  liquidity ← unwrap_run (do_get_liquidity total_supply pool (ideal_base_amount, ideal_quote_amount));
  new_base_amount ← lift (ok_or (checked_add (base_amount pool) ideal_base_amount) (Arithmetic Overflow));
  new_quote_amount ← lift (ok_or (checked_add (quote_amount pool) ideal_quote_amount) (Arithmetic Overflow));
  let pool := set_amounts new_base_amount new_quote_amount pool in
  d1 ← lift (if contains_key then
               d1 ← unwrap (do_get_delta_on_the_fly (new_base_amount, new_quote_amount));
               _ ← ensure (d1 >=? d0) (StableSwap InvalidInvariant);
               Ok d1
             else Ok 0);
  liquidity ← lift (if total_supply >? 0 then scale_liquidity liquidity d0 d1
                    else or_panic (checked_add liquidity d1));
  _ ← on_assets (mint_into (lp_token_id pool) who liquidity);
  _ ← on_assets (transfer base_asset who (account_id T) ideal_base_amount true);
  _ ← on_assets (transfer quote_asset who (account_id T) ideal_quote_amount true);
  mret (if protocol_fee_on then set_last (base_amount pool) (quote_amount pool) pool else pool).

Definition calculate_reserves_to_remove (s : St) (pool : Pool) (liquidity : Balance)
    : Res (Balance * Balance) :=
  let total_supply := total_issuance (assets s) (lp_token_id pool) in
  b_amount ← share_of liquidity (base_amount pool) total_supply;
  q_amount ← share_of liquidity (quote_amount pool) total_supply;
  Ok (b_amount, q_amount).

Definition do_remove_liquidity (who : AccountId) (pool : Pool) (liquidity : Balance)
    (pair : CurrencyId * CurrencyId) : Run (Balance * Balance * Pool) :=
  let '(base_asset, quote_asset) := pair in
  '(b_amount, q_amount) ← reads (fun s => calculate_reserves_to_remove s pool liquidity);
  new_base ← lift (ok_or (checked_sub (base_amount pool) b_amount) (StableSwap InsufficientLiquidity));
  new_quote ← lift (ok_or (checked_sub (quote_amount pool) q_amount) (StableSwap InsufficientLiquidity));
  let pool := set_amounts new_base new_quote pool in
  _ ← on_assets (burn_from (lp_token_id pool) who liquidity);
  _ ← on_assets (transfer base_asset (account_id T) who b_amount false);
  _ ← on_assets (transfer quote_asset (account_id T) who q_amount false);
  mret (b_amount, q_amount,
        if protocol_fee_on then set_last (base_amount pool) (quote_amount pool) pool else pool).

Definition do_mint_protocol_fee (pool : Pool) : Run (Balance * Pool) :=
  k_last ← lift (ok_or (big_checked_mul (get_big_uint (base_amount_last pool))
                          (get_big_uint (quote_amount_last pool))) (Arithmetic Overflow));
  if negb protocol_fee_on then
    mret (0, if negb (k_last =? 0) then set_last 0 0 pool else pool)
  else
  root_k_last ← lift (unwrap (delta_util (base_amount_last pool) (quote_amount_last pool)));
  root_k ← lift (unwrap (delta_util (base_amount pool) (quote_amount pool)));
  if root_k <=? root_k_last then mret (0, pool) else
  s ← get;
  let total_supply := get_big_uint (total_issuance (assets s) (lp_token_id pool)) in
  numerator ← lift (ok_or (r ← big_checked_sub root_k root_k_last;
                           big_checked_mul r total_supply) (StableSwap ConversionToU128Failed));
  proportion ← lift get_protocol_fee_reciprocal_proportion;
  scalar ← lift (ok_or (checked_sub proportion 1) (Arithmetic Underflow));
  let scalar := get_big_uint scalar in
  denominator ← lift (ok_or (r ← big_checked_mul root_k scalar;
                             big_checked_add r root_k_last) (StableSwap ConversionToU128Failed));
  protocol_fees ← lift (ok_or (big_checked_div numerator denominator) (Arithmetic Underflow));
  protocol_fees ← lift (ok_or (big_to_u128 protocol_fees) (Arithmetic Overflow));
  _ ← on_assets (mint_into (lp_token_id pool) (ProtocolFeeReceiver T) protocol_fees);
  mret (protocol_fees, pool).

Definition do_swap (who : AccountId) (pair : CurrencyId * CurrencyId) (amount_in : Balance)
    : Run Balance :=
  let '(asset_in, asset_out) := pair in
  '(is_inverted, base_asset, quote_asset) ← lift (sort_assets (asset_in, asset_out));
  s ← get;
  pool ← lift (ok_or (Pools s !! (base_asset, quote_asset)) (StableSwap PoolDoesNotExist));
  let '(supply_in, supply_out) :=
    if is_inverted : bool then (quote_amount pool, base_amount pool)
    else (base_amount pool, quote_amount pool) in
  _ ← lift (ensure (amount_in >=? permill_saturating_reciprocal_mul_floor (LpFee T) 1)
              (StableSwap InsufficientAmountIn));
  _ ← lift (ensure (negb (supply_out =? 0)) (StableSwap InsufficientAmountOut));
  amount_out ← lift (get_amount_out amount_in supply_in supply_out);
  new_supply_in ← lift (ok_or (checked_add supply_in amount_in) (Arithmetic Overflow));
  new_supply_out ← lift (ok_or (checked_sub supply_out amount_out) (Arithmetic Underflow));
  let pool := if is_inverted then set_amounts new_supply_out new_supply_in pool
              else set_amounts new_supply_in new_supply_out pool in
  pool ← lift (do_update_oracle (block_number s) pool);
  _ ← on_assets (transfer asset_in who (account_id T) amount_in true);
  _ ← on_assets (transfer asset_out (account_id T) who amount_out false);
  _ ← deposit_event (Traded who asset_in asset_out amount_in amount_out (lp_token_id pool)
                       (quote_amount pool) (base_amount pool));
  _ ← modify (insert_pool (base_asset, quote_asset) pool);
  mret amount_out.

Definition do_get_delta (asset_in asset_out : CurrencyId) : Run Balance :=
  s ← get;
  '(tot_base_amount, tot_quote_amount) ← lift (unwrap (get_reserves s asset_in asset_out));
  d ← lift (unwrap (delta_util tot_base_amount tot_quote_amount));
  _ ← deposit_event (DeltaCalculated asset_in asset_out d);
  mret d.

Definition get_exchange_value (s : St) (pair : CurrencyId * CurrencyId) (amount : Balance)
    : Res Balance :=
  '(_, base_asset, quote_asset) ← sort_assets pair;
  pool ← ok_or (Pools s !! (base_asset, quote_asset)) (StableSwap PoolDoesNotExist);
  let amp := AmplificationCoefficient T in
  let pool_base_aum := base_amount pool in
  let pool_quote_aum := quote_amount pool in
  d ← delta_util pool_base_aum pool_quote_aum;
  new_quote_amount ← ok_or (checked_add pool_quote_aum amount) (Arithmetic Underflow);
  new_base_amount ← get_base new_quote_amount amp d;
  ok_or (checked_sub pool_base_aum new_base_amount) (Arithmetic Underflow).

(** [u128.checked_div(x).ok_or(ConversionToU128Failed)?.to_u128().ok_or(Underflow)?] *)
Definition convert_div (a b : Z) : Res Z := convert (checked_div a b) Underflow.

Fixpoint alternative_var_loop (rounds : nat) (b c d y : Z) : Res Z :=
  match rounds with
  | O => Ok y
  | S rounds' =>
      num ← convert (r ← big_checked_mul (get_big_uint y) (get_big_uint y);
                     big_checked_add r (get_big_uint c)) Underflow;
      den ← convert (r ← big_checked_mul (get_big_uint y) (get_big_uint 2);
                     r ← big_checked_add r (get_big_uint b);
                     big_checked_sub r (get_big_uint d)) Underflow;
      y' ← convert_div num den;
      if y' =? y then Ok y' else alternative_var_loop rounds' b c d y'
  end.

Definition do_get_alternative_var (s : St) (autonomous_var : Balance)
    (asset_in asset_out : CurrencyId) : Res Balance :=
  '(resx, _) ← unwrap (get_reserves s asset_in asset_out);
  autonomous_var ← convert (big_checked_add (get_big_uint autonomous_var) (get_big_uint resx)) Overflow;
  '(tot_base_amount, tot_quote_amount) ← unwrap (get_reserves s asset_in asset_out);
  d ← unwrap (delta_util tot_base_amount tot_quote_amount);
  a ← convert (big_checked_mul (get_big_uint (AmplificationCoefficient T)) (get_big_uint (Precision T))) Underflow;
  n_a ← convert (big_checked_mul (get_big_uint (NumTokens T)) (get_big_uint a)) Underflow;
  sum ← convert (big_checked_add (get_big_uint 0) (get_big_uint autonomous_var)) Underflow;
  num ← convert (big_checked_mul (get_big_uint d) (get_big_uint d)) Underflow;
  den ← convert (big_checked_mul (get_big_uint autonomous_var) (get_big_uint (NumTokens T))) Underflow;
  c ← convert_div num den;
  num ← convert (r ← big_checked_mul (get_big_uint c) (get_big_uint d);
                 big_checked_mul r (get_big_uint (Precision T))) Underflow;
  den ← convert (big_checked_mul (get_big_uint n_a) (get_big_uint (NumTokens T))) Underflow;
  c ← convert_div num den;
  q ← ok_or (r ← big_checked_mul (get_big_uint d) (get_big_uint (Precision T));
             big_checked_div r (get_big_uint n_a)) (StableSwap ConversionToU128Failed);
  b ← convert (big_checked_add (get_big_uint sum) q) Underflow;
  alternative_var_loop 255 b c d d.

(** ** Extrinsics *)

Definition add_liquidity (origin : RuntimeOrigin) (pair : CurrencyId * CurrencyId)
    (desired_amounts minimum_amounts : Balance * Balance) : Run unit :=
  who ← lift (ensure_signed origin);
  '(is_inverted, base_asset, quote_asset) ← lift (sort_assets pair);
  let '(b_amount, q_amount) :=
    if is_inverted : bool then (desired_amounts.2, desired_amounts.1) else desired_amounts in
  let '(minimum_base_amount, minimum_quote_amount) :=
    if is_inverted then (minimum_amounts.2, minimum_amounts.1) else minimum_amounts in
  s ← get;
  pool ← lift (ok_or (Pools s !! (base_asset, quote_asset)) (StableSwap PoolDoesNotExist));
  '(ideal_base_amount, ideal_quote_amount) ← lift (get_ideal_amounts pool (b_amount, q_amount));
  _ ← lift (ensure ((ideal_base_amount <=? b_amount) && (ideal_quote_amount <=? q_amount))
              (StableSwap InsufficientAmountIn));
  _ ← lift (ensure ((ideal_base_amount >=? minimum_base_amount) &&
                    (ideal_quote_amount >=? minimum_quote_amount)) (StableSwap NotAnIdealPrice));
  '(_, pool) ← do_mint_protocol_fee pool;
  pool ← do_add_liquidity who pool (ideal_base_amount, ideal_quote_amount)
           (base_asset, quote_asset);
  _ ← deposit_event (LiquidityAdded who base_asset quote_asset ideal_base_amount
        ideal_quote_amount (lp_token_id pool) (base_amount pool) (quote_amount pool));
  modify (insert_pool (base_asset, quote_asset) pool).

Definition remove_liquidity (origin : RuntimeOrigin) (pair : CurrencyId * CurrencyId)
    (liquidity : Balance) : Run unit :=
  who ← lift (ensure_signed origin);
  '(_, base_asset, quote_asset) ← lift (sort_assets pair);
  s ← get;
  pool ← lift (ok_or (Pools s !! (base_asset, quote_asset)) (StableSwap PoolDoesNotExist));
  '(_, pool) ← do_mint_protocol_fee pool;
  '(base_amount_removed, quote_amount_removed, pool) ←
    do_remove_liquidity who pool liquidity (base_asset, quote_asset);
  _ ← deposit_event (LiquidityRemoved who base_asset quote_asset liquidity
        base_amount_removed quote_amount_removed (lp_token_id pool) (base_amount pool)
        (quote_amount pool));
  modify (insert_pool (base_asset, quote_asset) pool).

Definition create_pool (origin : RuntimeOrigin) (pair : CurrencyId * CurrencyId)
    (liquidity_amounts : Balance * Balance) (lptoken_receiver : AccountId)
    (lp_token : CurrencyId) : Run unit :=
  _ ← lift (ensure_origin (CreatePoolOrigin T) origin);
  '(is_inverted, base_asset, quote_asset) ← lift (sort_assets pair);
  s ← get;
  _ ← lift (ensure (bool_decide (Pools s !! (base_asset, quote_asset) = None))
              (StableSwap PoolAlreadyExists));
  let '(b_amount, q_amount) :=
    if is_inverted : bool then (liquidity_amounts.2, liquidity_amounts.1)
    else liquidity_amounts in
  _ ← lift (ensure (total_issuance (assets s) lp_token =? 0) (StableSwap LpTokenAlreadyExists));
  let pool := Pool_new lp_token in
  _ ← deposit_event (PoolCreated lptoken_receiver base_asset quote_asset lp_token);
  pool ← do_add_liquidity lptoken_receiver pool (b_amount, q_amount) (base_asset, quote_asset);
  _ ← modify (insert_pool (base_asset, quote_asset) pool);
  deposit_event (LiquidityAdded lptoken_receiver base_asset quote_asset b_amount q_amount
    (lp_token_id pool) (base_amount pool) (quote_amount pool)).

(** ** The [pallet_traits::StableSwap] interface *)

Definition swap (who : AccountId) (pair : CurrencyId * CurrencyId) (amount_in : Balance)
    : Run unit :=
  _ ← do_swap who pair amount_in; mret tt.
Definition get_pools (iter : gmap (CurrencyId * CurrencyId) Pool ->
    list (CurrencyId * CurrencyId * Pool)) (s : St) : Res (list (CurrencyId * CurrencyId)) :=
  Ok (map fst (iter (Pools s))).

Inductive Call :=
| CallAddLiquidity (pair : CurrencyId * CurrencyId) (desired minimum : Balance * Balance)
| CallRemoveLiquidity (pair : CurrencyId * CurrencyId) (liquidity : Balance)
| CallCreatePool (pair : CurrencyId * CurrencyId) (amounts : Balance * Balance)
    (receiver : AccountId) (lp : CurrencyId)
| CallSwap (pair : CurrencyId * CurrencyId) (amount_in : Balance).

(** [CallSwap] is a swap through the interface, for a signed trader. *)
Definition dispatch (origin : RuntimeOrigin) (c : Call) : Run unit :=
  match c with
  | CallAddLiquidity pr desired minimum => add_liquidity origin pr desired minimum
  | CallRemoveLiquidity pr liquidity => remove_liquidity origin pr liquidity
  | CallCreatePool pr amounts receiver lp => create_pool origin pr amounts receiver lp
  | CallSwap pr amount_in => who ← lift (ensure_signed origin); swap who pr amount_in
  end.
End pallet.

#[global] Arguments sort_assets : simpl never.
#[global] Arguments get_ideal_amounts : simpl never.
#[global] Arguments do_add_liquidity : simpl never.
#[global] Arguments do_remove_liquidity : simpl never.
#[global] Arguments do_mint_protocol_fee : simpl never.
#[global] Arguments do_swap : simpl never.
#[global] Arguments get_amount_out : simpl never.
#[global] Arguments compute_d : simpl never.
#[global] Arguments compute_base : simpl never.
End Stableswap.
