(* ===== verification/StableswapProps.v ===== *)
(** * Properties of the stable exchange

    The pallet stays solvent.  The invariant of a balanced pool is computed exactly up to a size,
    and is zero beyond it; runs of the pallet show what follows from that, from the order in which
    a swap quotes the reserves, and from how liquidity is minted. *)

From S2P Require Import Prelude Arith Frame Ledger Amm AmmProps Stableswap.
From stdpp Require Import strings list.
#[local] Open Scope Z_scope.
Import Stableswap StableSwapErrors.
Import Amm(is_empty, Pool_new, base_amount, quote_amount, base_amount_last, quote_amount_last, lp_token_id,
  set_amounts, set_last, get_big_uint).

(** ** The iteration for the invariant *)

Section iteration.
Context {NB : NumBigint} {NL : NumBigintLaws NB} {SB : SpBigUint} {BL : SpBigUintLaws SB}.

(** Division in which a number beyond [u128] counts as zero *)
Definition small (x : Z) : Z := if x <=? u128_max then x else 0.

Lemma div_eq a b : 0 <= a -> 0 <= b -> div a b = Ok (if small b =? 0 then 0 else small a / small b).
Proof.
  intros Ha Hb. unfold div. rewrite !spb_to_u128_eq by done.
  assert (Hs : forall x, 0 <= x -> default 0 (fit_u128 x) = small x /\ 0 <= small x <= u128_max).
  { intros x Hx. unfold fit_u128, small, u128_max in *. destruct (Z.leb_spec x (2 ^ 128 - 1)); simpl; lia. }
  destruct (Hs a Ha) as [-> Ha']. destruct (Hs b Hb) as [-> Hb'].
  destruct (Z.eqb_spec (small b) 0) as [|Hne]; [done |]. unfold Amm.get_big_uint.
  rewrite big_checked_div_eq, checked_div_ok by lia. simpl.
  assert (0 <= small a / small b <= u128_max).
  { split; [apply Z.div_pos; lia |]. etransitivity; [apply Z.div_le_upper_bound with (q := small a) |]; nia. }
  rewrite big_to_u128_eq by lia. unfold fit_u128. destruct (Z.leb_spec (small a / small b) u128_max); [done | lia].
Qed.

Lemma div_range a b x : div a b = Ok x -> is_u128 x.
Proof.
  unfold div. destruct (_ =? 0); intros H; minv; [unfold is_u128, u128_max; lia |]. by eapply big_to_u128_type.
Qed.

Lemma compute_d_loop_range n ann sum base_n quote_n d : forall d0,
  compute_d_loop n ann sum base_n quote_n d0 = Ok d -> is_u128 d.
Proof.
  induction n as [|n IH]; intros d0 H; simpl in H; [done |].
  apply result_bind_Ok in H as (p1 & _ & H). apply result_bind_Ok in H as (p2 & _ & H).
  apply result_bind_Ok in H as (den & _ & H). apply result_bind_Ok in H as (d' & Hd & H).
  destruct (converged d' d0); [| by apply (IH d')]. apply ok_or_Ok in H. apply div_range in Hd.
  rewrite spb_to_u128_eq in H by apply Hd. by apply fit_u128_Some in H as [-> ?].
Qed.

Lemma compute_d_range x y amp d : compute_d x y amp = Ok d -> is_u128 d.
Proof.
  unfold compute_d. destruct (_ =? 0); intros H; [minv; unfold is_u128, u128_max; lia |].
  by eapply compute_d_loop_range.
Qed.

(** One round from [d], all numbers within [u128] *)
Lemma compute_d_round n ann sum base_n quote_n d :
  0 <= ann -> 0 <= sum -> 0 <= base_n -> 0 <= quote_n -> 0 <= d -> 1 <= ann ->
  let p1 := if small base_n =? 0 then 0 else small (d * d) / small base_n in
  let p2 := if small quote_n =? 0 then 0 else small (p1 * d) / small quote_n in
  let den := ann * d + 3 * p2 - d in
  let d' := if small den =? 0 then 0 else small ((ann * sum + p2 * 2) * d) / small den in
  compute_d_loop (S n) ann sum base_n quote_n d =
    if converged d' d then ok_or (spb_to_u128 d') (Arithmetic Overflow)
    else compute_d_loop n ann sum base_n quote_n d'.
Proof.
  intros Hann Hs Hb Hq Hd H1 p1 p2 den d'.
  assert (Hsm : forall x, 0 <= x -> 0 <= small x) by (intros x Hx; unfold small; case_match; lia).
  assert (Hp1 : 0 <= p1).
  { unfold p1. destruct (Z.eqb_spec (small base_n) 0); [lia |].
    apply Z.div_pos; [apply Hsm; nia |]. specialize (Hsm base_n Hb). lia. }
  assert (Hp2 : 0 <= p2).
  { unfold p2. destruct (Z.eqb_spec (small quote_n) 0); [lia |].
    apply Z.div_pos; [apply Hsm; nia |]. specialize (Hsm quote_n Hq). lia. }
  cbn [compute_d_loop]. rewrite (spb_mul_eq ann d), (spb_mul_eq d d) by lia.
  rewrite (div_eq (d * d)) by nia. simpl. fold p1.
  rewrite (spb_mul_eq p1 d) by lia. rewrite (div_eq (p1 * d)) by nia. simpl. fold p2.
  rewrite (spb_add_eq 2 1) by lia. rewrite (spb_mul_eq (2 + 1) p2), (spb_mul_eq ann sum), (spb_mul_eq p2 2) by lia.
  rewrite (spb_add_eq (ann * d)), (spb_add_eq (ann * sum)) by nia.
  rewrite spb_sub_eq by nia. rewrite checked_sub_ok by nia. simpl.
  rewrite spb_mul_eq by nia. replace (ann * d + (2 + 1) * p2 - d) with den by (unfold den; lia).
  rewrite div_eq by (unfold den; nia). simpl. done.
Qed.

Lemma div_by_twice x : 0 < x -> 2 * x * (2 * x) / (2 * x) = 2 * x.
Proof. intros. apply Z.div_mul. lia. Qed.

(** The term [D^3 / (4 x x)] of a balanced pool, in the code's division *)
Lemma balanced_term x : 0 < x ->
  let q := small (2 * x) in
  let p1 := if q =? 0 then 0 else small (2 * x * (2 * x)) / q in
  let p2 := if q =? 0 then 0 else small (p1 * (2 * x)) / q in
  (p2 = 0 /\ u128_max < 2 * x * (2 * x)) \/ p2 = 2 * x.
Proof.
  intros Hx q p1 p2. destruct (Z.leb_spec (2 * x * (2 * x)) u128_max) as [Hle|Hgt].
  - right. assert (Hq : q = 2 * x) by (unfold q, small; destruct (Z.leb_spec (2 * x) u128_max); nia).
    assert (Hs : small (2 * x * (2 * x)) = 2 * x * (2 * x))
      by (unfold small; destruct (Z.leb_spec (2 * x * (2 * x)) u128_max); lia).
    unfold p2, p1. rewrite Hq. destruct (Z.eqb_spec (2 * x) 0); [lia |].
    by rewrite Hs, div_by_twice, Hs, div_by_twice by lia.
  - left. split; [| done]. unfold p2. destruct (Z.eqb_spec q 0) as [|Hne]; [done |].
    assert (Hp1 : p1 = 0).
    { unfold p1. unfold small at 1.
      destruct (Z.leb_spec (2 * x * (2 * x)) u128_max); [lia | by apply Z.div_0_l]. }
    rewrite Hp1. unfold small at 1. simpl. by apply Z.div_0_l.
Qed.

(** From zero the iteration stays at zero. *)
Lemma compute_d_zero n ann sum base_n quote_n :
  0 <= ann -> 0 <= sum -> 0 <= base_n -> 0 <= quote_n -> 1 <= ann ->
  compute_d_loop (S n) ann sum base_n quote_n 0 = Ok 0.
Proof.
  intros. rewrite compute_d_round by lia. cbv zeta. rewrite !Z.mul_0_r.
  assert (E : forall b : Z, (if small b =? 0 then 0 else small 0 / small b) = 0)
    by (intros b; case_match; [done |]; unfold small at 1; simpl; apply Z.div_0_l; by apply Z.eqb_neq).
  rewrite !E. simpl. rewrite spb_to_u128_eq by lia. done.
Qed.

(** The invariant of a balanced pool.  For reserves [x] on both sides the iteration of
    [compute_d] returns after one round with the exact invariant [2 * x], as long as the
    intermediate product [(4 A 2x + 2 (2x)) 2x] fits 128 bits; for every larger pool it returns
    without an error that the invariant is zero, because [div] takes an operand beyond 128 bits
    for zero. *)
Theorem compute_d_balanced x amp :
  0 < x <= u128_max -> 1 <= amp <= 255 ->
  compute_d x x amp =
    Ok (if (4 * amp * (2 * x) + 2 * (2 * x)) * (2 * x) <=? u128_max then 2 * x else 0).
Proof.
  intros Hx Hamp. unfold compute_d. rewrite spb_add_eq by lia.
  destruct (Z.eqb_spec (x + x) 0); [lia |]. rewrite !spb_mul_eq by (try rewrite !spb_mul_eq by lia; lia).
  change 255%nat with (S 254). rewrite compute_d_round by lia. cbv zeta.
  replace (amp * 2 * 2) with (4 * amp) by lia. replace (x + x) with (2 * x) by lia.
  replace (x * 2) with (2 * x) by lia.
  pose proof (balanced_term x (proj1 Hx)) as Hp2. cbv zeta in Hp2.
  set (p2 := if small (2 * x) =? 0 then 0 else small (_ * (2 * x)) / small (2 * x)) in *.
  destruct (Z.leb_spec ((4 * amp * (2 * x) + 2 * (2 * x)) * (2 * x)) u128_max) as [Hfit|Hbig].
  - destruct Hp2 as [[_ ?]|Hp2]; [nia |]. rewrite Hp2.
    replace (4 * amp * (2 * x) + 3 * (2 * x) - 2 * x) with (4 * amp * (2 * x) + 2 * (2 * x)) by lia.
    replace (2 * x * 2) with (2 * (2 * x)) by lia.
    set (k := 4 * amp * (2 * x) + 2 * (2 * x)) in *. assert (0 < k) by (unfold k; nia).
    assert (Hk : small k = k) by (unfold small; destruct (Z.leb_spec k u128_max); nia).
    assert (Hk2 : small (k * (2 * x)) = k * (2 * x)) by (unfold small; destruct (Z.leb_spec (k * (2 * x)) u128_max); lia).
    rewrite Hk, Hk2. destruct (Z.eqb_spec k 0); [lia |]. rewrite (Z.mul_comm k), Z.div_mul by lia.
    unfold converged. rewrite Z.gtb_ltb, Z.ltb_irrefl, Z.sub_diag. simpl.
    rewrite spb_to_u128_eq by lia. unfold fit_u128. destruct (Z.leb_spec (2 * x) u128_max); [done | nia].
  - match goal with |- context [converged ?d' (2 * x)] => assert (Hd : d' = 0) end.
    { destruct (Z.eqb_spec (small (4 * amp * (2 * x) + 3 * p2 - 2 * x)) 0) as [|Hne]; [done |].
      assert (small ((4 * amp * (2 * x) + p2 * 2) * (2 * x)) = 0) as ->; [| by apply Z.div_0_l].
      unfold small. destruct (Z.leb_spec ((4 * amp * (2 * x) + p2 * 2) * (2 * x)) u128_max) as [Hle|_]; [| done].
      destruct Hp2 as [[Hp2 Hp2']|Hp2]; rewrite Hp2 in *; nia. }
    rewrite Hd. unfold converged. rewrite Z.gtb_ltb. destruct (Z.ltb_spec (2 * x) 0); [lia |].
    destruct (Z.leb_spec (2 * x - 0) 1); [lia |]. apply (compute_d_zero 253); lia.
Qed.
End iteration.

(** ** Solvency *)

(** The reserves are covered in every asset without dust.  The pallet pays with [keep_alive] off, so
    a payment in the native currency may close its account and lose a rest below the existential
    deposit. *)
Definition stable_inv {L : Type} {FU : Fungibles L} (T : Config) (s : State L) : Prop :=
  wf_pools (Pools s) /\
  forall a, minimum_balance a <= 1 -> total_reserves a (Pools s) <= balance (assets s) a (account_id T).

(** The arguments of a call are [u128]s and none of its accounts is the pallet's own: the pallet's
    account does not sign, and governance does not name it as the one that funds a new pool, which
    the code does not check (see [stable_self_funded]). *)
Definition stable_call_ok (T : Config) (origin : RuntimeOrigin) (c : Call) : Prop :=
  origin <> Signed (account_id T) /\
  match c with
  | CallAddLiquidity _ desired _ => is_u128 desired.1 /\ is_u128 desired.2
  | CallRemoveLiquidity _ liquidity => is_u128 liquidity
  | CallCreatePool _ amounts receiver _ =>
      is_u128 amounts.1 /\ is_u128 amounts.2 /\ receiver <> account_id T
  | CallSwap _ amount_in => is_u128 amount_in
  end.

(** Successful calls, and blocks in which nobody else takes money out of the pallet's account *)
Inductive stable_step {SA : SpArithmetic} {NB : NumBigint} {SB : SpBigUint} {L : Type} {FU : Fungibles L}
    (T : Config) : State L -> State L -> Prop :=
| stable_call s origin c s' :
    stable_call_ok T origin c -> dispatch T origin c s = Ok (tt, s') -> stable_step T s s'
| stable_env s l n :
    (forall a, balance (assets s) a (account_id T) <= balance l a (account_id T)) ->
    stable_step T s (mkState (Pools s) l n (events s)).

Section solvency.
Context {SA : SpArithmetic} {NB : NumBigint} {SB : SpBigUint} {SL : SpArithmeticLaws SA}
  {NL : NumBigintLaws NB} {BL : SpBigUintLaws SB}.
Context {L : Type} {FU : Fungibles L} {FL : FungiblesLaws L}.
Context (T : Config) (Hml : is_u128 (MinimumLiquidity T)).
Implicit Types s : State L.

Lemma stable_assets_Ok f s u s' :
  on_assets f s = Ok (u, s') -> exists l, f (assets s) = Ok l /\ s' = set_assets l s.
Proof. unfold on_assets. destruct (f (assets s)); naive_solver. Qed.

Lemma stable_sort_Ok a b inv x y :
  sort_assets (a, b) = Ok (inv, x, y) ->
  y < x /\ ((inv = false /\ x = a /\ y = b) \/ (inv = true /\ x = b /\ y = a)).
Proof.
  unfold sort_assets. rewrite Z.gtb_ltb.
  destruct (Z.ltb_spec b a), (Z.ltb_spec a b); intros H'; minv; auto with lia.
Qed.

Lemma stable_pays a who amt k l l' :
  transfer a (account_id T) who amt k l = Ok l' -> who <> account_id T ->
  forall b, minimum_balance b <= 1 ->
    balance l' b (account_id T) = balance l b (account_id T) - (if decide (b = a) then amt else 0).
Proof.
  intros Ht Hne b Hb. case_decide as E.
  - subst b. rewrite (pay_out _ _ _ _ _ _ _ Ht Hne (or_intror Hb) a). by rewrite decide_True.
  - rewrite (transfer_frame _ _ _ _ _ _ _ b (account_id T) Ht) by auto. lia.
Qed.

Lemma stable_inv_update k p' s s' :
  stable_inv T s -> wf_pool k p' -> Pools s' = <[k := p']> (Pools s) ->
  (forall a, minimum_balance a <= 1 -> balance (assets s) a (account_id T) + reserve_of a k p'
             - from_option (reserve_of a k) 0 (Pools s !! k)
             <= balance (assets s') a (account_id T)) ->
  stable_inv T s'.
Proof.
  intros [Hwf Hsol] Hp HP Hbal. split.
  - rewrite HP. by apply map_Forall_insert_2.
  - intros a Ha. rewrite HP, total_reserves_insert. specialize (Hsol a Ha). specialize (Hbal a Ha). lia.
Qed.

Lemma stable_inv_grow s s' :
  stable_inv T s -> Pools s' = Pools s ->
  (forall a, balance (assets s) a (account_id T) <= balance (assets s') a (account_id T)) ->
  stable_inv T s'.
Proof.
  intros [Hwf Hsol] HP Hbal. split; [by rewrite HP |].
  intros a Ha. rewrite HP. specialize (Hsol a Ha). specialize (Hbal a). lia.
Qed.

Lemma stable_oracle_amounts now p p' :
  do_update_oracle now p = Ok p' ->
  base_amount p' = base_amount p /\ quote_amount p' = quote_amount p /\
  lp_token_id p' = lp_token_id p /\
  base_amount_last p' = base_amount_last p /\ quote_amount_last p' = quote_amount_last p.
Proof. unfold do_update_oracle. destruct (_ =? _); intros H; minv; done. Qed.

(** A swap: what is quoted is what is paid, and the reserves follow. *)
Lemma stable_swap_Ok who asset_in asset_out amount_in s s' out :
  do_swap T who (asset_in, asset_out) amount_in s = Ok (out, s') ->
  exists inv x y p p' l1 l2,
    sort_assets (asset_in, asset_out) = Ok (inv, x, y) /\ Pools s !! (x, y) = Some p /\
    get_amount_out T amount_in (sides inv p).1 (sides inv p).2 = Ok out /\
    (sides inv p).1 + amount_in <= u128_max /\ out <= (sides inv p).2 /\
    do_update_oracle (block_number s)
      (set_sides inv ((sides inv p).1 + amount_in) ((sides inv p).2 - out) p) = Ok p' /\
    transfer asset_in who (account_id T) amount_in true (assets s) = Ok l1 /\
    transfer asset_out (account_id T) who out false l1 = Ok l2 /\
    s' = insert_pool (x, y) p' (push_event
           (Traded who asset_in asset_out amount_in out (lp_token_id p')
              (quote_amount p') (base_amount p')) (set_assets l2 s)).
Proof.
  unfold do_swap. intros H. minv. rename z into y, z0 into x, b into inv.
  destruct inv; minv; zbool;
    repeat match goal with H : on_assets _ _ = Ok _ |- _ => apply stable_assets_Ok in H as (? & ? & ->) end;
    unfold deposit_event in *; minv;
    do 7 eexists; repeat (split; [eassumption |]); repeat split; try eassumption; try done.
Qed.

Lemma get_amount_out_nonneg x r_in r_out out : get_amount_out T x r_in r_out = Ok out -> 0 <= out.
Proof. unfold get_amount_out. intros H. minv. lia. Qed.

Lemma stable_swap_inv who pr amount_in s s' out :
  stable_inv T s -> who <> account_id T -> is_u128 amount_in ->
  do_swap T who pr amount_in s = Ok (out, s') -> stable_inv T s'.
Proof.
  destruct pr as [ain aout]. intros Hinv Hwho Ha H. apply stable_swap_Ok in H as
    (inv & x & y & p & p' & l1 & l2 & Hsort & Hp & Hout & Hin & Hle & Hor & Ht1 & Ht2 & ->).
  apply get_amount_out_nonneg in Hout. apply stable_oracle_amounts in Hor as (Eb & Eq & _ & Ebl & Eql).
  assert (Hwf : wf_pool (x, y) p) by exact (map_Forall_lookup_1 _ _ _ _ (proj1 Hinv) Hp).
  destruct Hwf as (Hxy & Hpb & Hpq & Hpbl & Hpql). simpl in Hxy.
  assert (Es : base_amount p' = (if inv then base_amount p - out else base_amount p + amount_in) /\
               quote_amount p' = (if inv then quote_amount p + amount_in else quote_amount p - out))
    by (rewrite Eb, Eq; by destruct inv).
  destruct Es as [Es1 Es2]. apply (stable_inv_update (x, y) p' s); [done | | done |].
  - split; [done |]. rewrite Es1, Es2, Ebl, Eql. unfold is_u128 in *. destruct inv; simpl in *; lia.
  - intros a Hmin. rewrite Hp. simpl. pose proof (pay_in _ _ _ _ _ _ _ Ht1 Hwho a).
    pose proof (stable_pays _ _ _ _ _ _ Ht2 Hwho a Hmin). unfold reserve_of; simpl. rewrite Es1, Es2.
    apply stable_sort_Ok in Hsort as [_ Hdir].
    destruct Hdir as [(-> & -> & ->) | (-> & -> & ->)]; repeat case_decide; subst; lia.
Qed.

Lemma stable_share_Ok x supply reserve r :
  is_u128 x -> is_u128 supply -> is_u128 reserve -> share_of x supply reserve = Ok r ->
  0 <= r /\ r * reserve <= x * supply.
Proof.
  intros Hx Hs Hr H. apply share_of_le; [done | done | done |]. unfold share_of, convert in H. unfold Amm.share_of.
  match goal with |- context [ok_or ?o (Amm _)] => destruct o as [q|] end; [| done].
  simpl in *. by destruct (big_to_u128 q).
Qed.

(** The liquidity for a deposit is not negative; minting the locked part only adds to the ledger. *)
Lemma do_get_liquidity_Ok supply p b q s l s' :
  is_u128 supply -> is_u128 (base_amount p) -> is_u128 (quote_amount p) -> is_u128 b -> is_u128 q ->
  do_get_liquidity T supply p (b, q) s = Ok (l, s') ->
  0 <= l /\ (exists a, s' = set_assets a s) /\
  forall a, balance (assets s) a (account_id T) <= balance (assets s') a (account_id T).
Proof.
  intros Hs Hpb Hpq Hb Hq H. unfold do_get_liquidity in H. destruct (supply =? 0).
  - apply M_bind_Ok in H as ([] & s1 & (l1 & Hm & ->)%stable_assets_Ok & [Hc ->]%lift_Ok).
    unfold convert in Hc. minv. split; [by eapply big_to_u128_type |]. split; [by eexists |].
    intros a. apply (mint_into_grows _ _ _ _ _ Hm). apply Hml.
  - apply M_bind_Ok in H as (l0 & s1 & [H0 ->]%lift_Ok & H).
    apply M_bind_Ok in H as (l1 & s1 & [H1 ->]%lift_Ok & H). injection H as <- <-.
    apply stable_share_Ok in H0 as [? _], H1 as [? _]; [| done..]. split; [lia |]. split; [| done].
    exists (assets s). by destruct s.
Qed.

Lemma scale_liquidity_nonneg l d0 d1 r : 0 <= l -> is_u128 d0 -> scale_liquidity l d0 d1 = Ok r -> 0 <= r.
Proof.
  intros Hl Hd H. unfold scale_liquidity in H. minv. unfold is_u128 in *.
  assert (0 <= l * (d1 - d0) / d0) by (apply Z.div_pos; nia). lia.
Qed.

Lemma unwrap_Ok {A} (r : Res A) a : unwrap r = Ok a -> r = Ok a.
Proof. by destruct r. Qed.

Lemma stable_add_Ok who p b q x y s s' p' :
  wf_pool (x, y) p -> is_u128 b -> is_u128 q ->
  do_add_liquidity T who p (b, q) (x, y) s = Ok (p', s') ->
  exists l l1 l2 l3 l4, 0 <= l /\
    (forall a, balance (assets s) a (account_id T) <= balance l1 a (account_id T)) /\
    mint_into (lp_token_id p) who l l1 = Ok l2 /\
    transfer x who (account_id T) b true l2 = Ok l3 /\
    transfer y who (account_id T) q true l3 = Ok l4 /\
    s' = set_assets l4 s /\ base_amount p' = base_amount p + b /\ quote_amount p' = quote_amount p + q /\
    wf_pool (x, y) p'.
Proof.
  intros (Hxy & Hpb & Hpq & Hpbl & Hpql) Hb Hq H. unfold do_add_liquidity in H.
  apply M_bind_Ok in H as (s0 & s00 & [= <- <-] & H). cbv zeta in H.
  set (contains_key := bool_decide _) in H. apply M_bind_Ok in H as (d0 & s1 & [Hd0 ->]%lift_Ok & H).
  assert (Rd0 : is_u128 d0).
  { destruct contains_key; [| injection Hd0 as <-; unfold is_u128, u128_max; lia].
    apply result_bind_Ok in Hd0 as ([tb tq] & _ & Hd0%unwrap_Ok). exact (compute_d_range _ _ _ _ Hd0). }
  apply M_bind_Ok in H as (l0 & s1 & Hl & H). unfold unwrap_run in Hl.
  destruct (do_get_liquidity T _ p (b, q) s) as [[l0' s1']| |] eqn:Hg; [| done | done]. injection Hl as -> ->.
  apply do_get_liquidity_Ok in Hg as (Hl0 & [a0 ->] & Hgrow); [| apply total_issuance_range | done..].
  apply M_bind_Ok in H as (nb & s1 & [Hnb ->]%lift_Ok & H). apply M_bind_Ok in H as (nq & s1 & [Hnq ->]%lift_Ok & H).
  apply M_bind_Ok in H as (d1 & s1 & [Hd1 ->]%lift_Ok & H). apply M_bind_Ok in H as (l & s1 & [Hl ->]%lift_Ok & H).
  assert (Rd1 : is_u128 d1).
  { destruct contains_key; [| injection Hd1 as <-; unfold is_u128, u128_max; lia].
    apply result_bind_Ok in Hd1 as (d1' & Hd1'%unwrap_Ok & Hd1). apply unwrap_Ok, compute_d_range in Hd1'. by minv. }
  assert (Hl1 : 0 <= l).
  { destruct (_ >? 0); [exact (scale_liquidity_nonneg _ _ _ _ Hl0 Rd0 Hl) |]. minv. unfold is_u128 in *. lia. }
  apply M_bind_Ok in H as ([] & s1 & (l2 & Hm & ->)%stable_assets_Ok & H).
  apply M_bind_Ok in H as ([] & s1 & (l3 & Ht1 & ->)%stable_assets_Ok & H).
  apply M_bind_Ok in H as ([] & s1 & (l4 & Ht2 & ->)%stable_assets_Ok & H). minv.
  exists l, a0, l2, l3, l4. split; [exact Hl1 |]. split; [exact Hgrow |]. split; [exact Hm |].
  split; [exact Ht1 |]. split; [exact Ht2 |]. split; [reflexivity |].
  unfold wf_pool, is_u128 in *. simpl in *. destruct (protocol_fee_on T); simpl; lia.
Qed.

Lemma stable_add_inv k who p b q s s1 s' p' :
  stable_inv T s -> who <> account_id T -> is_u128 b -> is_u128 q -> wf_pool k p ->
  (forall a, reserve_of a k p = from_option (reserve_of a k) 0 (Pools s !! k)) ->
  do_add_liquidity T who p (b, q) k s = Ok (p', s1) ->
  Pools s' = <[k := p']> (Pools s) -> assets s' = assets s1 -> stable_inv T s'.
Proof.
  destruct k as [x y]. intros Hinv Hwho Hb Hq Hwf Hold H HP HA. pose proof Hwf as (Hxy & _). simpl in Hxy.
  apply stable_add_Ok in H as (l & l1 & l2 & l3 & l4 & Hl & Hgrow & Hm & Ht1 & Ht2 & -> & Eb & Eq & Hwf'); [| done..].
  apply (stable_inv_update (x, y) p' s); [done | done | done |].
  intros a _. rewrite <- Hold, HA. simpl. specialize (Hgrow a).
  pose proof (mint_into_grows _ _ _ _ _ Hm Hl a (account_id T)).
  pose proof (pay_in _ _ _ _ _ _ _ Ht1 Hwho a). pose proof (pay_in _ _ _ _ _ _ _ Ht2 Hwho a).
  unfold reserve_of; simpl in *. rewrite Eb, Eq. repeat case_decide; subst; lia.
Qed.

Lemma stable_remove_inv k who p liquidity s s1 s' b q p' :
  stable_inv T s -> who <> account_id T -> is_u128 liquidity -> wf_pool k p ->
  (forall a, reserve_of a k p = from_option (reserve_of a k) 0 (Pools s !! k)) ->
  do_remove_liquidity T who p liquidity k s = Ok (b, q, p', s1) ->
  Pools s' = <[k := p']> (Pools s) -> assets s' = assets s1 -> stable_inv T s'.
Proof.
  destruct k as [x y]. intros Hinv Hwho Hl Hwf Hold H HP HA. pose proof Hwf as (Hxy & Hpb & Hpq & Hpbl & Hpql). simpl in Hxy.
  pose proof (total_issuance_range (assets s) (lp_token_id p)) as Hti.
  unfold do_remove_liquidity, calculate_reserves_to_remove in H. minv.
  repeat match goal with H : on_assets _ _ = Ok _ |- _ => apply stable_assets_Ok in H as (? & ? & ->) end. simpl in *.
  repeat match goal with H : share_of _ _ _ = Ok _ |- _ => apply stable_share_Ok in H as [? _]; [| done..] end.
  match goal with Hb : burn_from _ _ _ _ = Ok _, Ht1 : transfer x _ _ _ _ _ = Ok _, Ht2 : transfer y _ _ _ _ _ = Ok _ |- _ =>
    pose proof (burn_from_other _ _ _ _ _ Hb) as Bb; pose proof (stable_pays _ _ _ _ _ _ Ht1 Hwho) as B1;
    pose proof (stable_pays _ _ _ _ _ _ Ht2 Hwho) as B2 end.
  eapply (stable_inv_update (x, y) _ s); [done | | exact HP |].
  - unfold wf_pool, is_u128 in *. destruct (protocol_fee_on T); simpl; lia.
  - intros a Hmin. rewrite <- Hold, HA. rewrite B2, B1, Bb by (done || congruence).
    unfold reserve_of; destruct (protocol_fee_on T); simpl; repeat case_decide; subst; lia.
Qed.

Lemma stable_fee_inv k p s s' fees p' :
  stable_inv T s -> wf_pool k p -> do_mint_protocol_fee T p s = Ok (fees, p', s') ->
  stable_inv T s' /\ Pools s' = Pools s /\ wf_pool k p' /\ (forall a, reserve_of a k p' = reserve_of a k p).
Proof.
  intros Hinv Hwf H. unfold do_mint_protocol_fee in H.
  apply M_bind_Ok in H as (kl & s1 & [_ ->]%lift_Ok & H). destruct (protocol_fee_on T); simpl in H; cycle 1.
  { minv. split; [done |]. split; [done |]. split; [| by intros a; case_match].
    destruct Hwf as (? & ? & ? & ? & ?). assert (0 <= u128_max) by done. unfold wf_pool, is_u128 in *.
    destruct (negb _); simpl in *; lia. }
  apply M_bind_Ok in H as (rkl & s1 & [_ ->]%lift_Ok & H). apply M_bind_Ok in H as (rk & s1 & [_ ->]%lift_Ok & H).
  destruct (rk <=? rkl); minv; [done |].
  match goal with H : on_assets _ _ = Ok _ |- _ => apply stable_assets_Ok in H as (l & Hm & ->) end.
  split; [| done]. apply (stable_inv_grow s); [done | done |]. intros a.
  apply (mint_into_grows _ _ _ _ _ Hm). match goal with H : big_to_u128 _ = Some _ |- _ => by apply big_to_u128_type in H as [? _] end.
Qed.

Lemma stable_ideal_range p b q ib iq :
  is_u128 b -> is_u128 q -> is_u128 (base_amount p) -> is_u128 (quote_amount p) ->
  get_ideal_amounts p (b, q) = Ok (ib, iq) -> 0 <= ib /\ 0 <= iq.
Proof.
  assert (Hquote : forall x y z r, is_u128 x -> is_u128 y -> is_u128 z -> quote x y z = Ok r -> 0 <= r).
  { unfold is_u128, quote. intros x y z r Hx Hy Hz H. minv. apply Z.div_pos; nia. }
  intros Hb Hq Hpb Hpq. unfold get_ideal_amounts.
  destruct (is_empty p); intros H; minv; [unfold is_u128 in *; lia |].
  case_match; minv; split; first [unfold is_u128 in *; lia | by eapply Hquote; [| | | eassumption]].
Qed.

Lemma stable_lookup s k p : stable_inv T s -> Pools s !! k = Some p -> wf_pool k p.
Proof. intros [Hwf _] Hp. exact (map_Forall_lookup_1 _ _ _ _ Hwf Hp). Qed.

(** The two sides of a pair, in the order of the pool *)
Lemma oriented (inv : bool) (d : Balance * Balance) :
  is_u128 d.1 -> is_u128 d.2 ->
  exists b q, (if inv then (d.2, d.1) else d) = (b, q) /\ is_u128 b /\ is_u128 q.
Proof. intros H1 H2. destruct inv, d as [d1 d2]; simpl in *; eauto. Qed.

Lemma stable_add_liquidity_inv origin pr desired minimum s s' :
  stable_inv T s -> stable_call_ok T origin (CallAddLiquidity pr desired minimum) ->
  add_liquidity T origin pr desired minimum s = Ok (tt, s') -> stable_inv T s'.
Proof.
  intros Hinv [Horig [Hd1 Hd2]] H. unfold add_liquidity in H.
  apply M_bind_Ok in H as (who & s1 & [Hs ->]%lift_Ok & H).
  assert (Hwho : who <> account_id T) by (destruct origin; simpl in *; minv; congruence).
  apply M_bind_Ok in H as ([[inv x] y] & s1 & [_ ->]%lift_Ok & H).
  destruct (oriented inv desired Hd1 Hd2) as (b & q & E & Hb & Hq). rewrite E in H.
  destruct (if inv then _ else _) as [mb mq] in H.
  apply M_bind_Ok in H as (s0 & s00 & [= <- <-] & H). apply M_bind_Ok in H as (p & s1 & [Hp%ok_or_Ok ->]%lift_Ok & H).
  apply M_bind_Ok in H as ([ib iq] & s1 & [Hi ->]%lift_Ok & H).
  apply M_bind_Ok in H as ([] & s1 & [He ->]%lift_Ok & H). apply M_bind_Ok in H as ([] & s1 & [_ ->]%lift_Ok & H).
  apply M_bind_Ok in H as ([fees p1] & s1 & Hfee & H). apply M_bind_Ok in H as (p2 & s2 & Hadd & H).
  unfold deposit_event in H. apply ensure_Ok, andb_true_iff in He as [He1 He2]. zbool.
  pose proof (stable_lookup _ _ _ Hinv Hp) as Hwf. pose proof Hwf as (_ & Hpb & Hpq & _).
  apply stable_ideal_range in Hi as [? ?]; [| done..].
  apply (stable_fee_inv (x, y)) in Hfee as (Hinv1 & HP1 & Hwf1 & Hr1); [| done | done].
  assert (EP : Pools s2 = Pools s1 /\ s' = insert_pool (x, y) p2 (push_event
    (LiquidityAdded who x y ib iq (lp_token_id p2) (base_amount p2) (quote_amount p2)) s2)).
  { split; [| by minv]. apply stable_add_Ok in Hadd as (? & ? & ? & ? & ? & _ & _ & _ & _ & _ & -> & _); [done | done | |];
      unfold is_u128 in *; lia. }
  destruct EP as [EP ->].
  eapply (stable_add_inv (x, y) who p1 ib iq s1 s2); [done | done | | | done | | exact Hadd | | done];
    [unfold is_u128 in *; lia | unfold is_u128 in *; lia | |].
  - intros a. by rewrite Hr1, HP1, Hp.
  - simpl. by rewrite EP.
Qed.

Lemma stable_remove_liquidity_inv origin pr liquidity s s' :
  stable_inv T s -> stable_call_ok T origin (CallRemoveLiquidity pr liquidity) ->
  remove_liquidity T origin pr liquidity s = Ok (tt, s') -> stable_inv T s'.
Proof.
  intros Hinv [Horig Hl] H. unfold remove_liquidity in H.
  apply M_bind_Ok in H as (who & s1 & [Hs ->]%lift_Ok & H).
  assert (Hwho : who <> account_id T) by (destruct origin; simpl in *; minv; congruence).
  apply M_bind_Ok in H as ([[inv x] y] & s1 & [_ ->]%lift_Ok & H).
  apply M_bind_Ok in H as (s0 & s00 & [= <- <-] & H). apply M_bind_Ok in H as (p & s1 & [Hp%ok_or_Ok ->]%lift_Ok & H).
  apply M_bind_Ok in H as ([fees p1] & s1 & Hfee & H).
  apply M_bind_Ok in H as ([[rb rq] p2] & s2 & Hrem & H). unfold deposit_event in H.
  pose proof (stable_lookup _ _ _ Hinv Hp) as Hwf.
  apply (stable_fee_inv (x, y)) in Hfee as (Hinv1 & HP1 & Hwf1 & Hr1); [| done | done].
  assert (EP : Pools s2 = Pools s1).
  { unfold do_remove_liquidity in Hrem. minv.
    repeat match goal with H : on_assets _ _ = Ok _ |- _ => apply stable_assets_Ok in H as (? & ? & ->) end. done. }
  eapply (stable_remove_inv (x, y) who p1 liquidity s1 s2 s' rb rq p2); [done | done | done | done | | exact Hrem | |].
  - intros a. by rewrite Hr1, HP1, Hp.
  - minv. simpl. by rewrite EP.
  - by minv.
Qed.

Lemma stable_create_pool_inv origin pr amounts receiver lp s s' :
  stable_inv T s -> stable_call_ok T origin (CallCreatePool pr amounts receiver lp) ->
  create_pool T origin pr amounts receiver lp s = Ok (tt, s') -> stable_inv T s'.
Proof.
  intros Hinv (_ & Hd1 & Hd2 & Hrec) H. unfold create_pool in H.
  apply M_bind_Ok in H as ([] & s1 & [_ ->]%lift_Ok & H).
  apply M_bind_Ok in H as ([[inv x] y] & s1 & [Hsort ->]%lift_Ok & H).
  apply M_bind_Ok in H as (s0 & s00 & [= <- <-] & H).
  apply M_bind_Ok in H as ([] & s1 & [Hnone%ensure_Ok%bool_decide_eq_true ->]%lift_Ok & H).
  destruct (oriented inv amounts Hd1 Hd2) as (b & q & E & Hb & Hq). rewrite E in H.
  apply M_bind_Ok in H as ([] & s1 & [_ ->]%lift_Ok & H). unfold deposit_event in H.
  apply M_bind_Ok in H as ([] & s1 & [= <-] & H). apply M_bind_Ok in H as (p2 & s2 & Hadd & H).
  assert (Hwf : wf_pool (x, y) (Pool_new lp)).
  { destruct pr as [a1 a2]. apply stable_sort_Ok in Hsort as [Hlt _]. unfold wf_pool, is_u128, u128_max; simpl. lia. }
  assert (EP : Pools s2 = Pools s).
  { apply stable_add_Ok in Hadd as (? & ? & ? & ? & ? & _ & _ & _ & _ & _ & -> & _); done. }
  eapply (stable_add_inv (x, y) receiver (Pool_new lp) b q _ s2 s' p2); [| done | done | done | done | | exact Hadd | |].
  - by apply (stable_inv_grow s).
  - intros a. simpl. rewrite Hnone. unfold reserve_of; simpl. by repeat case_decide.
  - minv. simpl. by rewrite EP.
  - by minv.
Qed.

(** C26: The stable exchange stays solvent.  In every state that calls (creating pools, adding and
    removing liquidity, swaps) reach from an empty pallet, with anything happening in between that
    takes nothing out of its account, the pools lie under sorted pairs with [u128] reserves, and
    the pallet's account holds at least the recorded reserves of every asset whose minimum balance
    is at most one (on the runtimes every asset but the native currency, of which the pallet may lose
    dust): whatever a swap quotes, no more leaves the account than the pool records.  Left out are
    calls signed by the pallet's own account and pools that governance creates with that account as
    the one who funds them: such a pool is recorded without money. *)
Theorem stableswap_solvent s0 s :
  Pools s0 = ∅ -> rtc (stable_step T) s0 s -> stable_inv T s.
Proof.
  intros H0 Hs. assert (Hi : stable_inv T s0).
  { split; [rewrite H0; apply map_Forall_empty |]. intros a _. rewrite H0. unfold total_reserves.
    rewrite map_sum_empty. apply (balance_range (assets s0) a). }
  clear H0. induction Hs as [|s1 s2 s3 Hstep _ IH]; [done |]. apply IH. clear IH.
  destruct Hstep as [s1 origin c s2 Hc H | s1 l n Hl]; [| by apply (stable_inv_grow s1)].
  destruct c as [pr d m|pr l|pr am r lp|pr a]; simpl in H.
  - exact (stable_add_liquidity_inv _ _ _ _ _ _ Hi Hc H).
  - exact (stable_remove_liquidity_inv _ _ _ _ _ Hi Hc H).
  - exact (stable_create_pool_inv _ _ _ _ _ _ _ Hi Hc H).
  - destruct Hc as [Horig Ha]. apply M_bind_Ok in H as (who & s3' & [Hw ->]%lift_Ok & H).
    apply M_bind_Ok in H as (out & s4 & H & [= <-]).
    apply (stable_swap_inv who pr a s1 _ out); [done | | done | exact H]. destruct origin; simpl in *; minv; congruence.
Qed.
End solvency.

(** ** Runs of the pallet

    Accounts 1 and 2 own assets 10 and 20; a fee of 0.25 percent goes to the liquidity, none to the
    protocol; the amplification is that of the runtime. *)

Definition stable_config : Config :=
  mkConfig 1000 1001 2500 1002 0 1000 2 100 85 (fun o => match o with Root => true | _ => false end).
Definition stable_ledger (x : Balance) : ledger :=
  Ledger (<[(10, 1) := x]> (<[(20, 1) := x]> (<[(10, 2) := x]> (<[(20, 2) := x]> ∅))))
    (<[10 := 2 * x]> (<[20 := 2 * x]> ∅)).
Definition stable_empty (x : Balance) : State ledger := mkState ∅ (stable_ledger x) 1 [].
Definition stable_run (o : RuntimeOrigin) (c : Call) (s : State ledger) : State ledger :=
  match dispatch (SA := sp_reference) (NB := big_reference) (SB := spb_reference) (FU := ledger_ops) stable_config o c s with
  | Ok (_, s') => s' | _ => s
  end.
Definition stable_created : State ledger :=
  stable_run Root (CallCreatePool (10, 20) (1000000, 1000000) 1 500) (stable_empty (10 ^ 12)).
Definition stable_swapped : State ledger := stable_run (Signed 2) (CallSwap (10, 20) 10000) stable_created.
(** ten times as much of asset 10 as of asset 20 *)
Definition stable_uneven : State ledger :=
  stable_run Root (CallCreatePool (10, 20) (1000000, 100000) 1 500) (stable_empty (10 ^ 12)).
Definition stable_uneven_swapped : State ledger := stable_run (Signed 2) (CallSwap (10, 20) 10000) stable_uneven.
(** a pool of 10^18 units *)
Definition stable_large : State ledger :=
  stable_run Root (CallCreatePool (10, 20) (10 ^ 18, 10 ^ 18 + 1) 1 500) (stable_empty (10 ^ 19)).
Definition stable_large_swapped : State ledger := stable_run (Signed 2) (CallSwap (10, 20) 1000) stable_large.
(** account 2 doubles the first pool and leaves again *)
Definition stable_doubled : State ledger :=
  stable_run (Signed 2) (CallAddLiquidity (10, 20) (1000000, 1000000) (0, 0)) stable_created.
Definition stable_left : State ledger :=
  stable_run (Signed 2) (CallRemoveLiquidity (10, 20) (ledger_balance (assets stable_doubled) 500 2)) stable_doubled.

(** Account 2 sells the plentiful asset for the scarce one and gets more than it gave, and the
    invariant of the pool falls: the quote takes the reserves the wrong way round. *)
Example scarce_asset_overpaid :
  ledger_balance (assets stable_uneven_swapped) 10 2 = 10 ^ 12 - 10000 /\
  ledger_balance (assets stable_uneven_swapped) 20 2 = 10 ^ 12 + 10753 /\
  compute_d (NB := big_reference) (SB := spb_reference) 1000000 100000 85 = Ok 1093599 /\
  compute_d (NB := big_reference) (SB := spb_reference) 1010000 (100000 - 10753) 85 = Ok 1091840.
Proof. vm_compute. repeat split. Qed.

(** The invariant of a large pool is taken for zero: 1000 units of one asset buy 10^18 of the
    other. *)
Example large_pool_drained :
  ledger_balance (assets stable_large_swapped) 10 2 = 10 ^ 19 - 1000 /\
  ledger_balance (assets stable_large_swapped) 20 2 = 10 ^ 19 + 10 ^ 18.
Proof. vm_compute. repeat split. Qed.

(** Whoever doubles a pool gets twice the liquidity of those before, and leaves with a third more than
    they brought. *)
Example add_remove_profit :
  ledger_balance (assets stable_left) 10 2 = 10 ^ 12 + 333333 /\
  ledger_balance (assets stable_left) 20 2 = 10 ^ 12 + 333333.
Proof. vm_compute. repeat split. Qed.

(** The pallet's own account holds 10^7 units of asset 20 and funds two pools with them. *)
Definition stable_donated : State ledger :=
  mkState ∅ (Ledger (<[(10, 1000) := 10 ^ 7]> (<[(20, 1000) := 10 ^ 7]> {[ (30, 1000) := 10 ^ 7 ]}))
               (<[10 := 10 ^ 7]> (<[20 := 10 ^ 7]> {[ 30 := 10 ^ 7 ]}))) 1 [].
Definition stable_self : State ledger :=
  stable_run Root (CallCreatePool (20, 30) (10 ^ 7, 10 ^ 7) 1000 501)
    (stable_run Root (CallCreatePool (10, 20) (10 ^ 7, 10 ^ 7) 1000 500) stable_donated).
Example stable_self_funded :
  total_reserves 20 (Pools stable_self) = 2 * 10 ^ 7 /\ ledger_balance (assets stable_self) 20 1000 = 10 ^ 7.
Proof. vm_compute. repeat split. Qed.

Section instances.
#[local] Existing Instances sp_reference big_reference spb_reference ledger_ops.
#[local] Existing Instances sp_reference_laws big_reference_laws spb_reference_laws ledger_ops_laws.

Lemma compute_d_balanced_witness :
  compute_d 1000000 1000000 85 = Ok 2000000 /\ compute_d (10 ^ 18) (10 ^ 18) 85 = Ok 0.
Proof.
  split.
  - assert (D := compute_d_balanced 1000000 85 ltac:(by_eval) ltac:(by_eval)).
    rewrite D. vm_compute. reflexivity.
  - assert (D := compute_d_balanced (10 ^ 18) 85 ltac:(by_eval) ltac:(by_eval)).
    rewrite D. vm_compute. reflexivity.
Defined.

Lemma stableswap_solvent_witness :
  total_reserves 10 (Pools stable_swapped) = 1010000 /\ stable_inv stable_config stable_swapped.
Proof.
  split; [vm_compute; reflexivity |].
  apply (stableswap_solvent stable_config ltac:(by_range) (stable_empty (10 ^ 12)) stable_swapped);
    [reflexivity |].
  eapply rtc_l; [| eapply rtc_once].
  - apply (stable_call _ _ Root (CallCreatePool (10, 20) (1000000, 1000000) 1 500)); [split; [discriminate |]; by_range |].
    instantiate (1 := stable_created). vm_compute. reflexivity.
  - apply (stable_call _ _ (Signed 2) (CallSwap (10, 20) 10000)); [split; [discriminate |]; by_range |].
    vm_compute. reflexivity.
Defined.
End instances.
